(* ===== verification/_CoqProject ===== *)
-Q . S2P
Prelude.v
Pmm.v
Memory.v
Heap.v
Vmm.v
Multiboot.v
Boot.v
Task.v
Ring.v
Ipc.v
Keyboard.v
Console.v
LineEditor.v
Command.v
Ramfs.v
Descriptors.v
Pic.v
Irq.v
InterruptEntry.v
SystemStatus.v
Runtime.v
Session.v
SelfTests.v
TaskFlow.v
Kernel.v
MainLoop.v
