(* ===== verification/Prelude.v ===== *)
(** * TinyShell OS: a verification of its kernel components

    TinyShell OS is an i386 teaching kernel of about 5,400 lines of C and a
    little assembly.  GRUB loads it; [kernel_main] reads the multiboot memory
    map, gives the usable pages to the page allocator, turns on paging, sets
    up a heap, message endpoints and a RAM file system, runs a few tasks and
    then serves an interactive shell: the keyboard interrupt queues
    characters, the main loop feeds them to a line editor, a complete line
    goes to the command parser and the command acts on the file system and
    prints to the console.

    This library models the components as executable functions on explicit
    states, one file per component, and proves what each promises to the
    others.  The general shape of a file is: the constants, records and
    functions of the source under their own names; a specification that
    forgets the representation (a map, a list, a page-state machine, a
    terminal); lemmas relating the two; and theorems about every sequence of
    operations, with concrete instances that show their hypotheses can hold.

    ** Files, in the order they build

    - Prelude.v (this file): machine integers with their wrap-around, masks
      and bits, arrays and large zero-initialised static arrays, counting
      loops and their induction principle, C strings, padded buffers, the
      notations of [c_scope], the tactics [bprop], [bcase], [wrap_lia] and the
      hint databases [wrap] and [arrays].
    - Pmm.v: src/kernel/mm/pmm.c, the page bitmaps and the five operations.
      Specification: every page is unknown, free, allocated or reserved.
    - Memory.v: byte-addressed memory with 32-bit little-endian words, used
      by the heap, the multiboot block and the task stacks.
    - Heap.v: src/kernel/mm/heap.c byte for byte: block headers linked through
      memory, first fit, splitting, coalescing, the consistency check.
      Specification: the list of blocks that tiles the arena.
    - Vmm.v: src/kernel/mm/vmm.c and the register and TLB effects of
      src/kernel/arch/x86/paging.c, with the processor's page walk and its
      cached translations.  Specification: a map from pages to frames and
      flags above the identity map.
    - Multiboot.v: src/kernel/boot/multiboot.c, validation of the boot
      loader's block and the walk over its memory map.
    - Boot.v: the memory stage of [kernel_main] (src/kernel/kernel.c) from the
      multiboot calls to the allocator's self-test, composed of the
      operations of Multiboot.v and Pmm.v.
    - Task.v: src/kernel/task/task.c with its critical sections, and the
      context switch of src/boot/context_switch.S on registers and stack
      bytes.
    - Ring.v: the arithmetic of ring buffers with free-running sequence
      numbers, and the class [BoundedFifo] that the two rings below implement
      and whose clients are proved against it.
    - Ipc.v: src/kernel/ipc/ipc.c, endpoints with copied messages.
    - Keyboard.v: src/kernel/arch/x86/keyboard.c, scan code decoding and the
      queue shared between interrupt handler and main loop, as a step
      relation in which an interrupt may occur between any two memory
      accesses of the reader.
    - Console.v: src/kernel/console/console.c and src/kernel/serial.c.
      Specification: a terminal with one linear cursor and a serial line.
    - LineEditor.v: src/kernel/shell/line_editor.c.
    - Command.v: src/kernel/shell/command.c, tokens, recognition, arity.
    - Ramfs.v: src/kernel/fs/ramfs.c.  Specification: a finite map from names
      to contents.
    - Descriptors.v: src/kernel/arch/x86/gdt.c and idt.c with the loads of
      src/boot/gdt_load.S and idt_load.S, and how the processor decodes the
      entries they write.
    - Pic.v: src/kernel/arch/x86/pic.c and the two 8259A chips it programs:
      initialisation words, masks, in-service bits, end of interrupt.
    - Irq.v: pit.c, irq.c, interrupt.c and the page-fault report of paging.c;
      [serve] takes a request from a line through the chips to its handler.
    - InterruptEntry.v: src/boot/isr_stubs.S and irq_stubs.S on the stack of
      the interrupted program.
    - SystemStatus.v: src/kernel/diag/system_status.c, and the kernel state it
      reads while interrupts go on.
    - Runtime.v: src/kernel/shell/runtime.c: start-up and its self-tests,
      character handling, the eleven commands and all messages.
    - Session.v: the specification of the shell (a line being edited, a map of
      files, a terminal) and the proof that the runtime refines it.
    - SelfTests.v: the self-tests of src/kernel/kernel.c (keyboard, paging,
      heap, endpoints), which pass on every machine.
    - TaskFlow.v: the producer, consumer and observer tasks of kernel.c as
      threads run by the scheduler of Task.v, and [run_task_flow].
    - Kernel.v: [kernel_main], all stages and messages in order, composed of
      the operations of the files above.
    - MainLoop.v: the loop that ends [kernel_main], from keyboard interrupts
      to the shell's session.

    ** How C is modelled

    Unsigned integers are [Z] with the wrap-around of their width written out
    ([u8] to [u64]); [size_t] and [uintptr_t] are 32 bits wide on this target.
    Statics are the fields of a record that every operation takes and returns.
    A [for] loop with constant step is [for_range]; a search that leaves its
    loop early is [find_range].  Loops of another shape carry fuel: the heap's
    block walks 8193 steps (more than the arena has room for blocks), the
    parser one round per possible argument and two more, the memory-map walk
    one per possible record and two more, the decimal printer ten digits,
    a scheduler run as many slices as its dispatch budget (256 in the task
    flow), and the wait for the timer as many wake-ups as a hypothesis on the
    timer grants.  Running out of fuel is a result of its own, and the theorems
    show that it does not happen.  A [hlt] watches the interrupt requests for a
    given number of intervals, the [patience] of TaskFlow.v and Kernel.v; a
    processor that sleeps longer is [None], which [task_flow_exact] describes
    and which the timer hypothesis of [kernel_main_outcome] excludes.  A pointer argument that may be null is an [option]; an output
    buffer is passed in with its previous contents and handed back, so that
    "unchanged on failure" can be stated.

    Addresses the linker chooses are parameters: the heap arena
    ([ArenaPlacement]), the page tables ([VmmPlacement]), the task stacks and
    the two code addresses put on them ([StackPlacement]), the bounds of the
    kernel image.  What the theorems need of them is what the alignment
    attributes and the linker script give.  Contents of memory at boot and of
    uninitialised automatic variables are arbitrary (of the sizes of their
    types): they are arguments of the functions whose variables they are.

    Where a specification needs a fact the code also knows, the fact is
    written out a second time and compared: the permission bits of a mapping,
    the form of a multiboot block, the meaning of descriptors, the printable
    characters, the separators, the table of commands and the keyboard layout
    come from the processor's or the interface's documentation.

    Interrupts are enabled only at the end of the boot.  From then on they
    change the counters of the timer and the keyboard queue between any two
    reads of the kernel, so the functions that read those take the state at
    each moment, a read or a [hlt], as an argument, and the theorems assume of
    it what the interrupt model gives: successive states differ by served
    requests.  What the hardware must do for the boot to go on, a timer that
    never stays silent for more than [patience] intervals and does not wrap its
    32-bit counters meanwhile, is a hypothesis ([environment_ok]).

    ** What the theorems show

    - Refinement: for the page allocator, heap, virtual memory, endpoints,
      console, line editor and file system, every sequence of calls returns
      what the specification returns, on every branch, errors included.
    - Memory safety: heap blocks are aligned, disjoint and inside the arena;
      the multiboot parser reads only the buffers it was given; pages handed
      out after boot lie in usable memory and overlap nothing the kernel
      keeps; the console's stores stay in the text buffer; the digit buffer is
      never overrun.
    - Address translation: the page walk and the TLB agree with
      [vmm_translate] and with the mappings made and undone, permissions
      included, and no page table is leaked.
    - Scheduling: the recorded task is the one on the processor, a ready task
      is overtaken at most seven times, a run ends after exactly the
      dispatches its budget allows, a context switch and back restores the
      registers, and a new task starts with the stack its entry expects.
    - Concurrency: no interleaving of the keyboard interrupt with the reader
      loses, duplicates or reorders an accepted character.
    - Text: the parser's result is the token list of the line, printing and
      parsing a command is the identity, number printing is exact, and a typed
      line arrives in the buffer as it was typed.
    - Interrupts: the descriptor tables are what the processor needs, an
      interrupt restores the registers of the program it interrupts and leaves
      its memory alone but for the handlers' own data, every request of an
      open line reaches its handler exactly once and leaves the controllers
      ready, the masks in the chips are those of the driver, and exceptions
      end in the specified report.
    - The shell: every sequence of typed characters does what the session
      specification says, command by command and message by message; no
      buffer of the runtime can overflow; the status snapshot is exact, also
      when interrupts arrive while it is taken.
    - The boot: with a timer that goes on, [kernel_main] reaches the shell or
      halts with one of six reasons, the task flow passes exactly for a timer
      in pace with it and sleeps for one that stops, and the main loop gives the shell exactly the characters the keyboard
      queued.
    - Diagnostics: [kheap_validate] and [ramfs_validate] accept exactly, or
      only, the well-formed states; the boot self-tests pass.

    ** What is not modelled

    src/boot/multiboot.S holds the header the boot loader reads and a jump to
    [kernel_main].  The times the serial transmitter and the port accesses
    take, the real duration of a timer period and the code the compiler
    generates are outside the model; so are null output pointers of static
    functions whose callers pass local variables.  Interrupts nested inside a
    handler do not occur: all gates disable them.  Tests, tools and build
    files are outside the kernel image. *)
From Stdlib Require Export ZArith Lia.
From Stdlib Require Ascii String.
From stdpp Require Export base gmap list list_numbers numbers option.
Export Stdlib.Strings.Ascii.AsciiSyntax Stdlib.Strings.String.StringSyntax.

Open Scope Z_scope.

(** * Machine integers

    C unsigned integers are [Z] values kept in range by an explicit
    wrap-around: [uN z] is the conversion of [z] to [uintN_t].  On the i386
    target [size_t] and [uintptr_t] are 32 bits wide, so they use [u32]. *)

Definition u8 (z : Z) : Z := z mod 256.
Definition u16 (z : Z) : Z := z mod 65536.
Definition u32 (z : Z) : Z := z mod 4294967296.
Definition u64 (z : Z) : Z := z mod 18446744073709551616.

Definition UINT16_MAX : Z := 65535.
Definition UINT32_MAX : Z := 4294967295.
Definition UINT64_MAX : Z := 18446744073709551615.

Definition is_u8 (z : Z) : Prop := 0 <= z < 256.
Definition is_u16 (z : Z) : Prop := 0 <= z < 65536.
Definition is_u32 (z : Z) : Prop := 0 <= z < 4294967296.
Definition is_u64 (z : Z) : Prop := 0 <= z < 18446744073709551616.

(** Bitwise complement at a width: [~x] on a [uintN_t]. *)
Definition not8 (z : Z) : Z := u8 (Z.lnot z).
Definition not32 (z : Z) : Z := u32 (Z.lnot z).
Definition not64 (z : Z) : Z := u64 (Z.lnot z).

(** C comparison and equality tests, as booleans. *)
Declare Scope c_scope.
Delimit Scope c_scope with C.
Notation "x == y" := (Z.eqb x y) (at level 70, no associativity) : c_scope.
Notation "x != y" := (negb (Z.eqb x y)) (at level 70, no associativity) : c_scope.
Notation "x .& y" := (Z.land x y) (at level 40, left associativity) : c_scope.
Notation "x .| y" := (Z.lor x y) (at level 50, left associativity) : c_scope.
Open Scope c_scope.

Lemma u8_range z : is_u8 (u8 z).
Proof. unfold is_u8, u8. apply Z.mod_pos_bound. lia. Qed.

Lemma u16_range z : is_u16 (u16 z).
Proof. unfold is_u16, u16. apply Z.mod_pos_bound. lia. Qed.

Lemma u32_range z : is_u32 (u32 z).
Proof. unfold is_u32, u32. apply Z.mod_pos_bound. lia. Qed.

Lemma u64_range z : is_u64 (u64 z).
Proof. unfold is_u64, u64. apply Z.mod_pos_bound. lia. Qed.

Lemma u8_small z : is_u8 z -> u8 z = z.
Proof. apply Z.mod_small. Qed.

Lemma u32_small z : is_u32 z -> u32 z = z.
Proof. apply Z.mod_small. Qed.

Lemma u64_small z : is_u64 z -> u64 z = z.
Proof. apply Z.mod_small. Qed.

(** The prelude's hint databases: [wrap] resolves range side conditions. *)
Create HintDb wrap.
#[export] Hint Resolve u8_range u16_range u32_range u64_range : wrap.
#[export] Hint Resolve u8_small u32_small u64_small : wrap.

(** [wrap_lia] decides linear goals that mention the wrap-around functions. *)
Ltac unfold_wrap :=
  unfold not8, not32, not64, u8, u16, u32, u64, is_u8, is_u16, is_u32, is_u64,
    UINT16_MAX, UINT32_MAX, UINT64_MAX, Z.lnot in *.
Ltac wrap_lia := unfold_wrap; Z.to_euclidean_division_equations; lia.

(** [bcase] turns the boolean tests of the code into propositions. *)
Ltac bprop :=
  repeat match goal with
  | H : negb _ = true |- _ => apply negb_true_iff in H
  | H : negb _ = false |- _ => apply negb_false_iff in H
  | H : _ && _ = true |- _ => apply andb_prop in H; destruct H
  | H : _ || _ = false |- _ => apply orb_false_elim in H; destruct H
  | H : (_ =? _) = true |- _ => apply Z.eqb_eq in H
  | H : (_ =? _) = false |- _ => apply Z.eqb_neq in H
  | H : (_ <? _) = true |- _ => apply Z.ltb_lt in H
  | H : (_ <? _) = false |- _ => apply Z.ltb_ge in H
  | H : (_ <=? _) = true |- _ => apply Z.leb_le in H
  | H : (_ <=? _) = false |- _ => apply Z.leb_gt in H
  | H : (_ >? _) = true |- _ => rewrite Z.gtb_ltb in H
  | H : (_ >? _) = false |- _ => rewrite Z.gtb_ltb in H
  | H : (_ >=? _) = true |- _ => rewrite Z.geb_leb in H
  | H : (_ >=? _) = false |- _ => rewrite Z.geb_leb in H
  end.

Ltac bcase :=
  repeat match goal with
  | |- context [if ?b then _ else _] =>
      lazymatch b with
      | context [if _ then _ else _] => fail
      | _ => destruct b eqn:?
      end
  end; bprop.

(** * Masks

    [x & (2^n - 1)] is the remainder, [x & ~(2^n - 1)] the multiple below. *)

Lemma land_low_bits x n : 0 <= n -> Z.land x (Z.ones n) = x mod 2 ^ n.
Proof. intros Hn. by apply Z.land_ones. Qed.

Lemma land_clear_low w n x :
  0 <= n <= w -> 0 <= x < 2 ^ w ->
  Z.land x (Z.lnot (Z.ones n) mod 2 ^ w) = 2 ^ n * (x / 2 ^ n).
Proof.
  intros Hn Hx.
  rewrite (Z.mul_comm (2 ^ n)), <-Z.shiftr_div_pow2, <-Z.shiftl_mul_pow2 by lia.
  apply Z.bits_inj'. intros i Hi.
  rewrite Z.land_spec.
  destruct (decide (i < w)).
  - rewrite Z.mod_pow2_bits_low, Z.lnot_spec by lia.
    destruct (decide (i < n)).
    + rewrite Z.ones_spec_low, Z.shiftl_spec_low by lia.
      by rewrite andb_false_r.
    + rewrite Z.ones_spec_high, Z.shiftl_spec, Z.shiftr_spec by lia.
      rewrite andb_true_r. f_equal. lia.
  - rewrite Z.mod_pow2_bits_high by lia.
    rewrite andb_false_r, Z.shiftl_spec, Z.shiftr_spec by lia.
    symmetry. destruct (decide (x = 0)) as [->|]; [apply Z.testbit_0_l|].
    apply Z.bits_above_log2; [lia|].
    apply Z.log2_lt_pow2; [lia|].
    eapply Z.lt_le_trans; [apply Hx|]. apply Z.pow_le_mono_r; lia.
Qed.

Lemma land_4095 x : x .& 4095 = x mod 4096.
Proof. exact (land_low_bits x 12 ltac:(lia)). Qed.

Lemma land_15 x : x .& 15 = x mod 16.
Proof. exact (land_low_bits x 4 ltac:(lia)). Qed.

Lemma land_not64_4095 x : is_u64 x -> x .& not64 4095 = 4096 * (x / 4096).
Proof. intros Hx. exact (land_clear_low 64 12 x ltac:(lia) Hx). Qed.

Lemma land_not32_15 x : is_u32 x -> x .& not32 15 = 16 * (x / 16).
Proof. intros Hx. exact (land_clear_low 32 4 x ltac:(lia) Hx). Qed.

(** A word below [2^w] has no set bit from [w] on. *)
Lemma testbit_high w x i : 0 <= x < 2 ^ w -> w <= i -> Z.testbit x i = false.
Proof.
  intros Hx Hi. destruct (decide (x = 0)) as [->|]; [apply Z.testbit_0_l|].
  destruct (decide (w < 0)).
  { rewrite Z.pow_neg_r in Hx by lia. lia. }
  apply Z.bits_above_log2; [lia|]. apply Z.log2_lt_pow2; [lia|].
  eapply Z.lt_le_trans; [apply Hx|]. apply Z.pow_le_mono_r; lia.
Qed.

Lemma bits_bound w x :
  0 <= w -> 0 <= x -> (forall i, w <= i -> Z.testbit x i = false) -> x < 2 ^ w.
Proof.
  intros Hw Hx Hb. destruct (decide (x = 0)) as [->|]; [lia|].
  apply Z.log2_lt_pow2; [lia|].
  destruct (Z.lt_ge_cases (Z.log2 x) w) as [|Hge]; [done|].
  specialize (Hb (Z.log2 x) Hge). rewrite Z.bit_log2 in Hb by lia. done.
Qed.

(** Single-bit masks: the test, set and clear idioms of a bitmap word. *)
Lemma land_single_bit x i : 0 <= i -> negb (x .& Z.shiftl 1 i == 0) = Z.testbit x i.
Proof.
  intros Hi. destruct (Z.testbit x i) eqn:E.
  - apply negb_true_iff, Z.eqb_neq. intros H0.
    assert (Hb : Z.testbit (x .& Z.shiftl 1 i) i = false) by (rewrite H0; apply Z.testbit_0_l).
    rewrite Z.land_spec, E, Z.shiftl_spec, Z.sub_diag in Hb by lia. done.
  - apply negb_false_iff, Z.eqb_eq. apply Z.bits_inj'. intros j Hj.
    rewrite Z.land_spec, Z.testbit_0_l, Z.shiftl_1_l, Z.pow2_bits_eqb by lia.
    destruct (Z.eqb_spec i j) as [->|]; [by rewrite E|by rewrite andb_false_r].
Qed.

Lemma testbit_set x i j :
  0 <= i -> 0 <= j ->
  Z.testbit (x .| Z.shiftl 1 i) j = Z.testbit x j || (i =? j).
Proof. intros. rewrite Z.lor_spec, Z.shiftl_1_l, Z.pow2_bits_eqb by lia. done. Qed.

Lemma testbit_clear32 x i j :
  0 <= i -> 0 <= j < 32 ->
  Z.testbit (x .& not32 (Z.shiftl 1 i)) j = Z.testbit x j && negb (i =? j).
Proof.
  intros Hi Hj. rewrite Z.land_spec. f_equal.
  unfold not32, u32. change 4294967296 with (2 ^ 32).
  rewrite Z.mod_pow2_bits_low, Z.lnot_spec, Z.shiftl_1_l, Z.pow2_bits_eqb by lia.
  done.
Qed.

Lemma set_bit_u32 x i : is_u32 x -> 0 <= i < 32 -> is_u32 (x .| Z.shiftl 1 i).
Proof.
  intros Hx Hi. unfold is_u32. change 4294967296 with (2 ^ 32).
  assert (0 <= Z.shiftl 1 i) by (apply Z.shiftl_nonneg; lia).
  assert (0 <= x .| Z.shiftl 1 i) by (apply Z.lor_nonneg; split; [apply Hx|lia]).
  split; [done|]. apply bits_bound; [lia|done|].
  intros j Hj. rewrite testbit_set by lia.
  rewrite (testbit_high 32 x j) by (done || lia).
  destruct (Z.eqb_spec i j); [lia|done].
Qed.

Lemma land_u32 x y : is_u32 x -> 0 <= y -> is_u32 (x .& y).
Proof.
  intros Hx Hy. unfold is_u32. change 4294967296 with (2 ^ 32).
  assert (0 <= x .& y) by (apply Z.land_nonneg; left; apply Hx).
  split; [done|]. apply bits_bound; [lia|done|].
  intros j Hj. rewrite Z.land_spec, (testbit_high 32 x j) by (done || lia). done.
Qed.

#[export] Hint Resolve set_bit_u32 land_u32 : wrap.

(** [__builtin_ctz]: the index of the least significant set bit. *)
Fixpoint ctz_pos (p : positive) : Z :=
  match p with
  | xO p' => 1 + ctz_pos p'
  | _ => 0
  end.

Definition builtin_ctz (z : Z) : Z :=
  match z with
  | Zpos p => ctz_pos p
  | _ => 0
  end.

Lemma ctz_pos_spec p :
  0 <= ctz_pos p /\ Z.testbit (Zpos p) (ctz_pos p) = true /\
  forall j, 0 <= j < ctz_pos p -> Z.testbit (Zpos p) j = false.
Proof.
  induction p as [p _|p IH|]; simpl ctz_pos.
  - split; [lia|]. split; [done|]. intros; lia.
  - destruct IH as (H0 & H1 & H2). split; [lia|].
    change (Zpos (xO p)) with (2 * Zpos p).
    replace (1 + ctz_pos p) with (Z.succ (ctz_pos p)) by lia.
    rewrite Z.testbit_even_succ by lia. split; [done|].
    intros j Hj. destruct (decide (j = 0)) as [->|]; [by rewrite Z.testbit_even_0|].
    replace j with (Z.succ (j - 1)) by lia.
    rewrite Z.testbit_even_succ by lia. apply H2. lia.
  - split; [lia|]. split; [done|]. intros; lia.
Qed.

Lemma builtin_ctz_spec x :
  is_u32 x -> x <> 0 ->
  0 <= builtin_ctz x < 32 /\ Z.testbit x (builtin_ctz x) = true /\
  forall j, 0 <= j < builtin_ctz x -> Z.testbit x j = false.
Proof.
  intros Hx Hnz. destruct x as [|p|p]; [done| |destruct Hx; lia].
  destruct (ctz_pos_spec p) as (H0 & H1 & H2). simpl builtin_ctz.
  split; [|by split]. split; [done|].
  destruct (Z.lt_ge_cases (ctz_pos p) 32) as [|Hge]; [done|].
  rewrite (testbit_high 32 (Zpos p)) in H1 by (done || lia). done.
Qed.

(** * Arrays

    A fixed C array is a list indexed by [Z]; a large zero-initialised static
    array is a finite map whose missing entries read as 0.  A read out of
    range gives the default, a write out of range does nothing: the
    components prove their indices in range. *)

#[export] Instance Z_default_zero : Inhabited Z | 0 := populate 0.

Definition aget `{Inhabited A} (a : list A) (i : Z) : A := a !!! Z.to_nat i.
Definition aset {A} (a : list A) (i : Z) (v : A) : list A := <[Z.to_nat i := v]> a.
Definition alen {A} (a : list A) : Z := Z.of_nat (length a).

Notation "a .[ i ]" := (aget a i) (at level 1, left associativity, format "a .[ i ]") : c_scope.
Notation "a .[ i <- v ]" := (aset a i v)
  (at level 1, left associativity, format "a .[ i  <-  v ]") : c_scope.

Abbreviation static_array := (gmap Z Z).
Definition zget (m : static_array) (i : Z) : Z := default 0 (m !! i).
Definition zset (m : static_array) (i v : Z) : static_array := <[i := v]> m.

Lemma aget_aset_eq `{Inhabited A} (a : list A) i v :
  0 <= i < alen a -> a.[i <- v].[i] = v.
Proof. unfold aget, aset, alen. intros. apply list_lookup_total_insert_eq. lia. Qed.

Lemma aget_aset_ne `{Inhabited A} (a : list A) i j v :
  0 <= i -> 0 <= j -> i <> j -> a.[i <- v].[j] = a.[j].
Proof. unfold aget, aset. intros. apply list_lookup_total_insert_ne. lia. Qed.

Lemma alen_aset {A} (a : list A) i v : alen a.[i <- v] = alen a.
Proof. unfold alen, aset. by rewrite length_insert. Qed.

Lemma aget_lookup `{Inhabited A} (a : list A) i :
  0 <= i < alen a -> a !! Z.to_nat i = Some a.[i].
Proof. unfold aget, alen. intros. apply list_lookup_lookup_total_lt. lia. Qed.

Lemma array_eq `{Inhabited A} (a b : list A) :
  alen a = alen b -> (forall i, 0 <= i < alen a -> a.[i] = b.[i]) -> a = b.
Proof.
  unfold alen. intros Hl Hi. apply list_eq_same_length with (length a); [lia|done|].
  intros i x y Hlt Hx Hy.
  pose proof (Hi (Z.of_nat i) ltac:(lia)) as Heq. unfold aget in Heq.
  rewrite Nat2Z.id in Heq.
  rewrite (list_lookup_total_correct _ _ _ Hx), (list_lookup_total_correct _ _ _ Hy) in Heq.
  done.
Qed.

Lemma zget_zset_eq m i v : zget (zset m i v) i = v.
Proof. unfold zget, zset. by rewrite lookup_insert_eq. Qed.

Lemma zget_zset_ne m i j v : i <> j -> zget (zset m i v) j = zget m j.
Proof. intros. unfold zget, zset. by rewrite lookup_insert_ne. Qed.

Lemma zget_zset m i j v : zget (zset m i v) j = if i =? j then v else zget m j.
Proof.
  destruct (Z.eqb_spec i j) as [->|]; [apply zget_zset_eq|by apply zget_zset_ne].
Qed.

Create Rewrite HintDb arrays.
#[export] Hint Rewrite zget_zset_eq : arrays.
#[export] Hint Rewrite @alen_aset : arrays.
#[export] Hint Rewrite @aget_aset_eq using (autorewrite with arrays; lia) : arrays.
#[export] Hint Rewrite @aget_aset_ne using lia : arrays.
#[export] Hint Rewrite zget_zset_ne using lia : arrays.

(** * Counting loops

    [for_range lo hi body s] is [for (i = lo; i < hi; ++i) body], and
    [find_range lo hi p] the first [i] at which such a loop leaves early. *)

Fixpoint for_loop {S} (n : nat) (i : Z) (body : Z -> S -> S) (s : S) : S :=
  match n with
  | O => s
  | Datatypes.S n' => for_loop n' (i + 1) body (body i s)
  end.

Definition for_range {S} (lo hi : Z) (body : Z -> S -> S) (s : S) : S :=
  for_loop (Z.to_nat (hi - lo)) lo body s.

Fixpoint find_loop (n : nat) (i : Z) (p : Z -> bool) : option Z :=
  match n with
  | O => None
  | S n' => if p i then Some i else find_loop n' (i + 1) p
  end.

Definition find_range (lo hi : Z) (p : Z -> bool) : option Z :=
  find_loop (Z.to_nat (hi - lo)) lo p.

(** A loop that returns false at the first index where [p] fails. *)
Definition all_range (lo hi : Z) (p : Z -> bool) : bool :=
  match find_range lo hi (fun i => negb (p i)) with
  | Some _ => false
  | None => true
  end.

Fixpoint count_loop (n : nat) (i : Z) (p : Z -> bool) : Z :=
  match n with
  | O => 0
  | S n' => Z.b2z (p i) + count_loop n' (i + 1) p
  end.

(** The number of [i] in [[lo, hi)] that satisfy [p]. *)
Definition count_range (lo hi : Z) (p : Z -> bool) : Z :=
  count_loop (Z.to_nat (hi - lo)) lo p.

Arguments for_range : simpl never.
Arguments find_range : simpl never.
Arguments count_range : simpl never.

(** Conversion unfolds the loops last: their trip counts can be large. *)
#[global] Strategy 1000 [for_loop find_loop count_loop for_range find_range count_range].

Lemma for_range_ind {S} (P : Z -> S -> Prop) lo hi body s :
  lo <= hi -> P lo s ->
  (forall i t, lo <= i < hi -> P i t -> P (i + 1) (body i t)) ->
  P hi (for_range lo hi body s).
Proof.
  unfold for_range. intros Hle H0 Hstep.
  remember (Z.to_nat (hi - lo)) as n eqn:En.
  revert lo s Hle H0 Hstep En. induction n as [|n IH]; intros lo s Hle H0 Hstep En; simpl.
  - assert (lo = hi) as <- by lia. done.
  - apply IH; [lia| |intros; apply Hstep; [lia|done]|lia]. apply Hstep; [lia|done].
Qed.

Lemma for_range_empty {S} lo hi (body : Z -> S -> S) s :
  hi <= lo -> for_range lo hi body s = s.
Proof. intros. unfold for_range. by replace (Z.to_nat (hi - lo)) with O by lia. Qed.

Lemma for_range_ext {S} lo hi (f g : Z -> S -> S) s :
  (forall i t, lo <= i < hi -> f i t = g i t) -> for_range lo hi f s = for_range lo hi g s.
Proof.
  unfold for_range. remember (Z.to_nat (hi - lo)) as n eqn:En.
  revert lo s En. induction n as [|n IH]; intros lo s En H; simpl; [done|].
  rewrite H by lia. apply IH; [lia|]. intros i t Hi. apply H. lia.
Qed.

Lemma find_range_Some lo hi p k :
  find_range lo hi p = Some k ->
  lo <= k < hi /\ p k = true /\ forall j, lo <= j < k -> p j = false.
Proof.
  unfold find_range. remember (Z.to_nat (hi - lo)) as n eqn:En.
  revert lo En. induction n as [|n IH]; intros lo En; simpl; [done|].
  destruct (p lo) eqn:Ep.
  - intros [= <-]. repeat split; [lia..|done|lia].
  - intros H. apply IH in H as (Hk & Hp & Hj); [|lia].
    split; [lia|]. split; [done|]. intros j Hlj.
    destruct (decide (j = lo)) as [->|]; [done|]. apply Hj. lia.
Qed.

Lemma find_range_None lo hi p :
  find_range lo hi p = None <-> forall j, lo <= j < hi -> p j = false.
Proof.
  unfold find_range. remember (Z.to_nat (hi - lo)) as n eqn:En.
  revert lo En. induction n as [|n IH]; intros lo En; simpl.
  { split; [intros; lia|done]. }
  destruct (p lo) eqn:Ep.
  - split; [done|]. intros H. rewrite H in Ep by lia. done.
  - rewrite IH by lia. split; intros H j Hj.
    + destruct (decide (j = lo)) as [->|]; [done|]. apply H. lia.
    + apply H. lia.
Qed.

Lemma find_range_first lo hi p k :
  lo <= k < hi -> p k = true -> (forall j, lo <= j < k -> p j = false) ->
  find_range lo hi p = Some k.
Proof.
  intros Hk Hp Hj. destruct (find_range lo hi p) as [k'|] eqn:E.
  - apply find_range_Some in E as (Hk' & Hp' & Hj'). f_equal.
    destruct (Z.lt_trichotomy k k') as [Hlt|[->|Hlt]]; [|done|].
    + rewrite Hj' in Hp by lia. done.
    + rewrite Hj in Hp' by lia. done.
  - rewrite find_range_None in E. rewrite E in Hp by lia. done.
Qed.

Lemma find_range_ext lo hi p q :
  (forall i, lo <= i < hi -> p i = q i) -> find_range lo hi p = find_range lo hi q.
Proof.
  intros Heq. destruct (find_range lo hi q) as [k|] eqn:E.
  - apply find_range_Some in E as (Hk & Hq & Hj). apply find_range_first; [done| |].
    + by rewrite Heq.
    + intros j Hlj. rewrite Heq by lia. by apply Hj.
  - rewrite find_range_None in E |- *. intros j Hj. rewrite Heq by done. by apply E.
Qed.

Lemma all_range_true lo hi p :
  all_range lo hi p = true <-> forall i, lo <= i < hi -> p i = true.
Proof.
  unfold all_range. destruct (find_range lo hi _) as [k|] eqn:E.
  - apply find_range_Some in E as (Hk & Hp & _). split; [done|].
    intros H. rewrite H in Hp by done. done.
  - rewrite find_range_None in E. split; [|done]. intros _ i Hi.
    apply negb_false_iff, E, Hi.
Qed.

Lemma count_loop_ext n lo p q :
  (forall i, lo <= i < lo + Z.of_nat n -> p i = q i) -> count_loop n lo p = count_loop n lo q.
Proof.
  revert lo. induction n as [|n IH]; intros lo H; simpl; [done|].
  rewrite (H lo) by lia. f_equal. apply IH. intros i Hi. apply H. lia.
Qed.

Lemma count_range_ext lo hi p q :
  (forall i, lo <= i < hi -> p i = q i) -> count_range lo hi p = count_range lo hi q.
Proof. intros H. apply count_loop_ext. intros i Hi. apply H. lia. Qed.

Lemma count_range_nonneg lo hi p : 0 <= count_range lo hi p <= Z.max 0 (hi - lo).
Proof.
  unfold count_range. remember (Z.to_nat (hi - lo)) as n eqn:En.
  assert (H : 0 <= count_loop n lo p <= Z.of_nat n); [|lia].
  clear. revert lo. induction n as [|n IH]; intros lo; cbn [count_loop]; [lia|].
  specialize (IH (lo + 1)). destruct (p lo); simpl; lia.
Qed.

(** Changing a predicate at one index moves the count by that index's bit. *)
Lemma count_range_update lo hi p q k :
  lo <= k < hi -> (forall i, lo <= i < hi -> i <> k -> p i = q i) ->
  count_range lo hi q = count_range lo hi p - Z.b2z (p k) + Z.b2z (q k).
Proof.
  unfold count_range. intros Hk Heq. remember (Z.to_nat (hi - lo)) as n eqn:En.
  revert lo Hk Heq En. induction n as [|n IH]; intros lo Hk Heq En; [lia|].
  cbn [count_loop]. destruct (decide (k = lo)) as [->|].
  - rewrite (count_loop_ext n (lo + 1) p q); [lia|]. intros i Hi. apply Heq; lia.
  - rewrite (Heq lo) by lia. rewrite (IH (lo + 1)); [lia|lia| |lia].
    intros i Hi Hne. apply Heq; lia.
Qed.

Lemma count_range_pos lo hi p k : lo <= k < hi -> p k = true -> 0 < count_range lo hi p.
Proof.
  intros Hk Hp.
  pose proof (count_range_update lo hi (fun i => if i =? k then false else p i) p k Hk) as H.
  rewrite H; cycle 1.
  { intros i _ Hne. apply Z.eqb_neq in Hne. by rewrite Hne. }
  rewrite Z.eqb_refl, Hp. simpl.
  pose proof (count_range_nonneg lo hi (fun i => if i =? k then false else p i)). lia.
Qed.

Lemma count_range_zero lo hi p :
  count_range lo hi p = 0 -> forall i, lo <= i < hi -> p i = false.
Proof.
  intros H0 i Hi. destruct (p i) eqn:E; [|done].
  pose proof (count_range_pos lo hi p i Hi E). lia.
Qed.

Lemma count_range_none lo hi p :
  (forall i, lo <= i < hi -> p i = false) -> count_range lo hi p = 0.
Proof.
  intros H. rewrite (count_range_ext lo hi p (fun _ => false)) by done.
  unfold count_range. generalize (Z.to_nat (hi - lo)). clear.
  intros n. revert lo. induction n as [|n IH]; intros lo; simpl; [done|apply IH].
Qed.

Lemma count_range_step lo hi p :
  lo < hi -> count_range lo hi p = Z.b2z (p lo) + count_range (lo + 1) hi p.
Proof.
  intros. unfold count_range.
  by replace (Z.to_nat (hi - lo)) with (S (Z.to_nat (hi - (lo + 1)))) by lia.
Qed.

Lemma count_range_lt lo hi p k :
  lo <= k < hi -> p k = false -> count_range lo hi p < hi - lo.
Proof.
  intros Hk Hp.
  pose proof (count_range_update lo hi p (fun i => if i =? k then true else p i) k Hk) as H.
  cbv beta in H. rewrite Z.eqb_refl, Hp in H. simpl in H.
  pose proof (count_range_nonneg lo hi (fun i => if i =? k then true else p i)).
  rewrite H in *; [lia|]. intros i _ Hne. by rewrite (proj2 (Z.eqb_neq i k)).
Qed.

Lemma count_range_full lo hi p :
  lo <= hi -> (forall i, lo <= i < hi -> p i = true) -> count_range lo hi p = hi - lo.
Proof.
  intros Hle H. rewrite (count_range_ext lo hi p (fun _ => true)) by done.
  unfold count_range. assert (Hc : forall n l, count_loop n l (fun _ => true) = Z.of_nat n).
  { induction n as [|n IH]; intros l; cbn [count_loop]; [done|]. rewrite IH. simpl. lia. }
  rewrite Hc. lia.
Qed.

(** * Array loops

    The element-wise loop [for (i = lo; i < hi; ++i) a[i] = f(i)]. *)

Definition fill_range {A} (lo hi : Z) (f : Z -> A) (a : list A) : list A :=
  for_range lo hi (fun i a => a.[i <- f i]) a.

Section FillRange.
Context `{Inhabited A}.
Implicit Types (a : list A) (f : Z -> A).

Lemma fill_range_spec lo hi f a :
  0 <= lo <= hi ->
  alen (fill_range lo hi f a) = alen a /\
  forall j, 0 <= j < alen a ->
    (fill_range lo hi f a).[j] = if (lo <=? j) && (j <? hi) then f j else a.[j].
Proof.
  intros Hle. unfold fill_range.
  apply (for_range_ind (fun i t => alen t = alen a /\
    forall j, 0 <= j < alen a -> t.[j] = if (lo <=? j) && (j <? i) then f j else a.[j]));
    [lia| |].
  - split; [done|]. intros j Hj. by bcase; try lia.
  - intros i t Hi [Hl Ht]. split; [by rewrite alen_aset|]. intros j Hj.
    destruct (decide (i = j)) as [->|Hne].
    + rewrite aget_aset_eq by lia. bcase; try lia; done.
    + rewrite aget_aset_ne, Ht by lia. bcase; try lia; done.
Qed.

Lemma alen_fill_range lo hi f a :
  0 <= lo <= hi -> alen (fill_range lo hi f a) = alen a.
Proof. intros. by apply fill_range_spec. Qed.

Lemma fill_range_all hi f a b :
  alen a = hi -> alen b = hi -> (forall j, 0 <= j < hi -> b.[j] = f j) ->
  fill_range 0 hi f a = b.
Proof.
  intros Ha Hb Hf. assert (0 <= hi) by (rewrite <-Ha; unfold alen; lia).
  destruct (fill_range_spec 0 hi f a) as [Hl Hg]; [lia|].
  apply array_eq; [lia|]. intros j Hj. rewrite Hg, Hf by lia. bcase; try lia; done.
Qed.
End FillRange.

Lemma alen_nonneg {A} (a : list A) : 0 <= alen a.
Proof. unfold alen. lia. Qed.

Lemma alen_replicate {A} n (x : A) : 0 <= n -> alen (replicate (Z.to_nat n) x) = n.
Proof. intros. unfold alen. rewrite length_replicate. lia. Qed.

Lemma aget_replicate `{Inhabited A} n (x : A) i :
  0 <= i < n -> (replicate (Z.to_nat n) x).[i] = x.
Proof. intros. unfold aget. apply lookup_total_replicate_2. lia. Qed.

Lemma aget_fmap `{Inhabited A, Inhabited B} (f : A -> B) a i :
  0 <= i < alen a -> (f <$> a).[i] = f a.[i].
Proof.
  unfold aget, alen. intros. apply list_lookup_total_fmap. lia.
Qed.

Lemma alen_fmap {A B} (f : A -> B) a : alen (f <$> a) = alen a.
Proof. unfold alen. by rewrite length_fmap. Qed.

Lemma fmap_aset {A B} (f : A -> B) a i v : f <$> a.[i <- v] = (f <$> a).[i <- f v].
Proof. unfold aset. apply list_fmap_insert. Qed.

Lemma aset_id `{Inhabited A} (a : list A) i : 0 <= i < alen a -> a.[i <- a.[i]] = a.
Proof. intros. unfold aset. apply list_insert_id. by apply aget_lookup. Qed.

Lemma Forall_aget `{Inhabited A} (P : A -> Prop) a i :
  Forall P a -> 0 <= i < alen a -> P a.[i].
Proof. intros HP Hi. by apply (Forall_lookup_1 _ _ _ _ HP (aget_lookup a i Hi)). Qed.

Lemma Forall_aset {A} (P : A -> Prop) a i v : Forall P a -> P v -> Forall P a.[i <- v].
Proof. intros. by apply Forall_insert. Qed.

#[export] Hint Rewrite @alen_replicate using lia : arrays.
#[export] Hint Rewrite @alen_fmap : arrays.

(** Applying [f] to every element in place. *)
Lemma for_range_map `{Inhabited A} n (f : A -> A) a :
  alen a = n -> for_range 0 n (fun i a => a.[i <- f a.[i]]) a = f <$> a.
Proof.
  intros Hn. pose proof (alen_nonneg a) as Hpos.
  assert (H' : alen (for_range 0 n (fun i a => a.[i <- f a.[i]]) a) = n /\
    forall j, 0 <= j < n -> (for_range 0 n (fun i a => a.[i <- f a.[i]]) a).[j] =
      if j <? n then f a.[j] else a.[j]).
  { apply (for_range_ind (fun i t => alen t = n /\ forall j, 0 <= j < n ->
      t.[j] = if j <? i then f a.[j] else a.[j])); [lia| |].
    - split; [done|]. intros j Hj. by rewrite (proj2 (Z.ltb_ge j 0)) by lia.
    - intros i t Hi [Hl Ht]. split; [by rewrite alen_aset|]. intros j Hj.
      destruct (decide (i = j)) as [<-|Hne].
      + rewrite aget_aset_eq, Ht, (proj2 (Z.ltb_lt i (i + 1))), (proj2 (Z.ltb_ge i i)) by lia. done.
      + rewrite aget_aset_ne, Ht by lia. bcase; try lia; done. }
  destruct H' as [Hl Hg]. apply array_eq; [by rewrite alen_fmap, Hl|].
  intros j Hj. rewrite Hg, aget_fmap, (proj2 (Z.ltb_lt _ _)) by lia. done.
Qed.

(** A loop over the elements of an array in order. *)
Lemma for_range_list `{Inhabited A} {S} (g : A -> S -> S) l s :
  for_range 0 (alen l) (fun i s => g l.[i] s) s = fold_left (fun s x => g x s) l s.
Proof.
  pose proof (alen_nonneg l) as Hn.
  assert (H' : for_range 0 (alen l) (fun i s => g l.[i] s) s = fold_left (fun s x => g x s) (take (Z.to_nat (alen l)) l) s).
  { apply (for_range_ind (fun i t => t = fold_left (fun s x => g x s) (take (Z.to_nat i) l) s)); [done|done|].
    intros i t Hi ->. replace (Z.to_nat (i + 1)) with (Datatypes.S (Z.to_nat i)) by lia.
    rewrite (take_S_r _ _ _ (aget_lookup l i ltac:(lia))), fold_left_app. done. }
  rewrite H', take_ge; [done|]. unfold alen. lia.
Qed.

(** The array [f 0, ..., f (n-1)]. *)
Definition tabulate {A} (n : Z) (f : Z -> A) : list A := f <$> seqZ 0 n.

Lemma alen_tabulate {A} n (f : Z -> A) : 0 <= n -> alen (tabulate n f) = n.
Proof. intros. unfold tabulate, alen. rewrite length_fmap, length_seqZ. lia. Qed.

Lemma aget_tabulate `{Inhabited A} n (f : Z -> A) i : 0 <= i < n -> (tabulate n f).[i] = f i.
Proof.
  intros Hi. unfold tabulate, aget. apply list_lookup_total_correct.
  rewrite list_lookup_fmap, lookup_seqZ_lt by lia. simpl. f_equal. f_equal. lia.
Qed.

Lemma fill_range_tabulate `{Inhabited A} n f (a : list A) :
  0 <= n -> alen a = n -> fill_range 0 n f a = tabulate n f.
Proof.
  intros Hn Ha. apply fill_range_all; [done|by rewrite alen_tabulate|].
  intros j Hj. by apply aget_tabulate.
Qed.

Lemma tabulate_ext {A} n (f g : Z -> A) :
  (forall i, 0 <= i < n -> f i = g i) -> tabulate n f = tabulate n g.
Proof.
  intros Hfg. apply list_fmap_ext. intros k z Hz. apply lookup_seqZ in Hz as [-> Hk].
  apply Hfg. lia.
Qed.

Lemma Forall_tabulate {A} (P : A -> Prop) n f :
  (forall i, 0 <= i < n -> P (f i)) -> Forall P (tabulate n f).
Proof.
  intros HP. unfold tabulate. rewrite Forall_fmap. apply Forall_seqZ.
  intros i Hi. apply HP. lia.
Qed.

#[export] Hint Rewrite @alen_tabulate using lia : arrays.

(** * Characters and C strings

    A [char] is its byte value (0 to 255): the sources only compare
    characters with ASCII literals, where signedness makes no difference.  A
    [const char *] is the list of bytes from the pointer on; reading past the
    list gives 0, so a list without a zero byte is a NUL-terminated string. *)

Definition ch (a : Ascii.ascii) : Z := Z.of_N (Ascii.N_of_ascii a).
Arguments ch _%_char_scope.
Definition cstr (s : String.string) : list Z := ch <$> String.list_ascii_of_string s.
Arguments cstr _%_string_scope.

Lemma ch_u8 a : is_u8 (ch a).
Proof. unfold is_u8, ch. pose proof (Ascii.N_ascii_bounded a). lia. Qed.

Lemma cstr_u8 s : Forall is_u8 (cstr s).
Proof. unfold cstr. induction (String.list_ascii_of_string s) as [|a l IH]; constructor; [apply ch_u8|done]. Qed.

#[export] Hint Resolve ch_u8 cstr_u8 : wrap.

(** The characters before the first NUL. *)
Fixpoint c_chars (l : list Z) : list Z :=
  match l with
  | [] => []
  | c :: l' => if c == 0 then [] else c :: c_chars l'
  end.

Definition NUL : Z := 0.
Definition NEWLINE : Z := 10.
Definition RETURN : Z := 13.
Definition BACKSPACE : Z := 8.
Definition TAB : Z := 9.
Definition SPACE : Z := 32.

Lemma c_chars_nonzero l : Forall (fun c => c <> 0) (c_chars l).
Proof. induction l as [|c l IH]; simpl; [done|]. bcase; [done|by constructor]. Qed.

Lemma c_chars_id l : Forall (fun c => c <> 0) l -> c_chars l = l.
Proof.
  induction 1 as [|c l Hc _ IH]; simpl; [done|].
  apply Z.eqb_neq in Hc. by rewrite Hc, IH.
Qed.

Lemma c_chars_idemp l : c_chars (c_chars l) = c_chars l.
Proof. apply c_chars_id, c_chars_nonzero. Qed.

Lemma c_chars_app_nul l r : Forall (fun c => c <> 0) l -> c_chars (l ++ 0 :: r) = l.
Proof.
  induction 1 as [|c l Hc _ IH]; simpl; [done|].
  apply Z.eqb_neq in Hc. by rewrite Hc, IH.
Qed.

(** * Zero-padded text in a fixed buffer *)

Definition padded (n : Z) (text : list Z) : list Z :=
  text ++ replicate (Z.to_nat (n - alen text)) 0.

Lemma alen_app {A} (l r : list A) : alen (l ++ r) = alen l + alen r.
Proof. unfold alen. rewrite length_app. lia. Qed.

Lemma alen_cons {A} (x : A) l : alen (x :: l) = alen l + 1.
Proof. unfold alen. simpl. lia. Qed.

Lemma alen_padded n text : alen text <= n -> alen (padded n text) = n.
Proof.
  intros. unfold padded. rewrite alen_app, alen_replicate; [lia|].
  pose proof (alen_nonneg text). lia.
Qed.

Lemma padded_get n text i :
  alen text <= n -> 0 <= i < n ->
  (padded n text).[i] = if i <? alen text then text.[i] else 0.
Proof.
  intros Ht Hi. unfold padded, aget. destruct (i <? alen text) eqn:E; bprop; unfold alen in *.
  - apply lookup_total_app_l. lia.
  - rewrite lookup_total_app_r by lia. apply lookup_total_replicate_2. lia.
Qed.

(** A buffer is padded text when it agrees with the text and is 0 after it. *)
Lemma padded_unique n text buf :
  alen text <= n -> alen buf = n ->
  (forall i, 0 <= i < alen text -> buf.[i] = text.[i]) ->
  (forall i, alen text <= i < n -> buf.[i] = 0) -> buf = padded n text.
Proof.
  intros Ht Hb Hlo Hhi. apply array_eq; [by rewrite alen_padded|].
  rewrite Hb. intros i Hi. rewrite padded_get by done.
  bcase; [apply Hlo; lia|apply Hhi; lia].
Qed.

Lemma aget_app_last `{Inhabited A} (l : list A) x i :
  0 <= i <= alen l -> (l ++ [x]).[i] = if i <? alen l then l.[i] else x.
Proof.
  intros Hi. unfold aget, alen in *. destruct (i <? _) eqn:E; bprop.
  - apply lookup_total_app_l. lia.
  - rewrite lookup_total_app_r by lia. by replace (Z.to_nat i - length l)%nat with O by lia.
Qed.

Lemma padded_put n text c :
  alen text < n -> (padded n text).[alen text <- c] = padded n (text ++ [c]).
Proof.
  intros Ht. pose proof (alen_nonneg text). unfold padded, aset.
  rewrite insert_app_r_alt by (unfold alen; lia). rewrite <-app_assoc. f_equal.
  rewrite alen_app. change (alen [c]) with 1.
  replace (Z.to_nat (alen text) - length text)%nat with O by (unfold alen; lia).
  by replace (Z.to_nat (n - alen text)) with (S (Z.to_nat (n - (alen text + 1)))) by lia.
Qed.

Lemma padded_terminate n text : alen text < n -> (padded n text).[alen text <- 0] = padded n text.
Proof.
  intros Ht. pose proof (alen_nonneg text).
  rewrite <-(aset_id (padded n text) (alen text)) at 2 by (rewrite alen_padded; lia).
  f_equal. rewrite padded_get by lia. by bcase; [lia|].
Qed.

Lemma padded_append n text c :
  alen text + 1 < n ->
  (padded n text).[alen text <- c].[alen text + 1 <- 0] = padded n (text ++ [c]).
Proof.
  intros Ht. pose proof (alen_nonneg text).
  assert (Hl : alen (text ++ [c]) = alen text + 1) by (rewrite alen_app; done).
  apply padded_unique; rewrite ?Hl, ?alen_aset, ?alen_padded; try lia.
  - intros i Hi. rewrite aget_aset_ne by lia. rewrite aget_app_last by lia.
    destruct (Z.ltb_spec i (alen text)).
    + rewrite aget_aset_ne, padded_get by lia. bcase; [done|lia].
    + replace i with (alen text) by lia. apply aget_aset_eq. rewrite alen_padded; lia.
  - intros i Hi. destruct (decide (i = alen text + 1)) as [->|].
    + apply aget_aset_eq. rewrite alen_aset, alen_padded; lia.
    + rewrite !aget_aset_ne, padded_get by lia. bcase; [lia|done].
Qed.

Lemma padded_erase n text :
  text <> [] -> alen text <= n ->
  (padded n text).[alen text - 1 <- 0] = padded n (removelast text).
Proof.
  intros Hne Ht. destruct (exists_last Hne) as (l & x & ->).
  rewrite removelast_last. rewrite alen_app in *. change (alen [x]) with 1 in *.
  pose proof (alen_nonneg l). replace (alen l + 1 - 1) with (alen l) by lia.
  apply padded_unique; rewrite ?alen_aset, ?alen_padded; rewrite ?alen_app; change (alen [x]) with 1; try lia.
  - intros i Hi. rewrite aget_aset_ne, padded_get by (rewrite ?alen_app; change (alen [x]) with 1; lia).
    rewrite alen_app. change (alen [x]) with 1. rewrite aget_app_last by lia.
    bcase; try lia; done.
  - intros i Hi. destruct (decide (i = alen l)) as [->|].
    + apply aget_aset_eq. rewrite alen_padded; rewrite ?alen_app; change (alen [x]) with 1; lia.
    + rewrite aget_aset_ne, padded_get by (rewrite ?alen_app; change (alen [x]) with 1; lia).
      rewrite alen_app. change (alen [x]) with 1. bcase; [lia|done].
Qed.

Lemma c_chars_padded n text :
  alen text < n -> Forall (fun c => c <> 0) text -> c_chars (padded n text) = text.
Proof.
  intros Ht Hnz. unfold padded.
  destruct (Z.to_nat (n - alen text)) as [|k] eqn:E; [lia|]. simpl.
  by apply c_chars_app_nul.
Qed.
