(* ===== verification/Pmm.v ===== *)
(** * Physical page allocator (src/kernel/mm/pmm.c)

    The two page bitmaps, their counters and the five public operations, at
    the width of the code: bitmap words are 32-bit, region bounds 64-bit.
    The second half gives the abstract page-state machine the allocator
    promises and proves every operation a refinement of it. *)
From S2P Require Import Prelude.

(** ** State and constants *)

Definition PMM_PAGE_SIZE : Z := 4096.
Definition PMM_PAGE_SHIFT : Z := 12.
Definition PMM_PAGE_COUNT : Z := 1048576.
Definition PMM_BITMAP_WORDS : Z := PMM_PAGE_COUNT / 32.
Definition PMM_PAGE_MASK : Z := PMM_PAGE_SIZE - 1.
Definition PMM_PHYSICAL_LIMIT : Z := 4294967296.

Record pmm := mk_pmm {
  managed_pages : static_array;
  allocated_pages : static_array;
  total_pages : Z;
  free_pages : Z;
  ownership_frozen : bool;
}.

(** The zero-initialised statics, before [pmm_reset] has run. *)
Definition pmm_static : pmm := mk_pmm ∅ ∅ 0 0 false.

(** ** Bitmap access *)

Definition bitmap_word (page : Z) : Z := page / 32.
Definition bitmap_mask (page : Z) : Z := Z.shiftl 1 (page mod 32).

Definition page_is_managed (s : pmm) (page : Z) : bool :=
  zget (managed_pages s) (bitmap_word page) .& bitmap_mask page != 0.

Definition page_is_allocated (s : pmm) (page : Z) : bool :=
  zget (allocated_pages s) (bitmap_word page) .& bitmap_mask page != 0.

Definition page_is_reserved (s : pmm) (page : Z) : bool :=
  negb (page_is_managed s page) && page_is_allocated s page.

Definition bitmap_update (m : static_array) (page : Z) (value : bool) : static_array :=
  let word := bitmap_word page in
  let mask := bitmap_mask page in
  if value then zset m word (zget m word .| mask)
  else zset m word (zget m word .& not32 mask).

Definition set_managed (page : Z) (value : bool) (s : pmm) : pmm :=
  mk_pmm (bitmap_update (managed_pages s) page value) (allocated_pages s)
    (total_pages s) (free_pages s) (ownership_frozen s).

Definition set_allocated (page : Z) (value : bool) (s : pmm) : pmm :=
  mk_pmm (managed_pages s) (bitmap_update (allocated_pages s) page value)
    (total_pages s) (free_pages s) (ownership_frozen s).

(** [total_pages += dt; free_pages += df], in [uint32_t]. *)
Definition add_counts (dt df : Z) (s : pmm) : pmm :=
  mk_pmm (managed_pages s) (allocated_pages s)
    (u32 (total_pages s + dt)) (u32 (free_pages s + df)) (ownership_frozen s).

Definition freeze (s : pmm) : pmm :=
  mk_pmm (managed_pages s) (allocated_pages s) (total_pages s) (free_pages s) true.

(** ** Page marking *)

Definition mark_page_reserved (page : Z) (s : pmm) : pmm :=
  if page_is_reserved s page then s
  else if page_is_managed s page then
    if page_is_allocated s page then s
    else add_counts (-1) (-1) (set_allocated page true (set_managed page false s))
  else set_allocated page true s.

Definition mark_page_usable (page : Z) (s : pmm) : pmm :=
  if (page == 0) || page_is_reserved s page || page_is_managed s page then s
  else add_counts 1 1 (set_allocated page false (set_managed page true s)).

(** ** Region arithmetic *)

(** [Some (clipped_base, clipped_end)] when the C function returns true. *)
Definition clip_to_physical (base length : Z) : option (Z * Z) :=
  if length == 0 then Some (0, 0)
  else if base >? u64 (UINT64_MAX - length) then None
  else
    let end_ := u64 (base + length) in
    if base >=? PMM_PHYSICAL_LIMIT then Some (0, 0)
    else if end_ >? PMM_PHYSICAL_LIMIT then Some (base, PMM_PHYSICAL_LIMIT)
    else Some (base, end_).

(** The spans are the out-parameters [(first, last_excl)]. *)
Definition inward_page_span (base end_ : Z) : Z * Z :=
  let aligned_start := u64 (base + PMM_PAGE_MASK) .& not64 PMM_PAGE_MASK in
  let aligned_end := end_ .& not64 PMM_PAGE_MASK in
  if aligned_start >=? aligned_end then (0, 0)
  else
    let start_page := u32 (Z.shiftr aligned_start PMM_PAGE_SHIFT) in
    let end_page := u32 (Z.shiftr aligned_end PMM_PAGE_SHIFT) in
    let start_page := if start_page == 0 then 1 else start_page in
    if start_page >=? end_page then (0, 0) else (start_page, end_page).

Definition outward_page_span (base end_ : Z) : Z * Z :=
  let aligned_start := base .& not64 PMM_PAGE_MASK in
  if base >=? end_ then (0, 0)
  else
    let aligned_end :=
      if end_ .& PMM_PAGE_MASK != 0
      then u64 (end_ + PMM_PAGE_MASK) .& not64 PMM_PAGE_MASK
      else end_ in
    let start_page := u32 (Z.shiftr aligned_start PMM_PAGE_SHIFT) in
    let end_page :=
      if aligned_end >=? PMM_PHYSICAL_LIMIT then PMM_PAGE_COUNT
      else u32 (Z.shiftr aligned_end PMM_PAGE_SHIFT) in
    if start_page >=? end_page then (0, 0) else (start_page, end_page).

(** ** Public operations *)

Definition pmm_reset (s : pmm) : pmm :=
  let '(m, a) :=
    for_range 0 PMM_BITMAP_WORDS
      (fun word '(m, a) => (zset m word 0, zset a word 0))
      (managed_pages s, allocated_pages s) in
  mark_page_reserved 0 (mk_pmm m a 0 0 false).

Definition pmm_add_usable_region (base length : Z) (s : pmm) : bool * pmm :=
  if ownership_frozen s then (false, s)
  else match clip_to_physical base length with
  | None => (false, s)
  | Some (clipped_base, clipped_end) =>
      let '(first, last_excl) := inward_page_span clipped_base clipped_end in
      (true, for_range first last_excl mark_page_usable s)
  end.

Definition pmm_reserve_region (base length : Z) (s : pmm) : bool * pmm :=
  if ownership_frozen s then (false, s)
  else match clip_to_physical base length with
  | None => (false, s)
  | Some (clipped_base, clipped_end) =>
      let '(first, last_excl) := outward_page_span clipped_base clipped_end in
      (true, for_range first last_excl mark_page_reserved s)
  end.

Definition free_mask (s : pmm) (word : Z) : Z :=
  zget (managed_pages s) word .& not32 (zget (allocated_pages s) word).

Definition pmm_alloc_page (s : pmm) : Z * pmm :=
  let s := freeze s in
  if free_pages s == 0 then (0, s)
  else match find_range 0 PMM_BITMAP_WORDS (fun word => free_mask s word != 0) with
  | Some word =>
      let bit := builtin_ctz (free_mask s word) in
      let page := u32 (word * 32 + bit) in
      let s := add_counts 0 (-1) (set_allocated page true s) in
      (u32 (Z.shiftl page PMM_PAGE_SHIFT), s)
  | None => (0, s)
  end.

Definition pmm_free_page (physical_address : Z) (s : pmm) : bool * pmm :=
  if physical_address == 0 then (false, s)
  else if physical_address .& PMM_PAGE_MASK != 0 then (false, s)
  else if physical_address >? u32 (Z.shiftl (PMM_PAGE_COUNT - 1) PMM_PAGE_SHIFT)
  then (false, s)
  else
    let page := Z.shiftr physical_address PMM_PAGE_SHIFT in
    if negb (page_is_managed s page) || negb (page_is_allocated s page) then (false, s)
    else (true, add_counts 0 1 (set_allocated page false s)).

Definition pmm_free_page_count (s : pmm) : Z := free_pages s.
Definition pmm_total_page_count (s : pmm) : Z := total_pages s.

(** ** Abstract specification

    A page is in one of the four states the source comment lists; the
    allocator is the map from pages to states plus the ownership freeze. *)

Inductive page_state := PageUnknown | PageFree | PageAllocated | PageReserved.

#[export] Instance page_state_eq_dec : EqDecision page_state.
Proof. solve_decision. Defined.

Definition state_of_bits (managed allocated : bool) : page_state :=
  match managed, allocated with
  | false, false => PageUnknown
  | true, false => PageFree
  | true, true => PageAllocated
  | false, true => PageReserved
  end.

Definition page_state_of (s : pmm) (page : Z) : page_state :=
  state_of_bits (page_is_managed s page) (page_is_allocated s page).

Definition valid_page (p : Z) : Prop := 0 <= p < PMM_PAGE_COUNT.

(** The whole page lies inside [[base, base+length)]. *)
Definition page_inside (base length p : Z) : bool :=
  (base <=? p * PMM_PAGE_SIZE) && ((p + 1) * PMM_PAGE_SIZE <=? base + length).

(** Some byte of the page lies inside [[base, base+length)]. *)
Definition page_touches (base length p : Z) : bool :=
  (base <? (p + 1) * PMM_PAGE_SIZE) && (p * PMM_PAGE_SIZE <? base + length).

Record pmm_spec := mk_spec { spec_pages : Z -> page_state; spec_frozen : bool }.

Definition spec_update (f : Z -> page_state) (p : Z) (st : page_state) : Z -> page_state :=
  fun q => if q =? p then st else f q.

Definition spec_add (base length : Z) (a : pmm_spec) : bool * pmm_spec :=
  if spec_frozen a || (UINT64_MAX <? base + length) then (false, a)
  else (true, mk_spec (fun p =>
    match spec_pages a p with
    | PageUnknown => if (p =? 0) || negb (page_inside base length p)
                     then PageUnknown else PageFree
    | st => st
    end) false).

Definition spec_reserve (base length : Z) (a : pmm_spec) : bool * pmm_spec :=
  if spec_frozen a || (UINT64_MAX <? base + length) then (false, a)
  else (true, mk_spec (fun p =>
    match spec_pages a p with
    | PageAllocated => PageAllocated
    | st => if (0 <? length) && page_touches base length p then PageReserved else st
    end) false).

Definition is_free (f : Z -> page_state) (p : Z) : bool :=
  bool_decide (f p = PageFree).

(** Allocation takes the lowest free page; 0 means none is left. *)
Definition spec_alloc (a : pmm_spec) : Z * pmm_spec :=
  match find_range 0 PMM_PAGE_COUNT (is_free (spec_pages a)) with
  | Some p => (p * PMM_PAGE_SIZE, mk_spec (spec_update (spec_pages a) p PageAllocated) true)
  | None => (0, mk_spec (spec_pages a) true)
  end.

(** A page is freed only by its exact address and only while allocated. *)
Definition spec_free (addr : Z) (a : pmm_spec) : bool * pmm_spec :=
  let p := addr / PMM_PAGE_SIZE in
  if (addr mod PMM_PAGE_SIZE =? 0) && bool_decide (spec_pages a p = PageAllocated)
  then (true, mk_spec (spec_update (spec_pages a) p PageFree) (spec_frozen a))
  else (false, a).

(** The operations and their results as data, to speak of whole runs. *)
Inductive pmm_op :=
| OpAddUsable (base length : Z)
| OpReserve (base length : Z)
| OpAllocPage
| OpFreePage (addr : Z).

Inductive pmm_ret := RetBool (b : bool) | RetAddr (a : Z).

Definition pmm_exec (op : pmm_op) (s : pmm) : pmm_ret * pmm :=
  match op with
  | OpAddUsable base length => prod_map RetBool id (pmm_add_usable_region base length s)
  | OpReserve base length => prod_map RetBool id (pmm_reserve_region base length s)
  | OpAllocPage => prod_map RetAddr id (pmm_alloc_page s)
  | OpFreePage addr => prod_map RetBool id (pmm_free_page addr s)
  end.

Definition spec_exec (op : pmm_op) (a : pmm_spec) : pmm_ret * pmm_spec :=
  match op with
  | OpAddUsable base length => prod_map RetBool id (spec_add base length a)
  | OpReserve base length => prod_map RetBool id (spec_reserve base length a)
  | OpAllocPage => prod_map RetAddr id (spec_alloc a)
  | OpFreePage addr => prod_map RetBool id (spec_free addr a)
  end.

(** The C argument types: 64-bit region bounds, 32-bit addresses. *)
Definition op_args_ok (op : pmm_op) : Prop :=
  match op with
  | OpAddUsable base length | OpReserve base length => is_u64 base /\ is_u64 length
  | OpAllocPage => True
  | OpFreePage addr => is_u32 addr
  end.

(** ** Invariant and refinement relation *)

Definition st_managed (st : page_state) : bool :=
  match st with PageFree | PageAllocated => true | _ => false end.
Definition st_free (st : page_state) : bool :=
  match st with PageFree => true | _ => false end.

Definition words_ok (s : pmm) : Prop :=
  forall w, is_u32 (zget (managed_pages s) w) /\ is_u32 (zget (allocated_pages s) w).

Record pmm_inv (s : pmm) : Prop := {
  inv_words : words_ok s;
  inv_total : total_pages s =
    count_range 0 PMM_PAGE_COUNT (fun p => st_managed (page_state_of s p));
  inv_free : free_pages s =
    count_range 0 PMM_PAGE_COUNT (fun p => st_free (page_state_of s p));
  inv_page0 : page_state_of s 0 = PageReserved;
}.

(** Two page maps are equivalent when they agree on every physical page. *)
Definition pages_equiv (f g : Z -> page_state) : Prop :=
  forall p, valid_page p -> f p = g p.

#[export] Instance pages_equiv_equivalence : Equivalence pages_equiv.
Proof.
  split.
  - by intros f p _.
  - intros f g Hfg p Hp. by rewrite Hfg.
  - intros f g h Hfg Hgh p Hp. by rewrite Hfg, Hgh.
Qed.

Definition pmm_refines (s : pmm) (a : pmm_spec) : Prop :=
  pages_equiv (page_state_of s) (spec_pages a) /\ ownership_frozen s = spec_frozen a.

(** ** Bits of the bitmaps *)

Definition page_bit (m : static_array) (p : Z) : bool :=
  Z.testbit (zget m (p / 32)) (p mod 32).

Lemma page_is_managed_bit s p : page_is_managed s p = page_bit (managed_pages s) p.
Proof. apply land_single_bit. apply Z.mod_pos_bound. lia. Qed.

Lemma page_is_allocated_bit s p : page_is_allocated s p = page_bit (allocated_pages s) p.
Proof. apply land_single_bit. apply Z.mod_pos_bound. lia. Qed.

Lemma bitmap_update_bit m p v q :
  0 <= p -> 0 <= q ->
  page_bit (bitmap_update m p v) q = if q =? p then v else page_bit m q.
Proof.
  intros Hp Hq. unfold page_bit, bitmap_update, bitmap_word, bitmap_mask.
  pose proof (Z.mod_pos_bound p 32 ltac:(lia)). pose proof (Z.mod_pos_bound q 32 ltac:(lia)).
  assert (Hsame : (q =? p) = (p / 32 =? q / 32) && (p mod 32 =? q mod 32)).
  { apply eq_true_iff_eq. rewrite andb_true_iff, !Z.eqb_eq.
    Z.to_euclidean_division_equations; lia. }
  rewrite Hsame.
  destruct v; rewrite zget_zset; destruct (Z.eqb_spec (p / 32) (q / 32)) as [->|];
    simpl; try done.
  - rewrite testbit_set by lia. destruct (p mod 32 =? q mod 32); [apply orb_true_r|apply orb_false_r].
  - rewrite testbit_clear32 by lia.
    destruct (p mod 32 =? q mod 32); [apply andb_false_r|apply andb_true_r].
Qed.

Lemma bitmap_update_u32 m p v :
  (forall w, is_u32 (zget m w)) -> forall w, is_u32 (zget (bitmap_update m p v) w).
Proof.
  intros Hm w. unfold bitmap_update, bitmap_word, bitmap_mask.
  pose proof (Z.mod_pos_bound p 32 ltac:(lia)).
  destruct v; rewrite zget_zset; destruct (_ =? w); auto with wrap.
  apply land_u32; [auto|]. unfold not32. apply u32_range.
Qed.

Lemma set_managed_state s p v q :
  0 <= p -> 0 <= q ->
  page_state_of (set_managed p v s) q =
    if q =? p then state_of_bits v (page_is_allocated s q) else page_state_of s q.
Proof.
  intros. unfold page_state_of. rewrite !page_is_managed_bit, !page_is_allocated_bit.
  simpl. rewrite bitmap_update_bit by done. by destruct (q =? p).
Qed.

Lemma set_allocated_state s p v q :
  0 <= p -> 0 <= q ->
  page_state_of (set_allocated p v s) q =
    if q =? p then state_of_bits (page_is_managed s q) v else page_state_of s q.
Proof.
  intros. unfold page_state_of. rewrite !page_is_managed_bit, !page_is_allocated_bit.
  simpl. rewrite bitmap_update_bit by done. by destruct (q =? p).
Qed.

Lemma set_managed_allocated s p v q :
  0 <= p -> 0 <= q -> page_is_allocated (set_managed p v s) q = page_is_allocated s q.
Proof. done. Qed.

Lemma set_managed_managed s p v :
  0 <= p -> page_is_managed (set_managed p v s) p = v.
Proof.
  intros. rewrite page_is_managed_bit. simpl. rewrite bitmap_update_bit by done.
  by rewrite Z.eqb_refl.
Qed.

Lemma set_managed_words s p v : words_ok s -> words_ok (set_managed p v s).
Proof.
  intros Hw w. split; simpl; [|apply Hw].
  apply bitmap_update_u32. intros w'. apply Hw.
Qed.

Lemma set_allocated_words s p v : words_ok s -> words_ok (set_allocated p v s).
Proof.
  intros Hw w. split; simpl; [apply Hw|].
  apply bitmap_update_u32. intros w'. apply Hw.
Qed.

Lemma add_counts_words dt df s : words_ok s -> words_ok (add_counts dt df s).
Proof. done. Qed.

Create HintDb pmm.
#[export] Hint Resolve set_managed_words set_allocated_words add_counts_words : pmm.

Lemma freeze_inv s : pmm_inv s -> pmm_inv (freeze s).
Proof. intros []. by split. Qed.

(** ** One page changes state

    [page_step s s' p st]: [s'] is [s] with page [p] moved to [st] and the
    counters moved accordingly. *)

Record page_step (s s' : pmm) (p : Z) (st : page_state) : Prop := {
  step_state : forall q, 0 <= q ->
    page_state_of s' q = if q =? p then st else page_state_of s q;
  step_words : words_ok s -> words_ok s';
  step_total : total_pages s' = u32 (total_pages s
    + Z.b2z (st_managed st) - Z.b2z (st_managed (page_state_of s p)));
  step_free : free_pages s' = u32 (free_pages s
    + Z.b2z (st_free st) - Z.b2z (st_free (page_state_of s p)));
  step_frozen : ownership_frozen s' = ownership_frozen s;
}.

Lemma page_step_count s s' p st (f : page_state -> bool) :
  valid_page p -> page_step s s' p st ->
  count_range 0 PMM_PAGE_COUNT (fun q => f (page_state_of s' q)) =
  count_range 0 PMM_PAGE_COUNT (fun q => f (page_state_of s q))
    + Z.b2z (f st) - Z.b2z (f (page_state_of s p)).
Proof.
  intros Hp [Hst _ _ _ _].
  rewrite (count_range_update 0 PMM_PAGE_COUNT (fun q => f (page_state_of s q)) _ p Hp).
  - rewrite (Hst p), Z.eqb_refl by apply Hp. lia.
  - intros q Hq Hne. rewrite Hst by lia. apply Z.eqb_neq in Hne. by rewrite Hne.
Qed.

Lemma page_step_inv s s' p st :
  valid_page p -> (p = 0 -> st = PageReserved) ->
  page_step s s' p st -> pmm_inv s -> pmm_inv s'.
Proof.
  intros Hp H0 Hstep [Hw Ht Hf Hz].
  pose proof (page_step_count s s' p st st_managed Hp Hstep) as Hct.
  pose proof (page_step_count s s' p st st_free Hp Hstep) as Hcf.
  pose proof (count_range_nonneg 0 PMM_PAGE_COUNT (fun q => st_managed (page_state_of s' q))).
  pose proof (count_range_nonneg 0 PMM_PAGE_COUNT (fun q => st_free (page_state_of s' q))).
  destruct Hstep as [Hst Hsw Hst' Hsf _].
  split; unfold PMM_PAGE_COUNT in *.
  - auto.
  - rewrite Hst', Ht, u32_small; unfold is_u32; lia.
  - rewrite Hsf, Hf, u32_small; unfold is_u32; lia.
  - rewrite Hst by lia. destruct (Z.eqb_spec 0 p); [auto|done].
Qed.

Lemma page_states_bits s p :
  page_is_managed s p = st_managed (page_state_of s p) /\
  page_is_allocated s p =
    match page_state_of s p with PageAllocated | PageReserved => true | _ => false end /\
  page_is_reserved s p = bool_decide (page_state_of s p = PageReserved).
Proof.
  unfold page_is_reserved, page_state_of.
  by destruct (page_is_managed s p), (page_is_allocated s p).
Qed.

(** The state [mark_page_usable] and [mark_page_reserved] leave a page in. *)
Definition usable_target (p : Z) (st : page_state) : page_state :=
  match st with PageUnknown => if p =? 0 then PageUnknown else PageFree | _ => st end.
Definition reserved_target (st : page_state) : page_state :=
  match st with PageAllocated => PageAllocated | _ => PageReserved end.

Lemma page_step_id s p :
  pmm_inv s -> 0 <= p -> page_step s s p (page_state_of s p).
Proof.
  intros [_ Ht Hf _] Hp.
  pose proof (count_range_nonneg 0 PMM_PAGE_COUNT (fun q => st_managed (page_state_of s q))).
  pose proof (count_range_nonneg 0 PMM_PAGE_COUNT (fun q => st_free (page_state_of s q))).
  unfold PMM_PAGE_COUNT in *.
  split; [|done|rewrite u32_small; unfold is_u32; lia|rewrite u32_small; unfold is_u32; lia|done].
  intros q Hq. by destruct (Z.eqb_spec q p) as [->|].
Qed.

(** Writing both bits of a page and moving the counters is a page step. *)
Lemma page_step_set s p vm va dt df :
  0 <= p ->
  dt = Z.b2z (st_managed (state_of_bits vm va)) - Z.b2z (st_managed (page_state_of s p)) ->
  df = Z.b2z (st_free (state_of_bits vm va)) - Z.b2z (st_free (page_state_of s p)) ->
  page_step s (add_counts dt df (set_allocated p va (set_managed p vm s))) p
    (state_of_bits vm va).
Proof.
  intros Hp -> ->. split; simpl; [|auto with pmm
    |f_equal; lia|f_equal; lia|done].
  intros q Hq. change (page_state_of (add_counts _ _ ?t) q) with (page_state_of t q).
  rewrite set_allocated_state by done. destruct (Z.eqb_spec q p) as [->|Hne].
  - by rewrite set_managed_managed.
  - rewrite set_managed_state by done. apply Z.eqb_neq in Hne. by rewrite Hne.
Qed.

Lemma page_step_set_allocated s p va df :
  pmm_inv s -> 0 <= p ->
  df = Z.b2z (st_free (state_of_bits (page_is_managed s p) va))
       - Z.b2z (st_free (page_state_of s p)) ->
  page_step s (add_counts 0 df (set_allocated p va s)) p
    (state_of_bits (page_is_managed s p) va).
Proof.
  intros Hi Hp ->.
  assert (Hm : st_managed (state_of_bits (page_is_managed s p) va)
               = st_managed (page_state_of s p)).
  { unfold page_state_of. by destruct (page_is_managed s p), va, (page_is_allocated s p). }
  split; simpl; [|auto with pmm|rewrite Hm; f_equal; lia|f_equal; lia|done].
  intros q Hq. change (page_state_of (add_counts _ _ ?t) q) with (page_state_of t q).
  rewrite set_allocated_state by done. by destruct (Z.eqb_spec q p) as [->|Hne].
Qed.

Lemma mark_page_usable_step s p :
  pmm_inv s -> 0 <= p ->
  page_step s (mark_page_usable p s) p (usable_target p (page_state_of s p)).
Proof.
  intros Hi Hp. unfold mark_page_usable.
  destruct (page_states_bits s p) as (Hm & _ & Hr). rewrite Hm, Hr.
  destruct (Z.eqb_spec p 0) as [->|Hne].
  { pose proof (page_step_id s 0 Hi Hp) as H. by destruct (page_state_of s 0). }
  apply Z.eqb_neq in Hne.
  destruct (page_state_of s p) eqn:E; simpl; rewrite ?Hne;
    try (rewrite <-E; by apply page_step_id).
  apply (page_step_set s p true false); [done| |]; by rewrite E.
Qed.

Lemma mark_page_reserved_step s p :
  pmm_inv s -> 0 <= p ->
  page_step s (mark_page_reserved p s) p (reserved_target (page_state_of s p)).
Proof.
  intros Hi Hp. unfold mark_page_reserved.
  destruct (page_states_bits s p) as (Hm & Ha & Hr). rewrite Hr, Hm, Ha.
  destruct (page_state_of s p) eqn:E; simpl;
    try (rewrite <-E; by apply page_step_id).
  - pose proof (page_step_set_allocated s p true 0 Hi Hp) as H.
    rewrite Hm, E in H. specialize (H eq_refl). destruct H as [H1 H2 H3 H4 H5].
    pose proof (page_step_id s p Hi Hp) as [_ _ H3' H4' _].
    rewrite E in H3', H4'. split; [done|done| | |done]; rewrite E; [exact H3'|exact H4'].
  - apply (page_step_set s p false true); [done| |]; by rewrite E.
Qed.

Lemma mark_page_usable_inv s p :
  pmm_inv s -> valid_page p -> pmm_inv (mark_page_usable p s).
Proof.
  intros Hi Hp. refine (page_step_inv _ _ _ _ Hp _ (mark_page_usable_step s p Hi (proj1 Hp)) Hi).
  intros ->. by rewrite (inv_page0 _ Hi).
Qed.

Lemma mark_page_reserved_inv s p :
  pmm_inv s -> valid_page p -> pmm_inv (mark_page_reserved p s).
Proof.
  intros Hi Hp. refine (page_step_inv _ _ _ _ Hp _ (mark_page_reserved_step s p Hi (proj1 Hp)) Hi).
  intros ->. by rewrite (inv_page0 _ Hi).
Qed.

#[export] Hint Resolve mark_page_usable_inv mark_page_reserved_inv freeze_inv : pmm.

(** ** Marking a span of pages *)

Section MarkSpan.
Context (mark : Z -> pmm -> pmm) (target : Z -> page_state -> page_state).
Hypothesis mark_step : forall s p,
  pmm_inv s -> 0 <= p -> page_step s (mark p s) p (target p (page_state_of s p)).
Hypothesis mark_inv : forall s p, pmm_inv s -> valid_page p -> pmm_inv (mark p s).

Lemma mark_span s first last :
  pmm_inv s -> 0 <= first <= last -> last <= PMM_PAGE_COUNT ->
  let s' := for_range first last mark s in
  pmm_inv s' /\ ownership_frozen s' = ownership_frozen s /\
  forall q, 0 <= q -> page_state_of s' q =
    if (first <=? q) && (q <? last) then target q (page_state_of s q)
    else page_state_of s q.
Proof.
  intros Hi Hf Hl.
  apply (for_range_ind (fun (i : Z) (t : pmm) => pmm_inv t /\ ownership_frozen t = ownership_frozen s /\
    forall q, 0 <= q -> page_state_of t q =
      if (first <=? q) && (q <? i) then target q (page_state_of s q)
      else page_state_of s q)); [lia| |].
  - split_and!; [done..|]. intros q Hq. by bcase; try lia.
  - intros i t Hi' (Ht & Hfr & Hst).
    pose proof (mark_step t i Ht ltac:(lia)) as Hstep.
    split_and!.
    + apply mark_inv; [done|unfold valid_page; lia].
    + by rewrite (step_frozen _ _ _ _ Hstep).
    + intros q Hq. rewrite (step_state _ _ _ _ Hstep) by done.
      destruct (Z.eqb_spec q i) as [->|Hne].
      * rewrite Hst by done. bcase; try lia; done.
      * rewrite Hst by done.
        by replace (q <? i + 1) with (q <? i) by (bcase; lia).
Qed.
End MarkSpan.

(** ** Spans: which pages a region's loop visits *)

Lemma shiftr_page x : Z.shiftr x PMM_PAGE_SHIFT = x / 4096.
Proof. apply Z.shiftr_div_pow2. unfold PMM_PAGE_SHIFT. lia. Qed.

Lemma shiftl_page x : Z.shiftl x PMM_PAGE_SHIFT = x * 4096.
Proof. apply Z.shiftl_mul_pow2. unfold PMM_PAGE_SHIFT. lia. Qed.

Lemma inward_page_span_spec b e f l :
  0 <= b <= PMM_PHYSICAL_LIMIT -> 0 <= e <= PMM_PHYSICAL_LIMIT ->
  inward_page_span b e = (f, l) ->
  0 <= f <= l /\ l <= PMM_PAGE_COUNT /\
  forall q, 0 <= q ->
    (f <=? q) && (q <? l) =
    negb (q =? 0) && (b <=? q * PMM_PAGE_SIZE) && ((q + 1) * PMM_PAGE_SIZE <=? e).
Proof.
  unfold inward_page_span, PMM_PHYSICAL_LIMIT, PMM_PAGE_COUNT, PMM_PAGE_SIZE.
  change PMM_PAGE_MASK with 4095. intros Hb He.
  rewrite (u64_small (b + 4095)) by (unfold is_u64; lia).
  rewrite !land_not64_4095 by (unfold is_u64; lia). rewrite !shiftr_page.
  rewrite !u32_small by (unfold is_u32; Z.to_euclidean_division_equations; lia).
  rewrite !(Z.mul_comm 4096), !Z.div_mul by lia. intros H.
  assert (Hspan : 0 <= f <= l /\ l <= 1048576 /\
    (f < l -> f = Z.max 1 ((b + 4095) / 4096) /\ l = e / 4096) /\
    (f = l -> Z.max 1 ((b + 4095) / 4096) >= e / 4096 )).
  { revert H. bcase; intros [= <- <-]; Z.to_euclidean_division_equations; lia. }
  clear H. destruct Hspan as (H1 & H2 & H3 & H4). split; [done|]. split; [done|].
  intros q Hq. apply eq_true_iff_eq.
  rewrite !andb_true_iff, negb_true_iff, Z.eqb_neq, !Z.leb_le, Z.ltb_lt.
  destruct (decide (f < l)) as [Hlt|Hge].
  - destruct (H3 Hlt) as [-> ->]. Z.to_euclidean_division_equations; lia.
  - specialize (H4 ltac:(lia)). split; [lia|].
    intros. Z.to_euclidean_division_equations; lia.
Qed.

Lemma outward_page_span_spec b e f l :
  0 <= b <= PMM_PHYSICAL_LIMIT -> 0 <= e <= PMM_PHYSICAL_LIMIT ->
  (b < e -> b < PMM_PHYSICAL_LIMIT) ->
  outward_page_span b e = (f, l) ->
  0 <= f <= l /\ l <= PMM_PAGE_COUNT /\
  forall q, 0 <= q ->
    (f <=? q) && (q <? l) =
    (b <? e) && (b <? (q + 1) * PMM_PAGE_SIZE) && (q * PMM_PAGE_SIZE <? e).
Proof.
  unfold outward_page_span, PMM_PHYSICAL_LIMIT, PMM_PAGE_COUNT, PMM_PAGE_SIZE.
  change PMM_PAGE_MASK with 4095. intros Hb He Hbe.
  rewrite (u64_small (e + 4095)) by (unfold is_u64; lia).
  rewrite !land_not64_4095 by (unfold is_u64; lia). rewrite land_4095, !shiftr_page. intros H.
  assert (Hspan : 0 <= f <= l /\ l <= 1048576 /\
    (b < e -> f = b / 4096 /\ l = (e + 4095) / 4096) /\ (e <= b -> f = l)).
  { revert H. destruct (b >=? e) eqn:Ebe; bprop.
    { intros [= <- <-]. lia. }
    specialize (Hbe ltac:(lia)).
    replace (if e mod 4096 != 0 then 4096 * ((e + 4095) / 4096) else e)
      with (4096 * ((e + 4095) / 4096))
      by (bcase; Z.to_euclidean_division_equations; lia).
    rewrite !(Z.mul_comm 4096), !Z.div_mul by lia.
    rewrite (u32_small (b / 4096)) by (unfold is_u32; Z.to_euclidean_division_equations; lia).
    destruct (_ >=? 4294967296) eqn:E2; bprop.
    - destruct (_ >=? 1048576) eqn:E3; bprop; intros [= <- <-];
        Z.to_euclidean_division_equations; lia.
    - rewrite (u32_small ((e + 4095) / 4096))
        by (unfold is_u32; Z.to_euclidean_division_equations; lia).
      destruct (_ >=? (e + 4095) / 4096) eqn:E3; bprop; intros [= <- <-];
        Z.to_euclidean_division_equations; lia. }
  clear H. destruct Hspan as (H1 & H2 & H3 & H4). split; [done|]. split; [done|].
  intros q Hq. apply eq_true_iff_eq.
  rewrite !andb_true_iff, !Z.ltb_lt, Z.leb_le.
  destruct (decide (b < e)) as [Hlt|Hge].
  - destruct (H3 Hlt) as [-> ->]. Z.to_euclidean_division_equations; lia.
  - specialize (H4 ltac:(lia)). lia.
Qed.

(** Clipping keeps exactly the part of the region below 4 GiB. *)
Lemma clip_to_physical_spec base length :
  is_u64 base -> is_u64 length ->
  match clip_to_physical base length with
  | None => UINT64_MAX < base + length
  | Some (b, e) =>
      base + length <= UINT64_MAX /\
      (b = base /\ base < PMM_PHYSICAL_LIMIT /\ 0 < length /\
         e = Z.min (base + length) PMM_PHYSICAL_LIMIT \/
       b = 0 /\ e = 0 /\ (length = 0 \/ PMM_PHYSICAL_LIMIT <= base))
  end.
Proof.
  unfold clip_to_physical, PMM_PHYSICAL_LIMIT, is_u64, UINT64_MAX. intros Hb Hl.
  rewrite (u64_small (_ - length)) by (unfold is_u64; lia).
  destruct (length == 0) eqn:E0; bprop; [lia|].
  destruct (base >? _) eqn:E1; bprop; [lia|].
  rewrite u64_small by (unfold is_u64; lia).
  bcase; lia.
Qed.

(** ** The operations refine the specification *)

Lemma pmm_add_usable_region_refines base length s a :
  pmm_inv s -> pmm_refines s a -> is_u64 base -> is_u64 length ->
  let '(r, s') := pmm_add_usable_region base length s in
  let '(r', a') := spec_add base length a in
  r = r' /\ pmm_inv s' /\ pmm_refines s' a'.
Proof.
  intros Hi Href Hb Hl. pose proof Href as [Hst Hfr].
  unfold pmm_add_usable_region, spec_add. rewrite Hfr.
  destruct (spec_frozen a) eqn:Ef; simpl; [by split_and!|].
  pose proof (clip_to_physical_spec base length Hb Hl) as Hc.
  destruct (clip_to_physical base length) as [[b e]|].
  2:{ apply Z.ltb_lt in Hc. rewrite Hc. by split_and!. }
  destruct Hc as (Hmax & Hc). unfold is_u64 in Hb, Hl.
  replace (UINT64_MAX <? base + length) with false by (symmetry; apply Z.ltb_ge; lia).
  destruct (inward_page_span b e) as [f l] eqn:Es.
  apply inward_page_span_spec in Es as (Hf & Hlim & Hq);
    [|unfold PMM_PHYSICAL_LIMIT in *; lia..].
  destruct (mark_span mark_page_usable usable_target mark_page_usable_step
    mark_page_usable_inv s f l Hi Hf Hlim) as (Hi' & Hfr' & Hst').
  split; [done|]. split; [done|]. split; [|simpl; by rewrite Hfr'].
  intros p Hp. rewrite Hst' by apply Hp. simpl. rewrite <-(Hst p Hp), Hq by apply Hp.
  unfold valid_page, PMM_PAGE_COUNT in Hp. unfold page_inside, PMM_PAGE_SIZE.
  unfold PMM_PHYSICAL_LIMIT in *.
  destruct (page_state_of s p) eqn:Est; simpl; bcase; try done; lia.
Qed.

Lemma pmm_reserve_region_refines base length s a :
  pmm_inv s -> pmm_refines s a -> is_u64 base -> is_u64 length ->
  let '(r, s') := pmm_reserve_region base length s in
  let '(r', a') := spec_reserve base length a in
  r = r' /\ pmm_inv s' /\ pmm_refines s' a'.
Proof.
  intros Hi Href Hb Hl. pose proof Href as [Hst Hfr].
  unfold pmm_reserve_region, spec_reserve. rewrite Hfr.
  destruct (spec_frozen a) eqn:Ef; simpl; [by split_and!|].
  pose proof (clip_to_physical_spec base length Hb Hl) as Hc.
  destruct (clip_to_physical base length) as [[b e]|].
  2:{ apply Z.ltb_lt in Hc. rewrite Hc. by split_and!. }
  destruct Hc as (Hmax & Hc). unfold is_u64 in Hb, Hl.
  replace (UINT64_MAX <? base + length) with false by (symmetry; apply Z.ltb_ge; lia).
  destruct (outward_page_span b e) as [f l] eqn:Es.
  apply outward_page_span_spec in Es as (Hf & Hl' & Hq);
    [|unfold PMM_PHYSICAL_LIMIT in *; lia..].
  destruct (mark_span mark_page_reserved (fun _ => reserved_target) mark_page_reserved_step
    mark_page_reserved_inv s f l Hi Hf Hl') as (Hi' & Hfr' & Hst').
  split; [done|]. split; [done|]. split; [|simpl; by rewrite Hfr'].
  intros p Hp. rewrite Hst' by apply Hp. simpl. rewrite <-(Hst p Hp), Hq by apply Hp.
  unfold valid_page, PMM_PAGE_COUNT in Hp. unfold page_touches, PMM_PAGE_SIZE.
  unfold PMM_PHYSICAL_LIMIT in *.
  replace ((0 <? length) && ((base <? (p + 1) * 4096) && (p * 4096 <? base + length)))
    with ((b <? e) && (b <? (p + 1) * 4096) && (p * 4096 <? e)).
  2:{ apply eq_true_iff_eq. rewrite !andb_true_iff, !Z.ltb_lt. lia. }
  by destruct (page_state_of s p); simpl; destruct (_ && _).
Qed.

(** The first word with a free bit holds the lowest free page. *)
Lemma free_mask_bit s w i :
  words_ok s -> 0 <= w -> 0 <= i < 32 ->
  Z.testbit (free_mask s w) i = st_free (page_state_of s (w * 32 + i)).
Proof.
  intros Hw Hw0 Hi. unfold free_mask, page_state_of.
  rewrite page_is_managed_bit, page_is_allocated_bit. unfold page_bit.
  replace ((w * 32 + i) / 32) with w by (Z.to_euclidean_division_equations; lia).
  replace ((w * 32 + i) mod 32) with i by (Z.to_euclidean_division_equations; lia).
  rewrite Z.land_spec. unfold not32, u32. change 4294967296 with (2 ^ 32).
  rewrite Z.mod_pow2_bits_low, Z.lnot_spec by lia.
  by destruct (Z.testbit _ i), (Z.testbit _ i).
Qed.

Lemma free_mask_u32 s w : words_ok s -> is_u32 (free_mask s w).
Proof. intros Hw. apply land_u32; [apply Hw|]. unfold not32. apply u32_range. Qed.

Lemma free_mask_zero s w :
  words_ok s -> 0 <= w ->
  (forall i, 0 <= i < 32 -> st_free (page_state_of s (w * 32 + i)) = false) <->
  free_mask s w = 0.
Proof.
  intros Hw Hw0. split.
  - intros H. apply Z.bits_inj'. intros i Hi. rewrite Z.testbit_0_l.
    destruct (decide (i < 32)).
    + rewrite free_mask_bit by done. by apply H.
    + apply (testbit_high 32); [by apply free_mask_u32|lia].
  - intros H i Hi. rewrite <-free_mask_bit, H by done. apply Z.testbit_0_l.
Qed.

Lemma is_free_st f p : is_free f p = st_free (f p).
Proof. unfold is_free. by destruct (f p). Qed.

(** The word scan with [__builtin_ctz] is the linear scan over pages. *)
Lemma alloc_scan s :
  words_ok s ->
  match find_range 0 PMM_BITMAP_WORDS (fun word => free_mask s word != 0) with
  | Some w => Some (w * 32 + builtin_ctz (free_mask s w))
  | None => None
  end = find_range 0 PMM_PAGE_COUNT (fun p => st_free (page_state_of s p)).
Proof.
  intros Hw. change PMM_BITMAP_WORDS with 32768. unfold PMM_PAGE_COUNT.
  assert (Hsplit : forall q, 0 <= q -> exists w i, 0 <= w /\ 0 <= i < 32 /\ q = w * 32 + i).
  { intros q Hq. exists (q / 32), (q mod 32). Z.to_euclidean_division_equations; lia. }
  destruct (find_range 0 32768 _) as [w|] eqn:E; symmetry.
  - apply find_range_Some in E as (Hwr & Hnz & Hlow). bprop.
    destruct (builtin_ctz_spec _ (free_mask_u32 s w Hw) Hnz) as (Hc & Hbit & Hbelow).
    apply find_range_first; [lia| |].
    + rewrite <-free_mask_bit; [done..|lia|done].
    + intros q Hq. destruct (Hsplit q) as (w' & i & Hw' & Hi & ->); [lia|].
      destruct (decide (w' = w)) as [->|].
      * rewrite <-free_mask_bit by done. apply Hbelow. lia.
      * specialize (Hlow w' ltac:(lia)). bprop.
        by apply (proj2 (free_mask_zero s w' Hw Hw')).
  - rewrite find_range_None in E |- *. intros q Hq.
    destruct (Hsplit q) as (w' & i & Hw' & Hi & ->); [lia|].
    specialize (E w' ltac:(lia)). simpl in E. bprop.
    by apply (proj2 (free_mask_zero s w' Hw Hw')).
Qed.

Lemma pmm_alloc_page_refines s a :
  pmm_inv s -> pmm_refines s a ->
  let '(r, s') := pmm_alloc_page s in
  let '(r', a') := spec_alloc a in
  r = r' /\ pmm_inv s' /\ pmm_refines s' a'.
Proof.
  intros Hi [Hst _]. unfold pmm_alloc_page, spec_alloc.
  pose proof (freeze_inv _ Hi) as Hi1.
  assert (Hst1 : pages_equiv (page_state_of (freeze s)) (spec_pages a)) by exact Hst.
  assert (Hfr1 : ownership_frozen (freeze s) = true) by done.
  generalize dependent (freeze s). clear s Hi Hst. intros s Hi Hst Hfr.
  rewrite (find_range_ext _ _ (is_free (spec_pages a)) (fun p => st_free (page_state_of s p))).
  2:{ intros p Hp. by rewrite is_free_st, <-Hst. }
  destruct (free_pages s == 0) eqn:E0; bprop.
  { rewrite (inv_free _ Hi) in E0.
    destruct (find_range 0 PMM_PAGE_COUNT _) as [p|] eqn:Ef; [|by split_and!].
    apply find_range_Some in Ef as (Hp & Hfree & _).
    rewrite (count_range_zero _ _ _ E0 p Hp) in Hfree. done. }
  pose proof (alloc_scan s (inv_words _ Hi)) as Hscan.
  destruct (find_range 0 PMM_BITMAP_WORDS _) as [w|]; rewrite <-Hscan; [|by split_and!].
  symmetry in Hscan. apply find_range_Some in Hscan as (Hp & Hfree & _).
  set (p := w * 32 + builtin_ctz (free_mask s w)) in *. unfold PMM_PAGE_COUNT in Hp.
  rewrite !(u32_small p) by (unfold is_u32; lia). rewrite shiftl_page.
  rewrite u32_small by (unfold is_u32; lia).
  destruct (page_states_bits s p) as (Hm & _ & _).
  pose proof (page_step_set_allocated s p true (-1) Hi ltac:(lia)) as Hstep.
  rewrite Hm in Hstep. destruct (page_state_of s p) eqn:Est; try done.
  specialize (Hstep eq_refl). split; [done|]. split; [|split; [|done]].
  - apply (page_step_inv _ _ _ _ Hp) with (2 := Hstep); [|done].
    intros E. rewrite E in Est. by rewrite (inv_page0 _ Hi) in Est.
  - intros q Hq. rewrite (step_state _ _ _ _ Hstep) by apply Hq. simpl.
    unfold spec_update. by destruct (q =? p); [|apply Hst].
Qed.

Lemma pmm_free_page_refines addr s a :
  pmm_inv s -> pmm_refines s a -> is_u32 addr ->
  let '(r, s') := pmm_free_page addr s in
  let '(r', a') := spec_free addr a in
  r = r' /\ pmm_inv s' /\ pmm_refines s' a'.
Proof.
  intros Hi Href Ha. pose proof Href as [Hst Hfr].
  assert (Hp : valid_page (addr / 4096)).
  { unfold valid_page, PMM_PAGE_COUNT, is_u32 in *. Z.to_euclidean_division_equations; lia. }
  unfold pmm_free_page, spec_free. change PMM_PAGE_MASK with 4095. rewrite land_4095.
  unfold PMM_PAGE_SIZE. rewrite shiftr_page, <-(Hst _ Hp).
  destruct (addr == 0) eqn:E0; bprop.
  { subst addr. change (0 / 4096) with 0. rewrite (inv_page0 _ Hi). simpl. by split_and!. }
  destruct (addr mod 4096 == 0) eqn:E1; simpl; [|by split_and!].
  replace (addr >? _) with false.
  2:{ symmetry. rewrite Z.gtb_ltb. apply Z.ltb_ge.
      change (u32 (Z.shiftl (PMM_PAGE_COUNT - 1) PMM_PAGE_SHIFT)) with 4294963200.
      unfold is_u32 in Ha. bprop. Z.to_euclidean_division_equations; lia. }
  destruct (page_states_bits s (addr / 4096)) as (Hm & Hal & _). rewrite Hm, Hal.
  destruct (page_state_of s (addr / 4096)) eqn:Est; simpl; try (by split_and!).
  pose proof (page_step_set_allocated s (addr / 4096) false 1 Hi (proj1 Hp)) as Hstep.
  rewrite Hm, Est in Hstep. specialize (Hstep eq_refl).
  split; [done|]. split; [|split].
  - apply (page_step_inv _ _ _ _ Hp) with (2 := Hstep); [|done].
    intros E. rewrite E in Est. by rewrite (inv_page0 _ Hi) in Est.
  - intros q Hq. rewrite (step_state _ _ _ _ Hstep) by apply Hq. simpl.
    unfold spec_update. by destruct (q =? _); [|apply Hst].
  - simpl. by rewrite <-Hfr.
Qed.

Lemma pmm_exec_refines op s a :
  pmm_inv s -> pmm_refines s a -> op_args_ok op ->
  fst (pmm_exec op s) = fst (spec_exec op a) /\
  pmm_inv (snd (pmm_exec op s)) /\ pmm_refines (snd (pmm_exec op s)) (snd (spec_exec op a)).
Proof.
  intros Hi Hr Hop.
  destruct op as [b l|b l| |addr]; cbv beta iota delta [pmm_exec spec_exec op_args_ok] in *.
  - pose proof (pmm_add_usable_region_refines b l s a Hi Hr (proj1 Hop) (proj2 Hop)) as H.
    destruct (pmm_add_usable_region _ _ _), (spec_add _ _ _). destruct H as (-> & H). by split.
  - pose proof (pmm_reserve_region_refines b l s a Hi Hr (proj1 Hop) (proj2 Hop)) as H.
    destruct (pmm_reserve_region _ _ _), (spec_reserve _ _ _). destruct H as (-> & H). by split.
  - pose proof (pmm_alloc_page_refines s a Hi Hr) as H.
    destruct (pmm_alloc_page _), (spec_alloc _). destruct H as (-> & H). by split.
  - pose proof (pmm_free_page_refines addr s a Hi Hr Hop) as H.
    destruct (pmm_free_page _ _), (spec_free _ _). destruct H as (-> & H). by split.
Qed.

(** ** Reset *)

Definition spec_reset : pmm_spec :=
  mk_spec (fun p => if p =? 0 then PageReserved else PageUnknown) false.

Lemma pmm_reset_clears m a :
  let '(m', a') := for_range 0 PMM_BITMAP_WORDS
      (fun word '(m, a) => (zset m word 0, zset a word 0)) (m, a) in
  (forall w, zget m' w = if (0 <=? w) && (w <? PMM_BITMAP_WORDS) then 0 else zget m w) /\
  (forall w, zget a' w = if (0 <=? w) && (w <? PMM_BITMAP_WORDS) then 0 else zget a w).
Proof.
  apply (for_range_ind (fun i '(m', a') =>
    (forall w, zget m' w = if (0 <=? w) && (w <? i) then 0 else zget m w) /\
    (forall w, zget a' w = if (0 <=? w) && (w <? i) then 0 else zget a w))).
  - change PMM_BITMAP_WORDS with 32768. lia.
  - split; intros w; by bcase; try lia.
  - intros i [m' a'] Hi [Hm Ha]. split; intros w; rewrite zget_zset, ?Hm, ?Ha;
      destruct (Z.eqb_spec i w) as [->|]; bcase; try lia; done.
Qed.

Lemma pmm_reset_ok s :
  words_ok s -> pmm_inv (pmm_reset s) /\ pmm_refines (pmm_reset s) spec_reset.
Proof.
  intros Hw. unfold pmm_reset.
  pose proof (pmm_reset_clears (managed_pages s) (allocated_pages s)) as Hc.
  destruct (for_range _ _ _ _) as [m a]. destruct Hc as [Hm Ha].
  set (t := mk_pmm m a 0 0 false).
  assert (Hunk : forall p, valid_page p -> page_state_of t p = PageUnknown).
  { intros p Hp. unfold page_state_of. rewrite page_is_managed_bit, page_is_allocated_bit.
    unfold page_bit. simpl. rewrite Hm, Ha. change PMM_BITMAP_WORDS with 32768.
    unfold valid_page, PMM_PAGE_COUNT in Hp.
    replace ((0 <=? p / 32) && (p / 32 <? 32768)) with true; [by rewrite Z.testbit_0_l|].
    symmetry. rewrite andb_true_iff, Z.leb_le, Z.ltb_lt. Z.to_euclidean_division_equations; lia. }
  assert (Ht : mark_page_reserved 0 t = set_allocated 0 true t).
  { unfold mark_page_reserved. destruct (page_states_bits t 0) as (E1 & E2 & E3).
    rewrite E3, E1, Hunk by (unfold valid_page, PMM_PAGE_COUNT; lia). done. }
  rewrite Ht.
  assert (Hst : forall p, valid_page p -> page_state_of (set_allocated 0 true t) p =
                if p =? 0 then PageReserved else PageUnknown).
  { intros p Hp. rewrite set_allocated_state by (done || apply Hp).
    rewrite Hunk by done. destruct (Z.eqb_spec p 0) as [->|]; [|done].
    destruct (page_states_bits t 0) as (E1 & _). by rewrite E1, Hunk. }
  split; [|by split].
  split.
  - apply set_allocated_words. intros w. simpl. rewrite Hm, Ha.
    destruct (_ && _); [done|apply Hw].
  - symmetry. apply count_range_none. intros p Hp. rewrite Hst by done. by destruct (p =? 0).
  - symmetry. apply count_range_none. intros p Hp. rewrite Hst by done. by destruct (p =? 0).
  - by rewrite Hst.
Qed.

(** ** Runs of operations *)

Fixpoint pmm_run (ops : list pmm_op) (s : pmm) : list pmm_ret * pmm :=
  match ops with
  | [] => ([], s)
  | op :: ops' =>
      let '(r, s1) := pmm_exec op s in
      let '(rs, s2) := pmm_run ops' s1 in (r :: rs, s2)
  end.

Fixpoint spec_run (ops : list pmm_op) (a : pmm_spec) : list pmm_ret * pmm_spec :=
  match ops with
  | [] => ([], a)
  | op :: ops' =>
      let '(r, a1) := spec_exec op a in
      let '(rs, a2) := spec_run ops' a1 in (r :: rs, a2)
  end.

Lemma pmm_run_simulation ops s a :
  pmm_inv s -> pmm_refines s a -> Forall op_args_ok ops ->
  fst (pmm_run ops s) = fst (spec_run ops a) /\
  pmm_inv (snd (pmm_run ops s)) /\ pmm_refines (snd (pmm_run ops s)) (snd (spec_run ops a)).
Proof.
  revert s a. induction ops as [|op ops IH]; intros s a Hi Hr Hok; [done|].
  inversion Hok as [|? ? Hop Hops]; subst.
  pose proof (pmm_exec_refines op s a Hi Hr Hop) as (Hret & Hi1 & Hr1). simpl.
  destruct (pmm_exec op s) as [r s1], (spec_exec op a) as [r' a1]. simpl in *. subst r'.
  destruct (IH s1 a1 Hi1 Hr1 Hops) as (Hrets & Hi2 & Hr2).
  destruct (pmm_run ops s1), (spec_run ops a1). simpl in *. by subst.
Qed.

(** The abstract state of any allocator state, to reuse the simulation. *)
Definition pmm_abs (s : pmm) : pmm_spec := mk_spec (page_state_of s) (ownership_frozen s).

Lemma pmm_abs_refines s : pmm_refines s (pmm_abs s).
Proof. by split. Qed.

Lemma pmm_run_inv ops s :
  pmm_inv s -> Forall op_args_ok ops -> pmm_inv (snd (pmm_run ops s)).
Proof. intros Hi Hok. by apply (pmm_run_simulation ops s (pmm_abs s) Hi (pmm_abs_refines s)). Qed.

#[export] Hint Resolve pmm_run_inv pmm_abs_refines : pmm.

(** One operation seen from one page: what can happen to its state. *)
Definition page_evolves (op : pmm_op) (r : pmm_ret) (p : Z) (st st' : page_state) : Prop :=
  match st with
  | PageReserved => st' = PageReserved /\ r <> RetAddr (p * PMM_PAGE_SIZE)
  | PageAllocated =>
      r <> RetAddr (p * PMM_PAGE_SIZE) /\
      (op <> OpFreePage (p * PMM_PAGE_SIZE) -> st' = PageAllocated)
  | _ => True
  end.

Lemma spec_alloc_cases a :
  (exists q, valid_page q /\ spec_pages a q = PageFree /\
     spec_alloc a = (q * PMM_PAGE_SIZE, mk_spec (spec_update (spec_pages a) q PageAllocated) true)) \/
  spec_alloc a = (0, mk_spec (spec_pages a) true).
Proof.
  unfold spec_alloc. destruct (find_range _ _ _) as [q|] eqn:E; [left|by right].
  apply find_range_Some in E as (Hq & Hf & _). exists q.
  by apply bool_decide_eq_true in Hf.
Qed.

Lemma spec_alloc_evolves a p :
  0 < p -> page_evolves OpAllocPage (fst (spec_exec OpAllocPage a)) p
    (spec_pages a p) (spec_pages (snd (spec_exec OpAllocPage a)) p).
Proof.
  intros Hp. cbv beta iota delta [spec_exec page_evolves].
  destruct (spec_alloc_cases a) as [(q & _ & Hq & ->)| ->];
    cbn [prod_map fst snd id spec_pages].
  - unfold spec_update. destruct (Z.eqb_spec p q) as [->|Hne]; [by rewrite Hq|].
    assert (RetAddr (q * PMM_PAGE_SIZE) <> RetAddr (p * PMM_PAGE_SIZE)).
    { intros [= E]. unfold PMM_PAGE_SIZE in E. lia. }
    by destruct (spec_pages a p).
  - assert (RetAddr 0 <> RetAddr (p * PMM_PAGE_SIZE)).
    { intros [= E']. unfold PMM_PAGE_SIZE in E'. lia. }
    by destruct (spec_pages a p).
Qed.

Lemma spec_free_evolves addr a p :
  page_evolves (OpFreePage addr) (fst (spec_exec (OpFreePage addr) a)) p
    (spec_pages a p) (spec_pages (snd (spec_exec (OpFreePage addr) a)) p).
Proof.
  unfold page_evolves, spec_exec, spec_free.
  destruct (Z.eqb_spec (addr mod PMM_PAGE_SIZE) 0) as [Ea|]; simpl;
    [|by destruct (spec_pages a p)].
  destruct (bool_decide _) eqn:Es; simpl; [|by destruct (spec_pages a p)].
  apply bool_decide_eq_true in Es.
  unfold spec_update. destruct (Z.eqb_spec p (addr / PMM_PAGE_SIZE)) as [Hpa|];
    [|by destruct (spec_pages a p)].
  rewrite <-Hpa in Es. rewrite Es. split; [done|]. intros []. f_equal.
  unfold PMM_PAGE_SIZE in *. Z.to_euclidean_division_equations; lia.
Qed.

Lemma spec_exec_evolves op a p :
  0 < p -> page_evolves op (fst (spec_exec op a)) p
    (spec_pages a p) (spec_pages (snd (spec_exec op a)) p).
Proof.
  intros Hp. destruct op as [b l|b l| |addr];
    [| |by apply spec_alloc_evolves|by apply spec_free_evolves];
    unfold page_evolves, spec_exec, spec_add, spec_reserve;
    destruct (_ || _); simpl; destruct (spec_pages a p); try done; by destruct (_ && _).
Qed.

Lemma pmm_exec_evolves op s p :
  pmm_inv s -> op_args_ok op -> valid_page p -> 0 < p ->
  page_evolves op (fst (pmm_exec op s)) p
    (page_state_of s p) (page_state_of (snd (pmm_exec op s)) p).
Proof.
  intros Hi Hop Hp H0.
  destruct (pmm_exec_refines op s (pmm_abs s) Hi (pmm_abs_refines s) Hop) as (-> & _ & [Hst _]).
  rewrite (Hst p Hp). by apply (spec_exec_evolves op (pmm_abs s)).
Qed.

Lemma reserved_run ops s p :
  pmm_inv s -> Forall op_args_ok ops -> valid_page p -> 0 < p ->
  page_state_of s p = PageReserved ->
  page_state_of (snd (pmm_run ops s)) p = PageReserved /\
  Forall (fun r => r <> RetAddr (p * PMM_PAGE_SIZE)) (fst (pmm_run ops s)).
Proof.
  revert s. induction ops as [|op ops IH]; intros s Hi Hok Hp H0 Hst; [by split|].
  inversion Hok as [|? ? Hop Hops]; subst.
  pose proof (pmm_exec_evolves op s p Hi Hop Hp H0) as Hev.
  pose proof (pmm_exec_refines op s _ Hi (pmm_abs_refines s) Hop) as (_ & Hi1 & _).
  rewrite Hst in Hev. simpl. destruct (pmm_exec op s) as [r s1]. simpl in *.
  destruct Hev as [Hst1 Hr]. destruct (IH s1 Hi1 Hops Hp H0 Hst1) as [H1 H2].
  destruct (pmm_run ops s1). simpl in *. split; [done|by constructor].
Qed.

Lemma allocated_run ops s p :
  pmm_inv s -> Forall op_args_ok ops -> valid_page p -> 0 < p ->
  page_state_of s p = PageAllocated -> OpFreePage (p * PMM_PAGE_SIZE) ∉ ops ->
  page_state_of (snd (pmm_run ops s)) p = PageAllocated /\
  Forall (fun r => r <> RetAddr (p * PMM_PAGE_SIZE)) (fst (pmm_run ops s)).
Proof.
  revert s. induction ops as [|op ops IH]; intros s Hi Hok Hp H0 Hst Hnf; [by split|].
  inversion Hok as [|? ? Hop Hops]; subst. apply not_elem_of_cons in Hnf as [Hne Hnf].
  pose proof (pmm_exec_evolves op s p Hi Hop Hp H0) as Hev.
  pose proof (pmm_exec_refines op s _ Hi (pmm_abs_refines s) Hop) as (_ & Hi1 & _).
  rewrite Hst in Hev. simpl. destruct (pmm_exec op s) as [r s1]. simpl in *.
  destruct Hev as [Hr Hst1]. destruct (IH s1 Hi1 Hops Hp H0) as [H1 H2]; [by apply Hst1|done|].
  destruct (pmm_run ops s1). simpl in *. split; [done|by constructor].
Qed.

Lemma pmm_alloc_success s a s1 :
  pmm_inv s -> pmm_alloc_page s = (a, s1) -> a <> 0 ->
  exists p, valid_page p /\ 0 < p /\ a = p * PMM_PAGE_SIZE /\ pmm_inv s1 /\
    page_state_of s p = PageFree /\
    pages_equiv (page_state_of s1) (spec_update (page_state_of s) p PageAllocated).
Proof.
  intros Hi E Ha. pose proof (pmm_alloc_page_refines s (pmm_abs s) Hi (pmm_abs_refines s)) as H.
  rewrite E in H. destruct (spec_alloc_cases (pmm_abs s)) as [(q & Hv & Hq & Eq)|Eq];
    rewrite Eq in H; destruct H as (-> & Hi1 & [Hst _]); [|done].
  exists q. assert (q <> 0) by (intros ->; unfold PMM_PAGE_SIZE in Ha; lia).
  unfold valid_page in Hv. by split_and!; try lia.
Qed.

Lemma pmm_free_page_at p s :
  valid_page p -> pmm_inv s ->
  let '(ok, s') := pmm_free_page (p * PMM_PAGE_SIZE) s in
  ok = bool_decide (page_state_of s p = PageAllocated) /\ pmm_inv s' /\
  pages_equiv (page_state_of s')
    (if bool_decide (page_state_of s p = PageAllocated)
     then spec_update (page_state_of s) p PageFree else page_state_of s).
Proof.
  intros Hp Hi.
  assert (Ha32 : is_u32 (p * PMM_PAGE_SIZE)).
  { unfold is_u32, valid_page, PMM_PAGE_COUNT, PMM_PAGE_SIZE in *. lia. }
  pose proof (pmm_free_page_refines _ s _ Hi (pmm_abs_refines s) Ha32) as H.
  destruct (pmm_free_page _ s) as [ok s']. unfold spec_free in H.
  replace (p * PMM_PAGE_SIZE / PMM_PAGE_SIZE) with p in H
    by (unfold PMM_PAGE_SIZE; Z.to_euclidean_division_equations; lia).
  replace ((p * PMM_PAGE_SIZE) mod PMM_PAGE_SIZE) with 0 in H
    by (unfold PMM_PAGE_SIZE; Z.to_euclidean_division_equations; lia).
  cbn [Z.eqb andb spec_pages pmm_abs] in H.
  destruct (bool_decide _); destruct H as (-> & Hi' & [Hst _]); by split_and!.
Qed.

Lemma inv_counts_range s :
  pmm_inv s -> 0 <= free_pages s <= total_pages s /\ total_pages s < PMM_PAGE_COUNT.
Proof.
  intros Hi. rewrite (inv_total _ Hi), (inv_free _ Hi).
  set (fm := fun p => st_managed (page_state_of s p)).
  set (ff := fun p => st_free (page_state_of s p)).
  split.
  - split; [apply count_range_nonneg|].
    assert (H : forall n lo, count_loop n lo ff <= count_loop n lo fm); [|apply H].
    induction n as [|n IH]; intros lo; cbn [count_loop]; [lia|].
    specialize (IH (lo + 1)). unfold ff at 1, fm at 1.
    destruct (page_state_of s lo); simpl; lia.
  - pose proof (count_range_update 0 PMM_PAGE_COUNT fm (fun p => if p =? 0 then true else fm p) 0)
      as H. cbv beta in H. rewrite Z.eqb_refl in H.
    assert (E0 : fm 0 = false) by (unfold fm; by rewrite (inv_page0 _ Hi)).
    rewrite E0 in H. simpl Z.b2z in H.
    pose proof (count_range_nonneg 0 PMM_PAGE_COUNT (fun p => if p =? 0 then true else fm p)).
    rewrite H in H0; unfold PMM_PAGE_COUNT in *; [lia|lia|].
    intros i _ Hne. apply Z.eqb_neq in Hne. by rewrite Hne.
Qed.

(** Example states and runs used below. *)
Definition pmm_demo_ops : list pmm_op :=
  [OpAddUsable 1048576 16384; OpReserve 1048576 4097; OpAllocPage; OpAllocPage; OpAllocPage;
   OpFreePage 1060864; OpFreePage 1060864; OpAddUsable 0 4096].

Example pmm_demo_run :
  fst (pmm_run pmm_demo_ops (mk_pmm ∅ {[0 := 1]} 0 0 false)) =
  [RetBool true; RetBool true; RetAddr 1056768; RetAddr 1060864; RetAddr 0;
   RetBool true; RetBool false; RetBool false].
Proof. vm_compute. reflexivity. Qed.

Lemma pmm_demo_ops_ok : Forall op_args_ok pmm_demo_ops.
Proof. repeat constructor; simpl; unfold is_u64, is_u32; lia. Qed.

Lemma pmm_static_words : words_ok pmm_static.
Proof. by intros w. Qed.

Definition pmm_demo_setup : list pmm_op := [OpAddUsable 1048576 16384; OpReserve 1048576 4097].
Definition pmm_demo_state : pmm := snd (pmm_run pmm_demo_setup (pmm_reset pmm_static)).

Lemma pmm_demo_setup_ok : Forall op_args_ok pmm_demo_setup.
Proof. repeat constructor; simpl; unfold is_u64, is_u32; lia. Qed.

Lemma pmm_demo_state_ok :
  pmm_inv pmm_demo_state /\ pmm_refines pmm_demo_state (snd (spec_run pmm_demo_setup spec_reset)).
Proof.
  destruct (pmm_reset_ok pmm_static pmm_static_words) as [Hi Hr].
  by destruct (pmm_run_simulation pmm_demo_setup _ _ Hi Hr pmm_demo_setup_ok) as (_ & H).
Qed.

Lemma pmm_demo_reserved : page_state_of pmm_demo_state 256 = PageReserved.
Proof.
  destruct pmm_demo_state_ok as [_ [Hst _]]. rewrite Hst; [reflexivity|].
  unfold valid_page, PMM_PAGE_COUNT. lia.
Qed.

Lemma pmm_demo_alloc : fst (pmm_alloc_page pmm_demo_state) = 1056768.
Proof.
  destruct pmm_demo_state_ok as [Hi Hr].
  pose proof (pmm_alloc_page_refines _ _ Hi Hr) as H.
  assert (E : fst (spec_alloc (snd (spec_run pmm_demo_setup spec_reset))) = 1056768)
    by (vm_compute; reflexivity).
  destruct (pmm_alloc_page pmm_demo_state) as [r s']. rewrite <-E. cbn [fst].
  destruct (spec_alloc _). exact (proj1 H).
Qed.

Lemma pmm_demo_alloc_eq :
  pmm_alloc_page pmm_demo_state = (1056768, snd (pmm_alloc_page pmm_demo_state)).
Proof.
  pose proof pmm_demo_alloc as E. destruct (pmm_alloc_page pmm_demo_state) as [a s].
  exact (f_equal (fun x => (x, s)) E).
Qed.

(** ** Properties *)

(** C9: after [pmm_reset], any sequence of add, reserve, alloc and free calls
    returns exactly what the abstract page-state machine returns and leaves
    the bitmaps describing that machine's page map: usable regions contribute
    only whole pages, reservations cover every page they touch and win over
    usable regions, allocation takes the lowest free page, a page is freed
    only while allocated, and regions are refused after the first
    allocation. *)
Theorem pmm_run_refines s ops :
  words_ok s -> Forall op_args_ok ops ->
  fst (pmm_run ops (pmm_reset s)) = fst (spec_run ops spec_reset) /\
  pmm_refines (snd (pmm_run ops (pmm_reset s))) (snd (spec_run ops spec_reset)).
Proof.
  intros Hw Hok. destruct (pmm_reset_ok s Hw) as [Hi Hr].
  destruct (pmm_run_simulation ops _ _ Hi Hr Hok) as (H1 & _ & H2). by split.
Qed.

Lemma pmm_run_refines_witness :
  fst (pmm_run pmm_demo_ops (pmm_reset pmm_static)) = fst (spec_run pmm_demo_ops spec_reset) /\
  pmm_refines (snd (pmm_run pmm_demo_ops (pmm_reset pmm_static)))
    (snd (spec_run pmm_demo_ops spec_reset)).
Proof. exact (pmm_run_refines pmm_static pmm_demo_ops pmm_static_words pmm_demo_ops_ok). Defined.

(** In every state reachable from [pmm_reset] the two reported counters
    are the exact numbers of free and of managed pages of the bitmaps, free
    never exceeds total, total stays below the number of physical pages (no
    wrap-around of either counter), and page 0 is reserved. *)
Theorem pmm_counters_exact s ops :
  words_ok s -> Forall op_args_ok ops ->
  let s' := snd (pmm_run ops (pmm_reset s)) in
  pmm_free_page_count s' =
    count_range 0 PMM_PAGE_COUNT (fun p => st_free (page_state_of s' p)) /\
  pmm_total_page_count s' =
    count_range 0 PMM_PAGE_COUNT (fun p => st_managed (page_state_of s' p)) /\
  0 <= pmm_free_page_count s' <= pmm_total_page_count s' /\
  pmm_total_page_count s' < PMM_PAGE_COUNT /\
  page_state_of s' 0 = PageReserved.
Proof.
  intros Hw Hok s'. assert (Hi : pmm_inv s').
  { apply pmm_run_inv; [by apply pmm_reset_ok|done]. }
  pose proof (inv_counts_range s' Hi). unfold pmm_free_page_count, pmm_total_page_count.
  split; [apply Hi|]. split; [apply Hi|]. split; [lia|]. split; [lia|]. apply Hi.
Qed.

Lemma pmm_counters_exact_witness :
  0 <= pmm_free_page_count (snd (pmm_run pmm_demo_ops (pmm_reset pmm_static)))
    <= pmm_total_page_count (snd (pmm_run pmm_demo_ops (pmm_reset pmm_static))).
Proof.
  exact (proj1 (proj2 (proj2
    (pmm_counters_exact pmm_static pmm_demo_ops pmm_static_words pmm_demo_ops_ok)))).
Defined.

(** Reserved wins. A page reserved in a state reachable from [pmm_reset]
    stays reserved through every later sequence of operations, and no
    allocation of that sequence returns its address. *)
Theorem reserved_page_never_handed_out s ops1 ops2 p :
  words_ok s -> Forall op_args_ok ops1 -> Forall op_args_ok ops2 ->
  valid_page p -> 0 < p ->
  let s1 := snd (pmm_run ops1 (pmm_reset s)) in
  page_state_of s1 p = PageReserved ->
  page_state_of (snd (pmm_run ops2 s1)) p = PageReserved /\
  Forall (fun r => r <> RetAddr (p * PMM_PAGE_SIZE)) (fst (pmm_run ops2 s1)).
Proof.
  intros Hw Hok1 Hok2 Hp H0 s1 Hst. apply reserved_run; [|done..].
  apply pmm_run_inv; [by apply pmm_reset_ok|done].
Qed.

Lemma reserved_page_never_handed_out_witness :
  Forall (fun r => r <> RetAddr (256 * PMM_PAGE_SIZE))
    (fst (pmm_run [OpAllocPage; OpAllocPage; OpAllocPage] pmm_demo_state)).
Proof.
  apply (reserved_page_never_handed_out pmm_static pmm_demo_setup
    [OpAllocPage; OpAllocPage; OpAllocPage] 256).
  - exact pmm_static_words.
  - exact pmm_demo_setup_ok.
  - repeat constructor.
  - unfold valid_page, PMM_PAGE_COUNT. lia.
  - lia.
  - exact pmm_demo_reserved.
Defined.

(** An address returned by [pmm_alloc_page] is not returned again by any
    later sequence of operations that does not free it: live allocations are
    pairwise distinct pages. *)
Theorem allocated_page_not_reissued s ops1 a s1 ops2 :
  words_ok s -> Forall op_args_ok ops1 -> Forall op_args_ok ops2 ->
  pmm_alloc_page (snd (pmm_run ops1 (pmm_reset s))) = (a, s1) -> a <> 0 ->
  OpFreePage a ∉ ops2 ->
  RetAddr a ∉ fst (pmm_run ops2 s1).
Proof.
  intros Hw Hok1 Hok2 E Ha Hnf.
  assert (Hi : pmm_inv (snd (pmm_run ops1 (pmm_reset s)))).
  { apply pmm_run_inv; [by apply pmm_reset_ok|done]. }
  destruct (pmm_alloc_success _ _ _ Hi E Ha) as (p & Hp & H0 & -> & Hi1 & _ & Hst).
  assert (Hal : page_state_of s1 p = PageAllocated).
  { rewrite (Hst p Hp). unfold spec_update. by rewrite Z.eqb_refl. }
  destruct (allocated_run ops2 s1 p Hi1 Hok2 Hp H0 Hal Hnf) as [_ Hall].
  rewrite Forall_forall in Hall. intros Hin%list_elem_of_In. by apply (Hall _ Hin).
Qed.

Lemma allocated_page_not_reissued_witness :
  RetAddr 1056768 ∉ fst (pmm_run [OpAllocPage; OpFreePage 1060864]
    (snd (pmm_alloc_page pmm_demo_state))).
Proof.
  apply (allocated_page_not_reissued pmm_static pmm_demo_setup 1056768 _
    [OpAllocPage; OpFreePage 1060864]).
  - exact pmm_static_words.
  - exact pmm_demo_setup_ok.
  - repeat constructor; unfold is_u32; lia.
  - exact pmm_demo_alloc_eq.
  - lia.
  - rewrite list_elem_of_In. simpl. intros [H|[H|H]]; congruence.
Defined.

(** A successful allocation followed by freeing its address succeeds,
    restores the state of every page and the free count, and freeing the same
    address a second time is rejected. *)
Theorem pmm_alloc_free_roundtrip s a s1 :
  pmm_inv s -> pmm_alloc_page s = (a, s1) -> a <> 0 ->
  let '(ok, s2) := pmm_free_page a s1 in
  ok = true /\ pages_equiv (page_state_of s2) (page_state_of s) /\
  pmm_free_page_count s2 = pmm_free_page_count s /\ fst (pmm_free_page a s2) = false.
Proof.
  intros Hi E Ha.
  destruct (pmm_alloc_success _ _ _ Hi E Ha) as (p & Hp & H0 & -> & Hi1 & Hfree & Hst).
  pose proof (pmm_free_page_at p s1 Hp Hi1) as H.
  destruct (pmm_free_page _ s1) as [ok s2].
  assert (E1 : page_state_of s1 p = PageAllocated).
  { rewrite (Hst p Hp). unfold spec_update. by rewrite Z.eqb_refl. }
  rewrite E1, bool_decide_eq_true_2 in H by done.
  destruct H as (-> & Hi2 & Hst2).
  assert (Heq : pages_equiv (page_state_of s2) (page_state_of s)).
  { intros q Hq. rewrite (Hst2 q Hq). unfold spec_update at 1.
    destruct (Z.eqb_spec q p) as [->|Hne]; [by rewrite Hfree|].
    rewrite (Hst q Hq). unfold spec_update. apply Z.eqb_neq in Hne. by rewrite Hne. }
  split; [done|]. split; [done|]. split.
  - unfold pmm_free_page_count. rewrite (inv_free _ Hi2), (inv_free _ Hi).
    apply count_range_ext. intros q Hq. by rewrite Heq.
  - pose proof (pmm_free_page_at p s2 Hp Hi2) as H.
    destruct (pmm_free_page _ s2) as [ok' s3].
    assert (E2 : page_state_of s2 p = PageFree) by (by rewrite (Heq p Hp)).
    rewrite E2 in H. by destruct H as (-> & _).
Qed.

Lemma pmm_alloc_free_roundtrip_witness :
  pmm_free_page_count (snd (pmm_free_page 1056768 (snd (pmm_alloc_page pmm_demo_state))))
    = pmm_free_page_count pmm_demo_state.
Proof.
  pose proof (pmm_alloc_free_roundtrip pmm_demo_state 1056768
    (snd (pmm_alloc_page pmm_demo_state)) (proj1 pmm_demo_state_ok) pmm_demo_alloc_eq
    ltac:(lia)) as H.
  destruct (pmm_free_page _ _) as [ok s2]. exact (proj1 (proj2 (proj2 H))).
Defined.
