(* ===== verification/Memory.v ===== *)
(** * Byte-addressed memory

    The memory the heap and the task stacks live in: a map from addresses to
    bytes, read and written as 32-bit little-endian words the way the i386
    does. *)
From S2P Require Import Prelude.

Definition NULL : Z := 0.

(** A cell holds a byte whatever integer the map has at the address. *)
Definition load32 (m : static_array) (a : Z) : Z :=
  u8 (zget m a) + 256 * u8 (zget m (a + 1)) +
  65536 * u8 (zget m (a + 2)) + 16777216 * u8 (zget m (a + 3)).

Definition store32 (m : static_array) (a v : Z) : static_array :=
  zset (zset (zset (zset m a (u8 v)) (a + 1) (u8 (v / 256)))
    (a + 2) (u8 (v / 65536))) (a + 3) (u8 (v / 16777216)).

Lemma load32_range m a : is_u32 (load32 m a).
Proof.
  unfold load32, is_u32.
  pose proof (u8_range (zget m a)). pose proof (u8_range (zget m (a + 1))).
  pose proof (u8_range (zget m (a + 2))). pose proof (u8_range (zget m (a + 3))).
  unfold is_u8 in *. lia.
Qed.

Lemma u8_u8 z : u8 (u8 z) = u8 z.
Proof. apply u8_small, u8_range. Qed.

Lemma load32_store32_eq m a v : is_u32 v -> load32 (store32 m a v) a = v.
Proof.
  intros Hv. unfold load32, store32. rewrite !zget_zset.
  repeat match goal with |- context [?x =? ?y] =>
    first [rewrite (proj2 (Z.eqb_eq x y)) by lia | rewrite (proj2 (Z.eqb_neq x y)) by lia] end.
  rewrite !u8_u8. unfold is_u32 in Hv. unfold u8.
  Z.to_euclidean_division_equations. lia.
Qed.

Lemma zget_store32_ne m a v x : x < a \/ a + 4 <= x -> zget (store32 m a v) x = zget m x.
Proof. intros H. unfold store32. rewrite !zget_zset_ne by lia. done. Qed.

Lemma load32_ext m m' a : (forall x, a <= x < a + 4 -> zget m' x = zget m x) -> load32 m' a = load32 m a.
Proof. intros H. unfold load32. by rewrite !H by lia. Qed.

Lemma load32_store32_ne m a v b : b + 4 <= a \/ a + 4 <= b -> load32 (store32 m a v) b = load32 m b.
Proof. intros H. apply load32_ext. intros x Hx. apply zget_store32_ne. lia. Qed.

Create Rewrite HintDb mem.
#[export] Hint Rewrite load32_store32_eq using (unfold is_u32 in *; lia) : mem.
#[export] Hint Rewrite load32_store32_ne using lia : mem.
