(* ===== verification/Heap.v ===== *)
(** * Kernel heap (src/kernel/mm/heap.c)

    A first-fit allocator over a static 256 KiB arena, modelled down to the
    bytes: memory is a map from addresses to bytes, a [struct heap_block] is
    32 bytes of it (five 32-bit little-endian fields and padding to the
    16-byte alignment), pointers are addresses and NULL is 0.  The arena's
    address is chosen by the linker: it is the parameter [arena]. *)
From S2P Require Import Prelude Memory.

Definition KHEAP_ARENA_SIZE : Z := 256 * 1024.
Definition KHEAP_ALIGNMENT : Z := 16.
Definition HEAP_BLOCK_FREE : Z := 1.
Definition HEAP_BLOCK_ALLOCATED : Z := 2.
Definition HEAP_BLOCK_MAGIC : Z := 0x48454150.
Definition SIZEOF_HEAP_BLOCK : Z := 32.
Definition SIZE_MAX : Z := UINT32_MAX.

(** The fields of [struct heap_block] at an address. *)
Definition block_magic (m : static_array) (b : Z) : Z := load32 m b.
Definition block_state (m : static_array) (b : Z) : Z := load32 m (b + 4).
Definition block_payload_size (m : static_array) (b : Z) : Z := load32 m (b + 8).
Definition block_previous (m : static_array) (b : Z) : Z := load32 m (b + 12).
Definition block_next (m : static_array) (b : Z) : Z := load32 m (b + 16).

Definition set_magic (b v : Z) (m : static_array) : static_array := store32 m b v.
Definition set_state (b v : Z) (m : static_array) : static_array := store32 m (b + 4) v.
Definition set_payload_size (b v : Z) (m : static_array) : static_array := store32 m (b + 8) v.
Definition set_previous (b v : Z) (m : static_array) : static_array := store32 m (b + 12) v.
Definition set_next (b v : Z) (m : static_array) : static_array := store32 m (b + 16) v.

(** The statics; [heap_arena] is part of the memory. *)
Record heap := mk_heap {
  memory : static_array;
  first_block : Z;
  heap_initialized : bool;
}.

Record heap_stats := mk_stats {
  total_bytes : Z;
  free_bytes : Z;
  largest_free_block : Z;
  allocated_blocks : Z;
}.

(** How a bounded loop over the block list ends. *)
Inductive search := SearchFuel | SearchNull | SearchAt (block : Z).

(** How the loop of [inspect_heap] ends: out of fuel, at an inconsistency, or
    at the last block with its counters. *)
Inductive inspection :=
| InspectFuel
| InspectBad
| InspectEnd (payload_bytes block_count : Z) (measured : heap_stats).

Section Heap.
Variable arena : Z.

Definition arena_begin : Z := arena.
Definition arena_end : Z := u32 (arena_begin + KHEAP_ARENA_SIZE).

Definition block_payload (block : Z) : Z := u32 (block + SIZEOF_HEAP_BLOCK).

Definition align_request (size : Z) : option Z :=
  let mask := KHEAP_ALIGNMENT - 1 in
  if (size == 0) || (size >? SIZE_MAX - mask) then None
  else Some (u32 (size + mask) .& not32 mask).

Definition total_capacity : Z := KHEAP_ARENA_SIZE - SIZEOF_HEAP_BLOCK.
Definition maximum_blocks : Z := KHEAP_ARENA_SIZE / SIZEOF_HEAP_BLOCK.

(** The update of [measured] for one block. *)
Definition measure_block (is_free previous_was_free : bool) (size : Z) (measured : heap_stats)
  : option heap_stats :=
  if is_free then
    if previous_was_free || (free_bytes measured >? SIZE_MAX - size) then None
    else Some (mk_stats (total_bytes measured) (u32 (free_bytes measured + size))
      (if size >? largest_free_block measured then size else largest_free_block measured)
      (allocated_blocks measured))
  else
    if allocated_blocks measured == UINT32_MAX then None
    else Some (mk_stats (total_bytes measured) (free_bytes measured)
      (largest_free_block measured) (u32 (allocated_blocks measured + 1))).

Fixpoint inspect_loop (fuel : nat) (m : static_array) (cursor previous payload_bytes block_count : Z)
    (previous_was_free : bool) (measured : heap_stats) : inspection :=
  match fuel with
  | O => InspectFuel
  | S fuel =>
      if (block_count >=? maximum_blocks)
         || (cursor .& (KHEAP_ALIGNMENT - 1) != 0)
         || (cursor >? u32 (arena_end - SIZEOF_HEAP_BLOCK)) then InspectBad
      else
        let block := cursor in
        let size := block_payload_size m block in
        if (block_magic m block != HEAP_BLOCK_MAGIC)
           || ((block_state m block != HEAP_BLOCK_FREE)
               && (block_state m block != HEAP_BLOCK_ALLOCATED))
           || (block_previous m block != previous)
           || (size <? KHEAP_ALIGNMENT)
           || (size .& (KHEAP_ALIGNMENT - 1) != 0) then InspectBad
        else
          let payload_start := u32 (cursor + SIZEOF_HEAP_BLOCK) in
          if size >? u32 (arena_end - payload_start) then InspectBad
          else
            let block_end := u32 (payload_start + size) in
            if payload_bytes >? SIZE_MAX - size then InspectBad
            else
              let payload_bytes := u32 (payload_bytes + size) in
              let block_count := u32 (block_count + 1) in
              let is_free := block_state m block == HEAP_BLOCK_FREE in
              match measure_block is_free previous_was_free size measured with
              | None => InspectBad
              | Some measured =>
                  if block_next m block == NULL then
                    if block_end != arena_end then InspectBad
                    else InspectEnd payload_bytes block_count measured
                  else if (block_end >=? arena_end) || (block_next m block != block_end)
                  then InspectBad
                  else inspect_loop fuel m block_end block payload_bytes block_count is_free measured
              end
  end.

(** One pass per block and at most [maximum_blocks] passes that go on. *)
Definition heap_fuel : nat := Z.to_nat (maximum_blocks + 1).

Definition inspect_heap (h : heap) : option heap_stats :=
  if negb (heap_initialized h)
     || (first_block h != arena_begin)
     || (arena_begin >? UINT32_MAX - KHEAP_ARENA_SIZE) then None
  else
    match inspect_loop heap_fuel (memory h) arena_begin NULL 0 0 false
            (mk_stats total_capacity 0 0 0) with
    | InspectEnd payload_bytes block_count measured =>
        if (block_count == 0) || (block_count - 1 >? SIZE_MAX / SIZEOF_HEAP_BLOCK) then None
        else
          let extra_metadata := u32 ((block_count - 1) * SIZEOF_HEAP_BLOCK) in
          if (payload_bytes >? total_capacity)
             || (extra_metadata != u32 (total_capacity - payload_bytes))
             || (free_bytes measured >? total_capacity)
             || (largest_free_block measured >? free_bytes measured) then None
          else Some measured
    | _ => None
    end.

Definition inspect_ok (h : heap) : bool :=
  match inspect_heap h with
  | Some _ => true
  | None => false
  end.

Definition invalidate_block (block : Z) (m : static_array) : static_array :=
  set_next block NULL (set_previous block NULL
    (set_payload_size block 0 (set_state block 0 (set_magic block 0 m)))).

(** Returns the memory; the block returned is [left] itself. *)
Definition merge_with_next (left : Z) (m : static_array) : static_array :=
  let right := block_next m left in
  let after := block_next m right in
  let m := set_payload_size left
    (u32 (block_payload_size m left + u32 (SIZEOF_HEAP_BLOCK + block_payload_size m right))) m in
  let m := set_next left after m in
  let m := if after != NULL then set_previous after left m else m in
  invalidate_block right m.

Definition kheap_init (h : heap) : bool * heap :=
  let m := for_range 0 KHEAP_ARENA_SIZE (fun index m => zset m (arena + index) 0) (memory h) in
  let b := arena in
  let m := set_next b NULL (set_previous b NULL
    (set_payload_size b (KHEAP_ARENA_SIZE - SIZEOF_HEAP_BLOCK)
      (set_state b HEAP_BLOCK_FREE (set_magic b HEAP_BLOCK_MAGIC m)))) in
  let h := mk_heap m b true in
  if negb (inspect_ok h) then (false, mk_heap m NULL false) else (true, h).

(** The first free block that is large enough. *)
Fixpoint find_fit (fuel : nat) (m : static_array) (block aligned_size : Z) : search :=
  match fuel with
  | O => SearchFuel
  | S fuel =>
      if block == NULL then SearchNull
      else if (block_state m block == HEAP_BLOCK_FREE)
              && (block_payload_size m block >=? aligned_size) then SearchAt block
      else find_fit fuel m (block_next m block) aligned_size
  end.

(** Taking [aligned_size] bytes from a free block, splitting it when a header
    and a minimal payload remain. *)
Definition take_block (block aligned_size : Z) (m : static_array) : static_array :=
  let remaining := u32 (block_payload_size m block - aligned_size) in
  let m :=
    if remaining >=? SIZEOF_HEAP_BLOCK + KHEAP_ALIGNMENT then
      let split := u32 (block_payload block + aligned_size) in
      let m := set_magic split HEAP_BLOCK_MAGIC m in
      let m := set_state split HEAP_BLOCK_FREE m in
      let m := set_payload_size split (u32 (remaining - SIZEOF_HEAP_BLOCK)) m in
      let m := set_previous split block m in
      let m := set_next split (block_next m block) m in
      let m := if block_next m split != NULL
               then set_previous (block_next m split) split m else m in
      let m := set_payload_size block aligned_size m in
      set_next block split m
    else m in
  set_state block HEAP_BLOCK_ALLOCATED m.

(** [None] is running out of fuel. *)
Definition kmalloc (h : heap) (size : Z) : option (Z * heap) :=
  match align_request size with
  | None => Some (NULL, h)
  | Some aligned_size =>
      if negb (inspect_ok h) then Some (NULL, h)
      else match find_fit heap_fuel (memory h) (first_block h) aligned_size with
      | SearchFuel => None
      | SearchNull => Some (NULL, h)
      | SearchAt block =>
          Some (block_payload block,
                mk_heap (take_block block aligned_size (memory h)) (first_block h) (heap_initialized h))
      end
  end.

Definition kcalloc (h : heap) (count size : Z) : option (Z * heap) :=
  if (count == 0) || (size == 0) || (size >? SIZE_MAX / count) then Some (NULL, h)
  else
    let total := u32 (count * size) in
    match kmalloc h total with
    | None => None
    | Some (p, h) =>
        if p == NULL then Some (NULL, h)
        else Some (p, mk_heap
          (for_range 0 total (fun index m => zset m (u32 (p + index)) 0) (memory h))
          (first_block h) (heap_initialized h))
    end.

(** The block whose payload starts at [address]. *)
Fixpoint find_owner (fuel : nat) (m : static_array) (block address : Z) : search :=
  match fuel with
  | O => SearchFuel
  | S fuel =>
      if block == NULL then SearchNull
      else if block_payload block == address then SearchAt block
      else find_owner fuel m (block_next m block) address
  end.

(** Freeing an allocated block and merging it with its free neighbours. *)
Definition release_block (block : Z) (m : static_array) : static_array :=
  let m := set_state block HEAP_BLOCK_FREE m in
  let previous := block_previous m block in
  let '(block, m) :=
    if (previous != NULL) && (block_state m previous == HEAP_BLOCK_FREE)
    then (previous, merge_with_next previous m) else (block, m) in
  let next := block_next m block in
  if (next != NULL) && (block_state m next == HEAP_BLOCK_FREE)
  then merge_with_next block m else m.

Definition kfree (h : heap) (pointer : Z) : option (bool * heap) :=
  let address := pointer in
  if (pointer == NULL)
     || (address <? u32 (arena_begin + SIZEOF_HEAP_BLOCK))
     || (address >=? arena_end)
     || (address .& (KHEAP_ALIGNMENT - 1) != 0)
     || negb (inspect_ok h) then Some (false, h)
  else match find_owner heap_fuel (memory h) (first_block h) address with
  | SearchFuel => None
  | SearchNull => Some (false, h)
  | SearchAt block =>
      if block_state (memory h) block != HEAP_BLOCK_ALLOCATED then Some (false, h)
      else Some (true, mk_heap (release_block block (memory h)) (first_block h) (heap_initialized h))
  end.

Definition kheap_get_stats (h : heap) (stats : option heap_stats) : bool * option heap_stats :=
  match stats with
  | None => (false, None)
  | Some _ =>
      match inspect_heap h with
      | None => (false, stats)
      | Some measured => (true, Some measured)
      end
  end.

Definition kheap_validate (h : heap) : bool := inspect_ok h.
End Heap.

(** ** Abstract heap: the blocks in address order *)

Record blk := Blk { b_size : Z; b_free : bool }.

Definition blk_span (b : blk) : Z := SIZEOF_HEAP_BLOCK + b_size b.

Fixpoint span (bs : list blk) : Z :=
  match bs with
  | [] => 0
  | b :: bs' => blk_span b + span bs'
  end.

Definition state_of (b : blk) : Z := if b_free b then HEAP_BLOCK_FREE else HEAP_BLOCK_ALLOCATED.

Definition blk_ok (b : blk) : Prop :=
  KHEAP_ALIGNMENT <= b_size b <= KHEAP_ARENA_SIZE /\ b_size b mod KHEAP_ALIGNMENT = 0.

(** The header of block [b] at address [a]. *)
Record header (m : static_array) (a previous next : Z) (b : blk) : Prop := {
  hd_magic : block_magic m a = HEAP_BLOCK_MAGIC;
  hd_state : block_state m a = state_of b;
  hd_size : block_payload_size m a = b_size b;
  hd_previous : block_previous m a = previous;
  hd_next : block_next m a = next;
}.

(** The blocks [bs] lie one after the other from [a], linked both ways; the
    first has [previous] behind it and the last points to [fin]. *)
Fixpoint seg (m : static_array) (previous a : Z) (bs : list blk) (fin : Z) : Prop :=
  match bs with
  | [] => True
  | b :: bs' =>
      header m a previous (match bs' with [] => fin | _ => a + blk_span b end) b /\
      blk_ok b /\ seg m a (a + blk_span b) bs' fin
  end.

(** The addresses that hold block metadata. *)
Fixpoint in_header (a : Z) (bs : list blk) (x : Z) : Prop :=
  match bs with
  | [] => False
  | b :: bs' => a <= x < a + SIZEOF_HEAP_BLOCK \/ in_header (a + blk_span b) bs' x
  end.

(** The address of the last block of [bs], or [previous] when there is none. *)
Fixpoint last_addr (previous a : Z) (bs : list blk) : Z :=
  match bs with
  | [] => previous
  | b :: bs' => last_addr a (a + blk_span b) bs'
  end.

(** No two free neighbours. *)
Fixpoint coalesced (previous_free : bool) (bs : list blk) : bool :=
  match bs with
  | [] => true
  | b :: bs' => negb (previous_free && b_free b) && coalesced (b_free b) bs'
  end.

Lemma span_app l r : span (l ++ r) = span l + span r.
Proof. induction l as [|b l IH]; simpl; [done|]. rewrite IH. lia. Qed.

Lemma last_addr_app p a l r : last_addr p a (l ++ r) = last_addr (last_addr p a l) (a + span l) r.
Proof.
  revert p a. induction l as [|b l IH]; intros p a; simpl; [by rewrite Z.add_0_r|].
  rewrite IH. f_equal. lia.
Qed.

Lemma seg_app m p a l r fin :
  seg m p a (l ++ r) fin <->
  seg m p a l (match r with [] => fin | _ => a + span l end) /\
  seg m (last_addr p a l) (a + span l) r fin.
Proof.
  revert p a. induction l as [|b l IH]; intros p a; simpl; [rewrite Z.add_0_r; tauto|].
  rewrite IH. replace (a + blk_span b + span l) with (a + (blk_span b + span l)) by lia.
  assert (Hn : match l ++ r with [] => fin | _ => a + blk_span b end =
    match l with
    | [] => match r with [] => fin | _ => a + (blk_span b + span l) end
    | _ => a + blk_span b
    end).
  { destruct l; [|done]. simpl. rewrite Z.add_0_r. by destruct r. }
  rewrite Hn. tauto.
Qed.

Lemma seg_blk_ok m p a bs fin : seg m p a bs fin -> Forall blk_ok bs.
Proof.
  revert p a. induction bs as [|b bs IH]; intros p a; simpl; [constructor|].
  intros (_ & Hb & Hs). constructor; [done|]. by eapply IH.
Qed.

Lemma span_nonneg bs : Forall blk_ok bs -> 0 <= 48 * Z.of_nat (length bs) <= span bs.
Proof.
  induction 1 as [|b bs Hb _ IH]; [done|]. destruct Hb as [Hb _].
  unfold KHEAP_ALIGNMENT in Hb. simpl length. cbn [span]. unfold blk_span, SIZEOF_HEAP_BLOCK. lia.
Qed.

Lemma span_mod bs : Forall blk_ok bs -> span bs mod 16 = 0.
Proof.
  induction 1 as [|b bs [_ Hb] _ IH]; [done|]. cbn [span].
  unfold blk_span, SIZEOF_HEAP_BLOCK, KHEAP_ALIGNMENT in *. clear -Hb IH.
  Z.to_euclidean_division_equations. lia.
Qed.

Lemma in_header_bounds a bs x : Forall blk_ok bs -> in_header a bs x -> a <= x < a + span bs.
Proof.
  intros Hok. revert a. induction Hok as [|b bs Hb Hbs IH]; intros a; simpl; [done|].
  pose proof (span_nonneg bs Hbs). destruct Hb as [Hb _]. unfold KHEAP_ALIGNMENT in Hb.
  intros [Hx|Hx]; unfold blk_span, SIZEOF_HEAP_BLOCK in *; [lia|]. apply IH in Hx. lia.
Qed.

Lemma header_frame m m' a p n b :
  (forall x, a <= x < a + SIZEOF_HEAP_BLOCK -> zget m' x = zget m x) ->
  header m a p n b -> header m' a p n b.
Proof.
  unfold SIZEOF_HEAP_BLOCK. intros Hx [H1 H2 H3 H4 H5].
  split; unfold block_magic, block_state, block_payload_size, block_previous, block_next in *;
    (rewrite (load32_ext m); [done|intros; apply Hx; lia]).
Qed.

(** Only the bytes of the headers matter. *)
Lemma seg_frame m m' p a bs fin :
  (forall x, in_header a bs x -> zget m' x = zget m x) -> seg m p a bs fin -> seg m' p a bs fin.
Proof.
  revert p a. induction bs as [|b bs IH]; intros p a Hx; simpl; [done|].
  intros (Hh & Hb & Hs). split; [|split; [done|]].
  - eapply header_frame; [|done]. intros x Hxx. apply Hx. by left.
  - apply IH; [|done]. intros x Hxx. apply Hx. by right.
Qed.

(** Relinking the first block of a segment backwards. *)
Lemma seg_set_previous m p q a bs fin :
  bs <> [] -> is_u32 q -> seg m p a bs fin -> seg (set_previous a q m) q a bs fin.
Proof.
  intros Hne Hq. destruct bs as [|b bs]; [done|]. simpl. intros ([H1 H2 H3 H4 H5] & Hb & Hs).
  pose proof (seg_blk_ok _ _ _ _ _ Hs) as Hok. pose proof Hb as [[Hb1 _] _].
  unfold KHEAP_ALIGNMENT in Hb1. split; [|split; [done|]].
  - unfold set_previous. split; unfold block_magic, block_state, block_payload_size, block_previous, block_next in *;
      by autorewrite with mem.
  - eapply seg_frame; [|done]. intros x Hx. apply in_header_bounds in Hx; [|done].
    apply zget_store32_ne. unfold blk_span, SIZEOF_HEAP_BLOCK in Hx. lia.
Qed.

(** ** The pointer operations on segments *)

Ltac field_unfold :=
  unfold set_magic, set_state, set_payload_size, set_previous, set_next,
    block_magic, block_state, block_payload_size, block_previous, block_next in *.

Ltac span_unfold :=
  unfold blk_span, blk_ok, SIZEOF_HEAP_BLOCK, KHEAP_ALIGNMENT, KHEAP_ARENA_SIZE in *; simpl in *.

Lemma state_of_range b : is_u32 (state_of b).
Proof. unfold state_of, is_u32, HEAP_BLOCK_FREE, HEAP_BLOCK_ALLOCATED. destruct (b_free b); lia. Qed.

(** Rewriting the state of the first block of a segment. *)
Lemma seg_set_state m p a b bs fin free :
  seg m p a (b :: bs) fin ->
  seg (set_state a (state_of (Blk (b_size b) free)) m) p a (Blk (b_size b) free :: bs) fin.
Proof.
  cbn [seg]. intros ([H1 H2 H3 H4 H5] & Hb & Hs). pose proof (seg_blk_ok _ _ _ _ _ Hs) as Hok.
  pose proof (state_of_range (Blk (b_size b) free)).
  split; [|split; [done|]].
  - split; field_unfold; by autorewrite with mem.
  - eapply seg_frame; [|exact Hs]. intros x Hx. apply in_header_bounds in Hx; [|done].
    apply zget_store32_ne. pose proof Hb as [[Hb1 _] _]. span_unfold. lia.
Qed.

(** The next pointer of a first block that is not the last one. *)
Lemma seg_next m p a b c bs fin : seg m p a (b :: c :: bs) fin -> block_next m a = a + blk_span b.
Proof. intros ([] & _). done. Qed.

Lemma seg_merge m p a l r bs :
  0 < a -> a + span (l :: r :: bs) <= UINT32_MAX -> b_size l + blk_span r <= KHEAP_ARENA_SIZE ->
  seg m p a (l :: r :: bs) NULL ->
  seg (merge_with_next a m) p a (Blk (b_size l + blk_span r) (b_free l) :: bs) NULL.
Proof.
  intros Ha Hend Hsz Hseg. pose proof (seg_next _ _ _ _ _ _ _ Hseg) as Hn.
  pose proof (seg_blk_ok _ _ _ _ _ Hseg) as Hok.
  cbn [seg] in Hseg. destruct Hseg as (Hl & Hlok & Hr & Hrok & Hs).
  pose proof (seg_blk_ok _ _ _ _ _ Hs) as Hbs. pose proof (span_nonneg bs Hbs) as Hsp.
  destruct Hl as [L1 L2 L3 L4 L5], Hr as [R1 R2 R3 R4 R5].
  unfold merge_with_next. rewrite Hn, R5, R3, L3.
  pose proof Hlok as [[Hl1 Hl2] Hl3]. pose proof Hrok as [[Hr1 Hr2] Hr3].
  set (c := a + blk_span l) in *. set (after := match bs with [] => NULL | _ => c + blk_span r end) in *.
  assert (Hc : c = a + 32 + b_size l) by (unfold c; span_unfold; lia).
  cbn [span] in Hend. unfold blk_span, SIZEOF_HEAP_BLOCK, KHEAP_ALIGNMENT, KHEAP_ARENA_SIZE, UINT32_MAX in *.
  rewrite (u32_small (32 + _)), (u32_small (_ + (32 + _))) by (unfold is_u32; lia).
  assert (Hafter : is_u32 after /\ (bs <> [] -> after = c + (32 + b_size r)) /\ (bs = [] -> after = 0)).
  { unfold after, NULL. destruct bs; split; [unfold is_u32; lia|done| |done]. 
    cbn [span] in *. unfold is_u32. lia. }
  destruct Hafter as (Ha1 & Ha2 & Ha3).
  unfold invalidate_block. cbn [seg]. split; [|split].
  - field_unfold. split; field_unfold; cbn [b_size b_free] in *;
      (destruct (Z.eqb_spec after NULL) as [E|E]; cbn [negb];
       [|assert (after = c + (32 + b_size r)) by (apply Ha2; intros ->; apply E, Ha3; done)]);
      autorewrite with mem; try done;
      (destruct bs; [by rewrite Ha3|]; rewrite Ha2 by done; unfold blk_span, SIZEOF_HEAP_BLOCK;
       cbn [b_size]; lia).
  - unfold blk_ok. cbn [b_size]. unfold KHEAP_ALIGNMENT, KHEAP_ARENA_SIZE.
    split; [lia|]. clear -Hl3 Hr3. Z.to_euclidean_division_equations. lia.
  - unfold blk_span at 1. cbn [b_size]. replace (a + (SIZEOF_HEAP_BLOCK + (b_size l + (32 + b_size r))))
      with (c + (32 + b_size r)) by (unfold SIZEOF_HEAP_BLOCK; lia).
    destruct bs as [|d bs]; [done|]. rewrite Ha2 by done. unfold NULL.
    rewrite (proj2 (Z.eqb_neq _ 0)) by lia. cbn [negb].
    match goal with
    | |- seg (set_next c _ (set_previous c _ (set_payload_size c _ (set_state c _ (set_magic c _ ?m2)))))
           _ _ _ _ => apply (seg_frame m2)
    end.
    + intros x Hx. apply in_header_bounds in Hx; [|done].
      unfold set_payload_size, set_next, set_magic, set_state, set_previous at 1.
      rewrite 5!zget_store32_ne by lia. reflexivity.
    + apply (seg_set_previous _ c a); [done|unfold is_u32; lia|].
      apply (seg_frame m); [|exact Hs]. intros x Hx. apply in_header_bounds in Hx; [|done].
      unfold set_payload_size, set_next. by rewrite !zget_store32_ne by lia.
Qed.

(** What a free block becomes when [n] bytes are taken from it. *)
Definition take_list (n : Z) (b : blk) : list blk :=
  if SIZEOF_HEAP_BLOCK + KHEAP_ALIGNMENT <=? b_size b - n
  then [Blk n false; Blk (b_size b - n - SIZEOF_HEAP_BLOCK) true]
  else [Blk (b_size b) false].

Section TakeBlock.
Context (m : static_array) (p a n : Z) (b : blk) (bs : list blk).
Hypothesis Ha : 0 < a.
Hypothesis Hend : a + span (b :: bs) <= UINT32_MAX.
Hypothesis Hn : KHEAP_ALIGNMENT <= n <= b_size b.
Hypothesis Hn16 : n mod KHEAP_ALIGNMENT = 0.
Hypothesis Hseg : seg m p a (b :: bs) NULL.

(** The split branch, with the wrap-around discharged. *)
Let split_mem (next : Z) : static_array :=
  set_next (a + 32 + n) next (set_previous (a + 32 + n) a
    (set_payload_size (a + 32 + n) (b_size b - n - 32)
      (set_state (a + 32 + n) HEAP_BLOCK_FREE (set_magic (a + 32 + n) HEAP_BLOCK_MAGIC m)))).

Let next_of_b : Z := match bs with [] => NULL | _ => a + blk_span b end.

Lemma take_block_eq :
  take_block a n m =
  set_state a HEAP_BLOCK_ALLOCATED
    (if 48 <=? b_size b - n then
       set_next a (a + 32 + n) (set_payload_size a n
         (match bs with
          | [] => split_mem NULL
          | _ => set_previous (a + blk_span b) (a + 32 + n) (split_mem (a + blk_span b))
          end))
     else m).
Proof using Ha Hend Hn Hseg.
  pose proof (seg_blk_ok _ _ _ _ _ Hseg) as Hok. cbn [seg] in Hseg. destruct Hseg as ([L1 L2 L3 L4 L5] & Hb & Hs).
  pose proof Hb as [[Hb1 Hb2] _]. unfold take_block. rewrite L3.
  unfold block_payload, KHEAP_ALIGNMENT, SIZEOF_HEAP_BLOCK, KHEAP_ARENA_SIZE, UINT32_MAX in *.
  inversion Hok as [|? ? _ Hbs]; subst. pose proof (span_nonneg bs Hbs) as Hsp.
  cbn [span] in Hend. unfold blk_span, SIZEOF_HEAP_BLOCK in Hend.
  rewrite (u32_small (b_size b - n)), Z.geb_leb by (unfold is_u32; lia).
  change (32 + 16) with 48. f_equal. destruct (48 <=? b_size b - n) eqn:E; bprop; [|done].
  rewrite (u32_small (a + 32)), (u32_small (a + 32 + n)), (u32_small (b_size b - n - 32))
    by (unfold is_u32; lia).
  assert (Hnext : forall m', (forall x, a <= x < a + 20 -> zget m' x = zget m x) ->
    block_next m' a = next_of_b).
  { intros m' Hm. unfold block_next. rewrite (load32_ext m); [done|]. intros; apply Hm; lia. }
  rewrite Hnext by (intros x Hx; unfold set_magic, set_state, set_payload_size, set_previous;
    by rewrite !zget_store32_ne by lia).
  fold (split_mem next_of_b).
  assert (Hsn : block_next (split_mem next_of_b) (a + 32 + n) = next_of_b).
  { unfold split_mem, block_next, set_next. apply load32_store32_eq.
    unfold next_of_b, is_u32, NULL. destruct bs; [lia|]. unfold blk_span, SIZEOF_HEAP_BLOCK. lia. }
  rewrite Hsn. unfold next_of_b, NULL. destruct bs; [done|].
  rewrite (proj2 (Z.eqb_neq _ 0)); [done|]. unfold blk_span, SIZEOF_HEAP_BLOCK. lia.
Qed.

Lemma take_block_frame x :
  ~ in_header a (b :: bs) x -> ~ in_header a (take_list n b ++ bs) x ->
  zget (take_block a n m) x = zget m x.
Proof using Ha Hend Hn Hseg.
  clear Hn16. intros H1 H2. rewrite take_block_eq. unfold take_list, KHEAP_ALIGNMENT in *.
  assert (Hx : x < a \/ a + 32 <= x) by (simpl in H1; unfold SIZEOF_HEAP_BLOCK in H1; lia).
  unfold set_state at 1. rewrite zget_store32_ne by lia.
  change (SIZEOF_HEAP_BLOCK + 16) with 48 in *. destruct (48 <=? b_size b - n); [|done].
  assert (Hy : x < a + 32 + n \/ a + 32 + n + 32 <= x).
  { simpl in H2. unfold blk_span, SIZEOF_HEAP_BLOCK in H2. simpl in H2. lia. }
  unfold set_next at 1, set_payload_size at 1. rewrite !zget_store32_ne by lia.
  assert (Hz : forall z, zget (split_mem z) x = zget m x).
  { intros z. unfold split_mem, set_next, set_previous, set_payload_size, set_state, set_magic.
    by rewrite !zget_store32_ne by lia. }
  destruct bs as [|c bs']; [done|]. unfold set_previous at 1. rewrite zget_store32_ne; [done|].
  simpl in H1. unfold SIZEOF_HEAP_BLOCK in H1. lia.
Qed.

Lemma seg_take : b_free b = true -> seg (take_block a n m) p a (take_list n b ++ bs) NULL.
Proof using All.
  intros Hfree. pose proof (seg_blk_ok _ _ _ _ _ Hseg) as Hok.
  inversion Hok as [|? ? Hb Hbs]; subst. pose proof (span_nonneg bs Hbs) as Hsp.
  rewrite take_block_eq. unfold take_list, KHEAP_ALIGNMENT in *.
  change (SIZEOF_HEAP_BLOCK + 16) with 48. destruct (48 <=? b_size b - n) eqn:E; bprop; cycle 1.
  { simpl app. change HEAP_BLOCK_ALLOCATED with (state_of (Blk (b_size b) false)).
    by apply seg_set_state. }
  pose proof Hb as [[Hb1 Hb2] Hb3]. cbn [span] in Hend.
  pose proof Hseg as Hseg'. cbn [seg] in Hseg'. destruct Hseg' as ([L1 L2 L3 L4 L5] & _ & Hs).
  unfold KHEAP_ALIGNMENT, KHEAP_ARENA_SIZE, UINT32_MAX, blk_span, SIZEOF_HEAP_BLOCK in *.
  set (s := a + 32 + n) in *. assert (Hs32 : s = a + 32 + n) by done. clearbody s.
  simpl app. cbn [seg]. unfold blk_span, SIZEOF_HEAP_BLOCK. cbn [b_size b_free].
  replace (a + (32 + n)) with s by lia.
  replace (s + (32 + (b_size b - n - 32))) with (a + (32 + b_size b)) by lia.
  set (d := a + (32 + b_size b)) in *. assert (Hd : d = a + 32 + b_size b) by lia. clearbody d.
  assert (HM : is_u32 HEAP_BLOCK_MAGIC /\ is_u32 HEAP_BLOCK_FREE /\ is_u32 HEAP_BLOCK_ALLOCATED
    /\ is_u32 NULL) by done.
  destruct HM as (HM1 & HM2 & HM3 & HM4). unfold is_u32 in HM1, HM2, HM3, HM4.
  split; [|split; [|split; [|split]]].
  - unfold split_mem. split; destruct bs; field_unfold; by autorewrite with mem.
  - unfold blk_ok, KHEAP_ALIGNMENT, KHEAP_ARENA_SIZE. cbn [b_size]. split; [lia|done].
  - unfold split_mem. split; destruct bs; field_unfold; by autorewrite with mem.
  - unfold blk_ok, KHEAP_ALIGNMENT, KHEAP_ARENA_SIZE. cbn [b_size]. split; [lia|].
    clear -Hb3 Hn16. Z.to_euclidean_division_equations. lia.
  - destruct bs as [|c bs']; [done|].
    match goal with
    | |- seg (set_state a _ (set_next a _ (set_payload_size a _ ?m2))) _ _ _ _ =>
        apply (seg_frame m2)
    end.
    + intros x Hx. apply in_header_bounds in Hx; [|done].
      unfold set_payload_size, set_next, set_state at 1.
      by rewrite 3!zget_store32_ne by lia.
    + apply (seg_set_previous _ a s); [done|unfold is_u32; cbn [span] in *; lia|].
      apply (seg_frame m); [|exact Hs]. intros x Hx. apply in_header_bounds in Hx; [|done].
      unfold split_mem, set_payload_size, set_next, set_state, set_magic, set_previous.
      by rewrite !zget_store32_ne by lia.
Qed.
End TakeBlock.

(** ** Walking the list *)

(** The first block that satisfies [f], with what is before and after it;
    [f] sees the block's address too. *)
Fixpoint split_first (f : Z -> blk -> bool) (a : Z) (bs : list blk)
  : option (list blk * blk * list blk) :=
  match bs with
  | [] => None
  | b :: bs' =>
      if f a b then Some ([], b, bs')
      else match split_first f (a + blk_span b) bs' with
      | Some (pre, c, post) => Some (b :: pre, c, post)
      | None => None
      end
  end.

Lemma split_first_Some f a bs pre b post :
  split_first f a bs = Some (pre, b, post) -> bs = pre ++ b :: post /\ f (a + span pre) b = true.
Proof.
  revert a pre. induction bs as [|c bs IH]; intros a pre; simpl; [done|].
  destruct (f a c) eqn:E.
  - intros [= <- <- <-]. simpl. by rewrite Z.add_0_r.
  - destruct (split_first f (a + blk_span c) bs) as [[[pre' b'] post']|] eqn:Es; [|done].
    intros [= <- <- <-]. apply IH in Es as [-> Hf]. split; [done|].
    simpl. by rewrite Z.add_assoc.
Qed.

Lemma split_first_None f a pre b post :
  split_first f a (pre ++ b :: post) = None -> f (a + span pre) b = false.
Proof.
  revert a. induction pre as [|c pre IH]; intros a; simpl.
  - rewrite Z.add_0_r. by destruct (f a b).
  - destruct (f a c); [done|]. rewrite Z.add_assoc. intros H. apply IH.
    by destruct (split_first _ _ _) as [[[]]|].
Qed.

Definition fits (n : Z) (_ : Z) (b : blk) : bool := b_free b && (n <=? b_size b).
Definition owns (address a : Z) (_ : blk) : bool := a + SIZEOF_HEAP_BLOCK == address.

Definition start (a : Z) (bs : list blk) : Z := match bs with [] => NULL | _ => a end.

Definition search_result (a : Z) (r : option (list blk * blk * list blk)) : search :=
  match r with
  | Some (pre, _, _) => SearchAt (a + span pre)
  | None => SearchNull
  end.

Lemma state_is_free m p a bs b fin :
  seg m p a (b :: bs) fin -> (block_state m a == HEAP_BLOCK_FREE) = b_free b.
Proof. intros ([] & _). rewrite hd_state0. unfold state_of. by destruct (b_free b). Qed.

Lemma search_result_cons f a b bs :
  f a b = false ->
  search_result a (split_first f a (b :: bs)) =
  search_result (a + blk_span b) (split_first f (a + blk_span b) bs).
Proof.
  intros Hf. simpl. rewrite Hf. destruct (split_first _ _ bs) as [[[pre c] post]|]; [|done].
  simpl. f_equal. lia.
Qed.

Lemma find_fit_spec fuel m p a bs n :
  0 < a -> seg m p a bs NULL -> (length bs < fuel)%nat ->
  find_fit fuel m (start a bs) n = search_result a (split_first (fits n) a bs).
Proof.
  revert p a bs. induction fuel as [|fuel IH]; intros p a bs Ha Hs Hf; [lia|].
  destruct bs as [|b bs]; [done|]. cbn [find_fit start].
  rewrite (proj2 (Z.eqb_neq a NULL)) by (unfold NULL; lia).
  rewrite (state_is_free _ _ _ _ _ _ Hs), Z.geb_leb. pose proof Hs as Hs'.
  cbn [seg] in Hs. destruct Hs as ([] & [[Hb _] _] & Hrest). rewrite hd_size0, hd_next0.
  fold (fits n a b). destruct (fits n a b) eqn:E.
  - simpl. rewrite E. simpl. by rewrite Z.add_0_r.
  - rewrite search_result_cons by done. unfold KHEAP_ALIGNMENT in Hb.
    apply (IH a); [|done|simpl in Hf; lia]. unfold blk_span, SIZEOF_HEAP_BLOCK. lia.
Qed.

Lemma find_owner_spec fuel m p a bs address :
  0 < a -> a + span bs <= UINT32_MAX -> seg m p a bs NULL -> (length bs < fuel)%nat ->
  find_owner fuel m (start a bs) address = search_result a (split_first (owns address) a bs).
Proof.
  revert p a bs. induction fuel as [|fuel IH]; intros p a bs Ha Hend Hs Hf; [lia|].
  destruct bs as [|b bs]; [done|]. cbn [find_owner start].
  rewrite (proj2 (Z.eqb_neq a NULL)) by (unfold NULL; lia).
  cbn [seg] in Hs. destruct Hs as ([] & [[Hb _] _] & Hrest). rewrite hd_next0.
  pose proof (span_nonneg bs (seg_blk_ok _ _ _ _ _ Hrest)) as Hsp.
  cbn [span] in Hend. unfold KHEAP_ALIGNMENT, blk_span, SIZEOF_HEAP_BLOCK, UINT32_MAX in *.
  unfold block_payload. rewrite u32_small by (unfold is_u32, SIZEOF_HEAP_BLOCK; lia).
  fold (owns address a b). destruct (owns address a b) eqn:E.
  - simpl. rewrite E. simpl. by rewrite Z.add_0_r.
  - rewrite search_result_cons by done. unfold blk_span, SIZEOF_HEAP_BLOCK.
    apply (IH a); [lia|lia|done|simpl in Hf; lia].
Qed.

(** ** Statistics of a block list *)

Definition free_total (bs : list blk) : Z :=
  foldr (fun b t => (if b_free b then b_size b else 0) + t) 0 bs.
Definition payload_total (bs : list blk) : Z := foldr (fun b t => b_size b + t) 0 bs.
Definition allocated_total (bs : list blk) : Z :=
  foldr (fun b t => (if b_free b then 0 else 1) + t) 0 bs.
Fixpoint largest_free (acc : Z) (bs : list blk) : Z :=
  match bs with
  | [] => acc
  | b :: bs' => largest_free (if b_free b then Z.max acc (b_size b) else acc) bs'
  end.

Definition stats_of (bs : list blk) : heap_stats :=
  mk_stats total_capacity (free_total bs) (largest_free 0 bs) (allocated_total bs).

Lemma span_payload bs : span bs = payload_total bs + 32 * Z.of_nat (length bs).
Proof.
  induction bs as [|b bs IH]; [done|]. simpl length. cbn [span payload_total foldr].
  fold (payload_total bs). rewrite IH. unfold blk_span, SIZEOF_HEAP_BLOCK. lia.
Qed.

Lemma free_total_bounds bs :
  Forall blk_ok bs -> 0 <= free_total bs <= payload_total bs /\
  0 <= allocated_total bs <= Z.of_nat (length bs).
Proof.
  induction 1 as [|b bs [[Hb _] _] _ IH]; [done|]. simpl length.
  cbn [free_total payload_total allocated_total foldr].
  fold (free_total bs) (payload_total bs) (allocated_total bs).
  unfold KHEAP_ALIGNMENT in Hb. destruct (b_free b); lia.
Qed.

Lemma largest_free_bound acc bs :
  Forall blk_ok bs -> 0 <= acc -> largest_free acc bs <= acc + free_total bs.
Proof.
  intros Hok. revert acc. induction Hok as [|b bs [[Hb _] _] _ IH]; intros acc Hacc; simpl; [lia|].
  fold (free_total bs). unfold KHEAP_ALIGNMENT in Hb. destruct (b_free b).
  - specialize (IH (Z.max acc (b_size b)) ltac:(lia)).
    lia.
  - specialize (IH acc Hacc). lia.
Qed.

(** ** The inspection *)

(** Where the linker may put the arena: aligned, not at NULL, below the top of
    the address space. *)
Class ArenaPlacement (arena : Z) : Prop := {
  arena_positive : 0 < arena;
  arena_aligned : arena mod KHEAP_ALIGNMENT = 0;
  arena_fits : arena + KHEAP_ARENA_SIZE <= UINT32_MAX;
}.

(** The heap is exactly the list of blocks [bs]. *)
Record heap_wf (arena : Z) (h : heap) (bs : list blk) : Prop := {
  wf_init : heap_initialized h = true;
  wf_first : first_block h = arena;
  wf_nonempty : bs <> [];
  wf_seg : seg (memory h) NULL arena bs NULL;
  wf_span : span bs = KHEAP_ARENA_SIZE;
  wf_coalesced : coalesced false bs = true;
}.

Section Inspect.
Context (arena : Z) {Harena : ArenaPlacement arena}.

Lemma arena_end_eq : arena_end arena = arena + KHEAP_ARENA_SIZE.
Proof using Harena.
  destruct Harena as [H1 _ H2]. unfold arena_end, arena_begin.
  apply u32_small. unfold is_u32, UINT32_MAX, KHEAP_ARENA_SIZE in *. lia.
Qed.

(** The counters the loop has at address [a] after [count] blocks. *)
Record counters_ok (a payload count : Z) (st : heap_stats) : Prop := {
  co_aligned : a mod 16 = 0;
  co_low : arena <= a;
  co_count : 0 <= count /\ 48 * count <= a - arena;
  co_payload : payload + 32 * count = a - arena;
  co_total : total_bytes st = total_capacity;
  co_free : 0 <= largest_free_block st <= free_bytes st /\ free_bytes st <= payload;
  co_alloc : 0 <= allocated_blocks st <= count;
}.

Definition add_block (b : blk) (st : heap_stats) : heap_stats :=
  mk_stats (total_bytes st) (free_bytes st + if b_free b then b_size b else 0)
    (if b_free b then Z.max (largest_free_block st) (b_size b) else largest_free_block st)
    (allocated_blocks st + if b_free b then 0 else 1).

Lemma counters_step a payload count st b :
  counters_ok a payload count st -> blk_ok b ->
  counters_ok (a + blk_span b) (payload + b_size b) (count + 1) (add_block b st).
Proof using.
  intros [H1 H2 H3 H4 H5 H6 H7] [[Hb1 Hb2] Hb3].
  unfold KHEAP_ALIGNMENT, blk_span, SIZEOF_HEAP_BLOCK in *. split; simpl; try done; try lia.
  - clear -H1 Hb3. Z.to_euclidean_division_equations. lia.
  - destruct (b_free b); lia.
  - destruct (b_free b); lia.
Qed.

Lemma measure_block_ok a payload count st b pwf :
  counters_ok a payload count st -> blk_ok b -> a + blk_span b <= arena + KHEAP_ARENA_SIZE ->
  measure_block (b_free b) pwf (b_size b) st =
  if pwf && b_free b then None else Some (add_block b st).
Proof using.
  intros [H1 H2 H3 H4 H5 H6 H7] [[Hb1 Hb2] _] Hend.
  unfold measure_block, add_block, blk_span, KHEAP_ALIGNMENT, SIZEOF_HEAP_BLOCK, KHEAP_ARENA_SIZE, SIZE_MAX, UINT32_MAX in *.
  destruct (b_free b).
  - rewrite andb_true_r. rewrite Z.gtb_ltb, (proj2 (Z.ltb_ge _ _)), orb_false_r by lia.
    destruct pwf; [done|]. rewrite u32_small by (unfold is_u32; lia). do 2 f_equal; [|lia].
    rewrite Z.gtb_ltb. destruct (Z.ltb_spec (largest_free_block st) (b_size b)); lia.
  - rewrite andb_false_r, (proj2 (Z.eqb_neq _ _)) by lia.
    rewrite u32_small by (unfold is_u32; lia). do 2 f_equal. lia.
Qed.

(** One pass of the loop on a block that is there. *)
Lemma inspect_step fuel m a p payload count pwf st b fin :
  counters_ok a payload count st -> a + blk_span b <= arena + KHEAP_ARENA_SIZE ->
  header m a p fin b -> blk_ok b ->
  inspect_loop arena (S fuel) m a p payload count pwf st =
  if pwf && b_free b then InspectBad
  else if fin == NULL then
    if a + blk_span b != arena_end arena then InspectBad
    else InspectEnd (payload + b_size b) (count + 1) (add_block b st)
  else if (a + blk_span b >=? arena_end arena) || (fin != a + blk_span b) then InspectBad
  else inspect_loop arena fuel m (a + blk_span b) a (payload + b_size b) (count + 1) (b_free b)
         (add_block b st).
Proof using Harena.
  intros Hc Hend [] Hb. pose proof Hc as [H1 H2 [H3 H3'] H4 H5 H6 H7]. pose proof Hb as [[Hb1 Hb2] Hb3].
  pose proof Harena as [A1 A2 A3]. cbn [inspect_loop].
  rewrite hd_magic0, hd_state0, hd_size0, hd_previous0, hd_next0, arena_end_eq.
  unfold KHEAP_ALIGNMENT in *. change (16 - 1) with 15. rewrite !land_15, H1, Hb3.
  unfold maximum_blocks. change (KHEAP_ARENA_SIZE / SIZEOF_HEAP_BLOCK) with 8192.
  unfold blk_span, SIZEOF_HEAP_BLOCK, KHEAP_ARENA_SIZE, UINT32_MAX, SIZE_MAX, UINT32_MAX in *.
  rewrite (u32_small (_ - 32)), (u32_small (a + 32)), (u32_small (a + 32 + b_size b)),
    (u32_small (arena + 256 * 1024 - (a + 32))), (u32_small (payload + _)), (u32_small (count + 1))
    by (unfold is_u32; lia).
  rewrite !Z.geb_leb, !Z.gtb_ltb.
  rewrite (proj2 (Z.leb_gt 8192 count)) by lia.
  rewrite (proj2 (Z.ltb_ge (arena + 256 * 1024 - 32) a)) by lia.
  rewrite !Z.eqb_refl, (proj2 (Z.ltb_ge (b_size b) 16)) by lia.
  assert (Hst : (state_of b != HEAP_BLOCK_FREE) && (state_of b != HEAP_BLOCK_ALLOCATED) = false)
    by (unfold state_of; by destruct (b_free b)).
  rewrite Hst. cbn [negb orb].
  rewrite (proj2 (Z.ltb_ge (arena + 256 * 1024 - (a + 32)) (b_size b))) by lia.
  rewrite (proj2 (Z.ltb_ge (4294967295 - b_size b) payload)) by lia.
  assert (Hfr : (state_of b == HEAP_BLOCK_FREE) = b_free b) by (unfold state_of; by destruct (b_free b)).
  rewrite Hfr, (measure_block_ok a payload count) by
    (done || unfold blk_span, SIZEOF_HEAP_BLOCK, KHEAP_ARENA_SIZE; lia).
  destruct (pwf && b_free b); [done|]. by rewrite Z.add_assoc.
Qed.

Lemma inspect_loop_wf fuel m p a bs payload count pwf st :
  counters_ok a payload count st -> seg m p a bs NULL -> bs <> [] ->
  a + span bs = arena + KHEAP_ARENA_SIZE -> coalesced pwf bs = true -> (length bs <= fuel)%nat ->
  inspect_loop arena fuel m a p payload count pwf st =
  InspectEnd (payload + payload_total bs) (count + Z.of_nat (length bs))
    (foldl (fun st b => add_block b st) st bs).
Proof using Harena.
  intros Hc Hs Hne Hend Hco Hf. revert fuel p a payload count pwf st Hc Hs Hend Hco Hf.
  induction bs as [|b bs IH]; [done|]. intros fuel p a payload count pwf st Hc Hs Hend Hco Hf.
  destruct fuel as [|fuel]; [simpl in Hf; lia|]. cbn [seg] in Hs. destruct Hs as (Hh & Hb & Hs).
  pose proof (span_nonneg bs (seg_blk_ok _ _ _ _ _ Hs)) as Hsp. cbn [span] in Hend.
  cbn [coalesced] in Hco. apply andb_prop in Hco as [Hco1 Hco2]. apply negb_true_iff in Hco1.
  rewrite (inspect_step fuel m a p payload count pwf st b _ Hc) by (exact Hh || done || lia).
  rewrite Hco1, arena_end_eq. cbn [foldl payload_total foldr length]. fold (payload_total bs).
  destruct bs as [|c bs].
  - simpl in Hend. unfold NULL. rewrite (proj2 (Z.eqb_eq (a + blk_span b) _)) by lia.
    simpl. f_equal; lia.
  - pose proof Hc as [_ Hlow _ _ _ _ _]. destruct Harena as [Hpos _ _]. pose proof Hb as [[Hb1 _] _].
    unfold KHEAP_ALIGNMENT in Hb1. assert (0 < blk_span b) by (unfold blk_span, SIZEOF_HEAP_BLOCK; lia).
    rewrite (proj2 (Z.eqb_neq (a + blk_span b) NULL)) by (unfold NULL; lia).
    rewrite Z.eqb_refl, Z.geb_leb, (proj2 (Z.leb_gt _ _)) by (cbn [length] in Hsp; lia). cbn [orb negb].
    rewrite (IH ltac:(done) fuel a (a + blk_span b)); try done; try (simpl in *; lia).
    + f_equal; simpl; lia.
    + by apply counters_step.
Qed.

(** A pass that does not fail has found a block. *)
Lemma inspect_reads fuel m a p payload count pwf st :
  counters_ok a payload count st ->
  inspect_loop arena (S fuel) m a p payload count pwf st <> InspectBad ->
  exists b fin, header m a p fin b /\ blk_ok b /\ a + blk_span b <= arena + KHEAP_ARENA_SIZE.
Proof using Harena.
  intros Hc Hrun. pose proof Hc as [H1 H2 [H3 H3'] H4 H5 H6 H7]. pose proof Harena as [A1 A2 A3].
  pose proof (load32_range m (a + 8)) as Hr. fold (block_payload_size m a) in Hr.
  cbn [inspect_loop] in Hrun. rewrite arena_end_eq in Hrun.
  unfold KHEAP_ALIGNMENT, SIZEOF_HEAP_BLOCK, KHEAP_ARENA_SIZE, UINT32_MAX, is_u32 in *.
  rewrite (u32_small (_ - 32)) in Hrun by (unfold is_u32; lia).
  destruct (_ || _ || (a >? _)) eqn:E1; [done|]. bprop.
  destruct (_ || _ || _ || _ || _) eqn:E2 in Hrun; [done|]. bprop.
  rewrite (u32_small (a + 32)), (u32_small (_ - (a + 32))) in Hrun by (unfold is_u32; lia).
  destruct (block_payload_size m a >? _) eqn:E3; [done|]. bprop.
  set (b := Blk (block_payload_size m a) (block_state m a == HEAP_BLOCK_FREE)).
  exists b, (block_next m a). change (16 - 1) with 15 in *. rewrite land_15 in *.
  split; [|split].
  - split; try done. unfold state_of, b. cbn [b_free].
    destruct (Z.eqb_spec (block_state m a) HEAP_BLOCK_FREE); [done|].
    match goal with E : _ && _ = false |- _ => apply andb_false_iff in E as [E|E] end; bprop; done.
  - unfold blk_ok, KHEAP_ALIGNMENT, KHEAP_ARENA_SIZE. cbn [b b_size]. split; [lia|done].
  - unfold blk_span, SIZEOF_HEAP_BLOCK, KHEAP_ARENA_SIZE. cbn [b b_size]. lia.
Qed.

Lemma inspect_loop_sound fuel m p a payload count pwf st pb bc st' :
  counters_ok a payload count st ->
  inspect_loop arena fuel m a p payload count pwf st = InspectEnd pb bc st' ->
  exists bs, bs <> [] /\ seg m p a bs NULL /\ a + span bs = arena + KHEAP_ARENA_SIZE /\
    coalesced pwf bs = true.
Proof using Harena.
  revert p a payload count pwf st. induction fuel as [|fuel IH]; intros p a payload count pwf st Hc; [done|].
  intros Hrun. destruct (inspect_reads fuel m a p payload count pwf st Hc) as (b & fin & Hh & Hb & Hend);
    [by rewrite Hrun|].
  rewrite (inspect_step fuel m a p payload count pwf st b fin Hc Hend Hh Hb), arena_end_eq in Hrun.
  destruct (pwf && b_free b) eqn:Ef; [done|].
  destruct (Z.eqb_spec fin NULL) as [->|Hfin].
  - destruct (Z.eqb_spec (a + blk_span b) (arena + KHEAP_ARENA_SIZE)) as [He|]; [|done].
    exists [b]. split; [done|]. simpl. rewrite Ef. split; [done|]. split; [lia|done].
  - destruct (_ || _) eqn:E in Hrun; [done|]. bprop.
    apply IH in Hrun as (bs & Hne & Hs & Hsp & Hco); [|by apply counters_step].
    exists (b :: bs). split; [done|]. cbn [seg span coalesced]. rewrite Ef, Hco. split; [|split; [lia|done]].
    split; [|by split]. destruct bs; [done|]. by subst fin.
Qed.

(** The fuel covers the passes the block counter allows. *)
Lemma inspect_loop_terminates fuel m p a payload count pwf st :
  0 <= count <= maximum_blocks -> maximum_blocks < Z.of_nat fuel + count ->
  inspect_loop arena fuel m a p payload count pwf st <> InspectFuel.
Proof using.
  unfold maximum_blocks. change (KHEAP_ARENA_SIZE / SIZEOF_HEAP_BLOCK) with 8192.
  revert p a payload count pwf st.
  induction fuel as [|fuel IH]; intros p a payload count pwf st Hc Hf; [lia|]. cbn [inspect_loop].
  unfold maximum_blocks. change (KHEAP_ARENA_SIZE / SIZEOF_HEAP_BLOCK) with 8192.
  destruct (_ || _ || (a >? _)) eqn:E1; [done|]. bprop.
  destruct (_ || _ || _ || _ || _); [done|]. destruct (_ >? _); [done|]. destruct (_ >? _); [done|].
  destruct (measure_block _ _ _ _); [|done]. destruct (_ == NULL); [by destruct (_ != _)|].
  destruct (_ || _); [done|]. rewrite (u32_small (count + 1)) by (unfold is_u32; lia).
  apply IH; lia.
Qed.

Lemma start_counters : counters_ok arena 0 0 (mk_stats total_capacity 0 0 0).
Proof using Harena. destruct Harena as [H1 H2 H3]. split; simpl; try done; lia. Qed.

Lemma foldl_add_block bs st :
  Forall blk_ok bs ->
  foldl (fun st b => add_block b st) st bs =
  mk_stats (total_bytes st) (free_bytes st + free_total bs)
    (largest_free (largest_free_block st) bs) (allocated_blocks st + allocated_total bs).
Proof using.
  intros Hok. revert st. induction Hok as [|b bs _ _ IH]; intros [t f l al]; simpl.
  - f_equal; lia.
  - fold (free_total bs) (allocated_total bs). rewrite IH. simpl. f_equal; lia.
Qed.

Lemma blocks_bound m bs :
  seg m NULL arena bs NULL -> span bs = KHEAP_ARENA_SIZE -> (length bs < heap_fuel)%nat.
Proof using.
  intros Hs Hsp. pose proof (span_nonneg bs (seg_blk_ok _ _ _ _ _ Hs)).
  unfold heap_fuel. change (maximum_blocks + 1) with 8193. unfold KHEAP_ARENA_SIZE in *. lia.
Qed.

Lemma inspect_heap_wf h bs : heap_wf arena h bs -> inspect_heap arena h = Some (stats_of bs).
Proof using Harena.
  intros [W1 W2 W3 W4 W5 W6]. pose proof Harena as [A1 A2 A3].
  pose proof (seg_blk_ok _ _ _ _ _ W4) as Hok. pose proof (free_total_bounds bs Hok) as [Hft _].
  pose proof (largest_free_bound 0 bs Hok ltac:(lia)) as Hlf. pose proof (blocks_bound _ _ W4 W5) as Hfuel.
  pose proof (span_payload bs) as Hsp. pose proof (span_nonneg bs Hok) as Hcnt.
  assert (0 < length bs)%nat by (destruct bs; [done|simpl; lia]).
  unfold inspect_heap, arena_begin. rewrite W1, W2, Z.eqb_refl, Z.gtb_ltb, (proj2 (Z.ltb_ge _ _)) by lia.
  cbn [negb orb]. rewrite (inspect_loop_wf _ _ _ _ bs) by
    (done || apply start_counters || lia).
  rewrite !Z.gtb_ltb, foldl_add_block by done. cbn [free_bytes largest_free_block total_bytes allocated_blocks].
  unfold SIZE_MAX, UINT32_MAX, SIZEOF_HEAP_BLOCK, total_capacity, KHEAP_ARENA_SIZE in *.
  rewrite W5 in *. unfold SIZEOF_HEAP_BLOCK.
  change (4294967295 / 32) with 134217727. rewrite (proj2 (Z.eqb_neq _ 0)), (proj2 (Z.ltb_ge _ (0 + _ - 1))) by lia. cbn [orb].
  rewrite !Z.add_0_l.
  rewrite (u32_small (_ * 32)), (u32_small (_ - payload_total bs)) by (unfold is_u32; lia).
  rewrite (proj2 (Z.ltb_ge _ (payload_total bs))), (proj2 (Z.eqb_eq (_ * 32) _)),
    (proj2 (Z.ltb_ge _ (free_total bs))), (proj2 (Z.ltb_ge (free_total bs) _)) by lia.
  done.
Qed.

Lemma inspect_heap_sound h st : inspect_heap arena h = Some st -> exists bs, heap_wf arena h bs.
Proof using Harena.
  unfold inspect_heap, arena_begin. intros H. destruct (_ || _ || _) eqn:E in H; [done|]. bprop.
  destruct (inspect_loop _ _ _ _ _ _ _ _ _) as [| |pb bc st'] eqn:El in H; try done.
  apply inspect_loop_sound in El as (bs & Hne & Hs & Hsp & Hco); [|apply start_counters].
  exists bs. split; try done. lia.
Qed.

Lemma inspect_ok_iff h : inspect_ok arena h = true <-> exists bs, heap_wf arena h bs.
Proof using Harena.
  unfold inspect_ok. split.
  - destruct (inspect_heap arena h) eqn:E; [|done]. intros _. by eapply inspect_heap_sound.
  - intros [bs Hwf]. by rewrite (inspect_heap_wf h bs Hwf).
Qed.
End Inspect.

(** ** The abstract allocator *)

(** Adjacent free blocks joined, a header going to the payload each time. *)
Definition join (b : blk) (bs : list blk) : list blk :=
  match bs with
  | c :: bs' => if b_free b && b_free c then Blk (b_size b + blk_span c) true :: bs' else b :: bs
  | [] => [b]
  end.

Definition merge_free (bs : list blk) : list blk := foldr join [] bs.

Definition abs_alloc (a n : Z) (bs : list blk) : option (Z * list blk) :=
  match split_first (fits n) a bs with
  | Some (pre, b, post) => Some (a + span pre + SIZEOF_HEAP_BLOCK, pre ++ take_list n b ++ post)
  | None => None
  end.

Definition abs_free (a p : Z) (bs : list blk) : option (list blk) :=
  match split_first (owns p) a bs with
  | Some (pre, b, post) =>
      if b_free b then None else Some (merge_free (pre ++ Blk (b_size b) true :: post))
  | None => None
  end.

(** The payload at [p] of [size] bytes belongs to an allocated block. *)
Fixpoint live (a : Z) (bs : list blk) (p size : Z) : Prop :=
  match bs with
  | [] => False
  | b :: bs' =>
      (b_free b = false /\ p = a + SIZEOF_HEAP_BLOCK /\ size = b_size b) \/
      live (a + blk_span b) bs' p size
  end.

(** Whether the last block of [bs] is free; [f] when there is none. *)
Fixpoint last_free (f : bool) (bs : list blk) : bool :=
  match bs with
  | [] => f
  | b :: bs' => last_free (b_free b) bs'
  end.

Lemma coalesced_app f l r : coalesced f (l ++ r) = coalesced f l && coalesced (last_free f l) r.
Proof.
  revert f. induction l as [|b l IH]; intros f; simpl; [done|].
  rewrite IH. by rewrite andb_assoc.
Qed.

Lemma coalesced_weaken f bs : coalesced f bs = true -> coalesced false bs = true.
Proof. destruct bs as [|b bs]; simpl; [done|]. intros H. bprop. by rewrite H0. Qed.

Lemma in_header_app a l r x : in_header a (l ++ r) x <-> in_header a l x \/ in_header (a + span l) r x.
Proof.
  revert a. induction l as [|b l IH]; intros a; simpl; [rewrite Z.add_0_r; tauto|].
  rewrite IH, Z.add_assoc. tauto.
Qed.

(** Replacing the tail of a segment by another layout of the same space. *)
Lemma seg_splice m m' p a pre mid mid' :
  seg m p a (pre ++ mid) NULL -> mid <> [] -> mid' <> [] ->
  (forall x, in_header a pre x -> zget m' x = zget m x) ->
  seg m' (last_addr p a pre) (a + span pre) mid' NULL ->
  seg m' p a (pre ++ mid') NULL.
Proof.
  intros Hs Hm Hm' Hx Hmid. rewrite seg_app in Hs |- *. destruct Hs as [Hpre _].
  split; [|done]. destruct mid, mid'; try done. by eapply seg_frame.
Qed.

Lemma span_take_list n b : 0 <= n -> span (take_list n b) = blk_span b.
Proof.
  intros Hn. unfold take_list. destruct (_ <=? _); simpl; unfold blk_span, SIZEOF_HEAP_BLOCK; simpl; lia.
Qed.

Lemma take_list_nonempty n b l : take_list n b ++ l <> [].
Proof. unfold take_list. by destruct (_ <=? _). Qed.

Lemma coalesced_take f n b post :
  b_free b = true -> coalesced f (b :: post) = true -> coalesced f (take_list n b ++ post) = true.
Proof.
  intros Hb. simpl. rewrite Hb. intros H. bprop. unfold take_list.
  destruct (_ <=? _); simpl; rewrite !andb_false_r; simpl; [done|]. by eapply coalesced_weaken.
Qed.

Section Allocate.
Context (arena : Z) {Harena : ArenaPlacement arena}.

Section Split.
Context (h : heap) (pre : list blk) (b : blk) (post : list blk).
Hypothesis Hwf : heap_wf arena h (pre ++ b :: post).

Lemma split_bounds :
  0 < arena + span pre /\ arena + span pre + span (b :: post) <= UINT32_MAX /\
  0 <= span pre /\ Forall blk_ok pre /\ Forall blk_ok (b :: post) /\
  span pre + span (b :: post) = KHEAP_ARENA_SIZE.
Proof using Harena Hwf.
  destruct Hwf as [_ _ _ Hs Hsp _]. destruct Harena as [A1 _ A3].
  pose proof (seg_blk_ok _ _ _ _ _ Hs) as Hok. apply Forall_app in Hok as [Hok1 Hok2].
  rewrite span_app in Hsp. pose proof (span_nonneg pre Hok1).
  repeat split; try done; lia.
Qed.

Lemma split_seg :
  seg (memory h) (last_addr NULL arena pre) (arena + span pre) (b :: post) NULL.
Proof using Hwf. destruct Hwf as [_ _ _ Hs _ _]. by apply seg_app in Hs as [_ Hs]. Qed.

Lemma take_wf n :
  KHEAP_ALIGNMENT <= n <= b_size b -> n mod KHEAP_ALIGNMENT = 0 -> b_free b = true ->
  heap_wf arena
    (mk_heap (take_block (arena + span pre) n (memory h)) (first_block h) (heap_initialized h))
    (pre ++ take_list n b ++ post) /\
  forall x, ~ in_header arena (pre ++ b :: post) x ->
    ~ in_header arena (pre ++ take_list n b ++ post) x ->
    zget (take_block (arena + span pre) n (memory h)) x = zget (memory h) x.
Proof using Harena Hwf.
  intros Hn Hn16 Hfree. destruct split_bounds as (B1 & B2 & B3 & B4 & B5 & B6).
  pose proof split_seg as Hseg. pose proof Hwf as [W1 W2 W3 W4 W5 W6].
  assert (Hframe : forall x, ~ in_header (arena + span pre) (b :: post) x ->
    ~ in_header (arena + span pre) (take_list n b ++ post) x ->
    zget (take_block (arena + span pre) n (memory h)) x = zget (memory h) x)
    by (intros x; by eapply take_block_frame).
  assert (Hn0 : 0 <= n) by (unfold KHEAP_ALIGNMENT in Hn; lia).
  assert (Hok' : Forall blk_ok (take_list n b ++ post)).
  { eapply seg_blk_ok. eapply seg_take; done. }
  split; [split; simpl; try done|].
  - intros E. apply app_nil in E as [_ E]. by eapply take_list_nonempty.
  - eapply seg_splice; [exact W4|done|apply take_list_nonempty| |by apply seg_take].
    intros x Hx. apply in_header_bounds in Hx; [|done].
    apply Hframe; intros Hx'; apply in_header_bounds in Hx'; (done || lia).
  - rewrite !span_app in *. rewrite span_take_list by done. simpl in *. lia.
  - rewrite coalesced_app in W6 |- *. apply andb_prop in W6 as [-> W6].
    by apply coalesced_take.
  - intros x Hx Hx'. rewrite in_header_app in Hx, Hx'. apply Hframe; tauto.
Qed.
End Split.

Lemma kmalloc_wf h bs size n :
  heap_wf arena h bs -> align_request size = Some n ->
  KHEAP_ALIGNMENT <= n -> n mod KHEAP_ALIGNMENT = 0 ->
  match abs_alloc arena n bs with
  | None => kmalloc arena h size = Some (NULL, h)
  | Some (p, bs') => exists h', kmalloc arena h size = Some (p, h') /\ heap_wf arena h' bs' /\
      forall x, ~ in_header arena bs x -> ~ in_header arena bs' x ->
        zget (memory h') x = zget (memory h) x
  end.
Proof using Harena.
  intros Hwf Hal Hn Hn16. unfold kmalloc, abs_alloc. rewrite Hal.
  assert (Hok : inspect_ok arena h = true) by (apply inspect_ok_iff; [done|eauto]).
  rewrite Hok. cbn [negb]. pose proof Hwf as [W1 W2 W3 W4 W5 W6]. pose proof Harena as [A1 _ A3].
  replace (first_block h) with (start arena bs) by (rewrite W2; by destruct bs).
  rewrite (find_fit_spec _ _ NULL arena bs n A1 W4 (blocks_bound arena _ _ W4 W5)).
  destruct (split_first (fits n) arena bs) as [[[pre b] post]|] eqn:E; [|done]. simpl.
  apply split_first_Some in E as [-> Hf]. unfold fits in Hf. bprop.
  destruct (take_wf h pre b post Hwf n) as [Hwf' Hframe]; [lia|done|done|].
  destruct (split_bounds h pre b post Hwf) as (B1 & B2 & B3 & B4 & B5 & B6).
  exists (mk_heap (take_block (arena + span pre) n (memory h)) (start arena (pre ++ b :: post)) (heap_initialized h)).
  split; [|split; [|done]].
  - do 2 f_equal. unfold block_payload. apply u32_small.
    inversion B5 as [|? ? [[Hb1 _] _] Hpost]; subst. pose proof (span_nonneg post Hpost).
    cbn [span] in *. unfold is_u32, blk_span, KHEAP_ALIGNMENT, SIZEOF_HEAP_BLOCK, UINT32_MAX in *. lia.
  - replace (start arena (pre ++ b :: post)) with (first_block h); [done|].
    rewrite W2. by destruct pre.
Qed.
End Allocate.

(** The request rounded up to the alignment. *)
Definition rounded (size : Z) : Z := 16 * ((size + 15) / 16).

Definition size_ok (size : Z) : bool := (0 <? size) && (size <=? SIZE_MAX - 15).

Lemma align_request_spec size :
  is_u32 size -> align_request size = if size_ok size then Some (rounded size) else None.
Proof.
  intros Hs. unfold align_request, size_ok, rounded, KHEAP_ALIGNMENT, SIZE_MAX, UINT32_MAX, is_u32 in *.
  change (16 - 1) with 15. rewrite Z.gtb_ltb. destruct (Z.eqb_spec size 0) as [->|Hne]; [done|].
  rewrite (proj2 (Z.ltb_lt 0 size)) by lia. cbn [orb andb]. rewrite (Z.leb_antisym).
  destruct (4294967295 - 15 <? size) eqn:E; bprop; [done|]. cbn [negb]. f_equal.
  rewrite u32_small, land_not32_15 by (unfold is_u32; lia). done.
Qed.

Lemma rounded_bounds size :
  size_ok size = true ->
  size <= rounded size < size + 16 /\ KHEAP_ALIGNMENT <= rounded size /\
  rounded size mod KHEAP_ALIGNMENT = 0.
Proof.
  unfold size_ok, rounded, KHEAP_ALIGNMENT. intros H. bprop.
  Z.to_euclidean_division_equations. lia.
Qed.

(** ** Releasing *)

Lemma merge_frame m p a l r bs x :
  0 < a -> a + span (l :: r :: bs) <= UINT32_MAX ->
  seg m p a (l :: r :: bs) NULL -> ~ in_header a (l :: r :: bs) x ->
  zget (merge_with_next a m) x = zget m x.
Proof.
  intros Ha Hend Hseg Hx. pose proof (seg_next _ _ _ _ _ _ _ Hseg) as Hn.
  pose proof (seg_blk_ok _ _ _ _ _ Hseg) as Hok. cbn [seg] in Hseg.
  destruct Hseg as (_ & _ & Hr & _ & _). destruct Hr as [R1 R2 R3 R4 R5].
  unfold merge_with_next. rewrite Hn, R5. cbn [in_header] in Hx. unfold SIZEOF_HEAP_BLOCK in Hx.
  unfold invalidate_block, set_next, set_previous, set_payload_size, set_state, set_magic.
  rewrite !(zget_store32_ne _ (a + blk_span l + _)), (zget_store32_ne _ (a + blk_span l)) by lia.
  destruct bs as [|c bs]; cbn [in_header] in Hx; unfold SIZEOF_HEAP_BLOCK in Hx.
  - unfold NULL. cbn [Z.eqb negb]. by rewrite !zget_store32_ne by lia.
  - destruct (_ != NULL); by rewrite !zget_store32_ne by lia.
Qed.

(** [merge_free] on lists that are already merged. *)
Lemma coalesced_join b bs : coalesced false bs = true -> coalesced false (join b bs) = true.
Proof.
  destruct bs as [|c bs]; simpl; [done|]. intros Hc.
  destruct (b_free b) eqn:Eb, (b_free c) eqn:Ec; simpl in *; rewrite ?Eb, ?Ec; done.
Qed.

Lemma merge_free_coalesced bs : coalesced false (merge_free bs) = true.
Proof. induction bs as [|b bs IH]; [done|]. by apply coalesced_join. Qed.

Lemma foldr_join_id f pre c cs :
  coalesced f pre = true -> last_free false pre && b_free c = false ->
  foldr join (c :: cs) pre = pre ++ c :: cs.
Proof.
  revert f. induction pre as [|b pre IH]; intros f Hco Hl; [done|]. simpl in *.
  apply andb_prop in Hco as [_ Hco]. destruct pre as [|d pre].
  - simpl in *. by rewrite Hl.
  - rewrite (IH (b_free b)) by done. simpl in Hco |- *. bprop. by rewrite H.
Qed.

Lemma merge_free_id f bs : coalesced f bs = true -> merge_free bs = bs.
Proof.
  intros Hco. destruct bs as [|b bs _] using rev_ind; [done|].
  unfold merge_free. rewrite foldr_app. simpl. rewrite coalesced_app in Hco. bprop.
  assert (Hlf : last_free f bs && b_free b = false).
  { simpl in H0. rewrite andb_true_r in H0. by apply negb_true_iff in H0. }
  apply (foldr_join_id f); [done|]. destruct bs; [done|]. done.
Qed.

Lemma join_assoc_free l c post :
  b_free l = true -> b_free c = true ->
  join l (join c post) = join (Blk (b_size l + blk_span c) true) post.
Proof.
  intros Hl Hc. destruct post as [|d post]; simpl; rewrite Hc; simpl; [by rewrite Hl|].
  destruct (b_free d); simpl; rewrite Hl; simpl; [|by rewrite Hc].
  unfold blk_span; simpl. f_equal. f_equal. lia.
Qed.

Lemma join_head c post : exists d ds, join c post = d :: ds /\ b_free d = b_free c.
Proof.
  destruct post as [|d post]; simpl; [eauto|]. destruct (b_free c && b_free d) eqn:E; [|eauto].
  bprop. do 2 eexists. split; [done|]. by rewrite H.
Qed.

(** Freeing a block in a merged list: at most its two neighbours change. *)
Lemma merge_free_split pre b post :
  coalesced false (pre ++ b :: post) = true -> b_free b = false ->
  let c := Blk (b_size b) true in
  merge_free (pre ++ c :: post) =
  match rev pre with
  | l :: pre' => if b_free l then rev pre' ++ join (Blk (b_size l + blk_span c) true) post
                 else pre ++ join c post
  | [] => join c post
  end.
Proof.
  intros Hco Hb. cbv zeta. rewrite coalesced_app in Hco. simpl in Hco. rewrite Hb, andb_false_r in Hco.
  simpl in Hco. bprop. unfold merge_free. rewrite foldr_app. simpl. fold (merge_free post).
  rewrite (merge_free_id false) by done.
  destruct (join_head (Blk (b_size b) true) post) as (d & ds & Ej & Hd). simpl in Hd.
  destruct pre as [|l pre _] using rev_ind; [done|]. rewrite rev_unit, foldr_app. simpl foldr.
  rewrite coalesced_app in H. bprop. simpl in H1. rewrite andb_true_r in H1. bprop.
  assert (Hlast : forall f, last_free f pre && b_free l = false -> last_free false pre && b_free l = false)
    by (intros f; by destruct pre).
  rewrite rev_involutive. destruct (b_free l) eqn:El.
  - rewrite join_assoc_free by done.
    destruct (join_head (Blk (b_size l + blk_span (Blk (b_size b) true)) true) post) as (e & es & Ee & He).
    rewrite Ee. apply (foldr_join_id false); [done|]. rewrite He. by apply (Hlast false).
  - rewrite Ej. simpl. rewrite El. simpl. rewrite (foldr_join_id false), <-app_assoc; [done|done|].
    rewrite El. apply andb_false_r.
Qed.

Section Release.
Context (arena : Z) {Harena : ArenaPlacement arena}.

(** A layout of the arena, with no claim on free neighbours. *)
Definition layout (m : static_array) (bs : list blk) : Prop :=
  seg m NULL arena bs NULL /\ span bs = KHEAP_ARENA_SIZE.

(** [m'] differs from [m] in metadata of [bs] only. *)
Definition touches (m m' : static_array) (bs : list blk) : Prop :=
  forall x, ~ in_header arena bs x -> zget m' x = zget m x.

Lemma layout_merge m pre l r post :
  layout m (pre ++ l :: r :: post) ->
  layout (merge_with_next (arena + span pre) m)
    (pre ++ Blk (b_size l + blk_span r) (b_free l) :: post) /\
  touches m (merge_with_next (arena + span pre) m) (pre ++ l :: r :: post).
Proof using Harena.
  intros [Hs Hsp]. destruct Harena as [A1 _ A3]. pose proof (seg_blk_ok _ _ _ _ _ Hs) as Hok.
  apply Forall_app in Hok as [Hok1 Hok2]. rewrite span_app in Hsp.
  pose proof (span_nonneg pre Hok1) as Hp. pose proof (proj1 (proj1 (seg_app _ _ _ _ _ _) Hs)) as _.
  assert (Hseg : seg m (last_addr NULL arena pre) (arena + span pre) (l :: r :: post) NULL)
    by (by apply seg_app in Hs as [_ Hs]).
  inversion Hok2 as [|? ? Hl Hok3]; subst. inversion Hok3 as [|? ? Hr Hok4]; subst.
  pose proof (span_nonneg post Hok4).
  assert (Hfr : forall x, ~ in_header (arena + span pre) (l :: r :: post) x ->
    zget (merge_with_next (arena + span pre) m) x = zget m x).
  { intros x Hx. eapply (merge_frame m _ _ l r post x); [lia|lia|exact Hseg|done]. }
  split; [split|].
  - eapply seg_splice; [exact Hs|done|done| |].
    + intros x Hx. apply in_header_bounds in Hx; [|done]. apply Hfr. intros Hx'.
      apply in_header_bounds in Hx'; (done || lia).
    + apply seg_merge; [lia|lia| |done]. cbn [span] in Hsp. unfold blk_span, SIZEOF_HEAP_BLOCK in *. lia.
  - rewrite span_app. cbn [span] in *. unfold blk_span in *. cbn [b_size]. lia.
  - intros x Hx. rewrite in_header_app in Hx. apply Hfr. tauto.
Qed.

Lemma layout_set_state m pre b post free :
  layout m (pre ++ b :: post) ->
  layout (set_state (arena + span pre) (state_of (Blk (b_size b) free)) m)
    (pre ++ Blk (b_size b) free :: post) /\
  touches m (set_state (arena + span pre) (state_of (Blk (b_size b) free)) m) (pre ++ b :: post).
Proof using.
  intros [Hs Hsp]. pose proof (seg_blk_ok _ _ _ _ _ Hs) as Hok. apply Forall_app in Hok as [Hok1 Hok2].
  assert (Hfr : forall x, ~ in_header (arena + span pre) (b :: post) x ->
    zget (set_state (arena + span pre) (state_of (Blk (b_size b) free)) m) x = zget m x).
  { intros x Hx. cbn [in_header] in Hx. unfold SIZEOF_HEAP_BLOCK in Hx. apply zget_store32_ne. lia. }
  split; [split|].
  - eapply seg_splice; [exact Hs|done|done| |].
    + intros x Hx. apply in_header_bounds in Hx; [|done]. apply Hfr. intros Hx'.
      apply in_header_bounds in Hx'; (done || lia).
    + apply seg_set_state. by apply seg_app in Hs as [_ Hs].
  - rewrite span_app in *. cbn [span] in *. unfold blk_span in *. done.
  - intros x Hx. rewrite in_header_app in Hx. apply Hfr. tauto.
Qed.

(** The second merge of [kfree]: with the next block when it is free. *)
Lemma release_next m pre c post :
  b_free c = true -> layout m (pre ++ c :: post) ->
  let block := arena + span pre in
  let next := block_next m block in
  let m' := if (next != NULL) && (block_state m next == HEAP_BLOCK_FREE)
            then merge_with_next block m else m in
  layout m' (pre ++ join c post) /\ touches m m' (pre ++ c :: post).
Proof using Harena.
  intros Hc Hl. cbv zeta. destruct Hl as [Hs Hsp]. pose proof Harena as [A1 _ _].
  pose proof (seg_blk_ok _ _ _ _ _ Hs) as Hok. apply Forall_app in Hok as [Hok1 Hok2].
  pose proof (span_nonneg pre Hok1) as Hp. inversion Hok2 as [|? ? [[Hc1 _] _] _]; subst.
  unfold KHEAP_ALIGNMENT in Hc1. pose proof (proj2 (proj1 (seg_app _ _ _ _ _ _) Hs)) as Hseg.
  destruct post as [|d post].
  - cbn [seg] in Hseg. destruct Hseg as ([] & _). rewrite hd_next0. simpl.
    split; [by split|done].
  - rewrite (seg_next _ _ _ _ _ _ _ Hseg). cbn [seg] in Hseg. destruct Hseg as (_ & _ & Hd & Hrest).
    rewrite (state_is_free _ _ _ _ _ _ (conj Hd Hrest)).
    rewrite (proj2 (Z.eqb_neq _ NULL)) by (unfold NULL, blk_span, SIZEOF_HEAP_BLOCK; lia).
    cbn [negb andb]. unfold join. rewrite Hc. cbn [andb].
    destruct (b_free d); [|by split; [split|]].
    destruct (layout_merge m pre c d post) as [H1 H2]; [by split|]. rewrite Hc in H1. done.
Qed.

Lemma touches_trans m1 m2 m3 bs cs :
  touches m1 m2 bs -> touches m2 m3 cs -> (forall x, in_header arena cs x -> in_header arena bs x) ->
  touches m1 m3 bs.
Proof using.
  intros H1 H2 Hsub x Hx. rewrite H2; [by apply H1|]. intros Hc. by apply Hx, Hsub.
Qed.

Lemma in_header_merged pre l r post f x :
  in_header arena (pre ++ Blk (b_size l + blk_span r) f :: post) x ->
  in_header arena (pre ++ l :: r :: post) x.
Proof using.
  rewrite !in_header_app. simpl. intros [H|[H|H]]; [by left|right; by left|].
  right. right. right. unfold blk_span in *. simpl in H.
  by replace (arena + span pre + (SIZEOF_HEAP_BLOCK + b_size l) + (SIZEOF_HEAP_BLOCK + b_size r))
    with (arena + span pre + (SIZEOF_HEAP_BLOCK + (b_size l + (SIZEOF_HEAP_BLOCK + b_size r)))) by lia.
Qed.

Lemma release_layout m pre b post :
  b_free b = false -> coalesced false (pre ++ b :: post) = true -> layout m (pre ++ b :: post) ->
  layout (release_block (arena + span pre) m) (merge_free (pre ++ Blk (b_size b) true :: post)) /\
  touches m (release_block (arena + span pre) m) (pre ++ b :: post).
Proof using Harena.
  intros Hb Hco Hl. rewrite (merge_free_split pre b post) by done.
  set (c := Blk (b_size b) true). remember (release_block (arena + span pre) m) as m' eqn:Em'.
  unfold release_block in Em'.
  destruct (layout_set_state m pre b post true Hl) as [Hl1 Ht1].
  change (state_of (Blk (b_size b) true)) with HEAP_BLOCK_FREE in Hl1, Ht1. fold c in Hl1, Ht1.
  set (m1 := set_state (arena + span pre) HEAP_BLOCK_FREE m) in *.
  assert (Hsub : forall x, in_header arena (pre ++ c :: post) x -> in_header arena (pre ++ b :: post) x)
    by (intros x; rewrite !in_header_app; done).
  pose proof Hl1 as [Hs1 Hsp1]. pose proof (proj2 (proj1 (seg_app _ _ _ _ _ _) Hs1)) as ([] & _).
  rewrite hd_previous0 in Em'. clear hd_magic0 hd_state0 hd_size0 hd_previous0 hd_next0.
  pose proof (seg_blk_ok _ _ _ _ _ Hs1) as Hok. apply Forall_app in Hok as [Hok1 _].
  destruct pre as [|l pre _] using rev_ind.
  { simpl last_addr in Em'. cbn [negb andb Z.eqb NULL] in Em'.
    destruct (release_next m1 [] c post eq_refl Hl1) as [Hl2 Ht2]. rewrite Em'.
    split; [done|]. eapply touches_trans; [exact Ht1|exact Ht2|done]. }
  rewrite rev_unit, rev_involutive. apply Forall_app in Hok1 as [Hok1 _].
  pose proof (span_nonneg pre Hok1) as Hp. pose proof Harena as [A1 _ _].
  rewrite last_addr_app in Em'. simpl last_addr in Em'.
  rewrite (proj2 (Z.eqb_neq _ NULL)) in Em' by (unfold NULL; lia). cbn [negb andb] in Em'.
  assert (Hll : seg m1 (last_addr NULL arena pre) (arena + span pre) (l :: c :: post) NULL).
  { rewrite <-app_assoc in Hs1. by apply seg_app in Hs1 as [_ Hs1]. }
  rewrite (state_is_free _ _ _ _ _ _ Hll) in Em'. destruct (b_free l) eqn:El; rewrite Em'.
  - rewrite <-app_assoc in Hl1. simpl in Hl1.
    assert (Hsub' : forall x, in_header arena (pre ++ l :: c :: post) x ->
      in_header arena ((pre ++ [l]) ++ b :: post) x)
      by (intros x Hx; apply Hsub; by rewrite <-app_assoc).
    destruct (layout_merge m1 pre l c post Hl1) as [Hl2 Ht2]. rewrite El in Hl2.
    destruct (release_next _ pre (Blk (b_size l + blk_span c) true) post eq_refl Hl2) as [Hl3 Ht3].
    split; [exact Hl3|]. eapply touches_trans; [exact Ht1| |exact Hsub'].
    eapply touches_trans; [exact Ht2|exact Ht3|]. intros x. apply in_header_merged.
  - destruct (release_next m1 (pre ++ [l]) c post eq_refl Hl1) as [Hl2 Ht2].
    split; [exact Hl2|]. eapply touches_trans; [exact Ht1|exact Ht2|done].
Qed.

Lemma kfree_wf h bs p :
  heap_wf arena h bs ->
  match abs_free arena p bs with
  | None => kfree arena h p = Some (false, h)
  | Some bs' => exists h', kfree arena h p = Some (true, h') /\ heap_wf arena h' bs' /\
      touches (memory h) (memory h') bs
  end.
Proof using Harena.
  intros Hwf. pose proof Hwf as [W1 W2 W3 W4 W5 W6]. pose proof Harena as [A1 A2 A3].
  assert (Hok : inspect_ok arena h = true) by (apply inspect_ok_iff; [done|eauto]).
  unfold kfree, abs_free, arena_begin. rewrite Hok, orb_false_r, (@arena_end_eq arena Harena).
  replace (first_block h) with (start arena bs) by (rewrite W2; by destruct bs).
  rewrite (find_owner_spec _ _ NULL arena bs p A1) by
    (done || by eapply blocks_bound || by rewrite W5).
  unfold KHEAP_ALIGNMENT in *. change (16 - 1) with 15. rewrite land_15.
  destruct (split_first (owns p) arena bs) as [[[pre b] post]|] eqn:E; simpl; cycle 1.
  { by destruct (_ || _ || _ || _). }
  apply split_first_Some in E as [-> Hp]. unfold owns in Hp. bprop.
  destruct (split_bounds arena h pre b post Hwf) as (B1 & B2 & B3 & B4 & B5 & B6).
  inversion B5 as [|? ? [[Hb1 Hb2] _] Hpost]; subst. pose proof (span_nonneg post Hpost) as Hsp.
  cbn [span] in B2, B6. unfold blk_span, SIZEOF_HEAP_BLOCK, KHEAP_ALIGNMENT, KHEAP_ARENA_SIZE, UINT32_MAX in *.
  assert (Hmod : span pre mod 16 = 0) by (by apply span_mod).
  rewrite (proj2 (Z.eqb_neq _ NULL)) by (unfold NULL; lia).
  rewrite (u32_small (arena + 32)) by (unfold is_u32; lia).
  rewrite (proj2 (Z.ltb_ge _ (arena + 32))) by lia.
  rewrite Z.geb_leb, (proj2 (Z.leb_gt _ _)) by lia.
  rewrite (proj2 (Z.eqb_eq ((arena + span pre + 32) mod 16) 0)) by
    (clear -A2 Hmod; Z.to_euclidean_division_equations; lia). cbn [negb orb].
  pose proof (split_seg arena h pre b post Hwf) as ([] & _). rewrite hd_state0.
  unfold state_of. destruct (b_free b) eqn:Eb; [done|]. cbn [Z.eqb negb].
  destruct (release_layout (memory h) pre b post Eb W6) as [[Hl1 Hl2] Ht]; [by split|].
  eexists. split; [done|]. split; [|exact Ht].
  split; simpl; try done.
  - rewrite <-W2. by destruct pre.
  - intros En. rewrite En in Hl2. done.
  - apply merge_free_coalesced.
Qed.
End Release.

(** ** Live payloads *)

Lemma live_app a l r p g : live a (l ++ r) p g <-> live a l p g \/ live (a + span l) r p g.
Proof.
  revert a. induction l as [|b l IH]; intros a; simpl; [rewrite Z.add_0_r; tauto|].
  rewrite IH, Z.add_assoc. tauto.
Qed.

Lemma live_bounds a bs p g :
  Forall blk_ok bs -> live a bs p g -> a + 32 <= p /\ p + g <= a + span bs /\ 16 <= g.
Proof.
  intros Hok. revert a. induction Hok as [|b bs [[Hb _] _] Hok IH]; intros a; simpl; [done|].
  pose proof (span_nonneg bs Hok). unfold KHEAP_ALIGNMENT, blk_span, SIZEOF_HEAP_BLOCK in *.
  intros [(_ & -> & ->)|Hl]; [lia|]. apply IH in Hl. lia.
Qed.

Lemma live_aligned a bs p g : Forall blk_ok bs -> a mod 16 = 0 -> live a bs p g -> p mod 16 = 0.
Proof.
  intros Hok. revert a. induction Hok as [|b bs [_ Hb] Hok IH]; intros a Ha; simpl; [done|].
  unfold KHEAP_ALIGNMENT, blk_span, SIZEOF_HEAP_BLOCK in *.
  intros [(_ & -> & _)|Hl]; [|apply IH in Hl; [done|]]; clear IH Hok;
    Z.to_euclidean_division_equations; lia.
Qed.

Lemma live_not_header a bs p g x :
  Forall blk_ok bs -> live a bs p g -> p <= x < p + g -> ~ in_header a bs x.
Proof.
  intros Hok. revert a. induction Hok as [|b bs [[Hb _] _] Hok IH]; intros a; simpl; [done|].
  unfold KHEAP_ALIGNMENT in Hb. intros [(_ & -> & ->)|Hl] Hx [Hh|Hh].
  - lia.
  - apply in_header_bounds in Hh; [|done]. unfold blk_span in Hh. lia.
  - apply live_bounds in Hl; [|done]. unfold blk_span, SIZEOF_HEAP_BLOCK in *. lia.
  - by eapply IH.
Qed.

Lemma live_disjoint a bs p g q k :
  Forall blk_ok bs -> live a bs p g -> live a bs q k -> p <> q -> p + g <= q \/ q + k <= p.
Proof.
  intros Hok. revert a. induction Hok as [|b bs [[Hb _] _] Hok IH]; intros a; simpl; [done|].
  unfold KHEAP_ALIGNMENT in Hb.
  intros [(_ & -> & ->)|Hp] [(_ & -> & ->)|Hq] Hne; [done| | |by eapply IH];
    [apply live_bounds in Hq; [|done]|apply live_bounds in Hp; [|done]];
    unfold blk_span, SIZEOF_HEAP_BLOCK in *; lia.
Qed.

Lemma live_join a b bs p g : live a (join b bs) p g <-> live a (b :: bs) p g.
Proof.
  destruct bs as [|c bs]; [done|]. simpl. destruct (b_free b && b_free c) eqn:E; [|done]. bprop.
  rewrite H, H0. simpl. unfold blk_span. simpl.
  replace (a + (SIZEOF_HEAP_BLOCK + (b_size b + (SIZEOF_HEAP_BLOCK + b_size c))))
    with (a + (SIZEOF_HEAP_BLOCK + b_size b) + (SIZEOF_HEAP_BLOCK + b_size c)) by lia.
  intuition congruence.
Qed.

Lemma live_merge_free a bs p g : live a (merge_free bs) p g <-> live a bs p g.
Proof.
  revert a. induction bs as [|b bs IH]; intros a; [done|]. simpl merge_free. fold (merge_free bs).
  rewrite live_join. simpl. by rewrite IH.
Qed.

(** Taking a block adds one live payload. *)
Lemma abs_alloc_live a n bs p bs' :
  Forall blk_ok bs -> KHEAP_ALIGNMENT <= n -> abs_alloc a n bs = Some (p, bs') ->
  exists g, n <= g /\ (forall q k, live a bs' q k <-> live a bs q k \/ (q = p /\ k = g)) /\
    forall q k, live a bs q k -> q <> p.
Proof.
  intros Hok Hn. unfold abs_alloc.
  destruct (split_first (fits n) a bs) as [[[pre b] post]|] eqn:E; [|done]. intros [= <- <-].
  apply split_first_Some in E as [-> Hf]. unfold fits in Hf. bprop.
  apply Forall_app in Hok as [Hok1 Hok2]. inversion Hok2 as [|? ? [[Hb1 _] _] Hpost]; subst.
  pose proof (span_take_list n b ltac:(unfold KHEAP_ALIGNMENT in Hn; lia)) as Hsp.
  assert (Hne : forall q k, live a (pre ++ b :: post) q k -> q <> a + span pre + SIZEOF_HEAP_BLOCK).
  { intros q k. rewrite live_app. simpl. rewrite H. unfold KHEAP_ALIGNMENT, SIZEOF_HEAP_BLOCK in *.
    intros [Hl|[(? & _)|Hl]]; [|done|]; apply live_bounds in Hl; try done; unfold blk_span, SIZEOF_HEAP_BLOCK in *; lia. }
  exists (if SIZEOF_HEAP_BLOCK + KHEAP_ALIGNMENT <=? b_size b - n then n else b_size b).
  split; [destruct (_ <=? _); lia|]. split; [|done].
  intros q k. rewrite !live_app. simpl live. rewrite Hsp, H.
  assert (Ht : live (a + span pre) (take_list n b) q k <->
    q = a + span pre + SIZEOF_HEAP_BLOCK /\
    k = if SIZEOF_HEAP_BLOCK + KHEAP_ALIGNMENT <=? b_size b - n then n else b_size b)
    by (unfold take_list; destruct (_ <=? _); simpl; intuition congruence).
  rewrite Ht. intuition congruence.
Qed.

Lemma split_first_owns a pre b post :
  Forall blk_ok pre ->
  split_first (owns (a + span pre + SIZEOF_HEAP_BLOCK)) a (pre ++ b :: post) = Some (pre, b, post).
Proof.
  intros Hok. revert a. induction Hok as [|c pre [[Hc _] _] Hok IH]; intros a; simpl.
  - unfold owns. rewrite (proj2 (Z.eqb_eq _ _)) by lia. done.
  - pose proof (span_nonneg pre Hok). unfold KHEAP_ALIGNMENT in Hc. unfold owns at 1.
    rewrite (proj2 (Z.eqb_neq _ _)) by (unfold blk_span, SIZEOF_HEAP_BLOCK; lia).
    rewrite Z.add_assoc, IH. done.
Qed.

(** A pointer is freed exactly when its payload is live. *)
Lemma abs_free_live a p bs :
  Forall blk_ok bs ->
  match abs_free a p bs with
  | Some bs' => (exists g, live a bs p g) /\
      forall q k, live a bs' q k <-> live a bs q k /\ q <> p
  | None => forall g, ~ live a bs p g
  end.
Proof.
  intros Hok. unfold abs_free.
  destruct (split_first (owns p) a bs) as [[[pre b] post]|] eqn:E; cycle 1.
  { clear Hok. revert a E. induction bs as [|b bs IH]; intros a E g; simpl; [tauto|]. simpl in E.
    unfold owns at 1 in E. destruct (Z.eqb_spec (a + SIZEOF_HEAP_BLOCK) p); [done|].
    intros [(_ & -> & _)|Hl]; [done|]. eapply IH; [|exact Hl].
    by destruct (split_first _ _ bs) as [[[]]|]. }
  apply split_first_Some in E as [-> Hp]. unfold owns in Hp. bprop.
  apply Forall_app in Hok as [Hok1 Hok2]. apply Forall_cons_1 in Hok2 as [[[Hb _] _] Hpost].
  unfold KHEAP_ALIGNMENT in Hb.
  assert (Hpre : forall q k, live a pre q k -> q <> p).
  { intros q k Hl. apply live_bounds in Hl; [|done]. unfold SIZEOF_HEAP_BLOCK in *. lia. }
  assert (Hpo : forall q k, live (a + span pre + blk_span b) post q k -> q <> p).
  { intros q k Hl. apply live_bounds in Hl; [|done]. unfold blk_span, SIZEOF_HEAP_BLOCK in *. lia. }
  destruct (b_free b) eqn:Eb.
  - intros g. rewrite live_app. simpl. rewrite Eb.
    intros [Hl|[[? _]|Hl]]; [by apply (Hpre p g)|done|by apply (Hpo p g)].
  - split; [exists (b_size b); rewrite live_app; simpl; rewrite Eb; intuition congruence|].
    intros q k. rewrite live_merge_free, !live_app. simpl. rewrite Eb.
    change (blk_span (Blk (b_size b) true)) with (blk_span b).
    split; [|intros [[Hl|[(_ & -> & _)|Hl]] Hne]; [tauto|by destruct Hne|tauto]].
    intros [Hl|[[? _]|Hl]]; [|done|]; [pose proof (Hpre q k Hl)|pose proof (Hpo q k Hl)]; tauto.
Qed.

(** ** Initialisation, payload writes, zeroed allocation *)

Section Contract.
Context (arena : Z) {Harena : ArenaPlacement arena}.

Definition fresh_blocks : list blk := [Blk (KHEAP_ARENA_SIZE - SIZEOF_HEAP_BLOCK) true].

Lemma kheap_init_wf h : exists h', kheap_init arena h = (true, h') /\ heap_wf arena h' fresh_blocks.
Proof using Harena.
  unfold kheap_init. set (m0 := for_range _ _ _ _). clearbody m0.
  match goal with |- context [mk_heap ?m arena true] => set (m1 := m) end.
  assert (Hwf : heap_wf arena (mk_heap m1 arena true) fresh_blocks).
  { split; try done. cbn [seg fresh_blocks]. split; [|split; [by vm_compute|done]]. unfold m1. cbn [memory].
    split; field_unfold; unfold KHEAP_ARENA_SIZE, SIZEOF_HEAP_BLOCK, HEAP_BLOCK_FREE, HEAP_BLOCK_MAGIC, NULL;
      by autorewrite with mem. }
  assert (Hok : inspect_ok arena (mk_heap m1 arena true) = true) by (apply inspect_ok_iff; [done|eauto]).
  rewrite Hok. by eexists.
Qed.

(** Storing bytes outside the metadata does not disturb the heap. *)
Lemma heap_wf_frame h bs m' :
  heap_wf arena h bs -> (forall x, in_header arena bs x -> zget m' x = zget (memory h) x) ->
  heap_wf arena (mk_heap m' (first_block h) (heap_initialized h)) bs.
Proof using.
  intros [W1 W2 W3 W4 W5 W6] Hx. split; simpl; try done. by eapply seg_frame.
Qed.

Lemma poke_wf h bs p g x v :
  heap_wf arena h bs -> live arena bs p g -> p <= x < p + g ->
  heap_wf arena (mk_heap (zset (memory h) x v) (first_block h) (heap_initialized h)) bs.
Proof using.
  intros Hwf Hl Hx. apply heap_wf_frame; [done|]. intros y Hy. apply zget_zset_ne.
  intros <-. revert Hy. eapply live_not_header; [|done|done].
  eapply seg_blk_ok, wf_seg, Hwf.
Qed.

(** The zeroing loop of [kcalloc]. *)
Lemma zero_loop m p n :
  0 <= n -> 0 <= p -> p + n <= UINT32_MAX ->
  forall x, zget (for_range 0 n (fun i m => zset m (u32 (p + i)) 0) m) x =
    if (p <=? x) && (x <? p + n) then 0 else zget m x.
Proof using.
  intros Hn Hp Hmax. apply (for_range_ind (fun i t => forall x,
    zget t x = if (p <=? x) && (x <? p + i) then 0 else zget m x)); [lia| |].
  - intros x. bcase; [lia|done].
  - intros i t Hi Ht x. rewrite u32_small by (unfold is_u32, UINT32_MAX in *; lia).
    rewrite zget_zset, Ht. destruct (Z.eqb_spec (p + i) x); bcase; try lia; try done.
Qed.

Lemma kmalloc_cases h bs size :
  heap_wf arena h bs -> is_u32 size ->
  match (if size_ok size then abs_alloc arena (rounded size) bs else None) with
  | None => kmalloc arena h size = Some (NULL, h)
  | Some (p, bs') => exists h', kmalloc arena h size = Some (p, h') /\ heap_wf arena h' bs' /\
      forall x, ~ in_header arena bs x -> ~ in_header arena bs' x ->
        zget (memory h') x = zget (memory h) x
  end.
Proof using Harena.
  intros Hwf Hu. pose proof (align_request_spec size Hu) as Hal.
  destruct (size_ok size) eqn:E.
  - destruct (rounded_bounds size E) as (_ & H1 & H2). by apply kmalloc_wf.
  - unfold kmalloc. by rewrite Hal.
Qed.

(** The abstract allocator gives a fresh, aligned, large enough payload. *)
Lemma abs_alloc_fresh h bs size p bs' :
  heap_wf arena h bs -> size_ok size = true -> abs_alloc arena (rounded size) bs = Some (p, bs') ->
  Forall blk_ok bs' ->
  exists g, size <= g /\ p mod 16 = 0 /\ arena + SIZEOF_HEAP_BLOCK <= p /\
    p + g <= arena + span bs' /\ p <> NULL /\
    (forall q k, live arena bs' q k <-> live arena bs q k \/ (q = p /\ k = g)) /\
    (forall q k, live arena bs q k -> p + g <= q \/ q + k <= p).
Proof using Harena.
  intros Hwf Hok Ha Hok'. destruct (rounded_bounds size Hok) as (H1 & H2 & _).
  pose proof (seg_blk_ok _ _ _ _ _ (wf_seg _ _ _ Hwf)) as Hb. destruct Harena as [A1 A2 A3].
  destruct (abs_alloc_live arena _ bs p bs' Hb H2 Ha) as (g & Hg & Hl & Hne).
  assert (Hp : live arena bs' p g) by (apply Hl; by right).
  pose proof (live_bounds _ _ _ _ Hok' Hp) as (B1 & B2 & _). unfold SIZEOF_HEAP_BLOCK, NULL.
  exists g. repeat split; try done; try lia.
  - by apply (live_aligned arena bs' p g).
  - by apply Hl.
  - by apply Hl.
  - intros q k Hq. eapply (live_disjoint arena bs'); [done|done|by apply Hl; left|].
    intros ->. by apply (Hne q k).
Qed.

Lemma kcalloc_wf h bs count size :
  heap_wf arena h bs -> is_u32 count -> is_u32 size ->
  let total := count * size in
  match (if (total <=? SIZE_MAX) && size_ok total then abs_alloc arena (rounded total) bs else None) with
  | None => kcalloc arena h count size = Some (NULL, h)
  | Some (p, bs') => exists h', kcalloc arena h count size = Some (p, h') /\ heap_wf arena h' bs' /\
      (forall x, p <= x < p + total -> zget (memory h') x = 0) /\
      forall x, ~ in_header arena bs x -> ~ in_header arena bs' x -> ~ p <= x < p + total ->
        zget (memory h') x = zget (memory h) x
  end.
Proof using Harena.
  intros Hwf Hc Hs. cbv zeta. unfold kcalloc.
  destruct (Z.eqb_spec count 0) as [->|Hc0].
  { rewrite Z.mul_0_l. unfold size_ok. simpl. done. }
  destruct (Z.eqb_spec size 0) as [->|Hs0].
  { rewrite Z.mul_0_r. unfold size_ok. simpl. done. }
  cbn [orb]. unfold is_u32 in Hc, Hs. rewrite Z.gtb_ltb.
  replace (SIZE_MAX / count <? size) with (negb (count * size <=? SIZE_MAX)); cycle 1.
  { apply eq_true_iff_eq. rewrite negb_true_iff, Z.leb_gt, Z.ltb_lt.
    pose proof (Z.div_mod SIZE_MAX count Hc0). pose proof (Z.mod_pos_bound SIZE_MAX count ltac:(lia)).
    split; intros; nia. }
  destruct (count * size <=? SIZE_MAX) eqn:E; bprop; cbn [negb andb]; [|done].
  unfold SIZE_MAX, UINT32_MAX in E. rewrite u32_small by (unfold is_u32; nia).
  pose proof (kmalloc_cases h bs (count * size) Hwf ltac:(unfold is_u32; nia)) as Hm.
  destruct (size_ok (count * size)) eqn:Eok; [|by rewrite Hm].
  destruct (abs_alloc _ _ bs) as [[p bs']|] eqn:Ea; [|by rewrite Hm].
  destruct Hm as (h1 & -> & Hwf1 & Hfr).
  pose proof (seg_blk_ok _ _ _ _ _ (wf_seg _ _ _ Hwf1)) as Hok1.
  destruct (abs_alloc_fresh h bs _ p bs' Hwf Eok Ea Hok1) as (g & Hg & Hp16 & Hplo & Hphi & Hpn & Hl & _).
  rewrite (proj2 (Z.eqb_neq p NULL)) by done. pose proof Harena as [A1 A2 A3].
  rewrite (wf_span _ _ _ Hwf1) in Hphi. unfold SIZEOF_HEAP_BLOCK in Hplo.
  pose proof (zero_loop (memory h1) p (count * size) ltac:(nia) ltac:(lia) ltac:(lia)) as Hz.
  eexists. split; [done|]. split; [|split]; cbn [memory].
  - apply heap_wf_frame; [done|]. intros x Hx. rewrite Hz.
    destruct ((p <=? x) && (x <? p + count * size)) eqn:Ex; [|done]. bprop.
    exfalso. eapply (live_not_header arena bs' p g x); [done|apply Hl; by right|lia|done].
  - intros x Hx. rewrite Hz, (proj2 (Z.leb_le _ _)), (proj2 (Z.ltb_lt _ _)) by lia. done.
  - intros x Hx Hx' Hn. rewrite Hz, Hfr by done.
    destruct ((p <=? x) && (x <? p + count * size)) eqn:Ex; [|done]. bprop. lia.
Qed.
End Contract.

(** ** Runs *)

Inductive heap_op :=
| Malloc (size : Z)
| Calloc (count size : Z)
| Free (pointer : Z)
| Poke (address byte : Z)
| Stats.

Inductive heap_response :=
| Pointer (p : Z)
| Freed (ok : bool)
| Stored
| Measured (ok : bool) (stats : option heap_stats).

Definition no_stats : heap_stats := mk_stats 0 0 0 0.

(** A call of the code, or a byte stored by the code that owns a payload. *)
Definition heap_step (arena : Z) (op : heap_op) (h : heap) : option (heap_response * heap) :=
  match op with
  | Malloc size => '(p, h) ← kmalloc arena h size; Some (Pointer p, h)
  | Calloc count size => '(p, h) ← kcalloc arena h count size; Some (Pointer p, h)
  | Free pointer => '(ok, h) ← kfree arena h pointer; Some (Freed ok, h)
  | Poke x v => Some (Stored, mk_heap (zset (memory h) x v) (first_block h) (heap_initialized h))
  | Stats => let '(ok, st) := kheap_get_stats arena h (Some no_stats) in Some (Measured ok st, h)
  end.

Definition allocated (r : option (Z * list blk)) (bs : list blk) : heap_response * list blk :=
  match r with
  | Some (p, bs') => (Pointer p, bs')
  | None => (Pointer NULL, bs)
  end.

Definition abs_step (arena : Z) (op : heap_op) (bs : list blk) : heap_response * list blk :=
  match op with
  | Malloc size =>
      allocated (if size_ok size then abs_alloc arena (rounded size) bs else None) bs
  | Calloc count size =>
      allocated (if (count * size <=? SIZE_MAX) && size_ok (count * size)
                 then abs_alloc arena (rounded (count * size)) bs else None) bs
  | Free pointer =>
      match abs_free arena pointer bs with
      | Some bs' => (Freed true, bs')
      | None => (Freed false, bs)
      end
  | Poke _ _ => (Stored, bs)
  | Stats => (Measured true (Some (stats_of bs)), bs)
  end.

(** Sizes are 32-bit, and a store goes to a live payload. *)
Definition op_legal (arena : Z) (bs : list blk) (op : heap_op) : Prop :=
  match op with
  | Malloc size => is_u32 size
  | Calloc count size => is_u32 count /\ is_u32 size
  | Poke x _ => exists p g, live arena bs p g /\ p <= x < p + g
  | _ => True
  end.

Fixpoint run_legal (arena : Z) (bs : list blk) (ops : list heap_op) : Prop :=
  match ops with
  | [] => True
  | op :: ops => op_legal arena bs op /\ run_legal arena (snd (abs_step arena op bs)) ops
  end.

Fixpoint heap_run (arena : Z) (ops : list heap_op) (h : heap) : option (list heap_response * heap) :=
  match ops with
  | [] => Some ([], h)
  | op :: ops =>
      '(r, h) ← heap_step arena op h;
      '(rs, h) ← heap_run arena ops h;
      Some (r :: rs, h)
  end.

Fixpoint abs_run (arena : Z) (ops : list heap_op) (bs : list blk) : list heap_response * list blk :=
  match ops with
  | [] => ([], bs)
  | op :: ops =>
      let '(r, bs) := abs_step arena op bs in
      let '(rs, bs) := abs_run arena ops bs in (r :: rs, bs)
  end.

Section Runs.
Context (arena : Z) {Harena : ArenaPlacement arena}.

Lemma heap_step_refines op h bs :
  heap_wf arena h bs -> op_legal arena bs op ->
  exists h', heap_step arena op h = Some (fst (abs_step arena op bs), h') /\
    heap_wf arena h' (snd (abs_step arena op bs)).
Proof using Harena.
  intros Hwf Hl. destruct op as [size|count size|p|x v|]; cbn [heap_step abs_step op_legal] in *.
  - pose proof (kmalloc_cases arena h bs size Hwf Hl) as Hm.
    destruct (if size_ok size then _ else _) as [[p bs']|]; cbn [allocated fst snd].
    + destruct Hm as (h' & -> & Hwf' & _). by exists h'.
    + rewrite Hm. by exists h.
  - destruct Hl as [Hc Hs]. pose proof (kcalloc_wf arena h bs count size Hwf Hc Hs) as Hm. cbv zeta in Hm.
    destruct (if _ && _ then _ else _) as [[p bs']|]; cbn [allocated fst snd].
    + destruct Hm as (h' & -> & Hwf' & _). by exists h'.
    + rewrite Hm. by exists h.
  - pose proof (kfree_wf arena h bs p Hwf) as Hm. destruct (abs_free arena p bs) as [bs'|].
    + destruct Hm as (h' & -> & Hwf' & _). by exists h'.
    + rewrite Hm. by exists h.
  - destruct Hl as (p & g & Hl & Hx). eexists. split; [done|]. by eapply poke_wf.
  - unfold kheap_get_stats. rewrite (inspect_heap_wf arena h bs Hwf). by exists h.
Qed.

Lemma heap_run_agrees ops h bs :
  heap_wf arena h bs -> run_legal arena bs ops ->
  exists h', heap_run arena ops h = Some (fst (abs_run arena ops bs), h') /\
    heap_wf arena h' (snd (abs_run arena ops bs)).
Proof using Harena.
  revert h bs. induction ops as [|op ops IH]; intros h bs Hwf; cbn [run_legal heap_run abs_run].
  { intros _. by exists h. }
  intros [Hl Hr]. destruct (heap_step_refines op h bs Hwf Hl) as (h1 & -> & Hwf1).
  destruct (abs_step arena op bs) as [r bs1]. simpl in *.
  destruct (IH h1 bs1 Hwf1 Hr) as (h2 & -> & Hwf2).
  destruct (abs_run arena ops bs1) as [rs bs2]. simpl in *. by exists h2.
Qed.
End Runs.

(** ** Properties *)

(** C3: started with [kheap_init], any sequence of [kmalloc], [kcalloc],
    [kfree] and statistics calls, interleaved with stores by the owners of
    live payloads, never runs out of the loop bounds and answers exactly as
    the abstract first-fit allocator does on its list of blocks (split when at
    least 48 bytes remain, free neighbours merged); the byte-level block chain
    stays a representation of that list and [kheap_validate] accepts it. *)
Theorem heap_run_refines arena `{!ArenaPlacement arena} h ops :
  run_legal arena fresh_blocks ops ->
  exists h0 h1, kheap_init arena h = (true, h0) /\
    heap_run arena ops h0 = Some (fst (abs_run arena ops fresh_blocks), h1) /\
    heap_wf arena h1 (snd (abs_run arena ops fresh_blocks)) /\ kheap_validate arena h1 = true.
Proof.
  intros Hl. destruct (kheap_init_wf arena h) as (h0 & Hi & Hwf0).
  destruct (heap_run_agrees arena ops h0 _ Hwf0 Hl) as (h1 & Hr & Hwf1).
  exists h0, h1. repeat (split; [done|]). apply inspect_ok_iff; [done|eauto].
Qed.

#[export] Instance demo_placement : ArenaPlacement 0x200000.
Proof. by split; vm_compute. Qed.

Definition demo_heap_ops : list heap_op :=
  [Malloc 20; Malloc 100; Poke 0x200025 7; Malloc 0; Free 0x200020; Free 0x200020;
   Calloc 65536 65536; Calloc 2 8; Stats].

Lemma heap_run_refines_witness :
  exists h0 h1, kheap_init 0x200000 (mk_heap ∅ 0 false) = (true, h0) /\
    heap_run 0x200000 demo_heap_ops h0 =
    Some ([Pointer 0x200020; Pointer 0x200060; Stored; Pointer 0; Freed true; Freed false;
           Pointer 0; Pointer 0x200020; Measured true (Some (mk_stats 262112 261904 261904 2))], h1).
Proof.
  destruct (heap_run_refines 0x200000 (mk_heap ∅ 0 false) demo_heap_ops) as (h0 & h1 & Hi & Hr & _).
  - assert (Hu : forall z, (0 <=? z) && (z <? 4294967296) = true -> is_u32 z)
      by (intros z Hz; bprop; by split).
    do 2 (split; [apply Hu; reflexivity|]). split.
    { exists 0x200020, 32. split; [left; repeat split|lia]. }
    split; [apply Hu; reflexivity|]. do 2 (split; [exact I|]).
    do 2 (split; [split; apply Hu; reflexivity|]). split; exact I.
  - exists h0, h1. split; [exact Hi|exact Hr].
Defined.

(** C28: the integrity check is exact and always terminates within its bound:
    [inspect_heap] (hence [kheap_validate] and [kheap_get_stats]) succeeds if
    and only if the arena is tiled from end to end by correctly linked blocks
    with no two free neighbours, and the statistics it then reports are those
    of that list; on any other contents of memory it reports failure, and
    [kmalloc] and [kfree] refuse without touching the heap. *)
Theorem heap_check_exact arena `{!ArenaPlacement arena} h :
  (forall st, inspect_heap arena h = Some st <-> exists bs, heap_wf arena h bs /\ st = stats_of bs) /\
  inspect_loop arena heap_fuel (memory h) arena NULL 0 0 false (mk_stats total_capacity 0 0 0)
    <> InspectFuel /\
  (kheap_validate arena h = false -> forall size p,
     kmalloc arena h size = Some (NULL, h) /\ kfree arena h p = Some (false, h)).
Proof.
  split; [|split].
  - intros st. split.
    + intros Hi. destruct (inspect_heap_sound arena h st Hi) as [bs Hwf]. exists bs. split; [done|].
      rewrite (inspect_heap_wf arena h bs Hwf) in Hi. congruence.
    + intros (bs & Hwf & ->). by apply inspect_heap_wf.
  - apply inspect_loop_terminates; unfold heap_fuel; change maximum_blocks with 8192; lia.
  - unfold kheap_validate, kmalloc, kfree. intros Hv size p. rewrite Hv, orb_true_r.
    split; [|done]. by destruct (align_request size).
Qed.

Lemma heap_check_exact_witness :
  exists h0, kheap_init 0x200000 (mk_heap ∅ 0 false) = (true, h0) /\
    inspect_heap 0x200000 h0 = Some (mk_stats 262112 262112 262112 0) /\
    kmalloc 0x200000 (mk_heap ∅ 0 false) 5 = Some (NULL, mk_heap ∅ 0 false).
Proof.
  destruct (kheap_init_wf 0x200000 (mk_heap ∅ 0 false)) as (h0 & Hi & Hwf).
  exists h0. split; [exact Hi|]. split.
  - apply (proj1 (heap_check_exact 0x200000 h0)). exists fresh_blocks. split; [exact Hwf|reflexivity].
  - apply (proj2 (proj2 (heap_check_exact 0x200000 (mk_heap ∅ 0 false)))); [reflexivity|exact 0].
Defined.

(** The abstract allocator succeeds exactly when some block fits. *)
Lemma abs_alloc_succeeds a n bs :
  existsb (fun b => b_free b && (n <=? b_size b)) bs = bool_decide (is_Some (abs_alloc a n bs)).
Proof.
  unfold abs_alloc. destruct (split_first (fits n) a bs) as [[[pre b] post]|] eqn:Ef.
  - rewrite bool_decide_true by eauto. apply split_first_Some in Ef as [-> Hf]. unfold fits in Hf.
    rewrite existsb_app. simpl. by rewrite Hf, orb_true_r.
  - rewrite bool_decide_false by (by intros []). apply not_true_is_false. intros Hx.
    apply existsb_exists in Hx as (b & Hin & Hb). apply in_split in Hin as (pre & post & ->).
    apply split_first_None in Ef. unfold fits in Ef. congruence.
Qed.

(** C26: [kmalloc] on a well-formed heap always returns.  It returns NULL and
    changes nothing exactly when the size is 0 or too large to round up or no
    free block can hold it; otherwise it returns a 16-byte aligned payload of
    at least [size] bytes inside the arena, disjoint from every live payload,
    which becomes live while all other allocations stay; no byte of any live
    payload changes. *)
Theorem kmalloc_sound arena `{!ArenaPlacement arena} h bs size :
  heap_wf arena h bs -> is_u32 size ->
  exists p h', kmalloc arena h size = Some (p, h') /\
    (if size_ok size && existsb (fun b => b_free b && (rounded size <=? b_size b)) bs then
       exists g bs', heap_wf arena h' bs' /\ p <> NULL /\ size <= g /\
         p mod KHEAP_ALIGNMENT = 0 /\ arena + SIZEOF_HEAP_BLOCK <= p /\ p + g <= arena + KHEAP_ARENA_SIZE /\
         (forall q k, live arena bs' q k <-> live arena bs q k \/ (q = p /\ k = g)) /\
         (forall q k, live arena bs q k -> p + g <= q \/ q + k <= p) /\
         (forall q k x, live arena bs q k -> q <= x < q + k ->
            zget (memory h') x = zget (memory h) x)
     else p = NULL /\ h' = h).
Proof.
  intros Hwf Hu. pose proof (kmalloc_cases arena h bs size Hwf Hu) as Hm.
  pose proof (seg_blk_ok _ _ _ _ _ (wf_seg _ _ _ Hwf)) as Hok.
  destruct (size_ok size) eqn:Es; cbn [andb]; [|by exists NULL, h].
  rewrite (abs_alloc_succeeds arena).
  destruct (abs_alloc arena (rounded size) bs) as [[p bs']|] eqn:Ea; simpl.
  - destruct Hm as (h' & Hk & Hwf' & Hfr).
    pose proof (seg_blk_ok _ _ _ _ _ (wf_seg _ _ _ Hwf')) as Hok'.
    destruct (abs_alloc_fresh arena h bs size p bs' Hwf Es Ea Hok') as (g & G1 & G2 & G3 & G4 & G5 & G6 & G7).
    exists p, h'. split; [done|]. exists g, bs'. rewrite (wf_span _ _ _ Hwf') in G4.
    repeat (split; [done|]). intros q k x Hq Hx.
    apply Hfr; eapply live_not_header; [done|exact Hq|done|done|by apply G6; left|done].
  - by exists NULL, h.
Qed.

Lemma kmalloc_sound_witness :
  exists h0 p h', kheap_init 0x200000 (mk_heap ∅ 0 false) = (true, h0) /\
    kmalloc 0x200000 h0 100 = Some (p, h') /\ p <> NULL /\ p mod 16 = 0.
Proof.
  destruct (kheap_init_wf 0x200000 (mk_heap ∅ 0 false)) as (h0 & Hi & Hwf).
  destruct (kmalloc_sound 0x200000 h0 fresh_blocks 100 Hwf ltac:(split; lia))
    as (p & h' & Hk & g & bs' & _ & Hn & _ & Ha & _).
  exists h0, p, h'. split; [exact Hi|]. split; [exact Hk|]. split; [exact Hn|exact Ha].
Defined.

(** C27: [kfree] on a well-formed heap always returns.  It returns true exactly
    on the start of a live payload, which stops being live while every other
    allocation stays live with its bytes unchanged; any other pointer (NULL,
    outside the arena, misaligned, inside a block, already freed) is refused
    and the heap is left as it was. *)
Theorem kfree_sound arena `{!ArenaPlacement arena} h bs p :
  heap_wf arena h bs ->
  exists ok h', kfree arena h p = Some (ok, h') /\
    (ok = true <-> exists g, live arena bs p g) /\
    (if ok then
       exists bs', heap_wf arena h' bs' /\
         (forall q k, live arena bs' q k <-> live arena bs q k /\ q <> p) /\
         (forall q k x, live arena bs q k -> q <= x < q + k ->
            zget (memory h') x = zget (memory h) x)
     else h' = h).
Proof.
  intros Hwf. pose proof (kfree_wf arena h bs p Hwf) as Hm.
  pose proof (seg_blk_ok _ _ _ _ _ (wf_seg _ _ _ Hwf)) as Hok.
  pose proof (abs_free_live arena p bs Hok) as Hl. destruct (abs_free arena p bs) as [bs'|].
  - destruct Hm as (h' & Hk & Hwf' & Ht). destruct Hl as [Hl1 Hl2]. exists true, h'.
    split; [done|]. split; [done|]. exists bs'. split; [done|]. split; [done|].
    intros q k x Hq Hx. apply Ht. by eapply live_not_header.
  - exists false, h. split; [done|]. split; [|done]. split; [done|]. intros [g Hg]. by apply Hl in Hg.
Qed.

Lemma kfree_sound_witness :
  exists h0 h1 h2, kheap_init 0x200000 (mk_heap ∅ 0 false) = (true, h0) /\
    kmalloc 0x200000 h0 100 = Some (0x200020, h1) /\
    kfree 0x200000 h1 0x200020 = Some (true, h2) /\ kfree 0x200000 h1 0x200030 = Some (false, h1).
Proof.
  destruct (kheap_init_wf 0x200000 (mk_heap ∅ 0 false)) as (h0 & Hi & Hwf).
  destruct (kmalloc_wf 0x200000 h0 fresh_blocks 100 112 Hwf eq_refl ltac:(unfold KHEAP_ALIGNMENT; lia) eq_refl) as (h1 & Hm & Hwf1 & _).
  exists h0, h1. destruct (kfree_sound 0x200000 h1 _ 0x200020 Hwf1) as (ok & h2 & Hk & Hiff & _).
  destruct (kfree_sound 0x200000 h1 _ 0x200030 Hwf1) as (ok' & h' & Hk' & Hiff' & Hr').
  assert (E : ok = true). { apply Hiff. exists 112. left. vm_compute. by repeat split. }
  destruct ok'.
  - exfalso. destruct (proj1 Hiff' eq_refl) as [g [(_ & H & _)|[(H & _)|[]]]]; vm_compute in H; discriminate H.
  - exists h2. split; [exact Hi|]. split; [exact Hm|]. subst ok h'. split; [exact Hk|exact Hk'].
Defined.

Lemma abs_alloc_free_id arena n bs p bs' :
  Forall blk_ok bs -> coalesced false bs = true -> KHEAP_ALIGNMENT <= n ->
  abs_alloc arena n bs = Some (p, bs') -> abs_free arena p bs' = Some bs.
Proof.
  intros Hok Hco Hn. unfold abs_alloc.
  destruct (split_first (fits n) arena bs) as [[[pre b] post]|] eqn:E; [|done]. intros [= <- <-].
  apply split_first_Some in E as [-> Hf]. unfold fits in Hf. bprop.
  apply Forall_app in Hok as [Hok _]. pose proof Hco as Hco'.
  rewrite coalesced_app in Hco. simpl in Hco. rewrite H in Hco. bprop.
  assert (Hmerge : forall c cs, merge_free (c :: cs) = merge_free (b :: post) ->
    merge_free (pre ++ c :: cs) = pre ++ b :: post).
  { intros c cs Hc. rewrite <-(merge_free_id false (pre ++ b :: post)) by done.
    unfold merge_free in *. by rewrite !foldr_app, Hc. }
  unfold abs_free, take_list. destruct (_ <=? _) eqn:E2; simpl app; rewrite split_first_owns by done;
    cbn [b_free b_size]; rewrite Hmerge; try done.
  - assert (Hpost : merge_free post = post) by (by eapply merge_free_id).
    unfold merge_free in *. cbn [foldr]. rewrite Hpost.
    assert (Hj : forall c, b_free c = true -> join c post = c :: post).
    { intros c Hc. destruct post as [|d post]; [done|]. simpl in *. bprop. by rewrite Hc, H3. }
    rewrite !Hj by done. simpl. destruct b as [sz fr]. simpl in *. subst fr. unfold blk_span. simpl.
    f_equal. f_equal. lia.
  - destruct b as [sz fr]. simpl in *. by subst fr.
Qed.

(** Allocating and freeing is a round trip: after a successful [kmalloc]
    of any size, [kfree] of the pointer succeeds and brings back exactly the
    previous block list, so the statistics are the ones from before. *)
Theorem kmalloc_kfree_roundtrip arena `{!ArenaPlacement arena} h bs size p h1 :
  heap_wf arena h bs -> is_u32 size -> kmalloc arena h size = Some (p, h1) -> p <> NULL ->
  exists h2, kfree arena h1 p = Some (true, h2) /\ heap_wf arena h2 bs /\
    inspect_heap arena h2 = inspect_heap arena h.
Proof.
  intros Hwf Hu Hk Hp. pose proof (kmalloc_cases arena h bs size Hwf Hu) as Hm.
  pose proof (seg_blk_ok _ _ _ _ _ (wf_seg _ _ _ Hwf)) as Hok.
  destruct (size_ok size) eqn:Es; [|congruence].
  destruct (abs_alloc arena (rounded size) bs) as [[p' bs']|] eqn:Ea; [|congruence].
  destruct Hm as (h' & Hk' & Hwf' & _). assert (p' = p /\ h' = h1) as [-> ->] by (split; congruence).
  destruct (rounded_bounds size Es) as (_ & Hr & _).
  pose proof (abs_alloc_free_id arena _ bs p bs' Hok (wf_coalesced _ _ _ Hwf) Hr Ea) as Hf.
  pose proof (kfree_wf arena h1 bs' p Hwf') as Hm. rewrite Hf in Hm.
  destruct Hm as (h2 & Hk2 & Hwf2 & _). exists h2. split; [done|]. split; [done|].
  by rewrite (inspect_heap_wf arena h bs), (inspect_heap_wf arena h2 bs).
Qed.

Lemma kmalloc_kfree_roundtrip_witness :
  exists h0 p h1 h2, kheap_init 0x200000 (mk_heap ∅ 0 false) = (true, h0) /\
    kmalloc 0x200000 h0 100 = Some (p, h1) /\ kfree 0x200000 h1 p = Some (true, h2) /\
    inspect_heap 0x200000 h2 = inspect_heap 0x200000 h0.
Proof.
  destruct (kheap_init_wf 0x200000 (mk_heap ∅ 0 false)) as (h0 & Hi & Hwf).
  pose proof (kmalloc_cases 0x200000 h0 fresh_blocks 100 Hwf ltac:(split; lia)) as (h1 & Hk & _).
  destruct (kmalloc_kfree_roundtrip 0x200000 h0 fresh_blocks 100 _ h1 Hwf ltac:(split; lia) Hk)
    as (h2 & Hf & _ & Hs); [vm_compute; discriminate|].
  exists h0, (0x200000 + 32), h1, h2. split; [exact Hi|]. split; [exact Hk|]. split; [exact Hf|exact Hs].
Defined.

(** [kcalloc] refuses, changing nothing, when a factor is 0, when the
    product does not fit 32 bits or cannot be rounded up, or when no block
    fits; otherwise its payload is entirely zero, it is live next to the
    previous allocations, and no byte of those changes. *)
Theorem kcalloc_zeroed arena `{!ArenaPlacement arena} h bs count size :
  heap_wf arena h bs -> is_u32 count -> is_u32 size ->
  exists p h', kcalloc arena h count size = Some (p, h') /\
    if (count * size <=? SIZE_MAX) && size_ok (count * size)
       && existsb (fun b => b_free b && (rounded (count * size) <=? b_size b)) bs then
      exists g bs', heap_wf arena h' bs' /\ p <> NULL /\ count * size <= g /\
        (forall q k, live arena bs' q k <-> live arena bs q k \/ (q = p /\ k = g)) /\
        (forall x, p <= x < p + count * size -> zget (memory h') x = 0) /\
        (forall q k x, live arena bs q k -> q <= x < q + k ->
           zget (memory h') x = zget (memory h) x)
    else p = NULL /\ h' = h.
Proof.
  intros Hwf Hc Hs. pose proof (kcalloc_wf arena h bs count size Hwf Hc Hs) as Hm. cbv zeta in Hm.
  pose proof (seg_blk_ok _ _ _ _ _ (wf_seg _ _ _ Hwf)) as Hok.
  destruct ((_ <=? SIZE_MAX) && size_ok _) eqn:Es; cbn [andb]; [|by exists NULL, h]. bprop.
  rewrite (abs_alloc_succeeds arena). destruct (abs_alloc arena _ bs) as [[p bs']|] eqn:Ea; simpl.
  - destruct Hm as (h' & Hk & Hwf' & Hz & Hfr).
    pose proof (seg_blk_ok _ _ _ _ _ (wf_seg _ _ _ Hwf')) as Hok'.
    destruct (abs_alloc_fresh arena h bs _ p bs' Hwf H0 Ea Hok') as (g & G1 & G2 & G3 & G4 & G5 & G6 & G7).
    exists p, h'. split; [done|]. exists g, bs'. repeat (split; [done|]). intros q k x Hq Hx.
    apply Hfr; [by eapply live_not_header| |].
    + eapply (live_not_header arena bs'); [done|by apply G6; left|done].
    + specialize (G7 q k Hq). lia.
  - by exists NULL, h.
Qed.

Lemma kcalloc_zeroed_witness :
  exists h0 p h', kheap_init 0x200000 (mk_heap ∅ 0 false) = (true, h0) /\
    kcalloc 0x200000 h0 3 5 = Some (p, h') /\ forall x, p <= x < p + 15 -> zget (memory h') x = 0.
Proof.
  destruct (kheap_init_wf 0x200000 (mk_heap ∅ 0 false)) as (h0 & Hi & Hwf).
  destruct (kcalloc_zeroed 0x200000 h0 fresh_blocks 3 5 Hwf ltac:(split; lia) ltac:(split; lia))
    as (p & h' & Hk & g & bs' & _ & _ & _ & _ & Hz & _).
  exists h0, p, h'. split; [exact Hi|]. split; [exact Hk|exact Hz].
Defined.
