(* ===== verification/Vmm.v ===== *)
(** * Virtual memory (src/kernel/mm/vmm.c, src/kernel/arch/x86/paging.c)

    The page directory, the pool of 64 page tables (32 for the identity map of
    128 MiB, 32 handed out on demand) and the bookkeeping that ties them
    together, with the control registers and the TLB they are set up for.
    The addresses of [page_directory] and [page_tables] are chosen by the
    linker and are parameters.  The large static arrays are finite maps; entry
    [e] of table [t] has index [1024 t + e]. *)
From S2P Require Import Prelude.

Definition VMM_PAGE_SIZE : Z := 4096.
Definition VMM_IDENTITY_LIMIT : Z := 0x08000000.
Definition VMM_DYNAMIC_START : Z := 0x40000000.
Definition VMM_DYNAMIC_END : Z := 0xF0000000.
Definition VMM_WRITABLE : Z := Z.shiftl 1 0.
Definition VMM_USER : Z := Z.shiftl 1 1.

Definition PAGE_DIRECTORY_ENTRIES : Z := 1024.
Definition PAGE_TABLE_ENTRIES : Z := 1024.
Definition PAGE_TABLE_COUNT : Z := 64.
Definition IDENTITY_TABLE_COUNT : Z := 32.
Definition PAGE_PRESENT : Z := Z.shiftl 1 0.
Definition PAGE_WRITABLE : Z := Z.shiftl 1 1.
Definition PAGE_USER : Z := Z.shiftl 1 2.
Definition PAGE_ADDRESS_MASK : Z := 0xFFFFF000.
Definition PAGE_OFFSET_MASK : Z := VMM_PAGE_SIZE - 1.
Definition VMM_ALLOWED_FLAGS : Z := VMM_WRITABLE .| VMM_USER.
Definition TABLE_INDEX_NONE : Z := UINT16_MAX.

Definition CR0_WRITE_PROTECT : Z := Z.shiftl 1 16.
Definition CR0_PAGING : Z := Z.shiftl 1 31.

(** The statics of vmm.c, and the processor state paging.c writes: CR3, CR0
    and the cached translations from page numbers to page frames with their
    permission bits. *)
Record vmm := mk_vmm {
  page_directory : static_array;
  page_tables : static_array;
  directory_table_indices : static_array;
  table_in_use : list bool;
  enabled : bool;
  cr3 : Z;
  cr0 : Z;
  tlb : gmap Z (Z * Z);
}.

Definition vmm_static : vmm :=
  mk_vmm ∅ ∅ ∅ (replicate (Z.to_nat PAGE_TABLE_COUNT) false) false 0 0 ∅.

Definition pte_index (table entry : Z) : Z := table * PAGE_TABLE_ENTRIES + entry.

Definition set_directory (pd idx : static_array) (s : vmm) : vmm :=
  mk_vmm pd (page_tables s) idx (table_in_use s) (enabled s) (cr3 s) (cr0 s) (tlb s).

Definition set_tables (pt : static_array) (use : list bool) (s : vmm) : vmm :=
  mk_vmm (page_directory s) pt (directory_table_indices s) use (enabled s) (cr3 s) (cr0 s) (tlb s).

Definition set_cpu (c3 c0 : Z) (t : gmap Z (Z * Z)) (s : vmm) : vmm :=
  mk_vmm (page_directory s) (page_tables s) (directory_table_indices s) (table_in_use s)
    (enabled s) c3 c0 t.

(** ** paging.c *)

(** Loading CR3 empties the TLB; [invlpg] drops one page from it. *)
Definition paging_load_directory (directory_address : Z) (s : vmm) : vmm :=
  set_cpu directory_address (cr0 s) ∅ s.

Definition paging_enable (s : vmm) : vmm :=
  set_cpu (cr3 s) (cr0 s .| (CR0_WRITE_PROTECT .| CR0_PAGING)) (tlb s) s.

Definition paging_invalidate (virtual_address : Z) (s : vmm) : vmm :=
  set_cpu (cr3 s) (cr0 s) (delete (Z.shiftr virtual_address 12) (tlb s)) s.

Section Vmm.
Context (directory_address tables_address : Z).

(** [&page_tables[table][0]] *)
Definition table_address (table : Z) : Z := tables_address + table * VMM_PAGE_SIZE.

(** ** vmm.c *)

Definition clear_table (table_index : Z) (pt : static_array) : static_array :=
  for_range 0 PAGE_TABLE_ENTRIES (fun entry pt => zset pt (pte_index table_index entry) 0) pt.

Definition dynamic_address_is_valid (virtual_address : Z) : bool :=
  (virtual_address >=? VMM_DYNAMIC_START) && (virtual_address <? VMM_DYNAMIC_END)
  && (virtual_address .& PAGE_OFFSET_MASK == 0).

Definition make_page_flags (flags : Z) : Z :=
  let hardware_flags := PAGE_PRESENT in
  let hardware_flags := if flags .& VMM_WRITABLE != 0 then hardware_flags .| PAGE_WRITABLE
                        else hardware_flags in
  if flags .& VMM_USER != 0 then hardware_flags .| PAGE_USER else hardware_flags.

Definition allocate_dynamic_table (s : vmm) : Z * vmm :=
  match find_range IDENTITY_TABLE_COUNT PAGE_TABLE_COUNT (fun index => negb (table_in_use s).[index]) with
  | Some index =>
      (index, set_tables (clear_table index (page_tables s)) (table_in_use s).[index <- true] s)
  | None => (TABLE_INDEX_NONE, s)
  end.

Definition table_is_empty (table_index : Z) (pt : static_array) : bool :=
  all_range 0 PAGE_TABLE_ENTRIES (fun entry => zget pt (pte_index table_index entry) .& PAGE_PRESENT == 0).

(** The three loops of [vmm_init]. *)
Definition clear_directory (s : vmm) : vmm :=
  for_range 0 PAGE_DIRECTORY_ENTRIES (fun d s =>
    set_directory (zset (page_directory s) d 0)
      (zset (directory_table_indices s) d TABLE_INDEX_NONE) s) s.

Definition clear_pool (s : vmm) : vmm :=
  for_range 0 PAGE_TABLE_COUNT (fun t s =>
    set_tables (clear_table t (page_tables s)) (table_in_use s).[t <- t <? IDENTITY_TABLE_COUNT] s) s.

Definition fill_identity_table (t : Z) (pt : static_array) : static_array :=
  for_range 0 PAGE_TABLE_ENTRIES (fun entry_index pt =>
    let physical_address := u32 (u32 (t * PAGE_TABLE_ENTRIES + entry_index) * VMM_PAGE_SIZE) in
    if physical_address != 0
    then zset pt (pte_index t entry_index) (physical_address .| PAGE_PRESENT .| PAGE_WRITABLE)
    else pt) pt.

Definition map_identity (s : vmm) : vmm :=
  for_range 0 IDENTITY_TABLE_COUNT (fun t s =>
    let s := set_directory
      (zset (page_directory s) t ((table_address t .& PAGE_ADDRESS_MASK) .| PAGE_PRESENT .| PAGE_WRITABLE))
      (zset (directory_table_indices s) t t) s in
    set_tables (fill_identity_table t (page_tables s)) (table_in_use s) s) s.

Definition vmm_init (s : vmm) : bool * vmm :=
  if enabled s then (true, s)
  else
    let s := map_identity (clear_pool (clear_directory s)) in
    let s := paging_enable (paging_load_directory directory_address s) in
    (true, mk_vmm (page_directory s) (page_tables s) (directory_table_indices s) (table_in_use s)
             true (cr3 s) (cr0 s) (tlb s)).

Definition directory_index_of (virtual_address : Z) : Z := Z.shiftr virtual_address 22.
Definition entry_index_of (virtual_address : Z) : Z := Z.shiftr virtual_address 12 .& 0x3FF.

(** The table of a directory entry, allocated when there is none. *)
Definition ensure_table (directory_index : Z) (s : vmm) : Z * vmm :=
  let table_index := zget (directory_table_indices s) directory_index in
  if table_index == TABLE_INDEX_NONE then
    let '(table_index, s) := allocate_dynamic_table s in
    if table_index == TABLE_INDEX_NONE then (TABLE_INDEX_NONE, s)
    else
      (table_index,
       set_directory
         (zset (page_directory s) directory_index
            ((table_address table_index .& PAGE_ADDRESS_MASK) .| PAGE_PRESENT .| PAGE_WRITABLE))
         (zset (directory_table_indices s) directory_index table_index) s)
  else (table_index, s).

Definition vmm_map_page (virtual_address physical_address flags : Z) (s : vmm) : bool * vmm :=
  let directory_index := directory_index_of virtual_address in
  let entry_index := entry_index_of virtual_address in
  if negb (enabled s)
     || negb (dynamic_address_is_valid virtual_address)
     || (physical_address .& PAGE_OFFSET_MASK != 0)
     || (flags .& not32 VMM_ALLOWED_FLAGS != 0) then (false, s)
  else
    let '(table_index, s) := ensure_table directory_index s in
    if table_index == TABLE_INDEX_NONE then (false, s)
    else if zget (page_tables s) (pte_index table_index entry_index) .& PAGE_PRESENT != 0
    then (false, s)
    else
      let hardware_flags := make_page_flags flags in
      let s := if hardware_flags .& PAGE_USER != 0
               then set_directory (zset (page_directory s) directory_index
                      (zget (page_directory s) directory_index .| PAGE_USER))
                      (directory_table_indices s) s
               else s in
      let s := set_tables (zset (page_tables s) (pte_index table_index entry_index)
                 ((physical_address .& PAGE_ADDRESS_MASK) .| hardware_flags)) (table_in_use s) s in
      (true, paging_invalidate virtual_address s).

Definition vmm_unmap_page (virtual_address : Z) (physical_address : option Z) (s : vmm)
  : bool * option Z * vmm :=
  let directory_index := directory_index_of virtual_address in
  let entry_index := entry_index_of virtual_address in
  match physical_address with
  | None => (false, physical_address, s)
  | Some _ =>
      if negb (enabled s) || negb (dynamic_address_is_valid virtual_address)
      then (false, physical_address, s)
      else
        let table_index := zget (directory_table_indices s) directory_index in
        if table_index == TABLE_INDEX_NONE then (false, physical_address, s)
        else
          let entry := zget (page_tables s) (pte_index table_index entry_index) in
          if entry .& PAGE_PRESENT == 0 then (false, physical_address, s)
          else
            let unmapped_address := entry .& PAGE_ADDRESS_MASK in
            let s := set_tables (zset (page_tables s) (pte_index table_index entry_index) 0)
                       (table_in_use s) s in
            let s := paging_invalidate virtual_address s in
            let s :=
              if (table_index >=? IDENTITY_TABLE_COUNT) && table_is_empty table_index (page_tables s)
              then
                let s := set_directory (zset (page_directory s) directory_index 0)
                           (zset (directory_table_indices s) directory_index TABLE_INDEX_NONE) s in
                set_tables (page_tables s) (table_in_use s).[table_index <- false] s
              else s in
            (true, Some unmapped_address, s)
  end.

Definition vmm_translate (virtual_address : Z) (physical_address : option Z) (s : vmm)
  : bool * option Z :=
  let directory_index := directory_index_of virtual_address in
  let entry_index := entry_index_of virtual_address in
  let offset := virtual_address .& PAGE_OFFSET_MASK in
  match physical_address with
  | None => (false, physical_address)
  | Some _ =>
      if negb (enabled s) then (false, physical_address)
      else if zget (page_directory s) directory_index .& PAGE_PRESENT == 0 then (false, physical_address)
      else
        let table_index := zget (directory_table_indices s) directory_index in
        if table_index == TABLE_INDEX_NONE then (false, physical_address)
        else
          let entry := zget (page_tables s) (pte_index table_index entry_index) in
          if entry .& PAGE_PRESENT == 0 then (false, physical_address)
          else (true, Some (u32 ((entry .& PAGE_ADDRESS_MASK) + offset)))
  end.

Definition vmm_is_enabled (s : vmm) : bool := enabled s.

(** ** The processor's page walk

    Two levels of 1024 entries from CR3; an entry without the present bit
    faults.  The result is the page frame and the writable and user bits that
    both levels grant.  Frames outside the two arrays are not modelled: the
    walk faults. *)
Definition hardware_walk (s : vmm) (virtual_address : Z) : option (Z * Z) :=
  if (cr0 s .& CR0_PAGING == 0) || (cr3 s != directory_address) then None
  else
    let pde := zget (page_directory s) (Z.shiftr virtual_address 22) in
    if pde .& 1 == 0 then None
    else
      let table := (pde .& 0xFFFFF000) - tables_address in
      if (table <? 0) || (table >=? PAGE_TABLE_COUNT * 4096) || (table mod 4096 != 0) then None
      else
        let pte := zget (page_tables s) (pte_index (table / 4096) (Z.shiftr virtual_address 12 .& 0x3FF)) in
        if pte .& 1 == 0 then None
        else Some (pte .& 0xFFFFF000, pde .& pte .& 6).

(** A memory access: a cached translation is used as it is, otherwise the
    tables are walked and the result cached. *)
Definition cpu_access (virtual_address : Z) (s : vmm) : option (Z * Z) * vmm :=
  match tlb s !! Z.shiftr virtual_address 12 with
  | Some r => (Some r, s)
  | None =>
      match hardware_walk s virtual_address with
      | Some r => (Some r, set_cpu (cr3 s) (cr0 s) (<[Z.shiftr virtual_address 12 := r]> (tlb s)) s)
      | None => (None, s)
      end
  end.

(** The processor may drop a cached translation at any time. *)
Definition cpu_evict (virtual_address : Z) (s : vmm) : vmm :=
  set_cpu (cr3 s) (cr0 s) (delete (Z.shiftr virtual_address 12) (tlb s)) s.
End Vmm.

(** ** Entries *)

(** Setting low bits of a page-aligned word is addition. *)
Lemma lor_low p k : p mod 4096 = 0 -> 0 <= k < 4096 -> p .| k = p + k.
Proof.
  intros Hp Hk. rewrite <-Z.lxor_lor, <-Z.add_nocarry_lxor; [done|..].
  all: apply Z.bits_inj'; intros i Hi; rewrite Z.land_spec, Z.testbit_0_l.
  all: destruct (decide (i < 12)).
  all: try (rewrite (testbit_high 12 k) by (done || lia); by rewrite andb_false_r).
  all: replace p with (p / 4096 * 2 ^ 12) by (change (2 ^ 12) with 4096; pose proof (Z.div_mod p 4096); lia).
  all: by rewrite Z.mul_pow2_bits_low by lia.
Qed.

Lemma present_mod x : x .& PAGE_PRESENT = x mod 2.
Proof. exact (land_low_bits x 1 ltac:(lia)). Qed.

Lemma address_mask x : is_u32 x -> x .& PAGE_ADDRESS_MASK = 4096 * (x / 4096).
Proof. intros Hx. exact (land_clear_low 32 12 x ltac:(lia) Hx). Qed.

Lemma offset_mask x : x .& PAGE_OFFSET_MASK = x mod 4096.
Proof. apply land_4095. Qed.

Definition page_aligned (p : Z) : Prop := 0 <= p <= 0xFFFFF000 /\ p mod 4096 = 0.

(** A present entry: frame and flag bits. *)
Lemma entry_fields p k :
  page_aligned p -> 0 <= k < 4096 ->
  p .| k = p + k /\ (p + k) .& PAGE_PRESENT = k mod 2 /\ (p + k) .& PAGE_ADDRESS_MASK = p /\
  p .& PAGE_ADDRESS_MASK = p.
Proof.
  intros [Hp Hm] Hk. split; [by apply lor_low|].
  rewrite present_mod, !address_mask by (unfold is_u32; lia).
  clear -Hm Hk. split; [|split]; Z.to_euclidean_division_equations; lia.
Qed.

(** What the processor may do with a page mapped with [flags]: bit 0 of the
    caller's flags asks for write access, which the processor reads from bit 1
    of an entry (value 2), bit 1 for user access, read from bit 2 (value 4). *)
Definition permissions (flags : Z) : Z :=
  (if Z.testbit flags 0 then 2 else 0) + (if Z.testbit flags 1 then 4 else 0).

(** The low bits of a present entry. *)
Definition flag_bits (flags : Z) : Z := 1 + permissions flags.

Lemma land_bit flags i : 0 <= i -> (flags .& Z.shiftl 1 i != 0) = Z.testbit flags i.
Proof.
  intros Hi. rewrite Z.shiftl_1_l. destruct (Z.testbit flags i) eqn:E.
  - apply negb_true_iff, Z.eqb_neq. intros H. apply (f_equal (fun x => Z.testbit x i)) in H.
    by rewrite Z.land_spec, E, Z.pow2_bits_true, Z.testbit_0_l in H by lia.
  - apply negb_false_iff, Z.eqb_eq, Z.bits_inj'. intros j Hj. rewrite Z.land_spec, Z.testbit_0_l.
    destruct (decide (i = j)) as [<-|Hne]; [by rewrite E|]. by rewrite Z.pow2_bits_false, andb_false_r.
Qed.

Lemma make_page_flags_bits flags : make_page_flags flags = flag_bits flags.
Proof.
  unfold make_page_flags, flag_bits, permissions, VMM_WRITABLE, VMM_USER. rewrite !land_bit by lia.
  by destruct (Z.testbit flags 0), (Z.testbit flags 1).
Qed.

Lemma flag_bits_range flags :
  (0 <= flag_bits flags < 8) /\ flag_bits flags mod 2 = 1 /\ flag_bits flags .& 6 = permissions flags.
Proof.
  unfold flag_bits, permissions. by destruct (Z.testbit flags 0), (Z.testbit flags 1).
Qed.

Definition encode (x : option (Z * Z)) : Z :=
  match x with
  | None => 0
  | Some (frame, flags) => frame + flag_bits flags
  end.

(** ** Abstract address space: page number to frame and flags *)

Abbreviation space := (gmap Z (Z * Z)).

Definition page_number (va : Z) : Z := va / 4096.

(** The directory slots with at least one page. *)
Definition dirs (m : space) : gset Z := set_map (fun v => v / 1024) (dom m).

Lemma elem_of_dirs d m : d ∈ dirs m <-> exists v x, m !! v = Some x /\ v / 1024 = d.
Proof.
  unfold dirs. rewrite elem_of_map. split.
  - intros (v & -> & Hv). apply elem_of_dom in Hv as [x Hx]. eauto.
  - intros (v & x & Hx & <-). exists v. split; [done|]. apply elem_of_dom. eauto.
Qed.

(** The frame and permissions behind a page: below 128 MiB itself, writable by
    the kernel, except page 0; above what the space says. *)
Definition page_of (m : space) (v : Z) : option (Z * Z) :=
  if (1 <=? v) && (v <? 32768) then Some (v * 4096, 2)
  else (fun '(frame, flags) => (frame, permissions flags)) <$> m !! v.

Section Repr.
Context (directory_address tables_address : Z).
Hypothesis Htables : page_aligned tables_address /\ tables_address + 64 * 4096 <= 0xFFFFFFFF.

Abbreviation idx s d := (zget (directory_table_indices s) d).
Abbreviation pde s d := (zget (page_directory s) d).
Abbreviation pte s t e := (zget (page_tables s) (pte_index t e)).
Abbreviation in_use s t := ((table_in_use s).[t]).

Definition dynamic_dir (d : Z) : Prop := 32 <= d < 1024.

(** The tables represent the space [m]; [D] is the set of directory slots that
    have a table of their own. *)
Record vmm_repr (s : vmm) (m : space) (D : gset Z) : Prop := {
  vr_enabled : enabled s = true;
  vr_cr3 : cr3 s = directory_address;
  vr_cr0 : (cr0 s .& CR0_PAGING == 0) = false;
  vr_len : alen (table_in_use s) = 64;
  vr_dom : forall v frame flags, m !! v = Some (frame, flags) ->
    0x40000 <= v < 0xF0000 /\ page_aligned frame /\ v / 1024 ∈ D;
  vr_dirs : forall d, d ∈ D -> dynamic_dir d;
  vr_identity : forall d, 0 <= d < 32 -> idx s d = d /\ pde s d = table_address tables_address d + 3 /\
    forall e, 0 <= e < 1024 -> pte s d e = if d * 1024 + e == 0 then 0 else (d * 1024 + e) * 4096 + 3;
  vr_none : forall d, dynamic_dir d -> d ∉ D -> idx s d = TABLE_INDEX_NONE /\ pde s d = 0;
  vr_some : forall d, d ∈ D -> 32 <= idx s d < 64 /\ in_use s (idx s d) = true /\
    (exists u, (u = 0 \/ u = 4) /\ pde s d = table_address tables_address (idx s d) + 3 + u /\
      forall v frame flags, m !! v = Some (frame, flags) -> v / 1024 = d -> flags .& VMM_USER <> 0 -> u = 4) /\
    forall e, 0 <= e < 1024 -> pte s (idx s d) e = encode (m !! (d * 1024 + e));
  vr_inj : forall d d', d ∈ D -> d' ∈ D -> idx s d = idx s d' -> d = d';
  vr_count : Z.of_nat (size D) = count_range 32 64 (fun t => in_use s t);
}.

Lemma table_address_aligned t : 0 <= t < 64 -> page_aligned (table_address tables_address t).
Proof using Htables.
  destruct Htables as [[H1 H2] H3]. intros Ht. unfold table_address, VMM_PAGE_SIZE, page_aligned.
  split; [lia|]. clear -H2. Z.to_euclidean_division_equations. lia.
Qed.

(** The address split of a 32-bit virtual address. *)
Lemma address_split va :
  is_u32 va ->
  0 <= directory_index_of va < 1024 /\ 0 <= entry_index_of va < 1024 /\
  page_number va = directory_index_of va * 1024 + entry_index_of va /\
  page_number va / 1024 = directory_index_of va.
Proof using.
  intros Hva. unfold directory_index_of, entry_index_of, page_number, is_u32 in *.
  change 0x3FF with (Z.ones 10). rewrite Z.land_ones, !Z.shiftr_div_pow2 by lia.
  change (2 ^ 22) with 4194304. change (2 ^ 12) with 4096. change (2 ^ 10) with 1024.
  Z.to_euclidean_division_equations. lia.
Qed.

Lemma pte_index_inj t e t' e' :
  0 <= e < 1024 -> 0 <= e' < 1024 -> pte_index t e = pte_index t' e' -> t = t' /\ e = e'.
Proof using. unfold pte_index, PAGE_TABLE_ENTRIES. lia. Qed.

Lemma page_split d e : 0 <= e < 1024 -> (d * 1024 + e) / 1024 = d.
Proof using. intros He. Z.to_euclidean_division_equations. lia. Qed.

(** Permission bits of an entry. *)
Lemma entry_permissions p k : page_aligned p -> 0 <= k < 8 -> (p + k) .& 6 = k .& 6.
Proof using.
  intros [_ Hp] Hk. rewrite <-lor_low by (done || lia). rewrite Z.land_lor_distr_l.
  change 6 with (4095 .& 6) at 1. by rewrite Z.land_assoc, land_4095, Hp.
Qed.

Lemma both_permissions x y : x .& y .& 6 = (x .& 6) .& (y .& 6).
Proof using.
  apply Z.bits_inj'. intros i Hi. rewrite !Z.land_spec.
  by destruct (Z.testbit x i), (Z.testbit y i), (Z.testbit 6 i).
Qed.

(** The bits of a page entry are granted in full by its directory entry. *)
Lemma granted u flags :
  (u = 0 \/ u = 4) -> (flags .& VMM_USER <> 0 -> u = 4) ->
  ((3 + u) .& 6) .& (flag_bits flags .& 6) = permissions flags.
Proof using.
  intros Hu Hf. unfold flag_bits, permissions. pose proof (land_bit flags 1 ltac:(lia)) as Hb. fold VMM_USER in Hb.
  destruct (Z.testbit flags 1).
  - apply negb_true_iff, Z.eqb_neq in Hb. rewrite (Hf Hb). by destruct (Z.testbit flags 0).
  - by destruct Hu as [->| ->], (Z.testbit flags 0).
Qed.

(** What the two levels of tables say about entry [e] of directory slot [d]. *)
Definition walks_to s (d e t : Z) (r : option (Z * Z)) : Prop :=
  idx s d = t /\ 0 <= t < 64 /\ (pde s d .& PAGE_PRESENT == 0) = false /\
  (pde s d .& PAGE_ADDRESS_MASK) - tables_address = t * 4096 /\
  match r with
  | Some (f, perm) =>
      (pte s t e .& PAGE_PRESENT == 0) = false /\ pte s t e .& PAGE_ADDRESS_MASK = f /\
      pde s d .& pte s t e .& 6 = perm /\ page_aligned f
  | None => (pte s t e .& PAGE_PRESENT == 0) = true
  end.

Lemma directory_entry s d t u :
  0 <= t < 64 -> (u = 0 \/ u = 4) -> pde s d = table_address tables_address t + 3 + u ->
  (pde s d .& PAGE_PRESENT == 0) = false /\
  (pde s d .& PAGE_ADDRESS_MASK) - tables_address = t * 4096 /\ pde s d .& 6 = (3 + u) .& 6.
Proof using Htables.
  intros Ht Hu Hp. pose proof (table_address_aligned t Ht) as Hta. rewrite Hp, <-Z.add_assoc.
  destruct (entry_fields _ (3 + u) Hta ltac:(lia)) as (_ & -> & -> & _).
  split; [destruct Hu; by subst u|]. split; [unfold table_address, VMM_PAGE_SIZE; lia|].
  apply entry_permissions; [done|lia].
Qed.

Lemma walk_identity s m D d e :
  vmm_repr s m D -> 0 <= d < 32 -> 0 <= e < 1024 -> walks_to s d e d (page_of m (d * 1024 + e)).
Proof using Htables.
  intros Hr Hd He. destruct (vr_identity _ _ _ Hr d ltac:(lia)) as (Hi & Hp & Ht).
  destruct (directory_entry s d d 0 ltac:(lia) (or_introl eq_refl)) as (W1 & W2 & W3); [by rewrite Hp, Z.add_0_r|].
  unfold walks_to, page_of. rewrite both_permissions, W1, W2, W3.
  split; [done|]. split; [lia|]. split; [done|]. split; [done|]. rewrite Ht by done.
  destruct (Z.eqb_spec (d * 1024 + e) 0) as [E0|E0].
  - rewrite E0. simpl. destruct (m !! 0) as [[f fl]|] eqn:Em; [|done].
    destruct (vr_dom _ _ _ Hr _ _ _ Em) as [Hrange _]. lia.
  - rewrite (proj2 (Z.leb_le _ _)), (proj2 (Z.ltb_lt _ _)) by lia. cbn [andb].
    assert (Hpa : page_aligned ((d * 1024 + e) * 4096)) by (split; [lia|]; apply Z.mod_mul; lia).
    destruct (entry_fields _ 3 Hpa ltac:(lia)) as (_ & -> & -> & _).
    by rewrite (entry_permissions _ 3 Hpa) by lia.
Qed.

Lemma page_of_high m v : 32768 <= v ->
  page_of m v = (fun '(frame, flags) => (frame, permissions flags)) <$> m !! v.
Proof using. intros Hv. unfold page_of. by rewrite (proj2 (Z.ltb_ge v 32768)), andb_false_r by lia. Qed.

Lemma walk_dynamic s m D d e :
  vmm_repr s m D -> d ∈ D -> 0 <= e < 1024 -> walks_to s d e (idx s d) (page_of m (d * 1024 + e)).
Proof using Htables.
  intros Hr HD He. destruct (vr_dirs _ _ _ Hr d HD) as [Hlo _].
  destruct (vr_some _ _ _ Hr d HD) as (Hi & _ & (u & Hu & Hp & Huser) & Ht).
  destruct (directory_entry s d (idx s d) u ltac:(lia) Hu Hp) as (W1 & W2 & W3).
  unfold walks_to. rewrite both_permissions, W1, W2, W3, page_of_high by lia.
  split; [done|]. split; [lia|]. split; [done|]. split; [done|]. rewrite Ht by done.
  destruct (m !! (d * 1024 + e)) as [[frame flags]|] eqn:Em; [|done].
  destruct (vr_dom _ _ _ Hr _ _ _ Em) as (_ & Hpa & _). destruct (flag_bits_range flags) as (Hk & Hodd & _).
  cbn [encode fmap option_fmap option_map].
  destruct (entry_fields frame (flag_bits flags) Hpa ltac:(lia)) as (_ & -> & -> & _).
  rewrite Hodd, (entry_permissions frame), granted by (eauto using page_split || lia). done.
Qed.

Lemma walk_cases s m D d e :
  vmm_repr s m D -> 0 <= d < 1024 -> 0 <= e < 1024 ->
  ((pde s d .& PAGE_PRESENT == 0) = true /\ page_of m (d * 1024 + e) = None) \/
  exists t, walks_to s d e t (page_of m (d * 1024 + e)).
Proof using Htables.
  intros Hr Hd He. destruct (decide (d < 32)) as [Hlow|Hhigh].
  { right. exists d. apply (walk_identity s m D); [done|lia|done]. }
  destruct (decide (d ∈ D)) as [HD|HD].
  { right. exists (idx s d). by apply (walk_dynamic s m D). }
  left. destruct (vr_none _ _ _ Hr d ltac:(unfold dynamic_dir; lia) HD) as [_ ->]. split; [done|].
  rewrite page_of_high by lia. destruct (m !! (d * 1024 + e)) as [[frame flags]|] eqn:Em; [|done].
  destruct (vr_dom _ _ _ Hr _ _ _ Em) as (_ & _ & Hin). by rewrite page_split in Hin.
Qed.

(** ** The processor's view *)

Lemma hardware_walk_repr s m D va :
  vmm_repr s m D -> is_u32 va ->
  hardware_walk directory_address tables_address s va = page_of m (page_number va).
Proof using Htables.
  intros Hr Hva. destruct (address_split va Hva) as (Hd & He & Hv & _).
  unfold hardware_walk. rewrite (vr_cr0 _ _ _ Hr), (vr_cr3 _ _ _ Hr), Z.eqb_refl. cbn [negb orb].
  fold (directory_index_of va) (entry_index_of va). rewrite Hv.
  change 0xFFFFF000 with PAGE_ADDRESS_MASK. change (?x .& 1) with (x .& PAGE_PRESENT).
  destruct (walk_cases s m D _ _ Hr Hd He) as [(-> & ->)|(t & Hi & Ht & -> & -> & Hp)]; [done|].
  rewrite Z.geb_leb. unfold PAGE_TABLE_COUNT.
  rewrite (proj2 (Z.ltb_ge (t * 4096) 0)), (proj2 (Z.leb_gt _ (t * 4096))), Z.mod_mul, Z.div_mul by lia.
  cbn [negb orb Z.eqb]. destruct (page_of m _) as [[f perm]|]; [|by rewrite Hp].
  destruct Hp as (-> & -> & -> & _). done.
Qed.

Lemma translate_repr s m D va out :
  vmm_repr s m D -> is_u32 va ->
  vmm_translate va (Some out) s =
  match page_of m (page_number va) with
  | Some (frame, _) => (true, Some (frame + va mod 4096))
  | None => (false, Some out)
  end.
Proof using Htables.
  intros Hr Hva. destruct (address_split va Hva) as (Hd & He & Hv & _).
  unfold vmm_translate. rewrite (vr_enabled _ _ _ Hr), Hv, offset_mask. cbn [negb].
  destruct (walk_cases s m D _ _ Hr Hd He) as [(-> & ->)|(t & -> & Ht & -> & _ & Hp)]; [done|].
  rewrite (proj2 (Z.eqb_neq t TABLE_INDEX_NONE)) by (unfold TABLE_INDEX_NONE, UINT16_MAX; lia).
  destruct (page_of m _) as [[f perm]|]; [|by rewrite Hp]. destruct Hp as (-> & -> & _ & [Hf _]).
  rewrite u32_small; [done|]. pose proof (Z.mod_pos_bound va 4096 ltac:(lia)). unfold is_u32. lia.
Qed.

(** ** Table updates *)

(** The user bit of a directory entry may be set at any time. *)
Definition grant_user (d : Z) (s : vmm) : vmm :=
  set_directory (zset (page_directory s) d (pde s d .| PAGE_USER)) (directory_table_indices s) s.

Lemma repr_user_bit s m D d :
  vmm_repr s m D -> d ∈ D ->
  vmm_repr (grant_user d s) m D /\
  pde (grant_user d s) d = table_address tables_address (idx s d) + 7.
Proof using Htables.
  intros Hr Hd. pose proof (vr_dirs _ _ _ Hr d Hd) as Hdyn. unfold dynamic_dir in Hdyn.
  destruct (vr_some _ _ _ Hr d Hd) as (Hi & _ & (u & Hu & Hp & _) & _).
  assert (Hnew : pde s d .| PAGE_USER = table_address tables_address (idx s d) + 7).
  { pose proof (table_address_aligned (idx s d) ltac:(lia)) as Hta. rewrite Hp, <-Z.add_assoc.
    destruct (entry_fields _ (3 + u) Hta ltac:(lia)) as (<- & _).
    rewrite <-Z.lor_assoc. assert (Hk : (3 + u) .| PAGE_USER = 7) by (destruct Hu; by subst u).
    rewrite Hk. by apply entry_fields. }
  unfold grant_user. rewrite Hnew. split; [|apply zget_zset_eq].
  destruct Hr as [H1 H2 H3 H4 H5 H6 H7 H8 H9 H10 H11].
  split; try done; cbn [page_directory set_directory directory_table_indices page_tables table_in_use].
  - intros d' Hd'. rewrite zget_zset_ne by lia. by apply H7.
  - intros d' Hd' Hn. rewrite zget_zset_ne by (intros ->; done). by apply H8.
  - intros d' Hd'. destruct (H9 d' Hd') as (G1 & G2 & (u' & Hu' & Hp' & Huser) & G4).
    split; [done|]. split; [done|]. split; [|done]. destruct (decide (d = d')) as [->|Hne].
    + exists 4. rewrite zget_zset_eq. split; [by right|]. split; [lia|done].
    + exists u'. rewrite zget_zset_ne by done. done.
Qed.

(** Writing one entry of a directory slot that has a table. *)
Lemma repr_write s m D d e x m' :
  vmm_repr s m D -> d ∈ D -> 0 <= e < 1024 ->
  m' !! (d * 1024 + e) = x -> (forall v, v <> d * 1024 + e -> m' !! v = m !! v) ->
  (forall frame flags, x = Some (frame, flags) -> 0x40000 <= d * 1024 + e < 0xF0000 /\ page_aligned frame /\
    (flags .& VMM_USER <> 0 -> pde s d = table_address tables_address (idx s d) + 7)) ->
  vmm_repr (set_tables (zset (page_tables s) (pte_index (idx s d) e) (encode x)) (table_in_use s) s) m' D.
Proof using.
  intros Hr Hd He Hx Hother Hok. pose proof (vr_dirs _ _ _ Hr d Hd) as Hdyn. unfold dynamic_dir in Hdyn.
  destruct (vr_some _ _ _ Hr d Hd) as (Hi & _ & _ & _).
  destruct Hr as [H1 H2 H3 H4 H5 H6 H7 H8 H9 H10 H11]. pose proof (page_split d e He) as Hdiv.
  split; try done; cbn [page_tables set_tables page_directory directory_table_indices table_in_use].
  - intros v frame flags Hv. destruct (decide (v = d * 1024 + e)) as [->|Hne].
    + rewrite Hx in Hv. destruct (Hok _ _ Hv) as (? & ? & _). by rewrite Hdiv.
    + apply (H5 v frame flags). by rewrite <-Hother.
  - intros d' Hd'. destruct (H7 d' Hd') as (G1 & G2 & G3). split; [done|]. split; [done|].
    intros e' He'. rewrite zget_zset_ne; [by apply G3|]. intros E. apply pte_index_inj in E; [lia|done|done].
  - intros d' Hd'. destruct (H9 d' Hd') as (G1 & G2 & (u & Hu & Hp & Huser) & G4). repeat (split; [done|]). split.
    + exists u. split; [done|]. split; [done|]. intros v frame flags Hv Hvd Hf.
      destruct (decide (v = d * 1024 + e)) as [->|Hne].
      * rewrite Hdiv in Hvd. subst d'. rewrite Hx in Hv.
        destruct (Hok _ _ Hv) as (_ & _ & Hu4). specialize (Hu4 Hf). lia.
      * rewrite Hother in Hv by done. by apply (Huser v frame flags).
    + intros e' He'. rewrite zget_zset.
      destruct (Z.eqb_spec (pte_index (idx s d) e) (pte_index (idx s d') e')) as [E|E].
      * apply pte_index_inj in E as [E <-]; [|done|done]. apply H10 in E as <-; [|done|done]. by rewrite Hx.
      * rewrite G4 by done. f_equal. symmetry. apply Hother. intros Ev.
        assert (d' = d /\ e' = e) as [-> ->] by lia. done.
Qed.

Lemma clear_table_spec t pt i :
  zget (clear_table t pt) i = if (pte_index t 0 <=? i) && (i <? pte_index t 1024) then 0 else zget pt i.
Proof using.
  unfold clear_table. apply (for_range_ind (fun k pt' =>
    zget pt' i = if (pte_index t 0 <=? i) && (i <? pte_index t k) then 0 else zget pt i));
    unfold PAGE_TABLE_ENTRIES, pte_index; [lia| |].
  - bcase; [lia|done].
  - intros k pt' Hk IH. rewrite zget_zset, IH. unfold pte_index. bcase; try lia; done.
Qed.

Lemma clear_table_get t pt t' e :
  0 <= e < 1024 -> zget (clear_table t pt) (pte_index t' e) = if t =? t' then 0 else zget pt (pte_index t' e).
Proof using.
  intros He. rewrite clear_table_spec. unfold pte_index, PAGE_TABLE_ENTRIES.
  bcase; try done; lia.
Qed.

(** Giving a directory slot an empty table of its own. *)
Definition attach_table (d t : Z) (s : vmm) : vmm :=
  set_directory
    (zset (page_directory s) d ((table_address tables_address t .& PAGE_ADDRESS_MASK) .| PAGE_PRESENT .| PAGE_WRITABLE))
    (zset (directory_table_indices s) d t)
    (set_tables (clear_table t (page_tables s)) (table_in_use s).[t <- true] s).

Lemma table_entry t : 0 <= t < 64 ->
  (table_address tables_address t .& PAGE_ADDRESS_MASK) .| PAGE_PRESENT .| PAGE_WRITABLE =
  table_address tables_address t + 3.
Proof using Htables.
  intros Ht. pose proof (table_address_aligned t Ht) as Hta.
  destruct (entry_fields _ 3 Hta ltac:(lia)) as (<- & _ & _ & ->). by rewrite <-Z.lor_assoc.
Qed.

Lemma repr_attach s m D d t :
  vmm_repr s m D -> dynamic_dir d -> d ∉ D -> 32 <= t < 64 -> in_use s t = false ->
  vmm_repr (attach_table d t s) m (D ∪ {[d]}).
Proof using Htables.
  intros Hr Hdyn Hd Ht Hfree. unfold attach_table. rewrite table_entry by lia.
  destruct Hr as [H1 H2 H3 H4 H5 H6 H7 H8 H9 H10 H11]. unfold dynamic_dir in Hdyn.
  assert (Hfresh : forall d', d' ∈ D -> idx s d' <> t /\ d' <> d).
  { intros d' Hd'. destruct (H9 d' Hd') as (_ & Hu & _). split; [intros E|intros ->; done].
    rewrite E, Hfree in Hu. done. }
  split; try done; cbn [page_tables set_tables set_directory page_directory directory_table_indices table_in_use].
  - by rewrite alen_aset.
  - intros v frame flags Hv. destruct (H5 _ _ _ Hv) as (? & ? & ?). split; [done|]. split; [done|]. by apply elem_of_union_l.
  - intros d' [Hd'| ->%elem_of_singleton]%elem_of_union; [by apply H6|done].
  - intros d' Hd'. rewrite !zget_zset_ne by lia. destruct (H7 d' Hd') as (G1 & G2 & G3).
    split; [done|]. split; [done|]. intros e He. rewrite clear_table_get, (proj2 (Z.eqb_neq t d')) by lia. by apply G3.
  - intros d' Hd' [Hn Hne]%not_elem_of_union. rewrite not_elem_of_singleton in Hne.
    rewrite !zget_zset_ne by done. by apply H8.
  - intros d' [Hd'| ->%elem_of_singleton]%elem_of_union.
    + destruct (H9 d' Hd') as (G1 & G2 & G3 & G4). destruct (Hfresh d' Hd') as [F1 F2].
      rewrite !zget_zset_ne, aget_aset_ne by lia. split; [done|]. split; [done|]. split; [done|].
      intros e He. rewrite clear_table_get, (proj2 (Z.eqb_neq t _)) by (done || lia). by apply G4.
    + rewrite !zget_zset_eq, aget_aset_eq by lia. split; [done|]. split; [done|].
      assert (Hempty : forall v frame flags, m !! v = Some (frame, flags) -> v / 1024 <> d)
        by (intros v frame flags Hv Hvd; apply Hd; rewrite <-Hvd; by eapply H5). split.
      * exists 0. split; [by left|]. split; [lia|]. intros v frame flags Hv Hvd. by destruct (Hempty _ _ _ Hv).
      * intros e He. rewrite clear_table_get, Z.eqb_refl by done.
        destruct (m !! (d * 1024 + e)) as [[frame flags]|] eqn:Em; [|done].
        by destruct (Hempty _ _ _ Em); apply page_split.
  - intros d1 d2 [Hd1| ->%elem_of_singleton]%elem_of_union [Hd2| ->%elem_of_singleton]%elem_of_union;
      try destruct (Hfresh d1) as [F1 F2]; try destruct (Hfresh d2) as [F3 F4]; try done;
      rewrite ?zget_zset_eq, ?zget_zset_ne by done; try done; try by apply H10.
    all: intros E; by destruct F1 || by destruct F3.
  - rewrite size_union, size_singleton by (apply disjoint_singleton_r; done).
    rewrite (count_range_update 32 64 (fun t => in_use s t) _ t).
    + rewrite Hfree, aget_aset_eq by lia. cbn [Z.b2z]. lia.
    + done.
    + intros i Hi Hne. by rewrite aget_aset_ne by lia.
Qed.

(** Taking the table of a directory slot without pages back into the pool. *)
Definition detach_table (d t : Z) (s : vmm) : vmm :=
  set_tables (page_tables s) (table_in_use s).[t <- false]
    (set_directory (zset (page_directory s) d 0) (zset (directory_table_indices s) d TABLE_INDEX_NONE) s).

Lemma repr_detach s m D d :
  vmm_repr s m D -> d ∈ D -> (forall v x, m !! v = Some x -> v / 1024 <> d) ->
  vmm_repr (detach_table d (idx s d) s) m (D ∖ {[d]}).
Proof using.
  intros Hr Hd Hempty. destruct Hr as [H1 H2 H3 H4 H5 H6 H7 H8 H9 H10 H11].
  destruct (H6 d Hd) as [Hd1 Hd2]. destruct (H9 d Hd) as (Hi & Hu & _).
  split; try done; cbn [detach_table page_tables set_tables set_directory page_directory directory_table_indices table_in_use].
  - by rewrite alen_aset.
  - intros v frame flags Hv. destruct (H5 _ _ _ Hv) as (? & ? & ?). split; [done|]. split; [done|].
    apply elem_of_difference. split; [done|]. rewrite elem_of_singleton. by eapply Hempty.
  - intros d' [Hd' _]%elem_of_difference. by apply H6.
  - intros d' Hd'. rewrite !zget_zset_ne by lia. by apply H7.
  - intros d' Hd' Hn. destruct (decide (d = d')) as [<-|Hne]; [by rewrite !zget_zset_eq|].
    rewrite !zget_zset_ne by done. apply H8; [done|]. intros Hin. apply Hn, elem_of_difference.
    split; [done|]. rewrite elem_of_singleton. congruence.
  - intros d' [Hd' Hne]%elem_of_difference. rewrite elem_of_singleton in Hne.
    destruct (H9 d' Hd') as (G1 & G2 & G3 & G4). rewrite !zget_zset_ne by congruence.
    rewrite aget_aset_ne; [done|lia|lia|]. intros E. apply Hne. by apply H10.
  - intros d1 d2 [Hd3 Hne1]%elem_of_difference [Hd4 Hne2]%elem_of_difference.
    rewrite elem_of_singleton in Hne1, Hne2. rewrite !zget_zset_ne by congruence. by apply H10.
  - rewrite size_difference, size_singleton by (apply singleton_subseteq_l; done).
    rewrite (count_range_update 32 64 (fun t => in_use s t) _ (idx s d)).
    + rewrite Hu, aget_aset_eq by lia. cbn [Z.b2z].
      pose proof (count_range_pos 32 64 (fun t => in_use s t) (idx s d) Hi Hu). lia.
    + done.
    + intros i Hi' Hne. by rewrite aget_aset_ne by lia.
Qed.

(** [ensure_table] finds or attaches a table unless the pool is exhausted. *)
Lemma ensure_table_repr s m D d :
  vmm_repr s m D -> dynamic_dir d ->
  let '(t, s') := ensure_table tables_address d s in
  if bool_decide (d ∈ D) || (Z.of_nat (size D) <? 32)
  then 32 <= t < 64 /\ t = idx s' d /\ tlb s' = tlb s /\ vmm_repr s' m (D ∪ {[d]})
  else t = TABLE_INDEX_NONE /\ s' = s.
Proof using Htables.
  intros Hr Hd. unfold ensure_table.
  assert (Hnone : forall t, 0 <= t < 64 -> (t == TABLE_INDEX_NONE) = false)
    by (intros t Ht; apply Z.eqb_neq; unfold TABLE_INDEX_NONE, UINT16_MAX; lia).
  case_bool_decide as Hin; cbn [orb].
  - destruct (vr_some _ _ _ Hr d Hin) as (Hi & _). rewrite Hnone by lia.
    repeat (split; [done|]). by rewrite (union_comm_L D), subseteq_union_1_L by by apply singleton_subseteq_l.
  - destruct (vr_none _ _ _ Hr d Hd Hin) as [-> _]. rewrite Z.eqb_refl, (vr_count _ _ _ Hr).
    unfold allocate_dynamic_table. destruct (find_range _ _ _) as [t|] eqn:Ef.
    + apply find_range_Some in Ef as (Ht & Hfree & _). apply negb_true_iff in Hfree.
      unfold IDENTITY_TABLE_COUNT, PAGE_TABLE_COUNT in Ht.
      pose proof (count_range_lt 32 64 (fun t => in_use s t) t Ht Hfree).
      rewrite (proj2 (Z.ltb_lt _ _)), Hnone by lia. split; [done|].
      split; [cbn; by rewrite zget_zset_eq|]. split; [done|].
      exact (repr_attach s m D d t Hr Hd Hin Ht Hfree).
    + rewrite find_range_None in Ef. rewrite (count_range_full 32 64), Z.eqb_refl; [done|lia|].
      intros i Hi. apply negb_false_iff. by apply Ef.
Qed.

(** ** The specification of the operations *)

Definition map_arguments_valid (va pa flags : Z) : bool :=
  (VMM_DYNAMIC_START <=? va) && (va <? VMM_DYNAMIC_END) && (va mod 4096 == 0)
  && (pa mod 4096 == 0) && (flags <? 4).

Definition spec_map (va pa flags : Z) (m : space) : bool * space :=
  let v := page_number va in
  if map_arguments_valid va pa flags
     && bool_decide (m !! v = None)
     && (bool_decide (v / 1024 ∈ dirs m) || (Z.of_nat (size (dirs m)) <? 32))
  then (true, <[v := (pa, flags)]> m)
  else (false, m).

Definition spec_unmap (va : Z) (out : Z) (m : space) : bool * Z * space :=
  match m !! page_number va with
  | Some (frame, _) => if va mod 4096 == 0 then (true, frame, delete (page_number va) m) else (false, out, m)
  | None => (false, out, m)
  end.

(** No cached translation outlives its page. *)
Definition tlb_coherent (s : vmm) (m : space) : Prop :=
  forall v r, tlb s !! v = Some r -> page_of m v = Some r.

Definition vmm_inv (s : vmm) (m : space) : Prop := vmm_repr s m (dirs m) /\ tlb_coherent s m.

Lemma dirs_insert v x m : dirs (<[v := x]> m) = dirs m ∪ {[v / 1024]}.
Proof using. unfold dirs. rewrite dom_insert_L, set_map_union_L, set_map_singleton_L.
  apply union_comm_L. Qed.

Lemma repr_cpu s m D t : vmm_repr s m D -> vmm_repr (set_cpu (cr3 s) (cr0 s) t s) m D.
Proof using. intros [H1 H2 H3 H4 H5 H6 H7 H8 H9 H10 H11]. by split. Qed.

Lemma page_number_shift va : Z.shiftr va 12 = page_number va.
Proof using. by rewrite Z.shiftr_div_pow2 by lia. Qed.

Lemma dynamic_valid va :
  dynamic_address_is_valid va =
  (VMM_DYNAMIC_START <=? va) && (va <? VMM_DYNAMIC_END) && (va mod 4096 == 0).
Proof using. unfold dynamic_address_is_valid. by rewrite offset_mask, Z.geb_leb. Qed.

Lemma allowed_flags flags : is_u32 flags -> (flags .& not32 VMM_ALLOWED_FLAGS != 0) = negb (flags <? 4).
Proof using.
  intros Hf. f_equal. change (not32 VMM_ALLOWED_FLAGS) with (Z.lnot (Z.ones 2) mod 2 ^ 32).
  rewrite land_clear_low by (done || lia). change (2 ^ 2) with 4. unfold is_u32 in Hf.
  destruct (Z.eqb_spec (4 * (flags / 4)) 0), (Z.ltb_spec flags 4); try done; Z.to_euclidean_division_equations; lia.
Qed.

Lemma map_rejects va pa flags s m D :
  vmm_repr s m D -> is_u32 flags ->
  negb (enabled s) || negb (dynamic_address_is_valid va) || (pa .& PAGE_OFFSET_MASK != 0)
    || (flags .& not32 VMM_ALLOWED_FLAGS != 0) = negb (map_arguments_valid va pa flags).
Proof using.
  intros Hr Hf. rewrite (vr_enabled _ _ _ Hr), dynamic_valid, offset_mask, allowed_flags by done.
  unfold map_arguments_valid. by destruct (_ <=? _), (va <? _), (va mod _ == _), (pa mod _ == _), (flags <? 4).
Qed.

Lemma aligned_frame pa : is_u32 pa -> pa mod 4096 = 0 -> page_aligned pa.
Proof using. intros Hp Hm. split; [|done]. clear -Hp Hm. unfold is_u32 in Hp. Z.to_euclidean_division_equations. lia. Qed.

Lemma coherent_insert s m v x :
  32768 <= v -> m !! v = None -> tlb_coherent s m ->
  forall t, t = tlb s \/ t = delete v (tlb s) -> forall v' r, t !! v' = Some r -> page_of (<[v := x]> m) v' = Some r.
Proof using.
  intros Hv Hn Hc t Ht v' r Hr.
  assert (Hv' : tlb s !! v' = Some r) by (destruct Ht as [->| ->]; [done|by apply lookup_delete_Some in Hr as [_ Hr]]).
  specialize (Hc _ _ Hv'). unfold page_of in *. destruct (_ && _) eqn:E; [done|].
  rewrite lookup_insert_ne; [done|]. intros <-. by rewrite Hn in Hc.
Qed.

Lemma map_write_user s m D d flags :
  vmm_repr s m D -> d ∈ D ->
  let s' := if make_page_flags flags .& PAGE_USER != 0 then grant_user d s else s in
  vmm_repr s' m D /\ idx s' d = idx s d /\ page_tables s' = page_tables s /\ tlb s' = tlb s /\
  (flags .& VMM_USER <> 0 -> pde s' d = table_address tables_address (idx s d) + 7).
Proof using Htables.
  intros Hr Hd. destruct (repr_user_bit s m D d Hr Hd) as [Hr' Hp].
  unfold make_page_flags. destruct (Z.eqb_spec (flags .& VMM_USER) 0) as [E|E]; cbn [negb].
  - destruct (_ != 0); by cbn.
  - destruct (flags .& VMM_WRITABLE != 0); by cbn.
Qed.

(** Mapping a page: every branch of [vmm_map_page]. *)
Lemma map_refines va pa flags s m :
  vmm_inv s m -> is_u32 va -> is_u32 pa -> is_u32 flags ->
  let '(b, s') := vmm_map_page tables_address va pa flags s in
  let '(b', m') := spec_map va pa flags m in b = b' /\ vmm_inv s' m'.
Proof using Htables.
  intros [Hr Hc] Hva Hpa Hf. destruct (address_split va Hva) as (Hd & He & Hv & Hvd).
  unfold vmm_map_page, spec_map. rewrite (map_rejects _ _ _ _ _ _ Hr Hf), Hvd.
  destruct (map_arguments_valid va pa flags) eqn:Eargs; cbn [negb andb]; [|done].
  unfold map_arguments_valid in Eargs. bprop.
  assert (Hpage : 0x40000 <= page_number va < 0xF0000)
    by (unfold page_number, VMM_DYNAMIC_START, VMM_DYNAMIC_END in *; clear -H H3 H2; Z.to_euclidean_division_equations; lia).
  set (d := directory_index_of va) in *. set (e := entry_index_of va) in *.
  assert (Hdyn : dynamic_dir d) by (unfold dynamic_dir; lia).
  pose proof (ensure_table_repr s m (dirs m) d Hr Hdyn) as Hens.
  destruct (ensure_table tables_address d s) as [t s1]. destruct (bool_decide (d ∈ dirs m) || _) eqn:Eroom; cycle 1.
  { destruct Hens as [-> ->]. rewrite Z.eqb_refl, andb_false_r. done. }
  destruct Hens as (Ht & -> & Htlb & Hr1). rewrite andb_true_r.
  rewrite (proj2 (Z.eqb_neq _ TABLE_INDEX_NONE)) by (unfold TABLE_INDEX_NONE, UINT16_MAX; lia).
  assert (Hin : d ∈ dirs m ∪ {[d]}) by (apply elem_of_union_r, elem_of_singleton; done).
  destruct (vr_some _ _ _ Hr1 d Hin) as (_ & _ & _ & Hpte). rewrite Hpte, <-Hv by done.
  destruct (m !! page_number va) as [[f0 fl0]|] eqn:Em.
  - rewrite bool_decide_false by done. cbn [encode].
    destruct (vr_dom _ _ _ Hr _ _ _ Em) as (_ & Hf0 & Hdin). rewrite Hvd in Hdin.
    destruct (flag_bits_range fl0) as (Hk & Hodd & _).
    destruct (entry_fields f0 (flag_bits fl0) Hf0 ltac:(lia)) as (_ & -> & _). rewrite Hodd. cbn [Z.eqb negb].
    split; [done|]. split; [|unfold tlb_coherent; by rewrite Htlb].
    by rewrite (union_comm_L (dirs m)), subseteq_union_1_L in Hr1 by by apply singleton_subseteq_l.
  - rewrite bool_decide_true by done. cbn [encode Z.land Z.eqb negb]. fold (grant_user d s1).
    destruct (map_write_user s1 m _ d flags Hr1 Hin) as (Hr2 & Hi2 & Hpt2 & Htlb2 & Hu2).
    set (s2 := if make_page_flags flags .& PAGE_USER != 0 then grant_user d s1 else s1) in *. split; [done|].
    destruct (entry_fields pa (flag_bits flags) (aligned_frame pa Hpa ltac:(done))
      ltac:(pose proof (flag_bits_range flags); lia)) as (Hor & _ & _ & Hmask).
    rewrite Hmask, make_page_flags_bits, Hor, <-Hi2. change (pa + flag_bits flags) with (encode (Some (pa, flags))).
    split.
    + apply repr_cpu. rewrite dirs_insert, Hvd.
      apply (repr_write s2 m _ d e (Some (pa, flags))); try done.
      * rewrite <-Hv. apply lookup_insert_eq.
      * intros v Hne. rewrite <-Hv in Hne. by rewrite lookup_insert_ne.
      * intros frame fl [= <- <-]. rewrite <-Hv. split; [done|]. rewrite Hi2. split; [by apply aligned_frame|done].
    + unfold tlb_coherent. cbn [tlb paging_invalidate set_cpu set_tables]. rewrite Htlb2, Htlb, page_number_shift.
      eapply coherent_insert; eauto; lia.
Qed.

Lemma table_is_empty_repr s m D d :
  vmm_repr s m D -> d ∈ D ->
  table_is_empty (idx s d) (page_tables s) = true <-> d ∉ dirs m.
Proof using.
  intros Hr Hd. destruct (vr_some _ _ _ Hr d Hd) as (_ & _ & _ & Hpte).
  unfold table_is_empty. rewrite all_range_true, elem_of_dirs. split.
  - intros Hall (v & [frame flags] & Hv & <-). destruct (vr_dom _ _ _ Hr _ _ _ Hv) as (_ & Hf & _).
    pose proof (Z.mod_pos_bound v 1024 ltac:(lia)) as Hm. specialize (Hall (v mod 1024) Hm).
    assert (Ev : v / 1024 * 1024 + v mod 1024 = v) by (pose proof (Z.div_mod v 1024); lia).
    rewrite Hpte, Ev, Hv in Hall by done. cbn [encode] in Hall. destruct (flag_bits_range flags) as (Hk & Hodd & _).
    destruct (entry_fields frame (flag_bits flags) Hf ltac:(lia)) as (_ & Hp & _). by rewrite Hp, Hodd in Hall.
  - intros Hno e He. unfold PAGE_TABLE_ENTRIES in He. rewrite Hpte by done.
    destruct (m !! (d * 1024 + e)) as [x|] eqn:Em; [|done].
    destruct Hno. exists (d * 1024 + e), x. split; [done|]. by apply page_split.
Qed.

Lemma dirs_delete v m :
  dirs m ∖ {[v / 1024]} ⊆ dirs (delete v m) /\ dirs (delete v m) ⊆ dirs m.
Proof using.
  split; intros d.
  - intros [Hd Hne]%elem_of_difference. rewrite elem_of_singleton in Hne.
    apply elem_of_dirs in Hd as (v' & x & Hv' & <-). apply elem_of_dirs. exists v', x.
    rewrite lookup_delete_ne by (intros ->; done). done.
  - intros (v' & x & Hv' & <-)%elem_of_dirs. apply lookup_delete_Some in Hv' as [_ Hv'].
    apply elem_of_dirs. eauto.
Qed.

Lemma dirs_delete_last v m : v / 1024 ∉ dirs (delete v m) -> dirs (delete v m) = dirs m ∖ {[v / 1024]}.
Proof using.
  intros Hn. destruct (dirs_delete v m) as [H1 H2]. apply set_eq. intros d. split; [|apply H1].
  intros Hd. apply elem_of_difference. split; [by apply H2|]. rewrite elem_of_singleton. by intros ->.
Qed.

Lemma dirs_delete_other v m : v / 1024 ∈ dirs (delete v m) -> dirs (delete v m) = dirs m.
Proof using.
  intros Hin. destruct (dirs_delete v m) as [H1 H2]. apply set_eq. intros d. split; [apply H2|].
  intros Hd. destruct (decide (d = v / 1024)) as [->|Hne]; [done|].
  apply H1, elem_of_difference. split; [done|]. by rewrite elem_of_singleton.
Qed.

Lemma valid_dynamic_page va :
  dynamic_address_is_valid va = true <-> 0x40000 <= page_number va < 0xF0000 /\ va mod 4096 = 0.
Proof using.
  rewrite dynamic_valid, !andb_true_iff, Z.leb_le, Z.ltb_lt, Z.eqb_eq.
  unfold page_number, VMM_DYNAMIC_START, VMM_DYNAMIC_END. clear.
  split; intros; Z.to_euclidean_division_equations; lia.
Qed.

(** The state after the entry of a mapped page has been cleared: the table
    goes back to the pool when that was its last page. *)
Lemma release_if_empty s m v d :
  vmm_repr s (delete v m) (dirs m) -> d ∈ dirs m -> v / 1024 = d ->
  vmm_repr (if (idx s d >=? IDENTITY_TABLE_COUNT) && table_is_empty (idx s d) (page_tables s)
            then detach_table d (idx s d) s else s) (delete v m) (dirs (delete v m)).
Proof using.
  intros Hr Hin Hvd. destruct (vr_some _ _ _ Hr d Hin) as (Hi & _).
  unfold IDENTITY_TABLE_COUNT. rewrite Z.geb_leb, (proj2 (Z.leb_le 32 _)) by lia. cbn [andb].
  pose proof (table_is_empty_repr s _ _ d Hr Hin) as Hempty. subst d.
  destruct (table_is_empty _ _).
  - destruct Hempty as [Hempty _]. specialize (Hempty eq_refl).
    rewrite dirs_delete_last by done. apply repr_detach; [done|done|].
    intros v' x Hv' E. apply Hempty, elem_of_dirs. eauto.
  - rewrite dirs_delete_other; [done|].
    destruct (decide (v / 1024 ∈ dirs (delete v m))) as [|Hn]; [done|]. by apply Hempty in Hn.
Qed.

(** Unmapping a page: every branch of [vmm_unmap_page]. *)
Lemma unmap_refines va out s m :
  vmm_inv s m -> is_u32 va ->
  let '(b, out', s') := vmm_unmap_page va (Some out) s in
  let '(b', o, m') := spec_unmap va out m in b = b' /\ out' = Some o /\ vmm_inv s' m'.
Proof using.
  intros [Hr Hc] Hva. destruct (address_split va Hva) as (Hd & He & Hv & Hvd).
  unfold vmm_unmap_page, spec_unmap. rewrite (vr_enabled _ _ _ Hr). cbn [negb orb].
  set (d := directory_index_of va) in *. set (e := entry_index_of va) in *.
  destruct (dynamic_address_is_valid va) eqn:Evalid; cbn [negb]; cycle 1.
  { destruct (m !! page_number va) as [[frame flags]|] eqn:Em; [|done].
    destruct (vr_dom _ _ _ Hr _ _ _ Em) as (Hpage & _).
    destruct (Z.eqb_spec (va mod 4096) 0) as [E0|E0]; [|done].
    by rewrite (proj2 (valid_dynamic_page va)) in Evalid. }
  apply valid_dynamic_page in Evalid as [Hpage H0].
  assert (Hdyn : dynamic_dir d) by (unfold dynamic_dir; lia).
  rewrite H0. cbn [Z.eqb]. destruct (decide (d ∈ dirs m)) as [Hin|Hin]; cycle 1.
  { destruct (vr_none _ _ _ Hr d Hdyn Hin) as [-> _]. rewrite Z.eqb_refl.
    destruct (m !! page_number va) as [[frame flags]|] eqn:Em; [|done].
    destruct Hin. rewrite <-Hvd. apply elem_of_dirs. eauto. }
  destruct (vr_some _ _ _ Hr d Hin) as (Hi & _ & _ & Hpte).
  rewrite (proj2 (Z.eqb_neq _ TABLE_INDEX_NONE)) by (unfold TABLE_INDEX_NONE, UINT16_MAX; lia).
  rewrite Hpte, <-Hv by done. destruct (m !! page_number va) as [[frame flags]|] eqn:Em; [|done].
  destruct (vr_dom _ _ _ Hr _ _ _ Em) as (_ & Hf & _). destruct (flag_bits_range flags) as (Hk & Hodd & _).
  cbn [encode]. destruct (entry_fields frame (flag_bits flags) Hf ltac:(lia)) as (_ & -> & -> & _).
  rewrite Hodd. cbn [Z.eqb]. split; [done|]. split; [done|].
  set (s1 := paging_invalidate va _).
  assert (Hr1 : vmm_repr s1 (delete (page_number va) m) (dirs m)).
  { apply repr_cpu. apply (repr_write s m (dirs m) d e None); try done.
    - rewrite <-Hv. apply lookup_delete_eq.
    - intros v Hne. rewrite <-Hv in Hne. by rewrite lookup_delete_ne. }
  split; [exact (release_if_empty s1 m (page_number va) d Hr1 Hin Hvd)|].
  assert (Hc1 : tlb_coherent s1 (delete (page_number va) m)).
  { unfold tlb_coherent. cbn [s1 tlb paging_invalidate set_cpu set_tables]. rewrite page_number_shift.
    intros v r [Hne Hl]%lookup_delete_Some. specialize (Hc _ _ Hl). unfold page_of in *.
    by rewrite lookup_delete_ne. }
  by destruct (_ && _).
Qed.

(** ** Initialisation *)

Lemma clear_directory_spec s :
  let s' := clear_directory s in
  page_tables s' = page_tables s /\ table_in_use s' = table_in_use s /\ cr0 s' = cr0 s /\
  forall d, 0 <= d < 1024 -> pde s' d = 0 /\ idx s' d = TABLE_INDEX_NONE.
Proof using.
  cbv zeta. unfold clear_directory, PAGE_DIRECTORY_ENTRIES.
  apply (for_range_ind (fun k s' => page_tables s' = page_tables s /\ table_in_use s' = table_in_use s /\
    cr0 s' = cr0 s /\ forall d, 0 <= d < k -> pde s' d = 0 /\ idx s' d = TABLE_INDEX_NONE)); [lia| |].
  - repeat (split; [done|]). intros; lia.
  - intros k s' Hk (H1 & H2 & H3 & H4). repeat (split; [done|]). intros d Hd. cbn.
    rewrite !zget_zset. destruct (Z.eqb_spec k d) as [|Hne]; [done|]. apply H4. lia.
Qed.

Lemma clear_pool_spec s :
  alen (table_in_use s) = 64 ->
  let s' := clear_pool s in
  page_directory s' = page_directory s /\ directory_table_indices s' = directory_table_indices s /\
  cr0 s' = cr0 s /\ alen (table_in_use s') = 64 /\
  forall t, 0 <= t < 64 -> in_use s' t = (t <? 32) /\ forall e, 0 <= e < 1024 -> pte s' t e = 0.
Proof using.
  intros Hl. cbv zeta. unfold clear_pool, PAGE_TABLE_COUNT, IDENTITY_TABLE_COUNT.
  apply (for_range_ind (fun k s' => page_directory s' = page_directory s /\
    directory_table_indices s' = directory_table_indices s /\ cr0 s' = cr0 s /\ alen (table_in_use s') = 64 /\
    forall t, 0 <= t < k -> in_use s' t = (t <? 32) /\ forall e, 0 <= e < 1024 -> pte s' t e = 0)); [lia| |].
  - repeat (split; [done|]). intros; lia.
  - intros k s' Hk (H1 & H2 & H3 & H4 & H5). do 3 (split; [done|]).
    cbn [table_in_use set_tables page_tables]. split; [by rewrite alen_aset|]. intros t Ht.
    destruct (decide (k = t)) as [->|Hne].
    + rewrite aget_aset_eq by lia. split; [done|]. intros e He. by rewrite clear_table_get, Z.eqb_refl.
    + destruct (H5 t ltac:(lia)) as [G1 G2]. rewrite aget_aset_ne by lia. split; [done|].
      intros e He. rewrite clear_table_get, (proj2 (Z.eqb_neq k t)) by done. by apply G2.
Qed.

Definition identity_entry (t e : Z) : Z :=
  if t * 1024 + e == 0 then 0 else (t * 1024 + e) * 4096 + 3.

Lemma identity_word t e :
  0 <= t < 32 -> 0 <= e < 1024 ->
  u32 (u32 (t * 1024 + e) * 4096) = (t * 1024 + e) * 4096 /\
  (t * 1024 + e) * 4096 .| PAGE_PRESENT .| PAGE_WRITABLE = (t * 1024 + e) * 4096 + 3.
Proof using.
  intros Ht He. rewrite !u32_small by (rewrite ?u32_small; unfold is_u32; lia). split; [done|].
  rewrite <-Z.lor_assoc. apply lor_low; [apply Z.mod_mul; lia|done].
Qed.

Lemma fill_identity_table_get t pt t' e :
  0 <= t < 32 -> 0 <= e < 1024 -> (forall e, 0 <= e < 1024 -> zget pt (pte_index t e) = 0) ->
  zget (fill_identity_table t pt) (pte_index t' e) =
  if t =? t' then identity_entry t e else zget pt (pte_index t' e).
Proof using.
  intros Ht He Hpt. unfold fill_identity_table.
  assert (Hstep : zget (for_range 0 1024 (fun e pt =>
      let physical_address := u32 (u32 (t * 1024 + e) * 4096) in
      if physical_address != 0
      then zset pt (pte_index t e) (physical_address .| PAGE_PRESENT .| PAGE_WRITABLE) else pt) pt)
      (pte_index t' e) = if (t =? t') && (e <? 1024) then identity_entry t e else zget pt (pte_index t' e)).
  { apply (for_range_ind (fun k pt' => zget pt' (pte_index t' e) =
      if (t =? t') && (e <? k) then identity_entry t e else zget pt (pte_index t' e))); [lia| |].
    - by rewrite (proj2 (Z.ltb_ge e 0)), andb_false_r by lia.
    - intros k pt' Hk IH. cbv zeta. destruct (identity_word t k Ht Hk) as [-> ->].
      unfold identity_entry in *. destruct (decide (t = t' /\ k = e)) as [[<- <-]|Hne].
      + rewrite Z.eqb_refl, (proj2 (Z.ltb_lt k (k + 1))) by lia. rewrite Z.eqb_refl in IH.
        rewrite (proj2 (Z.ltb_ge k k)), Hpt in IH by lia. cbn [andb] in *.
        destruct (Z.eqb_spec (t * 1024 + k) 0) as [E|E].
        * by rewrite E.
        * rewrite (proj2 (Z.eqb_neq _ 0)) by lia. apply zget_zset_eq.
      + assert (Hidx : pte_index t k <> pte_index t' e) by (unfold pte_index, PAGE_TABLE_ENTRIES; lia).
        assert (Hlt : (t =? t') && (e <? k + 1) = (t =? t') && (e <? k))
          by (destruct (Z.eqb_spec t t'); [|done]; destruct (Z.ltb_spec e k), (Z.ltb_spec e (k + 1)); done || lia).
        rewrite Hlt, <-IH. destruct (_ != 0); [by apply zget_zset_ne|done]. }
  rewrite (proj2 (Z.ltb_lt e 1024)), andb_true_r in Hstep by lia. exact Hstep.
Qed.

Lemma map_identity_spec s :
  (forall t e, 0 <= t < 32 -> 0 <= e < 1024 -> pte s t e = 0) ->
  let s' := map_identity tables_address s in
  table_in_use s' = table_in_use s /\ cr0 s' = cr0 s /\
  (forall d, 0 <= d < 32 -> idx s' d = d /\ pde s' d = table_address tables_address d + 3 /\
    forall e, 0 <= e < 1024 -> pte s' d e = identity_entry d e) /\
  (forall d, 32 <= d -> idx s' d = idx s d /\ pde s' d = pde s d).
Proof using Htables.
  intros Hz. cbv zeta. unfold map_identity, IDENTITY_TABLE_COUNT.
  assert (Hind : let s' := map_identity tables_address s in table_in_use s' = table_in_use s /\ cr0 s' = cr0 s /\
    (forall d, 0 <= d < 32 -> idx s' d = d /\ pde s' d = table_address tables_address d + 3 /\
      forall e, 0 <= e < 1024 -> pte s' d e = identity_entry d e) /\
    (forall d, 32 <= d -> idx s' d = idx s d /\ pde s' d = pde s d) /\
    (forall d e, 32 <= d < 32 -> 0 <= e < 1024 -> pte s' d e = 0)); [|by destruct Hind as (? & ? & ? & ? & _)].
  cbv zeta. unfold map_identity, IDENTITY_TABLE_COUNT.
  apply (for_range_ind (fun k s' => table_in_use s' = table_in_use s /\ cr0 s' = cr0 s /\
    (forall d, 0 <= d < k -> idx s' d = d /\ pde s' d = table_address tables_address d + 3 /\
      forall e, 0 <= e < 1024 -> pte s' d e = identity_entry d e) /\
    (forall d, 32 <= d -> idx s' d = idx s d /\ pde s' d = pde s d) /\
    (forall d e, k <= d < 32 -> 0 <= e < 1024 -> pte s' d e = 0))); [lia| |].
  - split; [done|]. split; [done|]. split; [intros; lia|]. split; [done|]. intros; apply Hz; lia.
  - intros k s' Hk (H1 & H2 & H3 & H4 & H5). rewrite table_entry by lia.
    cbn [table_in_use cr0 set_tables set_directory page_tables page_directory directory_table_indices].
    assert (Hfill : forall t e, 0 <= e < 1024 ->
      zget (fill_identity_table k (page_tables s')) (pte_index t e) =
      if k =? t then identity_entry k e else pte s' t e)
      by (intros t e He; apply fill_identity_table_get; [lia|done|]; intros; apply H5; lia).
    split; [done|]. split; [done|]. split; [|split].
    + intros d Hd. destruct (decide (k = d)) as [->|Hne].
      * rewrite !zget_zset_eq. split; [done|]. split; [done|]. intros e He. by rewrite Hfill, Z.eqb_refl.
      * rewrite !zget_zset_ne by done. destruct (H3 d ltac:(lia)) as (G1 & G2 & G3).
        split; [done|]. split; [done|]. intros e He. rewrite Hfill, (proj2 (Z.eqb_neq k d)) by done. by apply G3.
    + intros d Hd. rewrite !zget_zset_ne by lia. by apply H4.
    + intros d e Hd He. rewrite Hfill, (proj2 (Z.eqb_neq k d)) by lia. apply H5; lia.
Qed.

Lemma paging_bit c : (c .| (CR0_WRITE_PROTECT .| CR0_PAGING)) .& CR0_PAGING <> 0.
Proof using.
  intros E. assert (Hb : Z.testbit ((c .| (CR0_WRITE_PROTECT .| CR0_PAGING)) .& CR0_PAGING) 31 = false)
    by (rewrite E; apply Z.testbit_0_l).
  rewrite Z.land_spec, Z.lor_spec in Hb. change (Z.testbit (CR0_WRITE_PROTECT .| CR0_PAGING) 31) with true in Hb.
  change (Z.testbit CR0_PAGING 31) with true in Hb. by rewrite orb_true_r in Hb.
Qed.

Lemma dirs_empty : dirs (∅ : space) = ∅.
Proof using. unfold dirs. by rewrite dom_empty_L, set_map_empty. Qed.

(** The last three statements of [vmm_init]. *)
Definition switch_on (s : vmm) : vmm :=
  let s := paging_enable (paging_load_directory directory_address s) in
  mk_vmm (page_directory s) (page_tables s) (directory_table_indices s) (table_in_use s) true (cr3 s) (cr0 s) (tlb s).

Lemma switch_on_inv s :
  alen (table_in_use s) = 64 ->
  (forall d, 0 <= d < 32 -> idx s d = d /\ pde s d = table_address tables_address d + 3 /\
    forall e, 0 <= e < 1024 -> pte s d e = identity_entry d e) ->
  (forall d, dynamic_dir d -> idx s d = TABLE_INDEX_NONE /\ pde s d = 0) ->
  (forall t, 32 <= t < 64 -> in_use s t = false) ->
  vmm_inv (switch_on s) ∅.
Proof using.
  intros Hl Hid Hnone Hfree. unfold vmm_inv. rewrite dirs_empty. split; [|by intros v r Hr].
  unfold switch_on, paging_enable, paging_load_directory, set_cpu.
  split; cbn [cr0 table_in_use page_directory directory_table_indices page_tables enabled cr3].
  - reflexivity.
  - reflexivity.
  - apply Z.eqb_neq, paging_bit.
  - exact Hl.
  - intros v frame flags Hv. by apply lookup_empty_Some in Hv.
  - intros d Hin. by apply elem_of_empty in Hin.
  - exact Hid.
  - intros d Hd _. by apply Hnone.
  - intros d Hin. by apply elem_of_empty in Hin.
  - intros d d' Hin. by apply elem_of_empty in Hin.
  - rewrite size_empty. symmetry. by apply count_range_none.
Qed.

(** [vmm_init] establishes the empty space over the identity map. *)
Lemma vmm_init_inv s :
  enabled s = false -> alen (table_in_use s) = 64 ->
  vmm_inv (vmm_init directory_address tables_address s).2 ∅.
Proof using Htables.
  intros Hen Hl.
  assert (Hi : (vmm_init directory_address tables_address s).2 =
    switch_on (map_identity tables_address (clear_pool (clear_directory s)))) by (unfold vmm_init; by rewrite Hen).
  rewrite Hi. clear Hi.
  pose proof (clear_directory_spec s) as HA. cbv zeta in HA. generalize dependent (clear_directory s).
  intros s1 (_ & A2 & _ & A4).
  pose proof (clear_pool_spec s1 ltac:(by rewrite A2)) as HB. cbv zeta in HB. generalize dependent (clear_pool s1).
  intros s2 (B1 & B2 & _ & B4 & B5).
  pose proof (map_identity_spec s2 ltac:(intros t e Ht He; apply B5; [lia|done])) as HC. cbv zeta in HC.
  generalize dependent (map_identity tables_address s2). intros s3 (C1 & _ & C3 & C4).
  apply switch_on_inv.
  - by rewrite C1.
  - exact C3.
  - intros d [Hd1 Hd2]. destruct (C4 d Hd1) as [-> ->]. rewrite B1, B2. destruct (A4 d ltac:(lia)) as [-> ->]. done.
  - intros t Ht. rewrite C1. destruct (B5 t ltac:(lia)) as [-> _]. apply Z.ltb_ge. lia.
Qed.

(** ** Memory accesses *)

Lemma access_refines va s m :
  vmm_inv s m -> is_u32 va ->
  let '(r, s') := cpu_access directory_address tables_address va s in
  r = page_of m (page_number va) /\ vmm_inv s' m.
Proof using Htables.
  intros [Hr Hc] Hva. unfold cpu_access. rewrite page_number_shift, (hardware_walk_repr s m _ va Hr Hva).
  destruct (tlb s !! page_number va) as [r|] eqn:Et; [by rewrite (Hc _ _ Et)|].
  destruct (page_of m (page_number va)) as [r|] eqn:Ep; [|done].
  split; [done|]. split; [by apply repr_cpu|]. intros v r'. cbn [tlb set_cpu].
  intros [[<- <-]|[_ Hl]]%lookup_insert_Some; [done|by apply Hc].
Qed.

Lemma evict_inv va s m : vmm_inv s m -> vmm_inv (cpu_evict va s) m.
Proof using.
  intros [Hr Hc]. split; [by apply repr_cpu|]. intros v r. cbn [tlb cpu_evict set_cpu].
  intros [_ Hl]%lookup_delete_Some. by apply Hc.
Qed.
End Repr.

(** ** Runs *)

Inductive vmm_op :=
  | Init
  | Map (va pa flags : Z)
  | Unmap (va out : Z)
  | Translate (va out : Z)
  | Access (va : Z)
  | Evict (va : Z).

Inductive vmm_result :=
  | Returned (b : bool)
  | Wrote (b : bool) (out : option Z)
  | Reached (r : option (Z * Z))
  | Silent.

Definition op_in_range (o : vmm_op) : Prop :=
  match o with
  | Init => True
  | Map va pa flags => is_u32 va /\ is_u32 pa /\ is_u32 flags
  | Unmap va _ | Translate va _ | Access va | Evict va => is_u32 va
  end.

Definition spec_step (o : vmm_op) (m : space) : vmm_result * space :=
  match o with
  | Init => (Returned true, m)
  | Map va pa flags => let '(b, m) := spec_map va pa flags m in (Returned b, m)
  | Unmap va out => let '(b, out, m) := spec_unmap va out m in (Wrote b (Some out), m)
  | Translate va out =>
      (match page_of m (page_number va) with
       | Some (frame, _) => Wrote true (Some (frame + va mod 4096))
       | None => Wrote false (Some out)
       end, m)
  | Access va => (Reached (page_of m (page_number va)), m)
  | Evict _ => (Silent, m)
  end.

(** The linker places the tables page-aligned below 4 GiB. *)
Class VmmPlacement (tables_address : Z) : Prop :=
  vmm_placement : page_aligned tables_address /\ tables_address + 64 * 4096 <= 0xFFFFFFFF.

Section Run.
Context (directory_address tables_address : Z).

Definition vmm_step (o : vmm_op) (s : vmm) : vmm_result * vmm :=
  match o with
  | Init => let '(b, s) := vmm_init directory_address tables_address s in (Returned b, s)
  | Map va pa flags => let '(b, s) := vmm_map_page tables_address va pa flags s in (Returned b, s)
  | Unmap va out => let '(b, out, s) := vmm_unmap_page va (Some out) s in (Wrote b out, s)
  | Translate va out => let '(b, out) := vmm_translate va (Some out) s in (Wrote b out, s)
  | Access va => let '(r, s) := cpu_access directory_address tables_address va s in (Reached r, s)
  | Evict va => (Silent, cpu_evict va s)
  end.
End Run.

Fixpoint run_ops {S} (step : vmm_op -> S -> vmm_result * S) (ops : list vmm_op) (s : S) : list vmm_result * S :=
  match ops with
  | [] => ([], s)
  | o :: ops =>
      let '(r, s) := step o s in
      let '(rs, s) := run_ops step ops s in (r :: rs, s)
  end.

(** The state [vmm_init] leaves, from statics that have not been initialised. *)
Definition started directory_address tables_address (s : vmm) : vmm :=
  (vmm_init directory_address tables_address s).2.

Section Refinement.
Context (directory_address tables_address : Z) `{Hplace : VmmPlacement tables_address}.

Lemma step_refines o s m :
  vmm_inv directory_address tables_address s m -> op_in_range o ->
  let '(r, s') := vmm_step directory_address tables_address o s in
  let '(r', m') := spec_step o m in r = r' /\ vmm_inv directory_address tables_address s' m'.
Proof using Hplace.
  intros Hinv. pose proof Hinv as [Hr _]. destruct o as [|va pa flags|va out|va out|va|va]; cbn [vmm_step spec_step op_in_range].
  - intros _. unfold vmm_init. by rewrite (vr_enabled _ _ _ _ _ Hr).
  - intros (Hva & Hpa & Hf). pose proof (map_refines _ _ Hplace va pa flags s m Hinv Hva Hpa Hf) as H.
    destruct (vmm_map_page _ _ _ _ _) as [b s'], (spec_map _ _ _ _) as [b' m']. destruct H as [-> H]. done.
  - intros Hva. pose proof (unmap_refines _ _ va out s m Hinv Hva) as H.
    destruct (vmm_unmap_page _ _ _) as [[b o] s'], (spec_unmap _ _ _) as [[b' o'] m'].
    by destruct H as (-> & -> & H).
  - intros Hva. rewrite (translate_repr _ _ Hplace s m _ va out Hr Hva).
    by destruct (page_of m (page_number va)) as [[frame perm]|].
  - intros Hva. pose proof (access_refines _ _ Hplace va s m Hinv Hva) as H.
    destruct (cpu_access _ _ _ _) as [r s']. by destruct H as [-> H].
  - intros _. split; [done|]. by apply evict_inv.
Qed.

Lemma run_refines ops s m :
  vmm_inv directory_address tables_address s m -> Forall op_in_range ops ->
  let '(rs, s') := run_ops (vmm_step directory_address tables_address) ops s in
  let '(rs', m') := run_ops spec_step ops m in rs = rs' /\ vmm_inv directory_address tables_address s' m'.
Proof using Hplace.
  intros Hinv Hops. revert s m Hinv. induction Hops as [|o ops Ho _ IH]; intros s m Hinv; cbn [run_ops]; [done|].
  pose proof (step_refines o s m Hinv Ho) as H.
  destruct (vmm_step _ _ o s) as [r s1], (spec_step o m) as [r' m1]. destruct H as [-> H1].
  specialize (IH s1 m1 H1). destruct (run_ops _ ops s1) as [rs s2], (run_ops _ ops m1) as [rs' m2].
  by destruct IH as [-> IH].
Qed.

Lemma started_inv s :
  enabled s = false -> alen (table_in_use s) = PAGE_TABLE_COUNT ->
  vmm_inv directory_address tables_address (started directory_address tables_address s) ∅.
Proof using Hplace. apply vmm_init_inv, Hplace. Qed.

(** C4: After [vmm_init], every sequence of [vmm_map_page], [vmm_unmap_page],
    [vmm_translate] calls and memory accesses by the processor (with cached
    translations that it may keep or drop) returns what an abstract address
    space returns: a page is reachable, with its frame and the permissions of
    its flags, exactly from its mapping to its unmapping, an unmap gives the
    frame back, a map fails exactly when an argument is invalid, the page is
    mapped, or its directory slot needs a table and the pool of 32 is used
    up. *)
Theorem vmm_run_refines s ops :
  enabled s = false -> alen (table_in_use s) = PAGE_TABLE_COUNT -> Forall op_in_range ops ->
  (run_ops (vmm_step directory_address tables_address) ops (started directory_address tables_address s)).1 =
  (run_ops spec_step ops ∅).1.
Proof using Hplace.
  intros Hen Hl Hops. pose proof (run_refines ops _ ∅ (started_inv s Hen Hl) Hops) as H.
  destruct (run_ops _ ops (started _ _ s)) as [rs s'], (run_ops spec_step ops ∅) as [rs' m'].
  by destruct H as [-> _].
Qed.

(** No page table is leaked: after every sequence of operations the number
    of dynamic tables in use is the number of directory slots that hold a
    mapped page, so when the last page is unmapped the whole pool is free. *)
Theorem vmm_tables_accounted s ops :
  enabled s = false -> alen (table_in_use s) = PAGE_TABLE_COUNT -> Forall op_in_range ops ->
  let s' := (run_ops (vmm_step directory_address tables_address) ops (started directory_address tables_address s)).2 in
  let m := (run_ops spec_step ops ∅).2 in
  count_range IDENTITY_TABLE_COUNT PAGE_TABLE_COUNT (fun t => (table_in_use s').[t]) = Z.of_nat (size (dirs m)) /\
  (m = ∅ -> forall t, IDENTITY_TABLE_COUNT <= t < PAGE_TABLE_COUNT -> (table_in_use s').[t] = false).
Proof using Hplace.
  intros Hen Hl Hops. pose proof (run_refines ops _ ∅ (started_inv s Hen Hl) Hops) as H. cbv zeta.
  destruct (run_ops _ ops (started _ _ s)) as [rs s'], (run_ops spec_step ops ∅) as [rs' m'].
  destruct H as (_ & Hr & _). cbn [snd]. pose proof (vr_count _ _ _ _ _ Hr) as Hc. split; [done|].
  intros ->. rewrite dirs_empty, size_empty in Hc. by apply count_range_zero.
Qed.
End Refinement.

#[export] Instance placement_example : VmmPlacement 0x200000.
Proof. split; [split; [lia|reflexivity]|lia]. Qed.

Definition example_ops : list vmm_op :=
  [Map 0x40000000 0x300000 3; Access 0x40000123; Translate 0x40000123 0; Map 0x40000000 0x301000 1;
   Unmap 0x40000000 0; Access 0x40000123; Unmap 0x40000000 7].

Lemma example_ops_in_range : Forall op_in_range example_ops.
Proof. repeat constructor; unfold is_u32; lia. Qed.

Lemma vmm_run_refines_witness :
  (run_ops (vmm_step 0x1FF000 0x200000) example_ops (started 0x1FF000 0x200000 vmm_static)).1 =
  [Returned true; Reached (Some (0x300000, 6)); Wrote true (Some 0x300123); Returned false;
   Wrote true (Some 0x300000); Reached None; Wrote false (Some 7)].
Proof.
  rewrite (vmm_run_refines 0x1FF000 0x200000 vmm_static example_ops eq_refl eq_refl example_ops_in_range).
  vm_compute. reflexivity.
Defined.

Lemma vmm_tables_accounted_witness :
  (table_in_use (run_ops (vmm_step 0x1FF000 0x200000) example_ops (started 0x1FF000 0x200000 vmm_static)).2).[40] = false.
Proof.
  apply (vmm_tables_accounted 0x1FF000 0x200000 vmm_static example_ops eq_refl eq_refl example_ops_in_range).
  - vm_compute. reflexivity.
  - unfold IDENTITY_TABLE_COUNT, PAGE_TABLE_COUNT. lia.
Defined.
