(* ===== verification/Multiboot.v ===== *)
(** * Multiboot information (src/kernel/boot/multiboot.c)

    Validation of the boot loader's information block and the walk over its
    memory map, read from byte-addressed memory at the offsets of the packed
    structures.  A visitor is a function on a caller's context; the walk's
    result is the entry count on success.  The loop carries fuel and reports
    [WalkOutOfFuel] when it is used up; the bound the callers use is shown to
    be enough. *)
From S2P Require Import Prelude Memory.

(** ** Data *)

Definition MULTIBOOT_BOOTLOADER_MAGIC : Z := 0x2BADB002.
Definition MULTIBOOT_INFO_MEMORY : Z := Z.shiftl 1 0.
Definition MULTIBOOT_INFO_MEMORY_MAP : Z := Z.shiftl 1 6.
Definition MULTIBOOT_MMAP_MIN_PAYLOAD_SIZE : Z := 20.
Definition sizeof_multiboot_info : Z := 52.
Definition sizeof_uint32 : Z := 4.

Record boot_memory_summary := mk_summary {
  lower_kib : Z;
  upper_kib : Z;
  mmap_entry_count : Z;
}.

Record boot_memory_region := mk_region {
  region_base : Z;
  region_length : Z;
  region_type : Z;
}.

Record boot_owned_ranges := mk_owned {
  info_address : Z;
  info_length : Z;
  mmap_address : Z;
  mmap_length : Z;
}.

Definition load64 (m : static_array) (a : Z) : Z := load32 m a + 4294967296 * load32 m (a + 4).

(** The fields of [struct multiboot_info] at [info]. *)
Definition info_flags (m : static_array) (info : Z) : Z := load32 m info.
Definition info_mem_lower (m : static_array) (info : Z) : Z := load32 m (info + 4).
Definition info_mem_upper (m : static_array) (info : Z) : Z := load32 m (info + 8).
Definition info_mmap_length (m : static_array) (info : Z) : Z := load32 m (info + 44).
Definition info_mmap_addr (m : static_array) (info : Z) : Z := load32 m (info + 48).

(** The fields of [struct multiboot_mmap_entry] at [entry]. *)
Definition entry_size (m : static_array) (entry : Z) : Z := load32 m entry.
Definition entry_base_addr (m : static_array) (entry : Z) : Z := load64 m (entry + 4).
Definition entry_length (m : static_array) (entry : Z) : Z := load64 m (entry + 12).
Definition entry_type (m : static_array) (entry : Z) : Z := load32 m (entry + 20).

(** ** Validation *)

(** The view is the address of the information block it points to. *)
Definition validate_multiboot_info (m : static_array) (magic address : Z) : option Z :=
  if (magic != MULTIBOOT_BOOTLOADER_MAGIC) || (address == 0)
     || (address >? UINT32_MAX - sizeof_multiboot_info) then None
  else
    let info := address in
    let required_flags := MULTIBOOT_INFO_MEMORY .| MULTIBOOT_INFO_MEMORY_MAP in
    if (info_flags m info .& required_flags != required_flags)
       || (info_mmap_addr m info == 0)
       || (info_mmap_length m info == 0)
       || (info_mmap_addr m info >? UINT32_MAX - info_mmap_length m info) then None
    else Some info.

(** ** The walk *)

Inductive walk_result :=
  | WalkOk (entry_count : Z)
  | WalkFailed
  | WalkOutOfFuel.

Section Walk.
Context {C : Type} (m : static_array) (mmap_end : Z).
Context (visitor : option (boot_memory_region -> C -> bool * C)).

Fixpoint walk_entries (fuel : nat) (cursor count : Z) (context : C) : walk_result * C :=
  match fuel with
  | O => (WalkOutOfFuel, context)
  | S fuel =>
      if cursor <? mmap_end then
        let remaining := u32 (mmap_end - cursor) in
        if remaining <? sizeof_uint32 then (WalkFailed, context)
        else
          let payload_size := entry_size m cursor in
          if (payload_size <? MULTIBOOT_MMAP_MIN_PAYLOAD_SIZE)
             || (payload_size >? UINT32_MAX - sizeof_uint32) then (WalkFailed, context)
          else
            let record_size := u32 (payload_size + sizeof_uint32) in
            if (record_size >? remaining) || (entry_length m cursor == 0) then (WalkFailed, context)
            else if (entry_base_addr m cursor >? UINT64_MAX - entry_length m cursor)
                    || (count == UINT32_MAX) then (WalkFailed, context)
            else
              let region := mk_region (entry_base_addr m cursor) (entry_length m cursor) (entry_type m cursor) in
              let count := u32 (count + 1) in
              match visitor with
              | Some visit =>
                  let '(accepted, context) := visit region context in
                  if accepted then walk_entries fuel (u32 (cursor + record_size)) count context
                  else (WalkFailed, context)
              | None => walk_entries fuel (u32 (cursor + record_size)) count context
              end
      else if count == 0 then (WalkFailed, context)
      else (WalkOk count, context)
  end.
End Walk.

(** One iteration per record of at least 24 bytes, and the final test. *)
Definition walk_fuel (length : Z) : nat := Z.to_nat (length / 24 + 2).

Definition walk_memory_map {C} (m : static_array) (view : option Z)
    (visitor : option (boot_memory_region -> C -> bool * C)) (context : C) : walk_result * C :=
  match view with
  | None => (WalkFailed, context)
  | Some info =>
      let mmap_address := info_mmap_addr m info in
      let mmap_end := u32 (mmap_address + info_mmap_length m info) in
      walk_entries m mmap_end visitor (walk_fuel (info_mmap_length m info)) mmap_address 0 context
  end.

(** ** The interface *)

Definition no_visitor : option (boot_memory_region -> unit -> bool * unit) := None.

Definition multiboot_parse (m : static_array) (magic address : Z) : option boot_memory_summary :=
  match validate_multiboot_info m magic address with
  | None => None
  | Some info =>
      match (walk_memory_map m (Some info) no_visitor tt).1 with
      | WalkOk count => Some (mk_summary (info_mem_lower m info) (info_mem_upper m info) count)
      | _ => None
      end
  end.

Definition multiboot_for_each_memory_region {C} (m : static_array) (magic address : Z)
    (visitor : option (boot_memory_region -> C -> bool * C)) (context : C) : bool * C :=
  match visitor with
  | None => (false, context)
  | Some _ =>
      match validate_multiboot_info m magic address with
      | None => (false, context)
      | Some info =>
          match (walk_memory_map m (Some info) no_visitor tt).1 with
          | WalkOk _ =>
              let '(r, context) := walk_memory_map m (Some info) visitor context in
              (match r with WalkOk _ => true | _ => false end, context)
          | _ => (false, context)
          end
      end
  end.

Definition multiboot_get_owned_ranges (m : static_array) (magic address : Z) : option boot_owned_ranges :=
  match validate_multiboot_info m magic address with
  | None => None
  | Some info =>
      match (walk_memory_map m (Some info) no_visitor tt).1 with
      | WalkOk _ =>
          Some (mk_owned address sizeof_multiboot_info (info_mmap_addr m info) (info_mmap_length m info))
      | _ => None
      end
  end.

(** ** Specification

    The block and the map as the Multiboot standard lays them out in memory,
    in terms of the words at their offsets.

    A boot loader's block: the magic number in the register, 52 bytes that do
    not reach the end of the address space, the two flags that announce the
    memory sizes (bit 0) and the map (bit 6), and a map that is not empty and
    does not run over the address space. *)
Record block_ok (m : static_array) (magic address : Z) : Prop := {
  bo_magic : magic = 0x2BADB002;
  bo_place : address <> 0 /\ address + 52 <= 0xFFFFFFFF;
  bo_flags : Z.testbit (load32 m address) 0 = true /\ Z.testbit (load32 m address) 6 = true;
  bo_map : load32 m (address + 48) <> 0 /\ load32 m (address + 44) <> 0 /\
    load32 m (address + 48) + load32 m (address + 44) <= 0xFFFFFFFF;
}.

(** A well-formed map is a sequence of records that fills the buffer exactly;
    each record is a size field and at least 20 bytes, and describes a
    non-empty region that does not run over the 64-bit address space. *)
Definition record_ok (m : static_array) (a e : Z) : bool :=
  (20 <=? load32 m a) && (a + 4 + load32 m a <=? e)
  && negb (load64 m (a + 12) =? 0) && (load64 m (a + 4) + load64 m (a + 12) <=? 0xFFFFFFFFFFFFFFFF).

Definition region_at (m : static_array) (a : Z) : boot_memory_region :=
  mk_region (load64 m (a + 4)) (load64 m (a + 12)) (load32 m (a + 20)).

Lemma record_ok_fields m a e : record_ok m a e =
  (20 <=? entry_size m a) && (a + 4 + entry_size m a <=? e)
  && negb (entry_length m a =? 0) && (entry_base_addr m a + entry_length m a <=? UINT64_MAX).
Proof. reflexivity. Qed.

Inductive map_layout (m : static_array) (e : Z) : Z -> list boot_memory_region -> Prop :=
  | layout_end : map_layout m e e []
  | layout_record a rs :
      record_ok m a e = true -> map_layout m e (a + 4 + load32 m a) rs ->
      map_layout m e a (region_at m a :: rs).

(** Visiting regions in order until one is refused. *)
Fixpoint visit_all {C} (visit : boot_memory_region -> C -> bool * C) (rs : list boot_memory_region) (c : C)
  : bool * C :=
  match rs with
  | [] => (true, c)
  | r :: rs => let '(accepted, c) := visit r c in if accepted then visit_all visit rs c else (false, c)
  end.

(** The regions the boot loader reports. *)
Definition boot_regions (m : static_array) (magic address : Z) (rs : list boot_memory_region) : Prop :=
  block_ok m magic address /\
  map_layout m (load32 m (address + 48) + load32 m (address + 44)) (load32 m (address + 48)) rs.

(** ** The walk follows the specification *)

Lemma load64_range m a : is_u64 (load64 m a).
Proof.
  unfold load64, is_u64. pose proof (load32_range m a). pose proof (load32_range m (a + 4)).
  unfold is_u32 in *. lia.
Qed.

(** Both flags of a mask of two. *)
Lemma both_flags x : (x .& (MULTIBOOT_INFO_MEMORY .| MULTIBOOT_INFO_MEMORY_MAP) != (MULTIBOOT_INFO_MEMORY .| MULTIBOOT_INFO_MEMORY_MAP)) =
  negb (Z.testbit x 0 && Z.testbit x 6).
Proof.
  f_equal. apply eq_true_iff_eq. rewrite Z.eqb_eq, andb_true_iff. split.
  - intros H. split.
    + apply (f_equal (fun y => Z.testbit y 0)) in H. rewrite Z.land_spec in H. by apply andb_prop in H as [H _].
    + apply (f_equal (fun y => Z.testbit y 6)) in H. rewrite Z.land_spec in H. by apply andb_prop in H as [H _].
  - intros [H0 H6]. change (MULTIBOOT_INFO_MEMORY .| MULTIBOOT_INFO_MEMORY_MAP) with (2 ^ 0 .| 2 ^ 6).
    apply Z.bits_inj'. intros i Hi. rewrite Z.land_spec, Z.lor_spec, !Z.pow2_bits_eqb by lia.
    destruct (Z.eqb_spec 0 i) as [<-|]; [by rewrite H0|]. destruct (Z.eqb_spec 6 i) as [<-|]; [by rewrite H6|].
    by rewrite andb_false_r.
Qed.

(** The validator accepts exactly the boot loader's blocks. *)
Lemma validate_exact m magic address info :
  validate_multiboot_info m magic address = Some info <-> info = address /\ block_ok m magic address.
Proof.
  unfold validate_multiboot_info. cbv zeta. rewrite both_flags.
  pose proof (load32_range m (address + 44)) as Rl. pose proof (load32_range m (address + 48)) as Ra. split.
  - destruct ((magic != _) || _ || _) eqn:E1; [done|].
    destruct (negb (_ && _) || _ || _ || _) eqn:E2; [done|]. intros [= <-].
    apply orb_false_elim in E2 as [E2 E5]. apply orb_false_elim in E2 as [E2 E4]. apply orb_false_elim in E2 as [E2 E3].
    apply negb_false_iff, andb_prop in E2. bprop. split; [done|].
    unfold info_flags, info_mmap_addr, info_mmap_length, UINT32_MAX, sizeof_multiboot_info, MULTIBOOT_BOOTLOADER_MAGIC, is_u32 in *.
    split; [done|lia|done|lia].
  - intros [-> [Hm [Hp1 Hp2] [F0 F6] (Ha & Hl & Hs)]].
    unfold info_flags, info_mmap_addr, info_mmap_length, UINT32_MAX, sizeof_multiboot_info, MULTIBOOT_BOOTLOADER_MAGIC, is_u32 in *.
    rewrite F0, F6, Hm, (proj2 (Z.eqb_neq address 0)), (proj2 (Z.eqb_neq (load32 m (address + 48)) 0)),
      (proj2 (Z.eqb_neq (load32 m (address + 44)) 0)) by done.
    rewrite !Z.gtb_ltb, !(proj2 (Z.ltb_ge _ _)) by lia. done.
Qed.

Lemma validate_some m magic address info :
  validate_multiboot_info m magic address = Some info ->
  info = address /\ 0 < info_mmap_length m address /\
  info_mmap_addr m address + info_mmap_length m address <= UINT32_MAX /\ 0 <= info_mmap_addr m address.
Proof.
  unfold validate_multiboot_info. destruct (_ || _); [done|]. destruct (_ || _) eqn:E; [done|].
  intros [= <-]. bprop. unfold info_mmap_length, info_mmap_addr in *.
  pose proof (load32_range m (address + 44)). pose proof (load32_range m (address + 48)). unfold is_u32 in *.
  split; [done|]. lia.
Qed.

Lemma record_bounds m a e : record_ok m a e = true -> a + 24 <= e /\ 20 <= load32 m a /\ a + 4 + load32 m a <= e.
Proof. unfold record_ok. intros. bprop. lia. Qed.

Lemma layout_bounds m e a rs : map_layout m e a rs -> 24 * Z.of_nat (length rs) <= e - a.
Proof. induction 1 as [|a rs Hr _ IH]; simpl; [lia|]. apply record_bounds in Hr. lia. Qed.

Lemma layout_functional m e a rs rs' : map_layout m e a rs -> map_layout m e a rs' -> rs = rs'.
Proof.
  intros H. revert rs'. induction H as [|a rs Hr Hl IH]; intros rs' H'.
  - inversion H' as [|? ? Hr' Hl' E]; [done|]. apply record_bounds in Hr'. lia.
  - inversion H' as [E|? ? Hr' Hl' E].
    + subst. apply record_bounds in Hr. lia.
    + f_equal. by apply IH.
Qed.

Section WalkSpec.
Context {C : Type} (m : static_array) (e : Z).
Hypothesis He : e <= UINT32_MAX.

Abbreviation walk v := (walk_entries (C:=C) m e v).

(** The four tests of an iteration are [record_ok]. *)
Lemma walk_step visit fuel a count c :
  0 <= a < e -> 0 <= count < UINT32_MAX ->
  walk (Some visit) (S fuel) a count c =
  if record_ok m a e then
    let '(accepted, c) := visit (region_at m a) c in
    if accepted then walk (Some visit) fuel (a + 4 + load32 m a) (count + 1) c else (WalkFailed, c)
  else (WalkFailed, c).
Proof using He.
  intros Ha Hc. cbn [walk_entries]. rewrite (proj2 (Z.ltb_lt a e)) by lia.
  unfold UINT32_MAX in *. rewrite (u32_small (e - a)) by (unfold is_u32; lia).
  pose proof (load32_range m a) as Hs. fold (entry_size m a) in Hs.
  pose proof (load64_range m (a + 4)) as Hb. fold (entry_base_addr m a) in Hb.
  pose proof (load64_range m (a + 12)) as Hl. fold (entry_length m a) in Hl.
  unfold is_u32, is_u64 in *. unfold MULTIBOOT_MMAP_MIN_PAYLOAD_SIZE, sizeof_uint32.
  destruct (e - a <? 4) eqn:E1.
  { rewrite record_ok_fields. rewrite (proj2 (Z.leb_gt (a + 4 + entry_size m a) e)), andb_false_r by (bprop; lia). done. }
  destruct ((entry_size m a <? 20) || (entry_size m a >? _)) eqn:E2.
  { rewrite record_ok_fields. apply orb_prop in E2 as [E2|E2]; bprop.
    - by rewrite (proj2 (Z.leb_gt 20 _)) by lia.
    - by rewrite (proj2 (Z.leb_gt (a + 4 + entry_size m a) e)), andb_false_r by lia. }
  bprop. rewrite (u32_small (entry_size m a + 4)) by (unfold is_u32; lia).
  rewrite record_ok_fields. rewrite (proj2 (Z.leb_le 20 (entry_size m a))) by lia. rewrite !Z.gtb_ltb. cbn [andb].
  destruct (Z.ltb_spec (e - a) (entry_size m a + 4)), (Z.leb_spec (a + 4 + entry_size m a) e); try lia; [done|].
  cbn [orb andb]. destruct (entry_length m a =? 0); [done|]. cbn [negb andb].
  rewrite (proj2 (Z.eqb_neq count 4294967295)), orb_false_r by lia.
  destruct (Z.ltb_spec (UINT64_MAX - entry_length m a) (entry_base_addr m a)),
    (Z.leb_spec (entry_base_addr m a + entry_length m a) UINT64_MAX); try lia; [done|].
  rewrite !u32_small by (unfold is_u32; lia).
  change (mk_region (entry_base_addr m a) (entry_length m a) (entry_type m a)) with (region_at m a).
  by replace (a + (entry_size m a + 4)) with (a + 4 + load32 m a) by (unfold entry_size; lia).
Qed.

Lemma walk_exit visit fuel count c :
  walk (Some visit) (S fuel) e count c = (if count == 0 then WalkFailed else WalkOk count, c).
Proof using. cbn [walk_entries]. rewrite (proj2 (Z.ltb_ge e e)) by lia. by destruct (count == 0). Qed.

(** On a well-formed map the visitor sees the regions in order. *)
Lemma walk_layout visit rs fuel a count c :
  map_layout m e a rs -> 0 <= a -> 0 <= count -> count + Z.of_nat (length rs) <= UINT32_MAX ->
  (length rs < fuel)%nat ->
  walk (Some visit) fuel a count c =
  let '(accepted, c') := visit_all visit rs c in
  (if accepted && (0 <? count + Z.of_nat (length rs)) then WalkOk (count + Z.of_nat (length rs)) else WalkFailed, c').
Proof using He.
  intros Hl. revert fuel count c. induction Hl as [|a rs Hr Hl IH]; intros fuel count c Ha Hc Hn Hf;
    (destruct fuel as [|fuel]; [lia|]); cbn [length visit_all] in *.
  - rewrite walk_exit, Z.add_0_r. cbn [andb]. by destruct (Z.eqb_spec count 0), (Z.ltb_spec 0 count); try lia.
  - pose proof (record_bounds _ _ _ Hr). rewrite walk_step, Hr by lia.
    destruct (visit (region_at m a) c) as [[] c1]; [|done].
    rewrite IH by lia. by replace (count + 1 + Z.of_nat (length rs)) with (count + Z.of_nat (S (length rs))) by lia.
Qed.

(** A walk that accepts every region succeeds only on a well-formed map. *)
Lemma walk_rejects visit fuel a count c :
  (forall r c, (visit r c).1 = true) ->
  0 <= a <= e -> 0 <= count -> count + (e - a) / 24 < UINT32_MAX -> (e - a) / 24 + 1 < Z.of_nat fuel ->
  (exists rs, map_layout m e a rs) \/ exists c', walk (Some visit) fuel a count c = (WalkFailed, c').
Proof using He.
  intros Hv. revert a count c. induction fuel as [|fuel IH]; intros a count c Ha Hc Hn Hf.
  { exfalso. clear -Ha Hf. Z.to_euclidean_division_equations. lia. }
  destruct (decide (a = e)) as [->|Hne]; [left; eexists; constructor|].
  assert (Hdiv : 0 <= (e - a) / 24) by (apply Z.div_pos; lia).
  rewrite walk_step by lia. destruct (record_ok m a e) eqn:Er; [|eauto].
  pose proof (record_bounds _ _ _ Er) as Hb. specialize (Hv (region_at m a) c).
  destruct (visit (region_at m a) c) as [b c1]. simpl in Hv. subst b.
  assert (Hnext : (e - (a + 4 + load32 m a)) / 24 + 1 <= (e - a) / 24)
    by (clear -Hb; Z.to_euclidean_division_equations; lia).
  destruct (IH (a + 4 + load32 m a) (count + 1) c1) as [(rs & Hrs)|Hfail]; try lia; [|by right].
  left. exists (region_at m a :: rs). by constructor.
Qed.
End WalkSpec.

Lemma walk_no_visitor {C} m e fuel a count (c : C) :
  walk_entries m e None fuel a count c = walk_entries m e (Some (fun _ c => (true, c))) fuel a count c.
Proof.
  revert a count c. induction fuel as [|fuel IH]; intros a count c; cbn [walk_entries]; [done|].
  by rewrite !IH.
Qed.

Lemma fuel_enough m e a rs :
  map_layout m e a rs -> 0 <= e - a -> (length rs < walk_fuel (e - a))%nat.
Proof.
  intros Hl He. pose proof (layout_bounds _ _ _ _ Hl). unfold walk_fuel.
  assert (Z.of_nat (length rs) <= (e - a) / 24) by (apply Z.div_le_lower_bound; lia). lia.
Qed.

(** Both walks of a validated block. *)
Section Validated.
Context (m : static_array) (magic address : Z).
Hypothesis Hvalid : validate_multiboot_info m magic address = Some address.

Lemma walk_regions {C} visit rs (c : C) :
  boot_regions m magic address rs ->
  walk_memory_map m (Some address) (Some visit) c =
  let '(accepted, c') := visit_all visit rs c in
  (if accepted then WalkOk (Z.of_nat (length rs)) else WalkFailed, c').
Proof using Hvalid.
  intros [_ Hl]. change (load32 m (address + 48)) with (info_mmap_addr m address) in Hl.
  change (load32 m (address + 44)) with (info_mmap_length m address) in Hl. destruct (validate_some _ _ _ _ Hvalid) as (_ & Hlen & Hmax & Ha). unfold walk_memory_map.
  set (a := info_mmap_addr m address) in *. set (n := info_mmap_length m address) in *.
  unfold UINT32_MAX in *. rewrite u32_small by (unfold is_u32; lia).
  pose proof (layout_bounds _ _ _ _ Hl) as Hb. pose proof (fuel_enough _ _ _ _ Hl ltac:(lia)) as Hf.
  replace (a + n - a) with n in * by lia.
  rewrite (walk_layout m (a + n) ltac:(unfold UINT32_MAX; lia) visit rs); try (unfold UINT32_MAX; lia); [|done].
  destruct (visit_all visit rs c) as [accepted c'].
  assert (0 < Z.of_nat (length rs)).
  { destruct rs; [inversion Hl; lia|]. cbn [length]. lia. }
  by rewrite Z.add_0_l, (proj2 (Z.ltb_lt 0 _)), andb_true_r by lia.
Qed.

Lemma visit_all_accept {C} rs (c : C) : visit_all (fun _ c => (true, c)) rs c = (true, c).
Proof using. by induction rs. Qed.

(** The walk without a visitor decides whether the map is well formed. *)
Lemma walk_decides :
  (exists rs, boot_regions m magic address rs /\
     (walk_memory_map m (Some address) no_visitor tt).1 = WalkOk (Z.of_nat (length rs))) \/
  (forall rs, ~ boot_regions m magic address rs) /\
     (walk_memory_map m (Some address) no_visitor tt).1 = WalkFailed.
Proof using Hvalid.
  assert (Hnone : forall c : unit, walk_memory_map m (Some address) no_visitor c =
    walk_memory_map m (Some address) (Some (fun _ c => (true, c))) c)
    by (intros c; unfold walk_memory_map, no_visitor; apply walk_no_visitor).
  rewrite Hnone. destruct (validate_some _ _ _ _ Hvalid) as (_ & Hlen & Hmax & Ha).
  set (a := info_mmap_addr m address) in *. set (n := info_mmap_length m address) in *.
  assert (Hwalk : (exists rs, map_layout m (a + n) a rs) \/
    exists c', walk_memory_map m (Some address) (Some (fun _ c => (true, c))) tt = (WalkFailed, c')).
  { unfold walk_memory_map. fold a n. unfold UINT32_MAX in *. rewrite u32_small by (unfold is_u32; lia).
    assert (0 <= n / 24) by (apply Z.div_pos; lia).
    apply walk_rejects; replace (a + n - a) with n by lia; unfold walk_fuel, UINT32_MAX; try (done || lia).
    clear -Hmax Ha Hlen. Z.to_euclidean_division_equations. lia. }
  destruct Hwalk as [(rs & Hl)|(c' & Hw)].
  - left. exists rs. assert (Hrs : boot_regions m magic address rs) by (split; [by apply (validate_exact _ _ _ address)|done]). split; [done|].
    by rewrite (walk_regions _ rs tt Hrs), visit_all_accept.
  - right. rewrite Hw. split; [|done]. intros rs Hrs.
    rewrite (walk_regions _ rs tt Hrs), visit_all_accept in Hw. done.
Qed.
End Validated.

Lemma regions_validated m magic address rs :
  boot_regions m magic address rs -> validate_multiboot_info m magic address = Some address.
Proof. intros [Hv _]. by apply validate_exact. Qed.

(** The three interface functions, on a well-formed block and on any other. *)
Lemma multiboot_cases m magic address :
  (exists rs, boot_regions m magic address rs /\
     multiboot_parse m magic address =
       Some (mk_summary (info_mem_lower m address) (info_mem_upper m address) (Z.of_nat (length rs))) /\
     multiboot_get_owned_ranges m magic address =
       Some (mk_owned address sizeof_multiboot_info (info_mmap_addr m address) (info_mmap_length m address)) /\
     forall (C : Type) visit (c : C),
       multiboot_for_each_memory_region m magic address (Some visit) c = visit_all visit rs c) \/
  ((forall rs, ~ boot_regions m magic address rs) /\
     multiboot_parse m magic address = None /\ multiboot_get_owned_ranges m magic address = None /\
     forall (C : Type) visitor (c : C),
       multiboot_for_each_memory_region m magic address visitor c = (false, c)).
Proof.
  unfold multiboot_parse, multiboot_get_owned_ranges, multiboot_for_each_memory_region.
  destruct (validate_multiboot_info m magic address) as [info|] eqn:Hv.
  - destruct (validate_some _ _ _ _ Hv) as (-> & _).
    destruct (walk_decides m magic address Hv) as [(rs & Hrs & ->)|[Hno ->]]; [left|right].
    + exists rs. do 3 (split; [done|]). intros C visit c. rewrite (walk_regions m magic address Hv visit rs c Hrs).
      by destruct (visit_all visit rs c) as [[] c'].
    + do 3 (split; [done|]). by intros C [visit|] c.
  - right. split; [|split; [done|split; [done|by intros C [visit|] c]]].
    intros rs Hrs. apply regions_validated in Hrs. congruence.
Qed.

(** C14: The multiboot interface accepts exactly the well-formed information
    blocks.  When the magic number is the boot loader's, the block lies in the
    address space, announces the memory sizes and the map in its flags, and
    its map is a non-empty sequence of well-formed records that fills the
    announced bytes exactly, [multiboot_parse] reports the memory sizes and the
    number of records, [multiboot_get_owned_ranges] the two buffers, and
    [multiboot_for_each_memory_region] calls the visitor on the regions in
    order until it refuses one; otherwise all three fail, the visitor is not
    called at all, and no walk runs out of fuel. *)
Theorem multiboot_interface_exact {C} m magic address (visit : boot_memory_region -> C -> bool * C) c :
  (exists rs, boot_regions m magic address rs /\
     multiboot_parse m magic address =
       Some (mk_summary (load32 m (address + 4)) (load32 m (address + 8)) (Z.of_nat (length rs))) /\
     multiboot_get_owned_ranges m magic address =
       Some (mk_owned address 52 (load32 m (address + 48)) (load32 m (address + 44))) /\
     multiboot_for_each_memory_region m magic address (Some visit) c = visit_all visit rs c) \/
  ((forall rs, ~ boot_regions m magic address rs) /\
     multiboot_parse m magic address = None /\ multiboot_get_owned_ranges m magic address = None /\
     multiboot_for_each_memory_region m magic address (Some visit) c = (false, c)).
Proof.
  destruct (multiboot_cases m magic address) as [(rs & Hrs & Hp & Ho & Heach)|(Hno & Hp & Ho & Heach)].
  - left. exists rs. by rewrite (Heach C visit c).
  - right. by rewrite (Heach C (Some visit) c).
Qed.

(** ** Memory safety of the walk *)

Lemma load64_ext m m' a : (forall x, a <= x < a + 8 -> zget m' x = zget m x) -> load64 m' a = load64 m a.
Proof. intros H. unfold load64. by rewrite (load32_ext m m' a), (load32_ext m m' (a + 4)) by (intros; apply H; lia). Qed.

Definition agree (m m' : static_array) (a e : Z) : Prop := forall x, a <= x < e -> zget m' x = zget m x.

Lemma agree_word m m' a e b : agree m m' a e -> a <= b -> b + 4 <= e -> load32 m' b = load32 m b.
Proof. intros H Hb He. apply load32_ext. intros x Hx. apply H. lia. Qed.

Lemma agree_entry m m' a e b :
  agree m m' a e -> a <= b -> b + 24 <= e ->
  entry_base_addr m' b = entry_base_addr m b /\ entry_length m' b = entry_length m b /\
  entry_type m' b = entry_type m b.
Proof.
  intros H Hb He. unfold entry_base_addr, entry_length, entry_type.
  rewrite (load64_ext m m' (b + 4)), (load64_ext m m' (b + 12)) by (intros x Hx; apply H; lia).
  by rewrite (agree_word m m' a e (b + 20) H) by lia.
Qed.

(** Every read of a walk is inside the buffer, even when the map is bad. *)
Lemma walk_entries_reads {C} m m' lo e visitor fuel a count (c : C) :
  agree m m' lo e -> 0 <= lo <= a -> e <= UINT32_MAX ->
  walk_entries m' e visitor fuel a count c = walk_entries m e visitor fuel a count c.
Proof.
  intros Hag Ha He. revert a count c Ha. induction fuel as [|fuel IH]; intros a count c Ha; cbn [walk_entries]; [done|].
  destruct (Z.ltb_spec a e) as [Hlt|]; [|done]. unfold UINT32_MAX in He.
  rewrite (u32_small (e - a)) by (unfold is_u32; lia).
  unfold sizeof_uint32, MULTIBOOT_MMAP_MIN_PAYLOAD_SIZE.
  destruct (Z.ltb_spec (e - a) 4) as [|H4]; [done|].
  assert (Hsize : entry_size m' a = entry_size m a) by (apply (agree_word m m' lo e); [done|lia|lia]).
  rewrite Hsize. destruct (_ || _) eqn:E2; [done|]. bprop. unfold UINT32_MAX in *.
  rewrite (u32_small (entry_size m a + 4)) by (unfold is_u32; lia).
  rewrite !Z.gtb_ltb. destruct (Z.ltb_spec (e - a) (entry_size m a + 4)) as [|H24]; cbn [orb]; [done|].
  destruct (agree_entry m m' lo e a Hag) as (-> & -> & ->); [lia|lia|].
  destruct (_ =? 0); [done|]. destruct (_ || _); [done|].
  assert (Hnext : 0 <= lo <= u32 (a + (entry_size m a + 4))) by (rewrite u32_small; unfold is_u32; lia).
  destruct visitor as [visit|]; [|by apply IH]. destruct (visit _ c) as [[] c1]; [by apply IH|done].
Qed.

Lemma validate_reads m m' magic address :
  agree m m' address (address + sizeof_multiboot_info) ->
  validate_multiboot_info m' magic address = validate_multiboot_info m magic address /\
  info_mmap_addr m' address = info_mmap_addr m address /\ info_mmap_length m' address = info_mmap_length m address /\
  info_mem_lower m' address = info_mem_lower m address /\ info_mem_upper m' address = info_mem_upper m address.
Proof.
  unfold sizeof_multiboot_info. intros H.
  assert (Hw : forall o, 0 <= o <= 48 -> load32 m' (address + o) = load32 m (address + o))
    by (intros o Ho; apply (agree_word m m' address (address + 52)); [done|lia|lia]).
  unfold validate_multiboot_info, info_flags, info_mmap_addr, info_mmap_length, info_mem_lower, info_mem_upper.
  pose proof (Hw 0 ltac:(lia)) as H0. rewrite Z.add_0_r in H0. by rewrite H0, !Hw by lia.
Qed.

Lemma walk_reads {C} m m' magic address visitor (c : C) :
  agree m m' address (address + sizeof_multiboot_info) ->
  agree m m' (info_mmap_addr m address) (info_mmap_addr m address + info_mmap_length m address) ->
  validate_multiboot_info m magic address = Some address ->
  walk_memory_map m' (Some address) visitor c = walk_memory_map m (Some address) visitor c.
Proof.
  intros H1 H2 Hv. destruct (validate_some _ _ _ _ Hv) as (_ & _ & Hmax & Ha).
  destruct (validate_reads m m' magic address H1) as (_ & E1 & E2 & _). unfold walk_memory_map. rewrite E1, E2.
  pose proof (load32_range m (address + 44)) as Hn. fold (info_mmap_length m address) in Hn.
  unfold UINT32_MAX, is_u32 in *. rewrite u32_small by (unfold is_u32; lia).
  apply (walk_entries_reads m m' (info_mmap_addr m address)); [done|lia|unfold UINT32_MAX; lia].
Qed.

(** C32: Parsing reads only the 52-byte information block and the memory map
    it announces, also when the map is malformed: two memories that agree on
    these two ranges give the same summary, the same owned ranges and the
    same visits, and a validated block and map end below 4 GiB. *)
Theorem multiboot_reads_only_owned {C} m m' magic address visitor (c : C) :
  agree m m' address (address + sizeof_multiboot_info) ->
  agree m m' (info_mmap_addr m address) (info_mmap_addr m address + info_mmap_length m address) ->
  multiboot_parse m' magic address = multiboot_parse m magic address /\
  multiboot_get_owned_ranges m' magic address = multiboot_get_owned_ranges m magic address /\
  multiboot_for_each_memory_region m' magic address visitor c =
    multiboot_for_each_memory_region m magic address visitor c /\
  (forall o, multiboot_get_owned_ranges m magic address = Some o ->
     info_address o + info_length o <= UINT32_MAX /\ mmap_address o + mmap_length o <= UINT32_MAX).
Proof.
  intros H1 H2. destruct (validate_reads m m' magic address H1) as (Ev & E1 & E2 & E3 & E4).
  unfold multiboot_parse, multiboot_get_owned_ranges, multiboot_for_each_memory_region. rewrite Ev.
  destruct (validate_multiboot_info m magic address) as [info|] eqn:Hv; [|done].
  destruct (validate_some _ _ _ _ Hv) as (-> & _ & Hmax & _).
  rewrite E1, E2, E3, E4, !(walk_reads m m' magic address) by done.
  repeat (split; [done|]). intros o. destruct (walk_memory_map _ _ _ _).1; [|done|done]. intros [= <-].
  split; [|exact Hmax]. unfold validate_multiboot_info in Hv. cbn [info_address info_length].
  destruct (_ || _) eqn:E in Hv; [done|]. bprop. lia.
Qed.

(** ** A boot loader's block: two records, one of 24 and one of 20 bytes *)

Definition store_words (a : Z) (ws : list Z) (m : static_array) : static_array :=
  (fold_left (fun '(m, a) w => (store32 m a w, a + 4)) ws (m, a)).1.

Definition example_boot_memory : static_array :=
  store_words 0x9000 [0x41; 639; 130048; 0; 0; 0; 0; 0; 0; 0; 0; 52; 0x9100]
    (store_words 0x9100 [24; 0; 0; 0x9FC00; 0; 1; 0xFFFFFFFF; 20; 0x100000; 0; 0x7EE0000; 0; 1] ∅).

Lemma multiboot_reads_only_owned_witness :
  multiboot_parse (zset example_boot_memory 0x8FFF 7) MULTIBOOT_BOOTLOADER_MAGIC 0x9000 =
  Some (mk_summary 639 130048 2).
Proof.
  destruct (multiboot_reads_only_owned example_boot_memory (zset example_boot_memory 0x8FFF 7)
    MULTIBOOT_BOOTLOADER_MAGIC 0x9000 no_visitor tt) as [-> _].
  - intros x Hx. apply zget_zset_ne. lia.
  - assert (E : info_mmap_addr example_boot_memory 0x9000 = 0x9100) by (vm_compute; reflexivity).
    rewrite E. intros x Hx. apply zget_zset_ne. lia.
  - vm_compute. reflexivity.
Defined.
