(* ===== verification/Boot.v ===== *)
(** * Memory set-up at boot (src/kernel/kernel.c, first part of [kernel_main])

    From the multiboot information to a page allocator that owns exactly the
    usable memory: the visitor [add_memory_region], the four reservations and
    the allocator's self-test, composed of the operations of Multiboot.v and
    Pmm.v.  The bounds of the kernel image come from the linker and are
    parameters. *)
From S2P Require Import Prelude Memory Vmm Multiboot Pmm.
From Stdlib Require Import String.

Definition LOW_MEMORY_LIMIT : Z := 0x00100000.

(** [boot_fail(stage)] halts; otherwise the memory is ready. *)
Inductive boot_outcome :=
  | BootFail (stage : string)
  | MemoryReady.

Definition add_memory_region (region : boot_memory_region) (s : pmm) : bool * pmm :=
  if region_type region == 1
  then pmm_add_usable_region (region_base region) (region_length region) s
  else pmm_reserve_region (region_base region) (region_length region) s.

Definition ranges_overlap (first_base first_length second_base second_length : Z) : bool :=
  (first_base <? u64 (second_base + second_length)) && (second_base <? u64 (first_base + first_length)).

Definition allocation_is_reserved (allocation : Z) (owned : boot_owned_ranges) (kernel_start kernel_end : Z) : bool :=
  let page := allocation in
  ranges_overlap page PMM_PAGE_SIZE 0 LOW_MEMORY_LIMIT
  || ranges_overlap page PMM_PAGE_SIZE kernel_start (u32 (kernel_end - kernel_start))
  || ranges_overlap page PMM_PAGE_SIZE (info_address owned) (info_length owned)
  || ranges_overlap page PMM_PAGE_SIZE (mmap_address owned) (mmap_length owned).

Section Boot.
Context (kernel_start kernel_end : Z).

(** A condition of a boot stage with an effect on the allocator: the stage
    fails when it does not give [expected]. *)
Definition require (stage : string) (expected : bool) (r : bool * pmm) (k : pmm -> boot_outcome * pmm)
  : boot_outcome * pmm :=
  let '(b, s) := r in if Bool.eqb b expected then k s else (BootFail stage, s).

Definition pmm_self_test (owned : boot_owned_ranges) (s : pmm) : boot_outcome * pmm :=
  let stage := "pmm-self-test"%string in
  let free_before := pmm_free_page_count s in
  let '(allocated_page, s) := pmm_alloc_page s in
  if (allocated_page == 0) || (allocated_page .& (PMM_PAGE_SIZE - 1) != 0)
     || (pmm_free_page_count s != u32 (free_before - 1))
     || allocation_is_reserved allocated_page owned kernel_start kernel_end then (BootFail stage, s)
  else
    require stage false (pmm_add_usable_region 0 PMM_PAGE_SIZE s) (fun s =>
    require stage false (pmm_reserve_region allocated_page PMM_PAGE_SIZE s) (fun s =>
    require stage true (pmm_free_page allocated_page s) (fun s =>
    if pmm_free_page_count s != free_before then (BootFail stage, s)
    else require stage false (pmm_free_page allocated_page s) (fun s => (MemoryReady, s))))).

Definition reserve_owned (owned : boot_owned_ranges) (s : pmm) (k : pmm -> boot_outcome * pmm) : boot_outcome * pmm :=
  let stage := "pmm-reserve"%string in
  require stage true (pmm_reserve_region 0 LOW_MEMORY_LIMIT s) (fun s =>
  require stage true (pmm_reserve_region kernel_start (u32 (kernel_end - kernel_start)) s) (fun s =>
  require stage true (pmm_reserve_region (info_address owned) (info_length owned) s) (fun s =>
  require stage true (pmm_reserve_region (mmap_address owned) (mmap_length owned) s) (fun s =>
  if (pmm_total_page_count s == 0) || (pmm_free_page_count s == 0) then (BootFail stage, s)
  else k s)))).

(** From the check of the kernel's range to the end of the self-test. *)
Definition boot_pages (m : static_array) (magic address : Z) (owned : boot_owned_ranges) (s : pmm) : boot_outcome * pmm :=
  if (kernel_end <=? kernel_start) || (kernel_end >? VMM_IDENTITY_LIMIT)
  then (BootFail "kernel-range", s)
  else
    let s := pmm_reset s in
    require "pmm-map" true
      (multiboot_for_each_memory_region m magic address (Some add_memory_region) s) (fun s =>
    reserve_owned owned s (fun s => pmm_self_test owned s)).

Definition boot_memory (m : static_array) (magic address : Z) (s : pmm) : boot_outcome * pmm :=
  match multiboot_parse m magic address with
  | None => (BootFail "multiboot", s)
  | Some _ =>
      match multiboot_get_owned_ranges m magic address with
      | None => (BootFail "multiboot", s)
      | Some owned => boot_pages m magic address owned s
      end
  end.
End Boot.

(** ** Which pages the allocator ends up with *)

Definition reserves (p : Z) (r : boot_memory_region) : bool :=
  negb (region_type r =? 1) && page_touches (region_base r) (region_length r) p.

Definition provides (p : Z) (r : boot_memory_region) : bool :=
  (region_type r =? 1) && page_inside (region_base r) (region_length r) p.

(** A page is reserved when any reserved region touches it, whatever the
    order of the regions, and free when a usable region contains it. *)
Definition settled (regions : list boot_memory_region) (p : Z) : page_state :=
  if (p =? 0) || existsb (reserves p) regions then PageReserved
  else if existsb (provides p) regions then PageFree
  else PageUnknown.

(** The ranges [kernel_main] keeps out of the allocator. *)
Definition owned_regions (kernel_start kernel_end : Z) (o : boot_owned_ranges) : list boot_memory_region :=
  [mk_region 0 LOW_MEMORY_LIMIT 0; mk_region kernel_start (kernel_end - kernel_start) 0;
   mk_region (info_address o) (info_length o) 0; mk_region (mmap_address o) (mmap_length o) 0].

Definition region_ok (r : boot_memory_region) : Prop :=
  is_u64 (region_base r) /\ 0 < region_length r < 18446744073709551616 /\ region_base r + region_length r <= UINT64_MAX.

(** ** The stages *)

(** Before the first allocation: the regions seen so far determine every page. *)
Record seen (s : pmm) (regions : list boot_memory_region) : Prop := {
  seen_inv : pmm_inv s;
  seen_open : ownership_frozen s = false;
  seen_pages : pages_equiv (page_state_of s) (settled regions);
}.

Lemma existsb_snoc {A} (f : A -> bool) l x : existsb f (l ++ [x]) = existsb f l || f x.
Proof. rewrite existsb_app. cbn [existsb]. by rewrite orb_false_r. Qed.

(** What one more region does to a settled page. *)
Lemma settled_add regions r p :
  region_type r = 1 ->
  match settled regions p with
  | PageUnknown => if (p =? 0) || negb (page_inside (region_base r) (region_length r) p) then PageUnknown else PageFree
  | st => st
  end = settled (regions ++ [r]) p.
Proof.
  intros Ht. unfold settled. rewrite !existsb_snoc.
  assert (Hr : reserves p r = false) by (unfold reserves; by rewrite Ht).
  assert (Hp : provides p r = page_inside (region_base r) (region_length r) p) by (unfold provides; by rewrite Ht).
  rewrite Hr, Hp, orb_false_r. destruct (p =? 0); [done|]. destruct (existsb (reserves p) regions); [done|]. cbn [orb].
  destruct (existsb (provides p) regions); [done|]. cbn [orb]. by destruct (page_inside _ _ _).
Qed.

Lemma settled_reserve regions r p :
  region_type r <> 1 -> 0 < region_length r ->
  match settled regions p with
  | PageAllocated => PageAllocated
  | st => if (0 <? region_length r) && page_touches (region_base r) (region_length r) p then PageReserved else st
  end = settled (regions ++ [r]) p.
Proof.
  intros Ht Hl. apply Z.eqb_neq in Ht. rewrite (proj2 (Z.ltb_lt 0 _)) by done. unfold settled. rewrite !existsb_snoc.
  assert (Hr : reserves p r = page_touches (region_base r) (region_length r) p) by (unfold reserves; by rewrite Ht).
  assert (Hp : provides p r = false) by (unfold provides; by rewrite Ht).
  rewrite Hr, Hp, orb_false_r. cbn [andb]. destruct (p =? 0); [by destruct (page_touches _ _ _)|].
  destruct (existsb (reserves p) regions); [by destruct (page_touches _ _ _)|]. cbn [orb].
  destruct (existsb (provides p) regions); by destruct (page_touches _ _ _).
Qed.

Lemma add_region_seen regions r s :
  seen s regions -> region_ok r ->
  exists s', add_memory_region r s = (true, s') /\ seen s' (regions ++ [r]).
Proof.
  intros [Hi Hf Hp] (Hb & Hl & Hmax).
  assert (Hr : pmm_refines s (mk_spec (settled regions) false)) by by split.
  assert (Hlen : is_u64 (region_length r)) by (unfold is_u64; lia).
  assert (Hnw : (UINT64_MAX <? region_base r + region_length r) = false) by (apply Z.ltb_ge; lia).
  unfold add_memory_region. destruct (Z.eqb_spec (region_type r) 1) as [Et|Et].
  - pose proof (pmm_add_usable_region_refines (region_base r) (region_length r) s _ Hi Hr Hb Hlen) as H.
    destruct (pmm_add_usable_region _ _ s) as [b s']. unfold spec_add in H. rewrite Hnw in H. cbn [spec_frozen orb] in H.
    destruct H as (-> & Hi' & [Hp' Hf']). exists s'. split; [done|]. split; [done|done|].
    intros p Hv. rewrite (Hp' p Hv). cbn [spec_pages]. by apply settled_add.
  - pose proof (pmm_reserve_region_refines (region_base r) (region_length r) s _ Hi Hr Hb Hlen) as H.
    destruct (pmm_reserve_region _ _ s) as [b s']. unfold spec_reserve in H. rewrite Hnw in H. cbn [spec_frozen orb] in H.
    destruct H as (-> & Hi' & [Hp' Hf']). exists s'. split; [done|]. split; [done|done|].
    intros p Hv. rewrite (Hp' p Hv). cbn [spec_pages]. apply settled_reserve; [done|lia].
Qed.

Lemma visit_regions_seen rs regions s :
  seen s regions -> Forall region_ok rs ->
  exists s', visit_all add_memory_region rs s = (true, s') /\ seen s' (regions ++ rs).
Proof.
  intros Hs Hok. revert regions s Hs. induction Hok as [|r rs Hr _ IH]; intros regions s Hs; cbn [visit_all].
  - exists s. by rewrite app_nil_r.
  - destruct (add_region_seen regions r s Hs Hr) as (s1 & -> & Hs1).
    destruct (IH _ s1 Hs1) as (s2 & -> & Hs2). exists s2. split; [done|]. by rewrite <-app_assoc in Hs2.
Qed.

Lemma layout_regions_ok m e a rs : map_layout m e a rs -> Forall region_ok rs.
Proof.
  induction 1 as [|a rs Hr _ IH]; constructor; [|done].
  unfold record_ok in Hr. bprop. pose proof (load64_range m (a + 4)). pose proof (load64_range m (a + 12)).
  unfold region_ok, region_at, UINT64_MAX, is_u64 in *. cbn [region_base region_length]. lia.
Qed.

Lemma reset_seen s : words_ok s -> seen (pmm_reset s) [].
Proof.
  intros Hw. destruct (pmm_reset_ok s Hw) as [Hi [Hp Hf]]. split; [done|done|].
  intros p Hv. rewrite (Hp p Hv). unfold settled. cbn. by destruct (p =? 0).
Qed.

Lemma reserve_seen stage base length regions s k :
  seen s regions -> region_ok (mk_region base length 0) ->
  exists s', require stage true (pmm_reserve_region base length s) k = k s' /\
    seen s' (regions ++ [mk_region base length 0]).
Proof.
  intros Hs Hr. destruct (add_region_seen regions _ s Hs Hr) as (s' & E & Hs').
  change (add_memory_region _ s) with (pmm_reserve_region base length s) in E.
  exists s'. by rewrite E.
Qed.

Ltac reserve_next Hs s' Hs' :=
  match goal with
  | |- context [require ?stage true (pmm_reserve_region ?b ?l ?s) ?k] =>
      destruct (reserve_seen stage b l _ s k Hs) as (s' & -> & Hs'); [done|]; cbv beta
  end.

(** A free page is left exactly when the count is not 0. *)
Lemma free_count_zero s regions :
  seen s regions ->
  (pmm_total_page_count s == 0) || (pmm_free_page_count s == 0) = true <->
  forall p, valid_page p -> settled regions p <> PageFree.
Proof.
  intros [Hi _ Hp]. pose proof (inv_counts_range s Hi) as Hc. unfold pmm_total_page_count, pmm_free_page_count.
  assert (Hz : (total_pages s == 0) || (free_pages s == 0) = (free_pages s == 0)).
  { destruct (Z.eqb_spec (free_pages s) 0); [apply orb_true_r|].
    by rewrite (proj2 (Z.eqb_neq (total_pages s) 0)) by lia. }
  rewrite Hz, Z.eqb_eq, (inv_free _ Hi). split.
  - intros H0 p Hv E. pose proof (count_range_zero _ _ _ H0 p Hv) as Hf. cbv beta in Hf.
    by rewrite (Hp p Hv), E in Hf.
  - intros H. apply count_range_none. intros p Hv. rewrite (Hp p Hv). specialize (H p Hv).
    by destruct (settled regions p).
Qed.

Section Owned.
Context (kernel_start kernel_end : Z) (o : boot_owned_ranges).
Hypothesis Hkernel : 0 <= kernel_start < kernel_end /\ kernel_end <= VMM_IDENTITY_LIMIT.
Hypothesis Hinfo : 0 <= info_address o /\ 0 < info_length o /\ info_address o + info_length o <= UINT32_MAX.
Hypothesis Hmmap : 0 <= mmap_address o /\ 0 < mmap_length o /\ mmap_address o + mmap_length o <= UINT32_MAX.

Abbreviation protected := (owned_regions kernel_start kernel_end o).

Lemma protected_ok : Forall (fun r => region_ok r /\ region_base r + region_length r <= UINT32_MAX) protected.
Proof using Hkernel Hinfo Hmmap.
  unfold owned_regions, region_ok, is_u64, LOW_MEMORY_LIMIT, VMM_IDENTITY_LIMIT, UINT32_MAX, UINT64_MAX in *.
  repeat constructor; cbn [region_base region_length]; lia.
Qed.

Lemma reserve_owned_seen regions s k :
  seen s regions ->
  exists s', seen s' (regions ++ protected) /\
    reserve_owned kernel_start kernel_end o s k =
    if (pmm_total_page_count s' == 0) || (pmm_free_page_count s' == 0) then (BootFail "pmm-reserve", s') else k s'.
Proof using Hkernel Hinfo Hmmap.
  intros Hs. pose proof protected_ok as Hok. unfold owned_regions in *.
  repeat match goal with H : Forall _ (_ :: _) |- _ => apply Forall_cons_1 in H as [[? _] H] end.
  unfold reserve_owned. rewrite u32_small by (unfold VMM_IDENTITY_LIMIT, is_u32 in *; lia).
  reserve_next Hs s1 Hs1. reserve_next Hs1 s2 Hs2. reserve_next Hs2 s3 Hs3. reserve_next Hs3 s4 Hs4.
  exists s4. split; [|done]. by rewrite <-!app_assoc in Hs4.
Qed.

Lemma overlap_touches p base length :
  valid_page p -> 0 <= base -> 0 <= length -> base + length <= UINT32_MAX ->
  ranges_overlap (p * PMM_PAGE_SIZE) PMM_PAGE_SIZE base length = page_touches base length p.
Proof using.
  intros Hp Hb Hl Hm. unfold ranges_overlap, page_touches, valid_page, PMM_PAGE_COUNT, PMM_PAGE_SIZE, UINT32_MAX in *.
  rewrite !u64_small by (unfold is_u64; lia). rewrite andb_comm. f_equal. f_equal. lia.
Qed.

Lemma free_page_not_reserved regions p :
  valid_page p -> settled (regions ++ protected) p = PageFree ->
  allocation_is_reserved (p * PMM_PAGE_SIZE) o kernel_start kernel_end = false.
Proof using Hkernel Hinfo Hmmap.
  intros Hp Hs. unfold settled in Hs. destruct (p =? 0); [done|]. cbn [orb] in Hs.
  destruct (existsb (reserves p) _) eqn:Er; [done|]. rewrite existsb_app in Er. apply orb_false_elim in Er as [_ Er].
  unfold owned_regions, reserves in Er. cbn [existsb region_type region_base region_length Z.eqb negb andb] in Er.
  unfold allocation_is_reserved. unfold VMM_IDENTITY_LIMIT, LOW_MEMORY_LIMIT, UINT32_MAX in *.
  rewrite u32_small by (unfold is_u32; lia).
  rewrite !overlap_touches by (done || unfold UINT32_MAX; lia).
  repeat (apply orb_false_elim in Er as [E Er]; rewrite E; clear E). done.
Qed.
End Owned.

(** ** The self-test *)

(** After the self-test the page states are as before and regions are closed. *)
Definition ready (s : pmm) (regions : list boot_memory_region) : Prop :=
  pmm_inv s /\ pmm_refines s (mk_spec (settled regions) true).

Lemma closed_region s a base length :
  pmm_refines s a -> spec_frozen a = true ->
  pmm_add_usable_region base length s = (false, s) /\ pmm_reserve_region base length s = (false, s).
Proof. intros [_ Hf] Ha. unfold pmm_add_usable_region, pmm_reserve_region. by rewrite Hf, Ha. Qed.

Lemma page_address p : valid_page p ->
  is_u32 (p * PMM_PAGE_SIZE) /\ (p * PMM_PAGE_SIZE) .& (PMM_PAGE_SIZE - 1) = 0 /\
  p * PMM_PAGE_SIZE / PMM_PAGE_SIZE = p /\ (p * PMM_PAGE_SIZE) mod PMM_PAGE_SIZE = 0.
Proof.
  unfold valid_page, PMM_PAGE_COUNT, PMM_PAGE_SIZE, is_u32. intros Hp. change (4096 - 1) with 4095.
  rewrite land_4095. split; [lia|]. rewrite Z.mod_mul, Z.div_mul by lia. done.
Qed.

(** Freeing page [p] of a state known abstractly. *)
Lemma free_page_spec p s a :
  pmm_inv s -> pmm_refines s a -> valid_page p ->
  let '(ok, s') := pmm_free_page (p * PMM_PAGE_SIZE) s in
  ok = bool_decide (spec_pages a p = PageAllocated) /\ pmm_inv s' /\
  pmm_refines s' (if ok then mk_spec (spec_update (spec_pages a) p PageFree) (spec_frozen a) else a).
Proof.
  intros Hi Hr Hp. destruct (page_address p Hp) as (Ha & _ & Hd & Hm).
  pose proof (pmm_free_page_refines _ s a Hi Hr Ha) as H. unfold spec_free in H. rewrite Hd, Hm in H.
  destruct (pmm_free_page _ s) as [ok s']. cbn [Z.eqb andb] in H.
  by destruct (bool_decide _); destruct H as (-> & H).
Qed.

Lemma free_count_spec s a :
  pmm_inv s -> pmm_refines s a ->
  pmm_free_page_count s = count_range 0 PMM_PAGE_COUNT (fun p => st_free (spec_pages a p)).
Proof.
  intros Hi [Hp _]. unfold pmm_free_page_count. rewrite (inv_free _ Hi).
  apply count_range_ext. intros p Hv. by rewrite (Hp p Hv).
Qed.

(** Taking a free page moves the count down by one. *)
Lemma free_count_update f p st :
  valid_page p -> f p = PageFree -> st_free st = false ->
  count_range 0 PMM_PAGE_COUNT (fun q => st_free (spec_update f p st q)) =
  count_range 0 PMM_PAGE_COUNT (fun q => st_free (f q)) - 1.
Proof.
  intros Hp Hf Hst. rewrite (count_range_update 0 PMM_PAGE_COUNT (fun q => st_free (f q)) _ p Hp).
  - unfold spec_update. rewrite Z.eqb_refl, Hf, Hst. cbn [st_free Z.b2z]. lia.
  - intros q _ Hne. unfold spec_update. by rewrite (proj2 (Z.eqb_neq q p)).
Qed.

Lemma alloc_seen s regions :
  seen s regions -> (exists p, valid_page p /\ settled regions p = PageFree) ->
  exists p s1, valid_page p /\ 0 < p /\ settled regions p = PageFree /\
    pmm_alloc_page s = (p * PMM_PAGE_SIZE, s1) /\ pmm_inv s1 /\
    pmm_refines s1 (mk_spec (spec_update (settled regions) p PageAllocated) true).
Proof.
  intros [Hi Hf Hp] (p0 & Hv0 & Hfree0).
  pose proof (pmm_alloc_page_refines s (mk_spec (settled regions) false) Hi ltac:(by split)) as H.
  unfold spec_alloc in H. cbn [spec_pages] in H. destruct (find_range _ _ _) as [p|] eqn:E.
  - apply find_range_Some in E as (Hv & Hfree & _). apply bool_decide_eq_true in Hfree.
    destruct (pmm_alloc_page s) as [a s1]. destruct H as (-> & H). exists p, s1. split; [done|].
    split; [|done]. destruct (decide (p = 0)) as [->|]; [done|]. unfold valid_page in Hv. lia.
  - rewrite find_range_None in E. specialize (E p0 Hv0). unfold is_free in E. by rewrite bool_decide_eq_true_2 in E.
Qed.

Lemma update_same f p st : spec_update f p st p = st.
Proof. unfold spec_update. by rewrite Z.eqb_refl. Qed.

Lemma update_back f p : f p = PageFree -> pages_equiv (spec_update (spec_update f p PageAllocated) p PageFree) f.
Proof. intros Hf q _. unfold spec_update. by destruct (Z.eqb_spec q p) as [->|]. Qed.

(** The self-test passes whenever a page is free, and undoes itself. *)
Lemma self_test_passes kernel_start kernel_end o s regions :
  seen s regions -> (exists p, valid_page p /\ settled regions p = PageFree) ->
  (forall p, valid_page p -> settled regions p = PageFree ->
     allocation_is_reserved (p * PMM_PAGE_SIZE) o kernel_start kernel_end = false) ->
  exists s', pmm_self_test kernel_start kernel_end o s = (MemoryReady, s') /\ ready s' regions.
Proof.
  intros Hs Hex Hres. destruct (alloc_seen s regions Hs Hex) as (p & s1 & Hv & H0 & Hfree & Ea & Hi1 & Hr1).
  destruct Hs as [Hi Hf Hp]. destruct (page_address p Hv) as (_ & Hmask & _).
  pose proof (inv_counts_range s Hi) as Hc. unfold PMM_PAGE_COUNT in Hc.
  pose proof (free_count_spec s (mk_spec (settled regions) false) Hi ltac:(by split)) as C0.
  pose proof (free_count_spec s1 _ Hi1 Hr1) as C1. cbn [spec_pages] in C0, C1.
  rewrite (free_count_update _ p PageAllocated Hv Hfree eq_refl), <-C0 in C1.
  pose proof (count_range_nonneg 0 PMM_PAGE_COUNT (fun q => st_free (spec_update (settled regions) p PageAllocated q))) as Hpos.
  rewrite (free_count_update _ p PageAllocated Hv Hfree eq_refl), <-C0 in Hpos. unfold pmm_free_page_count in *.
  unfold pmm_self_test. rewrite Ea. unfold pmm_free_page_count.
  rewrite C1, u32_small, Z.eqb_refl, Hmask, (Hres p Hv Hfree) by (unfold is_u32; lia).
  rewrite (proj2 (Z.eqb_neq (p * PMM_PAGE_SIZE) 0)) by (unfold PMM_PAGE_SIZE; lia). cbn [negb orb Z.eqb].
  destruct (closed_region s1 _ 0 PMM_PAGE_SIZE Hr1 eq_refl) as [-> _].
  destruct (closed_region s1 _ (p * PMM_PAGE_SIZE) PMM_PAGE_SIZE Hr1 eq_refl) as [_ E2].
  unfold require at 1. cbn [Bool.eqb]. rewrite E2. unfold require at 1. cbn [Bool.eqb].
  pose proof (free_page_spec p s1 _ Hi1 Hr1 Hv) as F1. destruct (pmm_free_page _ s1) as [ok s2].
  cbn [spec_pages spec_frozen] in F1. rewrite update_same, bool_decide_eq_true_2 in F1 by done.
  destruct F1 as (-> & Hi2 & Hr2). unfold require at 1. cbn [Bool.eqb].
  assert (Hr2' : pmm_refines s2 (mk_spec (settled regions) true)).
  { destruct Hr2 as [G1 G2]. split; [|done]. etransitivity; [exact G1|]. by apply update_back. }
  pose proof (free_count_spec s2 _ Hi2 Hr2') as C2. cbn [spec_pages] in C2. rewrite <-C0 in C2.
  unfold pmm_free_page_count in C2. rewrite C2, Z.eqb_refl. cbn [negb].
  pose proof (free_page_spec p s2 _ Hi2 Hr2' Hv) as F2. destruct (pmm_free_page _ s2) as [ok s3].
  cbn [spec_pages] in F2. rewrite Hfree in F2. destruct F2 as (-> & Hi3 & Hr3).
  exists s3. by split.
Qed.

Lemma owned_ranges_ok m magic address o :
  is_u32 address -> multiboot_get_owned_ranges m magic address = Some o ->
  (0 <= info_address o /\ 0 < info_length o /\ info_address o + info_length o <= UINT32_MAX) /\
  (0 <= mmap_address o /\ 0 < mmap_length o /\ mmap_address o + mmap_length o <= UINT32_MAX).
Proof.
  unfold multiboot_get_owned_ranges. intros Ha.
  destruct (validate_multiboot_info m magic address) as [info|] eqn:Hv; [|done].
  destruct (validate_some _ _ _ _ Hv) as (-> & Hl & Hmax & Hm).
  destruct (walk_memory_map _ _ _ _).1; [|done|done]. intros [= <-]. cbn [info_address info_length mmap_address mmap_length].
  unfold validate_multiboot_info in Hv. destruct (_ || _) eqn:E in Hv; [done|]. bprop.
  unfold sizeof_multiboot_info, is_u32 in *. lia.
Qed.

(** ** The whole stage *)

Definition kernel_range_ok (kernel_start kernel_end : Z) : Prop :=
  kernel_start < kernel_end <= VMM_IDENTITY_LIMIT.

(** The regions that decide the state of every page at boot. *)
Definition boot_map m magic address kernel_start kernel_end (regions : list boot_memory_region) : Prop :=
  exists rs o, boot_regions m magic address rs /\ multiboot_get_owned_ranges m magic address = Some o /\
    regions = rs ++ owned_regions kernel_start kernel_end o.

Lemma boot_memory_cases kernel_start kernel_end m magic address s :
  words_ok s -> is_u32 kernel_start -> is_u32 kernel_end -> is_u32 address ->
  let '(outcome, s') := boot_memory kernel_start kernel_end m magic address s in
  (outcome = BootFail "multiboot" /\ forall rs, ~ boot_regions m magic address rs) \/
  (outcome = BootFail "kernel-range" /\ ~ kernel_range_ok kernel_start kernel_end) \/
  (kernel_range_ok kernel_start kernel_end /\ exists regions,
     boot_map m magic address kernel_start kernel_end regions /\
     (outcome = BootFail "pmm-reserve" /\ (forall p, valid_page p -> settled regions p <> PageFree) \/
      outcome = MemoryReady /\ (exists p, valid_page p /\ settled regions p = PageFree) /\ ready s' regions)).
Proof.
  intros Hw Hks Hke Haddr. unfold boot_memory, boot_pages.
  destruct (multiboot_cases m magic address) as [(rs & Hrs & -> & Eo & Heach)|(Hno & -> & _)]; [|by left].
  rewrite Eo. set (o := mk_owned _ _ _ _) in *. destruct (owned_ranges_ok m magic address o Haddr Eo) as [Hinfo Hmmap]. unfold is_u32 in Hks, Hke.
  destruct (_ || _) eqn:Ek.
  { right. left. split; [done|]. unfold kernel_range_ok. apply orb_prop in Ek as [E|E]; bprop; lia. }
  bprop. assert (Hmap : boot_map m magic address kernel_start kernel_end (rs ++ owned_regions kernel_start kernel_end o))
    by by exists rs, o.
  destruct (visit_regions_seen rs [] (pmm_reset s) (reset_seen s Hw)) as (s1 & Ev & Hs1).
  { destruct Hrs as [_ Hl]. by eapply layout_regions_ok. }
  rewrite (Heach _ add_memory_region), Ev. unfold require at 1. cbn [Bool.eqb app] in *.
  assert (Hk : 0 <= kernel_start < kernel_end /\ kernel_end <= VMM_IDENTITY_LIMIT) by lia.
  destruct (reserve_owned_seen _ _ o Hk Hinfo Hmmap rs s1 (fun s => pmm_self_test kernel_start kernel_end o s) Hs1)
    as (s2 & Hs2 & ->).
  pose proof (free_count_zero s2 _ Hs2) as Hz. destruct (_ || _) eqn:Ez.
  { right. right. split; [by unfold kernel_range_ok|]. eexists. split; [exact Hmap|].
    left. split; [done|]. by apply Hz. }
  assert (Hex : exists p, valid_page p /\ settled (rs ++ owned_regions kernel_start kernel_end o) p = PageFree).
  { destruct (find_range 0 PMM_PAGE_COUNT (is_free (settled (rs ++ owned_regions kernel_start kernel_end o)))) as [p|] eqn:Ef.
    - apply find_range_Some in Ef as (Hv & Hf & _). exists p. split; [done|]. by apply bool_decide_eq_true in Hf.
    - rewrite find_range_None in Ef. exfalso. assert (false = true); [|done]. apply Hz. intros p Hv E.
      specialize (Ef p Hv). unfold is_free in Ef. by rewrite bool_decide_eq_true_2 in Ef. }
  destruct (self_test_passes kernel_start kernel_end o s2 _ Hs2 Hex) as (s3 & -> & Hready).
  { intros p Hv. by apply (free_page_not_reserved kernel_start kernel_end o Hk Hinfo Hmmap rs). }
  right. right. split; [by unfold kernel_range_ok|]. eexists. split; [exact Hmap|]. by right.
Qed.

(** Once regions are closed the set of managed pages is fixed. *)
Lemma frozen_step op a :
  spec_frozen a = true ->
  let '(r, a') := spec_exec op a in
  spec_frozen a' = true /\ (forall p, st_managed (spec_pages a' p) = st_managed (spec_pages a p)) /\
  (forall x, r = RetAddr x -> x <> 0 ->
     exists p, valid_page p /\ x = p * PMM_PAGE_SIZE /\ st_managed (spec_pages a p) = true).
Proof.
  intros Hf. destruct op as [b l|b l| |addr]; unfold spec_exec, spec_add, spec_reserve; rewrite ?Hf; cbn [orb prod_map]; try done.
  - destruct (spec_alloc_cases a) as [(q & Hq & Hfree & ->)| ->]; cbn [prod_map id fst snd spec_frozen spec_pages].
    + split; [done|]. split.
      * intros p. unfold spec_update. destruct (Z.eqb_spec p q) as [->|]; [by rewrite Hfree|done].
      * intros x [= <-] _. exists q. by rewrite Hfree.
    + split; [done|]. split; [done|]. intros x [= <-] Hx. by destruct Hx.
  - unfold spec_free. destruct (_ && _) eqn:E; cbn [prod_map id fst snd spec_frozen spec_pages]; [|by split].
    split; [done|]. split; [|done]. intros p. unfold spec_update.
    apply andb_prop in E as [_ E]. apply bool_decide_eq_true in E. destruct (Z.eqb_spec p (addr / PMM_PAGE_SIZE)) as [->|]; [by rewrite E|done].
Qed.

Lemma frozen_run ops a x :
  spec_frozen a = true -> x <> 0 -> RetAddr x ∈ fst (spec_run ops a) ->
  exists p, valid_page p /\ x = p * PMM_PAGE_SIZE /\ st_managed (spec_pages a p) = true.
Proof.
  intros Hf Hx. revert a Hf. induction ops as [|op ops IH]; intros a Hf; cbn [spec_run].
  { cbn [fst]. by intros H%elem_of_nil. }
  pose proof (frozen_step op a Hf) as H. destruct (spec_exec op a) as [r a1]. destruct H as (Hf1 & Hsame & Hret).
  specialize (IH a1 Hf1). destruct (spec_run ops a1) as [rs a2]. cbn [fst] in *.
  intros [E|Hin]%elem_of_cons; [by apply Hret|].
  destruct (IH Hin) as (p & Hv & Hp & Hm). exists p. by rewrite <-Hsame.
Qed.

Lemma settled_managed regions p :
  st_managed (settled regions p) = true ->
  (exists r, r ∈ regions /\ provides p r = true) /\ forall r, r ∈ regions -> reserves p r = false.
Proof.
  unfold settled. destruct (p =? 0); [done|]. cbn [orb]. destruct (existsb (reserves p) regions) eqn:Er; [done|].
  destruct (existsb (provides p) regions) eqn:Ep; [|done]. intros _. split.
  - apply existsb_exists in Ep as (r & Hin & Hr). exists r. by rewrite list_elem_of_In.
  - intros r Hin. apply not_true_iff_false. intros Hr.
    assert (existsb (reserves p) regions = true) by (apply existsb_exists; exists r; by rewrite <-list_elem_of_In).
    congruence.
Qed.

(** ** Properties *)

(** C20: The memory stage of the boot is exact.  It halts at "multiboot" only
    when the boot loader's block is malformed, at "kernel-range" only when the
    kernel image is empty or ends above the identity map, at "pmm-reserve"
    only when no usable page remains, and never in the region loop or in the
    allocator's self-test.  Otherwise it ends with a consistent allocator in
    which a page is reserved when it is page 0 or touched by low memory, the
    kernel image, the multiboot block, its memory map or any region that is
    not usable, and free when it is not reserved and lies inside a usable
    region; the self-test leaves no trace but the closed region list. *)
Theorem boot_memory_exact kernel_start kernel_end m magic address s :
  words_ok s -> is_u32 kernel_start -> is_u32 kernel_end -> is_u32 address ->
  let '(outcome, s') := boot_memory kernel_start kernel_end m magic address s in
  (outcome = BootFail "multiboot" /\ forall rs, ~ boot_regions m magic address rs) \/
  (outcome = BootFail "kernel-range" /\ ~ kernel_range_ok kernel_start kernel_end) \/
  (kernel_range_ok kernel_start kernel_end /\ exists regions,
     boot_map m magic address kernel_start kernel_end regions /\
     (outcome = BootFail "pmm-reserve" /\ (forall p, valid_page p -> settled regions p <> PageFree) \/
      outcome = MemoryReady /\ (exists p, valid_page p /\ settled regions p = PageFree) /\ ready s' regions)).
Proof. apply boot_memory_cases. Qed.

(** C8: After a successful boot every page the allocator ever hands out, in
    any later sequence of calls, lies inside a usable region of the boot
    loader's map and overlaps neither the first megabyte, nor the kernel
    image, nor the multiboot block or its map, nor a region of another
    type. *)
Theorem boot_pages_safe kernel_start kernel_end m magic address s s' ops a :
  words_ok s -> is_u32 kernel_start -> is_u32 kernel_end -> is_u32 address ->
  boot_memory kernel_start kernel_end m magic address s = (MemoryReady, s') ->
  Forall op_args_ok ops -> a <> 0 -> RetAddr a ∈ fst (pmm_run ops s') ->
  exists regions, boot_map m magic address kernel_start kernel_end regions /\
    (exists r, r ∈ regions /\ region_type r = 1 /\
       region_base r <= a /\ a + PMM_PAGE_SIZE <= region_base r + region_length r) /\
    forall r, r ∈ regions -> region_type r <> 1 ->
      a + PMM_PAGE_SIZE <= region_base r \/ region_base r + region_length r <= a.
Proof.
  intros Hw Hks Hke Haddr E Hops Ha Hin.
  pose proof (boot_memory_cases kernel_start kernel_end m magic address s Hw Hks Hke Haddr) as H. rewrite E in H.
  destruct H as [[? _]|[[? _]|(_ & regions & Hmap & [[? _]|(_ & _ & Hi & Hr)])]]; try done.
  exists regions. split; [done|]. destruct (pmm_run_simulation ops s' _ Hi Hr Hops) as (Hret & _).
  rewrite Hret in Hin. destruct (frozen_run ops (mk_spec (settled regions) true) a eq_refl Ha Hin) as (p & Hv & -> & Hm).
  destruct (settled_managed regions p Hm) as [(r & Hrin & Hprov) Hres]. split.
  - exists r. split; [done|]. unfold provides, page_inside in Hprov. bprop. unfold PMM_PAGE_SIZE in *. lia.
  - intros r' Hr' Ht. specialize (Hres r' Hr'). unfold reserves, page_touches in Hres.
    rewrite (proj2 (Z.eqb_neq _ 1) Ht) in Hres. cbn [negb andb] in Hres. apply andb_false_iff in Hres.
    unfold PMM_PAGE_SIZE in *. destruct Hres as [G|G]; bprop; lia.
Qed.

(** ** A boot: 640 KiB and 64 KiB above the kernel, which ends at 0x104000 *)

Definition example_map_memory : static_array :=
  store_words 0x9000 [0x41; 639; 1088; 0; 0; 0; 0; 0; 0; 0; 0; 48; 0x9100]
    (store_words 0x9100 [20; 0; 0; 0x9FC00; 0; 1; 20; 0x100000; 0; 0x10000; 0; 1] ∅).

Lemma example_boot_ready :
  (boot_memory 0x100000 0x104000 example_map_memory MULTIBOOT_BOOTLOADER_MAGIC 0x9000 pmm_static).1 = MemoryReady.
Proof. vm_compute. reflexivity. Qed.

Definition example_booted : pmm :=
  (boot_memory 0x100000 0x104000 example_map_memory MULTIBOOT_BOOTLOADER_MAGIC 0x9000 pmm_static).2.

Lemma example_boot_eq :
  boot_memory 0x100000 0x104000 example_map_memory MULTIBOOT_BOOTLOADER_MAGIC 0x9000 pmm_static =
  (MemoryReady, example_booted).
Proof. rewrite (surjective_pairing (boot_memory _ _ _ _ _ _)). by rewrite example_boot_ready. Qed.

Lemma example_boot_alloc : RetAddr 0x104000 ∈ fst (pmm_run [OpAllocPage] example_booted).
Proof.
  assert (E : fst (pmm_run [OpAllocPage] example_booted) = [RetAddr 0x104000]) by (vm_compute; reflexivity).
  rewrite E. apply list_elem_of_In. by left.
Qed.

Lemma boot_memory_exact_witness :
  exists regions, boot_map example_map_memory MULTIBOOT_BOOTLOADER_MAGIC 0x9000 0x100000 0x104000 regions /\
    ready example_booted regions.
Proof.
  pose proof (boot_memory_exact 0x100000 0x104000 example_map_memory MULTIBOOT_BOOTLOADER_MAGIC 0x9000 pmm_static
    pmm_static_words ltac:(unfold is_u32; lia) ltac:(unfold is_u32; lia) ltac:(unfold is_u32; lia)) as H.
  rewrite example_boot_eq in H.
  destruct H as [[H _]|[[H _]|(_ & regions & Hmap & [[H _]|(_ & _ & Hr)])]]; try discriminate H.
  exists regions. exact (conj Hmap Hr).
Defined.

Lemma boot_pages_safe_witness :
  exists regions, boot_map example_map_memory MULTIBOOT_BOOTLOADER_MAGIC 0x9000 0x100000 0x104000 regions /\
    forall r, r ∈ regions -> region_type r <> 1 ->
      0x104000 + PMM_PAGE_SIZE <= region_base r \/ region_base r + region_length r <= 0x104000.
Proof.
  destruct (boot_pages_safe 0x100000 0x104000 example_map_memory MULTIBOOT_BOOTLOADER_MAGIC 0x9000 pmm_static
    example_booted [OpAllocPage] 0x104000 pmm_static_words ltac:(unfold is_u32; lia) ltac:(unfold is_u32; lia)
    ltac:(unfold is_u32; lia) example_boot_eq ltac:(repeat constructor) ltac:(lia) example_boot_alloc)
    as (regions & Hmap & _ & Hres).
  exists regions. exact (conj Hmap Hres).
Defined.
