(* ===== verification/Task.v ===== *)
(** * Cooperative scheduler (src/kernel/task/task.c)

    Eight task control blocks, a round-robin cursor and a dispatch budget.
    Control leaves a scheduler function by returning, by a context switch or
    by halting, so each function gives an [outcome].  EFLAGS is an explicit
    argument and result: the functions run their critical sections with the
    interrupt flag clear.  The stacks are byte-addressed memory; their
    address and the two code addresses stored in a fresh stack are chosen by
    the linker and are parameters. *)
From S2P Require Import Prelude Memory.

Definition TASK_MAX_TASKS : Z := 8.
Definition TASK_STACK_SIZE : Z := 16384.
Definition TASK_INVALID_ID : Z := UINT32_MAX.

Inductive task_state :=
| TASK_STATE_UNUSED | TASK_STATE_READY | TASK_STATE_RUNNING | TASK_STATE_FINISHED.

#[export] Instance task_state_eq_dec : EqDecision task_state.
Proof. solve_decision. Defined.

Definition EFLAGS_RESERVED : Z := Z.shiftl 1 1.
Definition EFLAGS_TRAP : Z := Z.shiftl 1 8.
Definition EFLAGS_INTERRUPT : Z := Z.shiftl 1 9.
Definition EFLAGS_DIRECTION : Z := Z.shiftl 1 10.
Definition EFLAGS_NESTED_TASK : Z := Z.shiftl 1 14.
Definition EFLAGS_VIRTUAL_8086 : Z := Z.shiftl 1 17.

Record task_control_block := mk_tcb {
  tcb_state : task_state;
  tcb_entry : Z;
  tcb_argument : Z;
  tcb_stack_pointer : Z;
}.

Definition unused_task : task_control_block := mk_tcb TASK_STATE_UNUSED NULL NULL 0.
#[export] Instance tcb_inhabited : Inhabited task_control_block := populate unused_task.

(** The statics of task.c. *)
Record sched := mk_sched {
  tasks : list task_control_block;
  bootstrap_stack_pointer : Z;
  current_task_id : Z;
  round_robin_cursor : Z;
  remaining_dispatches : Z;
  switch_count : Z;
  finished_count : Z;
  scheduler_initialized : bool;
  scheduler_running : bool;
}.

Definition sched_static : sched :=
  mk_sched (replicate (Z.to_nat TASK_MAX_TASKS) unused_task) 0 TASK_INVALID_ID TASK_INVALID_ID
    0 0 0 false false.

(** Assignments to single fields. *)
Definition set_tasks (ts : list task_control_block) (s : sched) : sched :=
  mk_sched ts (bootstrap_stack_pointer s) (current_task_id s) (round_robin_cursor s)
    (remaining_dispatches s) (switch_count s) (finished_count s) (scheduler_initialized s)
    (scheduler_running s).

Definition set_running (current : Z) (running : bool) (s : sched) : sched :=
  mk_sched (tasks s) (bootstrap_stack_pointer s) current (round_robin_cursor s)
    (remaining_dispatches s) (switch_count s) (finished_count s) (scheduler_initialized s) running.

Definition set_budget (budget : Z) (s : sched) : sched :=
  mk_sched (tasks s) (bootstrap_stack_pointer s) (current_task_id s) (round_robin_cursor s)
    budget (switch_count s) (finished_count s) (scheduler_initialized s) (scheduler_running s).

Definition set_finished (n : Z) (s : sched) : sched :=
  mk_sched (tasks s) (bootstrap_stack_pointer s) (current_task_id s) (round_robin_cursor s)
    (remaining_dispatches s) (switch_count s) n (scheduler_initialized s) (scheduler_running s).

Definition state_at (s : sched) (id : Z) : task_state := tcb_state (tasks s).[id].

Definition put_state (id : Z) (st : task_state) (s : sched) : sched :=
  let t := (tasks s).[id] in
  set_tasks (tasks s).[id <- mk_tcb st (tcb_entry t) (tcb_argument t) (tcb_stack_pointer t)] s.

(** ** Control leaving a scheduler function *)

Inductive context := Bootstrap | TaskContext (id : Z).

(** Where a context's stack pointer is saved. *)
Definition saved_stack_pointer (s : sched) (c : context) : Z :=
  match c with
  | Bootstrap => bootstrap_stack_pointer s
  | TaskContext id => tcb_stack_pointer (tasks s).[id]
  end.

(** [Switches from to flags]: a call of [task_context_switch] that saves the
    stack pointer of [from] in its slot and loads the one of [to]. *)
Inductive outcome (A : Type) :=
| Returns (value : A) (eflags : Z) (s : sched)
| Switches (from to : context) (flags : Z) (s : sched)
| Stops (s : sched).
Arguments Returns {A}.
Arguments Switches {A}.
Arguments Stops {A}.

(** [pushfl; popl; cli]: the flags before, and with interrupts disabled. *)
Definition interrupt_state_save_and_disable (eflags : Z) : Z * Z :=
  (eflags, eflags .& not32 EFLAGS_INTERRUPT).

Definition interrupt_state_restore (flags eflags : Z) : Z :=
  if flags .& EFLAGS_INTERRUPT != 0 then eflags .| EFLAGS_INTERRUPT
  else eflags .& not32 EFLAGS_INTERRUPT.

(** ** Scheduling decisions *)

Definition find_next_ready (s : sched) (after : Z) : Z :=
  let start := if after != TASK_INVALID_ID then u32 (after + 1) mod TASK_MAX_TASKS else 0 in
  match find_range 0 TASK_MAX_TASKS (fun offset =>
          bool_decide (state_at s (u32 (start + offset) mod TASK_MAX_TASKS) = TASK_STATE_READY)) with
  | Some offset => u32 (start + offset) mod TASK_MAX_TASKS
  | None => TASK_INVALID_ID
  end.

Definition activate_task (id : Z) (s : sched) : bool * sched :=
  if (id >=? TASK_MAX_TASKS)
     || negb (bool_decide (state_at s id = TASK_STATE_READY))
     || (remaining_dispatches s == 0) then (false, s)
  else
    let s := put_state id TASK_STATE_RUNNING s in
    (true, mk_sched (tasks s) (bootstrap_stack_pointer s) id id
             (u32 (remaining_dispatches s - 1)) (u32 (switch_count s + 1)) (finished_count s)
             (scheduler_initialized s) (scheduler_running s)).

Definition initial_task_eflags (creator_flags : Z) : Z :=
  let unsafe := EFLAGS_TRAP .| EFLAGS_DIRECTION .| EFLAGS_NESTED_TASK .| EFLAGS_VIRTUAL_8086 in
  (creator_flags .| EFLAGS_RESERVED) .& not32 unsafe.

(** The entry and argument the trampoline calls before [task_exit]; [None]
    when it halts. *)
Definition task_trampoline (s : sched) : option (Z * Z) :=
  let id := current_task_id s in
  if (id >=? TASK_MAX_TASKS)
     || negb (bool_decide (state_at s id = TASK_STATE_RUNNING))
     || (tcb_entry (tasks s).[id] == NULL) then None
  else Some (tcb_entry (tasks s).[id], tcb_argument (tasks s).[id]).

Definition switch_to_bootstrap {A} (previous flags : Z) (s : sched) : outcome A :=
  Switches (TaskContext previous) Bootstrap flags (set_running TASK_INVALID_ID false s).

(** ** Operations *)

Definition task_system_init (eflags : Z) (s : sched) : outcome () :=
  let '(flags, eflags) := interrupt_state_save_and_disable eflags in
  if scheduler_running s then Returns () (interrupt_state_restore flags eflags) s
  else
    let ts := for_range 0 TASK_MAX_TASKS
                (fun id ts => ts.[id <- mk_tcb TASK_STATE_UNUSED NULL NULL 0]) (tasks s) in
    Returns () (interrupt_state_restore flags eflags)
      (mk_sched ts 0 TASK_INVALID_ID TASK_INVALID_ID 0 0 0 true false).

(** The first part of [task_run], up to the context switch. *)
Definition task_run (switch_budget eflags : Z) (s : sched) : outcome bool :=
  let '(flags, eflags) := interrupt_state_save_and_disable eflags in
  if negb (scheduler_initialized s) || scheduler_running s
  then Returns false (interrupt_state_restore flags eflags) s
  else
    let next := find_next_ready s (round_robin_cursor s) in
    if next == TASK_INVALID_ID then Returns true (interrupt_state_restore flags eflags) s
    else if switch_budget == 0 then Returns false (interrupt_state_restore flags eflags) s
    else
      let s := set_budget switch_budget s in
      let s := set_running (current_task_id s) true s in
      match activate_task next s with
      | (false, s) =>
          Returns false (interrupt_state_restore flags eflags) (set_running (current_task_id s) false s)
      | (true, s) => Switches Bootstrap (TaskContext next) flags s
      end.

(** The rest of [task_run], when the bootstrap context is switched back to. *)
Definition task_run_resumed (eflags : Z) (s : sched) : outcome bool :=
  let '(flags, eflags) := interrupt_state_save_and_disable eflags in
  let complete := find_next_ready s (round_robin_cursor s) == TASK_INVALID_ID in
  Returns complete (interrupt_state_restore flags eflags) s.

(** The guard shared by [task_yield] and [task_exit]. *)
Definition in_task_context (s : sched) : bool :=
  scheduler_initialized s && scheduler_running s && (current_task_id s <? TASK_MAX_TASKS)
  && bool_decide (state_at s (current_task_id s) = TASK_STATE_RUNNING).

Definition task_yield (eflags : Z) (s : sched) : outcome () :=
  let '(flags, eflags) := interrupt_state_save_and_disable eflags in
  if negb (in_task_context s) then Returns () (interrupt_state_restore flags eflags) s
  else
    let previous := current_task_id s in
    let s := put_state previous TASK_STATE_READY s in
    let next := find_next_ready s previous in
    if (next != TASK_INVALID_ID) && (remaining_dispatches s != 0) then
      match activate_task next s with
      | (false, s) => Stops s
      | (true, s) =>
          if next == previous then Returns () (interrupt_state_restore flags eflags) s
          else Switches (TaskContext previous) (TaskContext next) flags s
      end
    else switch_to_bootstrap previous flags s.

(** [task_exit] never returns: what follows its switches is [task_stop]. *)
Definition task_exit (eflags : Z) (s : sched) : outcome Empty_set :=
  let '(flags, eflags) := interrupt_state_save_and_disable eflags in
  if negb (in_task_context s) then Stops s
  else
    let previous := current_task_id s in
    let s := put_state previous TASK_STATE_FINISHED s in
    let s := set_finished (u32 (finished_count s + 1)) s in
    let next := find_next_ready s previous in
    if (next != TASK_INVALID_ID) && (remaining_dispatches s != 0) then
      match activate_task next s with
      | (false, s) => Stops s
      | (true, s) => Switches (TaskContext previous) (TaskContext next) flags s
      end
    else switch_to_bootstrap previous flags s.

Definition task_current_id (s : sched) : Z :=
  if negb (scheduler_running s) || (current_task_id s >=? TASK_MAX_TASKS) then TASK_INVALID_ID
  else current_task_id s.

Definition task_switch_count (s : sched) : Z := switch_count s.
Definition task_finished_count (s : sched) : Z := finished_count s.

(** ** Stacks *)

Section Stacks.
Context (task_stacks task_exit_address task_trampoline_address : Z).

Definition stack_base (id : Z) : Z := task_stacks + id * TASK_STACK_SIZE.

(** [*--stack = value;] *)
Definition push_word (value : Z) (st : Z * static_array) : Z * static_array :=
  let '(stack, m) := st in
  let stack := u32 (stack - 4) in (stack, store32 m stack value).

Definition prepare_initial_stack (id creator_flags : Z) (s : sched) (m : static_array)
  : sched * static_array :=
  let top := u32 (stack_base id + TASK_STACK_SIZE) in
  let top := top .& not32 0x0F in
  let st := (top, m) in
  let st := push_word task_exit_address st in
  let st := push_word task_trampoline_address st in
  let st := push_word (initial_task_eflags creator_flags) st in
  let st := push_word 0 st in
  let st := push_word 0 st in
  let st := push_word 0 st in
  let st := push_word 0 st in
  let '(stack, m) := st in
  let t := (tasks s).[id] in
  (set_tasks (tasks s).[id <- mk_tcb (tcb_state t) (tcb_entry t) (tcb_argument t) stack] s, m).

Definition task_create (entry argument eflags : Z) (s : sched) (m : static_array)
  : outcome Z * static_array :=
  let '(flags, eflags) := interrupt_state_save_and_disable eflags in
  if negb (scheduler_initialized s) || scheduler_running s || (entry == NULL)
  then (Returns TASK_INVALID_ID (interrupt_state_restore flags eflags) s, m)
  else
    match find_range 0 TASK_MAX_TASKS
            (fun candidate => bool_decide (state_at s candidate = TASK_STATE_UNUSED)) with
    | None => (Returns TASK_INVALID_ID (interrupt_state_restore flags eflags) s, m)
    | Some id =>
        let t := (tasks s).[id] in
        let s := set_tasks (tasks s).[id <- mk_tcb (tcb_state t) entry argument (tcb_stack_pointer t)] s in
        let '(s, m) := prepare_initial_stack id flags s m in
        let s := put_state id TASK_STATE_READY s in
        (Returns id (interrupt_state_restore flags eflags) s, m)
    end.
End Stacks.

(** ** The context switch (src/boot/context_switch.S) *)

Record registers := mk_regs {
  edi : Z; esi : Z; ebx : Z; ebp : Z; esp : Z; r_eflags : Z; eip : Z;
}.

Definition push_reg (v : Z) (st : Z * static_array) : Z * static_array := push_word v st.

Definition pop_word (st : Z * static_array) : Z * (Z * static_array) :=
  let '(sp, m) := st in (load32 m sp, (u32 (sp + 4), m)).

(** Executed from its first instruction, after the caller's [call]. *)
Definition task_context_switch (r : registers) (m : static_array) : registers * static_array :=
  let eax := load32 m (esp r + 12) in
  let st := (esp r, m) in
  let st := push_reg eax st in
  let st := push_reg (ebp r) st in
  let st := push_reg (ebx r) st in
  let st := push_reg (esi r) st in
  let st := push_reg (edi r) st in
  let '(sp, m) := st in
  let eax := load32 m (sp + 24) in
  let m := store32 m eax sp in
  let sp := load32 m (sp + 28) in
  let st := (sp, m) in
  let '(edi, st) := pop_word st in
  let '(esi, st) := pop_word st in
  let '(ebx, st) := pop_word st in
  let '(ebp, st) := pop_word st in
  let '(eflags, st) := pop_word st in
  let '(eip, st) := pop_word st in
  let '(sp, m) := st in
  (mk_regs edi esi ebx ebp sp eflags eip, m).

(** ** Scheduler invariant *)

Definition valid_id (id : Z) : Prop := 0 <= id < TASK_MAX_TASKS.

Definition is_state (st : task_state) (s : sched) (id : Z) : bool := bool_decide (state_at s id = st).

(** What holds at every moment, also between two assignments. *)
Record core_inv (s : sched) : Prop := {
  si_len : alen (tasks s) = TASK_MAX_TASKS;
  si_cursor : round_robin_cursor s = TASK_INVALID_ID \/ valid_id (round_robin_cursor s);
  si_budget : is_u32 (remaining_dispatches s);
  si_switches : is_u32 (switch_count s);
  si_finished : finished_count s = count_range 0 TASK_MAX_TASKS (is_state TASK_STATE_FINISHED s);
  si_entry : forall id, valid_id id -> state_at s id = TASK_STATE_READY \/ state_at s id = TASK_STATE_RUNNING ->
    tcb_entry (tasks s).[id] <> NULL;
}.

(** The running task is the current one and the cursor; outside a run nothing
    is running. *)
Definition run_inv (s : sched) : Prop :=
  if scheduler_running s then
    scheduler_initialized s = true /\ valid_id (current_task_id s) /\
    round_robin_cursor s = current_task_id s /\
    forall id, valid_id id -> state_at s id = TASK_STATE_RUNNING <-> id = current_task_id s
  else current_task_id s = TASK_INVALID_ID /\
    forall id, valid_id id -> state_at s id <> TASK_STATE_RUNNING.

Definition sched_inv (s : sched) : Prop := core_inv s /\ run_inv s.

Lemma state_at_put s id st j :
  alen (tasks s) = TASK_MAX_TASKS -> valid_id id -> valid_id j ->
  state_at (put_state id st s) j = if id =? j then st else state_at s j.
Proof.
  unfold valid_id, state_at, put_state. intros Hl Hi Hj. simpl.
  destruct (Z.eqb_spec id j) as [->|]; [by rewrite aget_aset_eq by lia|].
  by rewrite aget_aset_ne by lia.
Qed.

Lemma entry_put s id st j :
  alen (tasks s) = TASK_MAX_TASKS -> valid_id id -> valid_id j ->
  tcb_entry (tasks (put_state id st s)).[j] = tcb_entry (tasks s).[j].
Proof.
  unfold valid_id, put_state. intros Hl Hi Hj. simpl.
  destruct (Z.eqb_spec id j) as [->|]; [by rewrite aget_aset_eq by lia|].
  by rewrite aget_aset_ne by lia.
Qed.

(** ** Round-robin order *)

Definition first_candidate (after : Z) : Z :=
  if after != TASK_INVALID_ID then (after + 1) mod TASK_MAX_TASKS else 0.

(** How many slots after the cursor [id] comes up. *)
Definition distance (after id : Z) : Z := (id - first_candidate after) mod TASK_MAX_TASKS.

Definition cursor_ok (after : Z) : Prop := after = TASK_INVALID_ID \/ valid_id after.

Lemma distance_bounds after id : 0 <= distance after id < 8.
Proof. apply Z.mod_pos_bound. done. Qed.

Lemma candidate_distance after k :
  cursor_ok after -> 0 <= k < 8 ->
  let j := u32 (first_candidate after + k) mod TASK_MAX_TASKS in valid_id j /\ distance after j = k.
Proof.
  intros Ha Hk. cbv zeta. unfold distance, valid_id. pose proof (Z.mod_pos_bound (after + 1) 8).
  assert (0 <= first_candidate after < 8) by (unfold first_candidate, TASK_MAX_TASKS; bcase; lia).
  rewrite u32_small by (unfold is_u32; lia). generalize dependent (first_candidate after).
  intros c Hc. unfold TASK_MAX_TASKS. split; [apply Z.mod_pos_bound; lia|].
  rewrite Zminus_mod_idemp_l. replace (c + k - c) with k by lia. by apply Z.mod_small.
Qed.

Lemma distance_candidate after id :
  cursor_ok after -> valid_id id ->
  u32 (first_candidate after + distance after id) mod TASK_MAX_TASKS = id.
Proof.
  intros Ha Hid. unfold distance, valid_id in *. pose proof (Z.mod_pos_bound (after + 1) 8).
  assert (0 <= first_candidate after < 8) by (unfold first_candidate, TASK_MAX_TASKS; bcase; lia).
  pose proof (Z.mod_pos_bound (id - first_candidate after) TASK_MAX_TASKS ltac:(done)).
  rewrite u32_small by (unfold is_u32, TASK_MAX_TASKS in *; lia).
  rewrite Zplus_mod_idemp_r. replace (first_candidate after + (id - first_candidate after)) with id by lia.
  by apply Z.mod_small.
Qed.

(** The ready task that comes up first, if there is one. *)
Lemma find_next_ready_spec s after :
  cursor_ok after ->
  let next := find_next_ready s after in
  (next = TASK_INVALID_ID /\ forall id, valid_id id -> state_at s id <> TASK_STATE_READY) \/
  (valid_id next /\ state_at s next = TASK_STATE_READY /\
   forall id, valid_id id -> state_at s id = TASK_STATE_READY -> distance after next <= distance after id).
Proof.
  intros Ha. cbv zeta. unfold find_next_ready.
  assert (Hst : (if after != TASK_INVALID_ID then u32 (after + 1) mod TASK_MAX_TASKS else 0) =
    first_candidate after).
  { unfold first_candidate. destruct Ha as [->|Ha]; [done|].
    unfold valid_id, TASK_MAX_TASKS in Ha. rewrite u32_small by (unfold is_u32; lia). done. }
  rewrite Hst. destruct (find_range _ _ _) as [k|] eqn:E.
  - right. apply find_range_Some in E as (Hk & Hp & Hfirst). apply bool_decide_eq_true in Hp.
    destruct (candidate_distance after k Ha Hk) as [Hv Hd]. split; [done|]. split; [done|].
    intros id Hid Hr. rewrite Hd. destruct (Z.lt_ge_cases (distance after id) k) as [Hlt|]; [|done].
    pose proof (distance_bounds after id). specialize (Hfirst (distance after id) ltac:(lia)).
    rewrite distance_candidate in Hfirst by done. by apply bool_decide_eq_false in Hfirst.
  - left. split; [done|]. intros id Hid Hr. rewrite find_range_None in E.
    pose proof (distance_bounds after id). specialize (E (distance after id) ltac:(done)).
    rewrite distance_candidate in E by done. by apply bool_decide_eq_false in E.
Qed.

(** After dispatching [k], everything that was behind it moves up. *)
Lemma distance_dispatch after k j :
  cursor_ok after -> valid_id k -> valid_id j -> k <> j -> distance after k <= distance after j ->
  distance k j + 1 <= distance after j.
Proof.
  unfold distance, valid_id, TASK_MAX_TASKS, first_candidate. intros Ha Hk Hj Hne.
  assert (Hc : exists c, 0 <= c < 8 /\
    (if after != TASK_INVALID_ID then (after + 1) mod TASK_MAX_TASKS else 0) = c).
  { eexists. split; [|done]. pose proof (Z.mod_pos_bound (after + 1) 8). unfold TASK_MAX_TASKS. bcase; lia. }
  destruct Hc as (c & Hc & Hc'). rewrite Hc'.
  rewrite (proj2 (Z.eqb_neq k TASK_INVALID_ID)) by (unfold TASK_INVALID_ID, UINT32_MAX; lia). simpl.
  unfold TASK_MAX_TASKS. Z.to_euclidean_division_equations. lia.
Qed.

(** ** Steps of the scheduler *)

(** Disabling interrupts and restoring gives EFLAGS back. *)
Lemma eflags_roundtrip e :
  is_u32 e -> interrupt_state_restore e (e .& not32 EFLAGS_INTERRUPT) = e.
Proof.
  intros He. unfold interrupt_state_restore, EFLAGS_INTERRUPT.
  rewrite land_single_bit by lia. apply Z.bits_inj'. intros i Hi.
  assert (Hhigh : 32 <= i -> Z.testbit e i = false) by (intros; apply (testbit_high 32); done).
  destruct (decide (i < 32)) as [Hlt|Hge].
  - destruct (Z.testbit e 9) eqn:E.
    + rewrite testbit_set, testbit_clear32 by lia.
      destruct (Z.eqb_spec 9 i) as [<-|]; [by rewrite E|]. by rewrite andb_true_r, orb_false_r.
    + rewrite !testbit_clear32 by lia.
      destruct (Z.eqb_spec 9 i) as [<-|]; [by rewrite E|]. by rewrite !andb_true_r.
  - rewrite Hhigh by lia. destruct (Z.testbit e 9).
    + rewrite testbit_set, Z.land_spec, Hhigh by lia. destruct (Z.eqb_spec 9 i); [lia|done].
    + by rewrite !Z.land_spec, Hhigh by lia.
Qed.

(** Counting the finished tasks across one state change. *)
Lemma finished_put s id st :
  alen (tasks s) = TASK_MAX_TASKS -> valid_id id ->
  count_range 0 TASK_MAX_TASKS (is_state TASK_STATE_FINISHED (put_state id st s)) =
  count_range 0 TASK_MAX_TASKS (is_state TASK_STATE_FINISHED s)
  - Z.b2z (is_state TASK_STATE_FINISHED s id) + Z.b2z (bool_decide (st = TASK_STATE_FINISHED)).
Proof.
  intros Hl Hid.
  rewrite (count_range_update _ _ (is_state TASK_STATE_FINISHED s) _ id Hid).
  - unfold is_state at 3. by rewrite state_at_put, Z.eqb_refl.
  - intros j Hj Hne. unfold is_state. rewrite state_at_put by done.
    by rewrite (proj2 (Z.eqb_neq id j)) by congruence.
Qed.

(** Marking a live task, neither finished before nor after. *)
Lemma core_put s id st :
  core_inv s -> valid_id id ->
  state_at s id = TASK_STATE_READY \/ state_at s id = TASK_STATE_RUNNING ->
  st = TASK_STATE_READY \/ st = TASK_STATE_RUNNING -> core_inv (put_state id st s).
Proof.
  intros [H1 H2 H3 H4 H5 H6] Hid Hold Hst. split; try done.
  - unfold put_state. simpl. by rewrite alen_aset.
  - rewrite finished_put by done. unfold is_state at 2.
    rewrite !bool_decide_false by (destruct Hold, Hst; congruence). simpl. change (finished_count (put_state id st s)) with (finished_count s). lia.
  - intros j Hj. rewrite entry_put, state_at_put by done. destruct (Z.eqb_spec id j) as [<-|]; intros Hs.
    + by apply H6.
    + by apply H6.
Qed.

Lemma activate_spec s id :
  core_inv s -> valid_id id -> state_at s id = TASK_STATE_READY -> remaining_dispatches s <> 0 ->
  (forall j, valid_id j -> state_at s j <> TASK_STATE_RUNNING) ->
  scheduler_initialized s = true -> scheduler_running s = true ->
  exists s', activate_task id s = (true, s') /\ sched_inv s' /\
    scheduler_running s' = true /\ current_task_id s' = id /\ round_robin_cursor s' = id /\
    remaining_dispatches s' = remaining_dispatches s - 1 /\ switch_count s' = u32 (switch_count s + 1) /\
    tasks s' = tasks (put_state id TASK_STATE_RUNNING s).
Proof.
  intros Hc Hid Hr Hb Hnr Hi Hrun. unfold activate_task.
  rewrite Z.geb_leb, (proj2 (Z.leb_gt _ _)) by apply Hid.
  rewrite bool_decide_true, (proj2 (Z.eqb_neq _ _)) by done. cbn [negb orb].
  pose proof (core_put s id TASK_STATE_RUNNING Hc Hid (or_introl Hr) (or_intror eq_refl)) as Hc'.
  pose proof (si_len _ Hc) as Hl. pose proof (si_budget _ Hc) as Hbu.
  eexists. split; [reflexivity|]. repeat split; try done; simpl; try apply Hc'.
  - by right.
  - apply u32_range.
  - apply u32_range.
  - apply u32_range.
  - apply u32_range.
  - unfold run_inv. simpl. rewrite Hrun. split; [done|]. split; [done|]. split; [done|].
    intros j Hj. change (state_at _ j) with (state_at (put_state id TASK_STATE_RUNNING s) j).
    rewrite state_at_put by done. destruct (Z.eqb_spec id j) as [<-|Hne]; [done|].
    split; [|congruence]. intros Hx. by apply Hnr in Hx.
  - apply u32_small. unfold is_u32 in *. lia.
Qed.

(** A configuration: who has the CPU, and the statics. *)
Abbreviation cfg := (context * sched)%type.

(** Who has the CPU after an outcome; [None] when the machine halts. *)
Definition lands {A} (c : context) (o : outcome A) : option cfg :=
  match o with
  | Returns _ _ s => Some (c, s)
  | Switches _ to _ s => Some (to, s)
  | Stops _ => None
  end.

(** Any context may call any function of task.h. *)
Inductive sys_step : cfg -> cfg -> Prop :=
| step_init c s e y : lands c (task_system_init e s) = Some y -> sys_step (c, s) y
| step_create c s stacks ex tr entry arg e m y :
    lands c (fst (task_create stacks ex tr entry arg e s m)) = Some y -> sys_step (c, s) y
| step_run c s budget e y :
    is_u32 e -> is_u32 budget -> lands c (task_run budget e s) = Some y -> sys_step (c, s) y
| step_yield c s e y : is_u32 e -> lands c (task_yield e s) = Some y -> sys_step (c, s) y
| step_exit c s e y : lands c (task_exit e s) = Some y -> sys_step (c, s) y.

Definition owner (s : sched) : context :=
  if scheduler_running s then TaskContext (current_task_id s) else Bootstrap.

Definition sys_inv (x : cfg) : Prop := sched_inv (snd x) /\ fst x = owner (snd x).

(** What a step may do to the round-robin order. *)
Inductive progress (s s' : sched) : Prop :=
| progress_same : switch_count s' = switch_count s -> round_robin_cursor s' = round_robin_cursor s ->
    progress s s'
| progress_reset : (forall j, valid_id j -> state_at s' j = TASK_STATE_UNUSED) -> progress s s'
| progress_dispatch : switch_count s' = u32 (switch_count s + 1) -> valid_id (round_robin_cursor s') ->
    state_at s' (round_robin_cursor s') = TASK_STATE_RUNNING ->
    (forall j, valid_id j -> state_at s j = TASK_STATE_READY ->
       distance (round_robin_cursor s) (round_robin_cursor s') <= distance (round_robin_cursor s) j) ->
    progress s s'.

(** The state between two slices: [s1] is [s] with the previous task marked. *)
Record between (s s1 : sched) (previous : Z) : Prop := {
  bt_core : core_inv s1;
  bt_init : scheduler_initialized s1 = true;
  bt_running : scheduler_running s1 = true;
  bt_idle : forall j, valid_id j -> state_at s1 j <> TASK_STATE_RUNNING;
  bt_cursor : round_robin_cursor s1 = previous;
  bt_prev : valid_id previous;
  bt_switches : switch_count s1 = switch_count s;
  bt_cursor0 : round_robin_cursor s = previous;
  bt_ready : forall j, valid_id j -> state_at s j = TASK_STATE_READY -> state_at s1 j = TASK_STATE_READY;
}.

(** What the tail of [task_yield] and [task_exit] decides. *)
Lemma slice_end s s1 previous :
  between s s1 previous ->
  let next := find_next_ready s1 previous in
  if (next != TASK_INVALID_ID) && (remaining_dispatches s1 != 0) then
    exists s2, activate_task next s1 = (true, s2) /\ sched_inv s2 /\
      owner s2 = TaskContext next /\ progress s s2 /\ state_at s1 next = TASK_STATE_READY /\
      tasks s2 = tasks (put_state next TASK_STATE_RUNNING s1) /\ valid_id next /\
      remaining_dispatches s2 = remaining_dispatches s1 - 1 /\
      switch_count s2 = u32 (switch_count s1 + 1) /\ current_task_id s2 = next /\
      scheduler_initialized s2 = true /\ scheduler_running s2 = true
  else sched_inv (set_running TASK_INVALID_ID false s1) /\
    progress s (set_running TASK_INVALID_ID false s1).
Proof.
  intros [Hc Hi Hr Hid Hcu Hp Hsw Hcu0 Hrd]. cbv zeta.
  pose proof (find_next_ready_spec s1 previous (or_intror Hp)) as Hn. cbv zeta in Hn.
  destruct ((_ != TASK_INVALID_ID) && _) eqn:E.
  - bprop. destruct Hn as [[? _]|(Hv & Hst & Hmin)]; [done|].
    destruct (activate_spec s1 _ Hc Hv Hst) as (s2 & Ha & Hinv & Hrun & Hcur & Hcursor & Hrem & Hsc & Hts); try done.
    exists s2. split; [done|]. split; [done|]. unfold owner. rewrite Hrun, Hcur. split; [done|].
    pose proof Hinv as [_ Hrn]. unfold run_inv in Hrn. rewrite Hrun in Hrn.
    destruct Hrn as (Hi2 & Hv2 & _ & Hu).
    split; [|by repeat (split; [done|])]. apply progress_dispatch.
    + by rewrite Hsc, Hsw.
    + by rewrite Hcursor.
    + rewrite Hcursor. apply Hu; [done|by rewrite Hcur].
    + intros j Hj Hjr. rewrite Hcursor, Hcu0. apply Hmin; [done|by apply Hrd].
  - split.
    + split; [|by split]. destruct Hc. by split.
    + apply progress_same; simpl; congruence.
Qed.

Lemma context_between s st :
  sched_inv s -> scheduler_running s = true ->
  st = TASK_STATE_READY \/ st = TASK_STATE_FINISHED ->
  between s (set_finished (u32 (finished_count s + Z.b2z (bool_decide (st = TASK_STATE_FINISHED))))
      (put_state (current_task_id s) st s)) (current_task_id s).
Proof.
  intros [Hc Hr] Hrun Hst. unfold run_inv in Hr. rewrite Hrun in Hr.
  destruct Hr as (Hi & Hv & Hcu & Hu). pose proof Hc as [H1 H2 H3 H4 H5 H6].
  assert (Hrs : state_at s (current_task_id s) = TASK_STATE_RUNNING) by (by apply Hu).
  assert (Hsa : forall x j, state_at (set_finished x (put_state (current_task_id s) st s)) j =
    state_at (put_state (current_task_id s) st s) j) by done.
  split; try done.
  - split; try done.
    + simpl. by rewrite alen_aset.
    + simpl finished_count. rewrite H5.
      change (is_state TASK_STATE_FINISHED (set_finished _ ?t)) with (is_state TASK_STATE_FINISHED t).
      rewrite finished_put by done.
      assert (Hnf : is_state TASK_STATE_FINISHED s (current_task_id s) = false)
        by (unfold is_state; rewrite Hrs; by apply bool_decide_eq_false).
      rewrite Hnf. simpl (Z.b2z false).
      pose proof (count_range_nonneg 0 TASK_MAX_TASKS (is_state TASK_STATE_FINISHED s)).
      unfold TASK_MAX_TASKS in *. rewrite Z.sub_0_r. apply u32_small.
      unfold is_u32. destruct (bool_decide _); simpl; lia.
    + intros j Hj. rewrite Hsa, state_at_put by done.
      change (tasks (set_finished _ ?t)) with (tasks t). rewrite entry_put by done.
      destruct (Z.eqb_spec (current_task_id s) j) as [<-|]; intros Hs; apply H6; try done; by right.
  - intros j Hj. rewrite Hsa, state_at_put by done. destruct (Z.eqb_spec (current_task_id s) j) as [|Hne].
    + destruct Hst; congruence.
    + intros Hx. apply Hu in Hx; [congruence|done].
  - intros j Hj Hjr. rewrite Hsa, state_at_put by done.
    destruct (Z.eqb_spec (current_task_id s) j) as [<-|]; [congruence|done].
Qed.

Lemma finished_small s : core_inv s -> 0 <= finished_count s <= 8.
Proof.
  intros Hc. rewrite (si_finished _ Hc).
  pose proof (count_range_nonneg 0 TASK_MAX_TASKS (is_state TASK_STATE_FINISHED s)).
  unfold TASK_MAX_TASKS in *. lia.
Qed.

Lemma yield_between s :
  sched_inv s -> scheduler_running s = true ->
  between s (put_state (current_task_id s) TASK_STATE_READY s) (current_task_id s).
Proof.
  intros Hinv Hrun. pose proof (context_between s TASK_STATE_READY Hinv Hrun (or_introl eq_refl)) as Hb.
  rewrite bool_decide_false in Hb by done. simpl (Z.b2z false) in Hb.
  rewrite Z.add_0_r, u32_small in Hb; [exact Hb|].
  pose proof (finished_small s (proj1 Hinv)). unfold is_u32. lia.
Qed.

Lemma exit_between s :
  sched_inv s -> scheduler_running s = true ->
  between s (set_finished (u32 (finished_count s + 1)) (put_state (current_task_id s) TASK_STATE_FINISHED s))
    (current_task_id s).
Proof.
  intros Hinv Hrun. exact (context_between s TASK_STATE_FINISHED Hinv Hrun (or_intror eq_refl)).
Qed.

Lemma in_context s : sched_inv s -> in_task_context s = scheduler_running s.
Proof.
  intros [Hc Hr]. unfold in_task_context, run_inv in *. destruct (scheduler_running s).
  - destruct Hr as (-> & Hv & _ & Hu). rewrite (proj2 (Z.ltb_lt _ _)) by apply Hv.
    rewrite bool_decide_true by (by apply Hu). done.
  - by rewrite andb_false_r.
Qed.

(** [task_yield] in a running task. *)
Lemma yield_cases e s :
  sched_inv s -> is_u32 e -> scheduler_running s = true ->
  let s1 := put_state (current_task_id s) TASK_STATE_READY s in
  let next := find_next_ready s1 (current_task_id s) in
  exists s2, sched_inv s2 /\ progress s s2 /\
    if (next != TASK_INVALID_ID) && (remaining_dispatches s != 0) then
      task_yield e s = (if next == current_task_id s then Returns () e s2
                        else Switches (TaskContext (current_task_id s)) (TaskContext next) e s2) /\
      owner s2 = TaskContext next /\ activate_task next s1 = (true, s2)
    else task_yield e s = Switches (TaskContext (current_task_id s)) Bootstrap e s2 /\
      s2 = set_running TASK_INVALID_ID false s1.
Proof.
  intros Hinv He Hrun. cbv zeta. pose proof (slice_end s _ _ (yield_between s Hinv Hrun)) as Hs. cbv zeta in Hs.
  unfold task_yield, interrupt_state_save_and_disable. rewrite in_context, Hrun by done. cbn [negb].
  rewrite eflags_roundtrip by done. change (remaining_dispatches (put_state _ _ s)) with (remaining_dispatches s) in *.
  destruct ((_ != TASK_INVALID_ID) && _).
  - destruct Hs as (s2 & Ha & Hi2 & Ho & Hp & _). exists s2. rewrite Ha.
    by destruct (_ == current_task_id s).
  - destruct Hs as [Hi2 Hp]. eexists. by split; [exact Hi2|].
Qed.

(** [task_exit] in a running task. *)
Lemma exit_cases e s :
  sched_inv s -> scheduler_running s = true ->
  let s1 := set_finished (u32 (finished_count s + 1)) (put_state (current_task_id s) TASK_STATE_FINISHED s) in
  let next := find_next_ready s1 (current_task_id s) in
  exists s2, sched_inv s2 /\ progress s s2 /\
    if (next != TASK_INVALID_ID) && (remaining_dispatches s != 0) then
      task_exit e s = Switches (TaskContext (current_task_id s)) (TaskContext next) e s2 /\
      owner s2 = TaskContext next /\ activate_task next s1 = (true, s2)
    else task_exit e s = Switches (TaskContext (current_task_id s)) Bootstrap e s2 /\
      s2 = set_running TASK_INVALID_ID false s1.
Proof.
  intros Hinv Hrun. cbv zeta. pose proof (slice_end s _ _ (exit_between s Hinv Hrun)) as Hs. cbv zeta in Hs.
  unfold task_exit, interrupt_state_save_and_disable. rewrite in_context, Hrun by done. cbn [negb].
  change (finished_count (put_state _ _ s)) with (finished_count s).
  change (remaining_dispatches (set_finished _ (put_state _ _ s))) with (remaining_dispatches s) in *.
  destruct ((_ != TASK_INVALID_ID) && _).
  - destruct Hs as (s2 & Ha & Hi2 & Ho & Hp & _). exists s2. by rewrite Ha.
  - destruct Hs as [Hi2 Hp]. eexists. by split; [exact Hi2|].
Qed.

(** [task_run] from the bootstrap context. *)
Lemma run_cases budget e s :
  sched_inv s -> is_u32 e -> is_u32 budget -> scheduler_running s = false -> scheduler_initialized s = true ->
  let next := find_next_ready s (round_robin_cursor s) in
  if next == TASK_INVALID_ID then task_run budget e s = Returns true e s
  else if budget == 0 then task_run budget e s = Returns false e s
  else exists s2, sched_inv s2 /\ progress s s2 /\ owner s2 = TaskContext next /\
    task_run budget e s = Switches Bootstrap (TaskContext next) e s2 /\
    activate_task next (set_running TASK_INVALID_ID true (set_budget budget s)) = (true, s2).
Proof.
  intros [Hc Hr] He Hb Hrun Hinit. cbv zeta. unfold task_run, interrupt_state_save_and_disable.
  rewrite Hinit, Hrun. cbn [negb orb]. rewrite eflags_roundtrip by done.
  unfold run_inv in Hr. rewrite Hrun in Hr. destruct Hr as [Hcur Hnr].
  pose proof (find_next_ready_spec s (round_robin_cursor s) (si_cursor _ Hc)) as Hn. cbv zeta in Hn.
  destruct (Z.eqb_spec (find_next_ready s (round_robin_cursor s)) TASK_INVALID_ID) as [E|E]; [done|].
  destruct (Z.eqb_spec budget 0) as [|Hb0]; [done|].
  destruct Hn as [[? _]|(Hv & Hst & Hmin)]; [done|].
  set (s1 := set_running TASK_INVALID_ID true (set_budget budget s)).
  assert (Hc1 : core_inv s1) by (destruct Hc; by split).
  destruct (activate_spec s1 _ Hc1 Hv Hst) as (s2 & Ha & Hinv & Hrun2 & Hcur2 & Hcu2 & Hrem & Hsc & Hts); try done.
  exists s2. split; [done|]. split.
  - apply progress_dispatch; [done|by rewrite Hcu2| |].
    + destruct Hinv as [_ Hr2]. unfold run_inv in Hr2. rewrite Hrun2 in Hr2. rewrite Hcu2.
      apply Hr2; [done|by rewrite Hcur2].
    + intros j Hj Hjr. rewrite Hcu2. by apply Hmin.
  - unfold owner. rewrite Hrun2, Hcur2. split; [done|].
    change (current_task_id (set_budget budget s)) with (current_task_id s). rewrite Hcur.
    fold s1. by rewrite Ha.
Qed.

Lemma init_inv e s :
  alen (tasks s) = TASK_MAX_TASKS -> scheduler_running s = false ->
  exists e' s', task_system_init e s = Returns () e' s' /\ sched_inv s' /\ owner s' = Bootstrap /\
    (forall j, valid_id j -> state_at s' j = TASK_STATE_UNUSED) /\ scheduler_initialized s' = true /\
    round_robin_cursor s' = TASK_INVALID_ID /\ switch_count s' = 0.
Proof.
  intros Hl Hrun. unfold task_system_init, interrupt_state_save_and_disable. rewrite Hrun.
  set (ts := for_range _ _ _ _). do 2 eexists. split; [done|].
  assert (Hts : ts = tabulate TASK_MAX_TASKS (fun _ => unused_task)).
  { apply (fill_range_tabulate TASK_MAX_TASKS (fun _ => unused_task)); done. }
  assert (Hst : forall j, valid_id j -> ts.[j] = unused_task).
  { intros j Hj. rewrite Hts. by apply aget_tabulate. }
  assert (Hu : forall j, valid_id j -> state_at (mk_sched ts 0 TASK_INVALID_ID TASK_INVALID_ID 0 0 0 true false) j =
    TASK_STATE_UNUSED) by (intros j Hj; unfold state_at; simpl; by rewrite Hst).
  split; [|by repeat (split; [done|])]. split.
  - split; try done; simpl.
    + rewrite Hts. by apply alen_tabulate.
    + by left.
    + symmetry. apply count_range_none. intros j Hj. unfold is_state. by rewrite Hu.
    + intros j Hj. rewrite Hu by done. intros [|]; done.
  - split; [done|]. intros j Hj. by rewrite Hu.
Qed.

Lemma create_inv stacks ex tr entry arg e s m :
  sched_inv s ->
  exists id e' s' m', task_create stacks ex tr entry arg e s m = (Returns id e' s', m') /\
    sched_inv s' /\ owner s' = owner s /\ progress s s'.
Proof.
  intros [Hc Hr]. unfold task_create, interrupt_state_save_and_disable.
  assert (Hsame : progress s s) by (by apply progress_same).
  destruct (negb (scheduler_initialized s)) eqn:Ei; [by do 4 eexists|].
  destruct (scheduler_running s) eqn:Er; [by do 4 eexists|].
  destruct (Z.eqb_spec entry NULL) as [|Hentry]; [by do 4 eexists|]. cbn [orb].
  destruct (find_range _ _ _) as [id|] eqn:Ef; [|by do 4 eexists].
  apply find_range_Some in Ef as (Hid & Hun & _). apply bool_decide_eq_true in Hun.
  unfold prepare_initial_stack. destruct (push_word _ _) as [sp m'].
  set (s1 := set_tasks _ (set_tasks _ s)).
  assert (Hts : tasks (put_state id TASK_STATE_READY s1) =
    (tasks s).[id <- mk_tcb TASK_STATE_READY entry arg sp]).
  { pose proof (si_len _ Hc). unfold put_state, s1. simpl.
    rewrite !aget_aset_eq by (rewrite ?alen_aset; unfold TASK_MAX_TASKS in *; lia). simpl.
    unfold aset. by rewrite !list_insert_insert_eq. }
  assert (Hsa : forall j, valid_id j -> state_at (put_state id TASK_STATE_READY s1) j =
    if id =? j then TASK_STATE_READY else state_at s j).
  { intros j Hj. unfold state_at. rewrite Hts. pose proof (si_len _ Hc).
    destruct (Z.eqb_spec id j) as [<-|]; [by rewrite aget_aset_eq by (unfold valid_id in *; lia)|].
    unfold valid_id in *. by rewrite aget_aset_ne by lia. }
  do 4 eexists. split; [reflexivity|]. destruct Hc as [H1 H2 H3 H4 H5 H6].
  unfold run_inv in Hr. rewrite Er in Hr. destruct Hr as [Hcur Hnr].
  split; [split|split].
  - split; try done.
    + rewrite Hts. by rewrite alen_aset.
    + simpl finished_count. rewrite H5. apply count_range_ext. intros j Hj. unfold is_state.
      rewrite Hsa by done. destruct (Z.eqb_spec id j) as [<-|]; [by rewrite Hun|done].
    + intros j Hj. rewrite Hsa, Hts by done. destruct (Z.eqb_spec id j) as [<-|Hne].
      * rewrite aget_aset_eq by (unfold valid_id in *; lia). done.
      * unfold valid_id in *. rewrite aget_aset_ne by lia. by apply H6.
  - unfold run_inv. change (scheduler_running _) with (scheduler_running s). rewrite Er.
    split; [done|]. intros j Hj. rewrite Hsa by done. destruct (_ =? _); [done|by apply Hnr].
  - unfold owner. change (scheduler_running (put_state id TASK_STATE_READY s1)) with (scheduler_running s).
    by rewrite Er.
  - by apply progress_same.
Qed.

Lemma step_preserves x y : sys_inv x -> sys_step x y -> sys_inv y /\ progress (snd x) (snd y).
Proof.
  intros [Hinv Ho] Hstep. unfold sys_inv.
  assert (Hsame : forall s, progress s s) by (intros; by apply progress_same).
  destruct Hstep as [c s e y Hl|c s stacks ex tr entry arg e m y Hl|c s budget e y He Hb Hl|c s e y He Hl|c s e y Hl];
    simpl in *; subst c.
  - destruct (scheduler_running s) eqn:Er.
    + unfold task_system_init in Hl. rewrite Er in Hl. simpl in Hl. by simplify_eq/=.
    + destruct (init_inv e s (si_len _ (proj1 Hinv)) Er) as (e' & s' & Ei & Hi & Ho & Hu & _).
      rewrite Ei in Hl. simplify_eq/=. split; [|by apply progress_reset]. split; [done|].
      rewrite Ho. unfold owner. by rewrite Er.
  - destruct (create_inv stacks ex tr entry arg e s m Hinv) as (id & e' & s' & m' & Ec & Hi & Ho & Hp).
    rewrite Ec in Hl. by simplify_eq/=.
  - destruct (negb (scheduler_initialized s) || scheduler_running s) eqn:Eg.
    + unfold task_run in Hl. rewrite Eg in Hl. by simplify_eq/=.
    + bprop. pose proof (run_cases budget e s Hinv He Hb H0 H) as Hr. cbv zeta in Hr.
      destruct (_ == TASK_INVALID_ID); [rewrite Hr in Hl; by simplify_eq/=|].
      destruct (budget == 0); [rewrite Hr in Hl; by simplify_eq/=|].
      destruct Hr as (s2 & Hi2 & Hp & Ho & Et & _). rewrite Et in Hl. by simplify_eq/=.
  - destruct (scheduler_running s) eqn:Er.
    + destruct (yield_cases e s Hinv He Er) as (s2 & Hi2 & Hp & Hy).
      destruct ((_ != TASK_INVALID_ID) && _).
      * destruct Hy as (Hy & Ho & _). rewrite Hy in Hl. unfold owner in Hl. rewrite Er in Hl.
        destruct (Z.eqb_spec (find_next_ready (put_state (current_task_id s) TASK_STATE_READY s) (current_task_id s))
          (current_task_id s)) as [En|]; simplify_eq/=; [|done].
        rewrite En in Ho. done.
      * destruct Hy as [Hy ->]. rewrite Hy in Hl. by simplify_eq/=.
    + unfold task_yield in Hl. rewrite in_context, Er in Hl by done. by simplify_eq/=.
  - destruct (scheduler_running s) eqn:Er.
    + destruct (exit_cases e s Hinv Er) as (s2 & Hi2 & Hp & Hy).
      destruct ((_ != TASK_INVALID_ID) && _).
      * destruct Hy as (Hy & Ho & _). rewrite Hy in Hl. by simplify_eq/=.
      * destruct Hy as [Hy ->]. rewrite Hy in Hl. by simplify_eq/=.
    + unfold task_exit in Hl. rewrite in_context, Er in Hl by done. done.
Qed.

(** ** Tasks as scripts

    From the scheduler's side a task is the number of times it yields before
    it exits: [ys] gives it for every slot.  A slice ends at a yield or at the
    exit, so a live task with [y] yields left costs [y + 1] dispatches. *)

Definition zsum (l : list Z) : Z := foldr Z.add 0 l.

Definition slices_left (t : task_control_block) (y : Z) : Z :=
  match tcb_state t with
  | TASK_STATE_READY | TASK_STATE_RUNNING => y + 1
  | _ => 0
  end.

Definition work (s : sched) (ys : list Z) : Z := zsum (zip_with slices_left (tasks s) ys).

(** The running task executes slices until the bootstrap context is back. *)
Fixpoint run_slices (fuel : nat) (e : Z) (x : cfg) (ys : list Z) : option (sched * list Z) :=
  match fst x with
  | Bootstrap => Some (snd x, ys)
  | TaskContext id =>
      match fuel with
      | O => None
      | S fuel =>
          if ys.[id] == 0 then
            y ← lands (fst x) (task_exit e (snd x)); run_slices fuel e y ys
          else
            y ← lands (fst x) (task_yield e (snd x)); run_slices fuel e y ys.[id <- ys.[id] - 1]
      end
  end.

(** A whole call of [task_run]. *)
Definition run_tasks (budget e : Z) (s : sched) (ys : list Z) : option (bool * sched * list Z) :=
  match task_run budget e s with
  | Returns complete _ s => Some (complete, s, ys)
  | Switches _ to _ s =>
      '(s, ys) ← run_slices (Z.to_nat budget) e (to, s) ys;
      match task_run_resumed e s with
      | Returns complete _ s => Some (complete, s, ys)
      | _ => None
      end
  | Stops _ => None
  end.

Lemma zsum_insert l i v w : l !! i = Some v -> zsum (<[i := w]> l) = zsum l - v + w.
Proof.
  revert i. induction l as [|x l IH]; intros [|i]; simpl; try done.
  - intros [= ->]. lia.
  - intros Hi. rewrite (IH i Hi). lia.
Qed.

Lemma zsum_nonneg l : Forall (fun z => 0 <= z) l -> 0 <= zsum l.
Proof. induction 1; simpl; lia. Qed.

Lemma zsum_zero l : (forall i v, l !! i = Some v -> v = 0) -> zsum l = 0.
Proof.
  induction l as [|x l IH]; intros H; simpl; [done|]. rewrite (H O x eq_refl), IH; [done|].
  intros i v Hi. apply (H (S i) v Hi).
Qed.

Definition script_ok (ys : list Z) : Prop := alen ys = TASK_MAX_TASKS /\ Forall (fun y => 0 <= y) ys.

Lemma work_lookup s ys id :
  alen (tasks s) = TASK_MAX_TASKS -> alen ys = TASK_MAX_TASKS -> valid_id id ->
  zip_with slices_left (tasks s) ys !! Z.to_nat id = Some (slices_left (tasks s).[id] ys.[id]).
Proof.
  intros Hs Hy Hid. unfold valid_id in Hid. rewrite lookup_zip_with.
  by rewrite (aget_lookup (tasks s)), (aget_lookup ys) by lia.
Qed.

(** Replacing one control block and its script entry. *)
Lemma work_update s s' ys id t y :
  alen (tasks s) = TASK_MAX_TASKS -> alen ys = TASK_MAX_TASKS -> valid_id id ->
  tasks s' = (tasks s).[id <- t] ->
  work s' ys.[id <- y] = work s ys - slices_left (tasks s).[id] ys.[id] + slices_left t y.
Proof.
  intros Hs Hy Hid Ht. unfold work. rewrite Ht. unfold aset at 1 2.
  rewrite <-insert_zip_with. apply zsum_insert. by apply work_lookup.
Qed.

Lemma work_put s ys id st y :
  alen (tasks s) = TASK_MAX_TASKS -> alen ys = TASK_MAX_TASKS -> valid_id id ->
  work (put_state id st s) ys.[id <- y] =
  work s ys - slices_left (tasks s).[id] ys.[id] + slices_left (mk_tcb st 0 0 0) y.
Proof.
  intros Hs Hy Hid. set (t := (tasks s).[id]).
  exact (work_update s (put_state id st s) ys id
    (mk_tcb st (tcb_entry t) (tcb_argument t) (tcb_stack_pointer t)) y Hs Hy Hid eq_refl).
Qed.

Lemma work_nonneg s ys : script_ok ys -> 0 <= work s ys.
Proof.
  intros [_ Hy]. apply zsum_nonneg. apply Forall_lookup. intros i v Hv.
  rewrite lookup_zip_with in Hv. destruct (tasks s !! i) as [t|]; [|done].
  destruct (ys !! i) as [y|] eqn:E; [|done]. simpl in Hv. injection Hv as <-.
  pose proof (Forall_lookup_1 _ _ _ _ Hy E) as Hy0. cbv beta in *. unfold slices_left. destruct (tcb_state t); lia.
Qed.

(** No work is left exactly when no task is ready, outside a run. *)
Lemma work_idle s ys :
  alen (tasks s) = TASK_MAX_TASKS -> script_ok ys ->
  (forall j, valid_id j -> state_at s j <> TASK_STATE_RUNNING) ->
  (forall j, valid_id j -> state_at s j <> TASK_STATE_READY) <-> work s ys = 0.
Proof.
  intros Hl [Hyl Hy] Hnr. split.
  - intros Hr. apply zsum_zero. intros i v Hv.
    assert (Hi : (i < 8)%nat).
    { apply lookup_lt_Some in Hv. rewrite length_zip_with in Hv. unfold alen, TASK_MAX_TASKS in *. lia. }
    assert (Hid : valid_id (Z.of_nat i)) by (unfold valid_id, TASK_MAX_TASKS; lia).
    pose proof (work_lookup s ys (Z.of_nat i) Hl Hyl Hid) as Hw. rewrite Nat2Z.id, Hv in Hw.
    injection Hw as ->. specialize (Hr _ Hid). specialize (Hnr _ Hid).
    unfold slices_left, state_at in *. by destruct (tcb_state _).
  - intros Hw j Hj Hr.
    pose proof (work_put s ys j TASK_STATE_FINISHED ys.[j] Hl Hyl Hj) as He.
    unfold valid_id in Hj. rewrite aset_id in He by lia.
    pose proof (work_nonneg (put_state j TASK_STATE_FINISHED s) ys (conj Hyl Hy)) as Hn.
    pose proof (Forall_aget _ ys j Hy ltac:(lia)) as Hy0. simpl in Hy0.
    unfold slices_left, state_at in *. rewrite Hr in He. simpl in He. lia.
Qed.

Definition is_live (s : sched) (id : Z) : Prop :=
  state_at s id = TASK_STATE_READY \/ state_at s id = TASK_STATE_RUNNING.

(** A task once live stays live or finishes. *)
Definition lives_on (s s' : sched) : Prop :=
  forall j, valid_id j -> is_live s j -> is_live s' j \/ state_at s' j = TASK_STATE_FINISHED.

(** Dispatching a ready task changes neither the work nor who is live. *)
Lemma activated_live s1 s2 id j :
  alen (tasks s1) = TASK_MAX_TASKS -> valid_id id -> tasks s2 = tasks (put_state id TASK_STATE_RUNNING s1) ->
  valid_id j -> is_live s1 j -> is_live s2 j.
Proof.
  intros Hl Hv Hts Hj Hlive. unfold is_live.
  change (state_at s2 j) with (tcb_state (tasks s2).[j]). rewrite Hts.
  change (tcb_state (tasks ?t).[j]) with (state_at t j). rewrite state_at_put by done.
  destruct (_ =? j); [by right|done].
Qed.

Lemma work_activate s1 s2 ys id :
  alen (tasks s1) = TASK_MAX_TASKS -> script_ok ys -> valid_id id -> state_at s1 id = TASK_STATE_READY ->
  tasks s2 = tasks (put_state id TASK_STATE_RUNNING s1) -> work s2 ys = work s1 ys /\ lives_on s1 s2.
Proof.
  intros Hl [Hyl _] Hv Hst Hts. split.
  - pose proof (work_put s1 ys id TASK_STATE_RUNNING ys.[id] Hl Hyl Hv) as Hw.
    rewrite aset_id in Hw by (unfold valid_id in Hv; lia).
    unfold work in Hw |- *. rewrite Hts, Hw. unfold slices_left at 2 3.
    change (tcb_state (tasks s1).[id]) with (state_at s1 id). rewrite Hst. simpl. lia.
  - intros j Hj Hlive. left. by apply (activated_live s1 s2 id).
Qed.

(** The two ways a slice ends, with the work and the dispatches accounted. *)
Definition slice_result (s : sched) (w1 : Z) (y : cfg) (ys1 : list Z) : Prop :=
  sys_inv y /\ work (snd y) ys1 = w1 /\ scheduler_initialized (snd y) = true /\
  if scheduler_running (snd y) then
    remaining_dispatches s <> 0 /\ remaining_dispatches (snd y) = remaining_dispatches s - 1 /\
    switch_count (snd y) = u32 (switch_count s + 1) /\ 0 < w1
  else switch_count (snd y) = switch_count s /\ (remaining_dispatches s = 0 \/ w1 = 0).

Lemma slice_tail s s1 ys1 :
  between s s1 (current_task_id s) -> remaining_dispatches s1 = remaining_dispatches s ->
  script_ok ys1 ->
  let next := find_next_ready s1 (current_task_id s) in
  if (next != TASK_INVALID_ID) && (remaining_dispatches s != 0) then
    forall s2, activate_task next s1 = (true, s2) ->
      slice_result s (work s1 ys1) (TaskContext next, s2) ys1 /\ lives_on s1 s2
  else
    let s2 := set_running TASK_INVALID_ID false s1 in
    slice_result s (work s1 ys1) (Bootstrap, s2) ys1 /\ lives_on s1 s2.
Proof.
  intros Hb Hrem Hys. cbv zeta. pose proof (slice_end s s1 _ Hb) as Hs. cbv zeta in Hs.
  rewrite Hrem in Hs. pose proof Hb as [Hc Hi Hr Hidle Hcu Hp Hsw Hcu0 Hrd].
  pose proof (si_len _ Hc) as Hl. pose proof (find_next_ready_spec s1 _ (or_intror Hp)) as Hn. cbv zeta in Hn.
  pose proof (work_idle s1 ys1 Hl Hys Hidle) as Hwork. pose proof (work_nonneg s1 ys1 Hys) as Hwn.
  destruct ((_ != TASK_INVALID_ID) && _) eqn:E.
  - intros s2' Ha'. destruct Hs as (s2 & Ha & Hi2 & Ho & Hp2 & Hst & Hts & Hv & Hrem2 & Hsc & Hcur & Hin & Hrun).
    assert (s2' = s2) as -> by congruence. unfold slice_result. cbn [fst snd]. rewrite Hrun.
    destruct (work_activate s1 s2 ys1 _ Hl Hys Hv Hst Hts) as [Hw Hlv]. split; [|done].
    split; [by split|]. split; [done|]. split; [done|]. rewrite Hsw in Hsc. bprop.
    split; [done|]. split; [done|]. split; [done|].
    assert (work s1 ys1 <> 0); [|lia]. intros Hz. exact (proj2 Hwork Hz _ Hv Hst).
  - destruct Hs as [Hi2 Hp2]. unfold slice_result. cbn [fst snd scheduler_running set_running].
    split; [|by left]. split; [by split|]. split; [done|]. split; [done|]. split; [done|].
    apply andb_false_iff in E as [E|E]; bprop; [right|by left].
    apply Hwork. destruct Hn as [[_ Hn]|(Hv & _)]; [done|].
    rewrite E in Hv. by destruct Hv.
Qed.

Lemma lives_on_trans s1 s2 s3 :
  lives_on s1 s2 -> lives_on s2 s3 ->
  (forall j, valid_id j -> state_at s2 j = TASK_STATE_FINISHED -> state_at s3 j = TASK_STATE_FINISHED) ->
  lives_on s1 s3.
Proof.
  intros H1 H2 H3 j Hj Hl. destruct (H1 j Hj Hl) as [Hl2|Hf]; [by apply H2|]. right. by apply H3.
Qed.

(** Finished tasks stay finished while nothing is reset. *)
Definition keeps_finished (s s' : sched) : Prop :=
  forall j, valid_id j -> state_at s j = TASK_STATE_FINISHED -> state_at s' j = TASK_STATE_FINISHED.

Lemma keeps_put s id st :
  alen (tasks s) = TASK_MAX_TASKS -> valid_id id ->
  (state_at s id <> TASK_STATE_FINISHED \/ st = TASK_STATE_FINISHED) -> keeps_finished s (put_state id st s).
Proof.
  intros Hl Hid Hst j Hj Hf. rewrite state_at_put by done.
  destruct (Z.eqb_spec id j) as [<-|]; [|done]. by destruct Hst.
Qed.

Lemma activate_keeps s id s' :
  alen (tasks s) = TASK_MAX_TASKS -> valid_id id -> activate_task id s = (true, s') -> keeps_finished s s'.
Proof.
  intros Hl Hid Ha. unfold activate_task in Ha. destruct (_ || _ || _) eqn:E; [done|]. bprop.
  injection Ha as <-. apply bool_decide_eq_true in H1.
  intros j Hj Hf. change (state_at _ j) with (state_at (put_state id TASK_STATE_RUNNING s) j).
  apply (keeps_put s id TASK_STATE_RUNNING Hl Hid); [|done|done]. left. congruence.
Qed.

(** The slice's end, given what the previous task was marked as. *)
Lemma slice_finish s s1 st ys1 o :
  between s s1 (current_task_id s) -> remaining_dispatches s1 = remaining_dispatches s ->
  script_ok ys1 ->
  state_at s (current_task_id s) = TASK_STATE_RUNNING ->
  st = TASK_STATE_READY \/ st = TASK_STATE_FINISHED ->
  (forall j, valid_id j -> state_at s1 j = if current_task_id s =? j then st else state_at s j) ->
  let next := find_next_ready s1 (current_task_id s) in
  (if (next != TASK_INVALID_ID) && (remaining_dispatches s != 0)
   then exists s2, activate_task next s1 = (true, s2) /\ o = Some (TaskContext next, s2)
   else o = Some (Bootstrap, set_running TASK_INVALID_ID false s1)) ->
  exists y, o = Some y /\ slice_result s (work s1 ys1) y ys1 /\
    lives_on s (snd y) /\ keeps_finished s (snd y).
Proof.
  intros Hb Hrem Hys Hrun Hst Hs1. cbv zeta. intros Ho.
  pose proof (slice_tail s s1 ys1 Hb Hrem Hys) as Ht. cbv zeta in Ht.
  pose proof (find_next_ready_spec s1 _ (or_intror (bt_prev _ _ _ Hb))) as Hn. cbv zeta in Hn.
  assert (Hlive : lives_on s s1).
  { intros j Hj Hl. unfold is_live in *. rewrite Hs1 by done.
    destruct (_ =? j); [|by left]. destruct Hst as [->| ->]; [left; by left|by right]. }
  assert (Hkeep : keeps_finished s s1).
  { intros j Hj Hf. rewrite Hs1 by done.
    destruct (Z.eqb_spec (current_task_id s) j) as [<-|]; [congruence|done]. }
  destruct ((_ != TASK_INVALID_ID) && _) eqn:E.
  - destruct Ho as (s2 & Ha & ->). destruct (Ht s2 Ha) as [Hr Hl2].
    bprop. destruct Hn as [[? _]|(Hv & _)]; [done|].
    assert (Hk2 : keeps_finished s1 s2) by (by eapply activate_keeps; [apply (si_len _ (bt_core _ _ _ Hb))|..]).
    eexists. split; [done|]. split; [done|]. split; [by eapply lives_on_trans|].
    intros j Hj Hf. by apply Hk2, Hkeep.
  - destruct Ht as [Hr Hl2]. eexists. split; [done|]. split; [done|]. split; [|done].
    by eapply lives_on_trans.
Qed.

(** One slice of the running task, whether it yields or exits. *)
Lemma slice_step e s ys :
  sched_inv s -> is_u32 e -> scheduler_running s = true -> script_ok ys ->
  let id := current_task_id s in
  let ys1 := if ys.[id] == 0 then ys else ys.[id <- ys.[id] - 1] in
  exists y, (if ys.[id] == 0 then lands (TaskContext id) (task_exit e s)
             else lands (TaskContext id) (task_yield e s)) = Some y /\
    script_ok ys1 /\ slice_result s (work s ys - 1) y ys1 /\
    lives_on s (snd y) /\ keeps_finished s (snd y).
Proof.
  intros Hinv He Hrun Hys. cbv zeta. set (id := current_task_id s).
  pose proof Hinv as [Hc Hr]. unfold run_inv in Hr. rewrite Hrun in Hr. destruct Hr as (_ & Hid & _ & Hu).
  assert (Hst : state_at s id = TASK_STATE_RUNNING) by (by apply Hu).
  pose proof (si_len _ Hc) as Hl. pose proof Hys as [Hyl Hy]. fold id in Hid.
  pose proof (Forall_aget _ ys id Hy ltac:(unfold valid_id in Hid; lia)) as Hy0. cbv beta in Hy0.
  assert (Hcost : slices_left (tasks s).[id] ys.[id] = ys.[id] + 1).
  { unfold slices_left. change (tcb_state (tasks s).[id]) with (state_at s id). by rewrite Hst. }
  destruct (Z.eqb_spec ys.[id] 0) as [E|E].
  - destruct (exit_cases e s Hinv Hrun) as (s2 & _ & _ & Hx). cbv zeta in Hx. fold id in Hx.
    set (s1 := set_finished _ (put_state id TASK_STATE_FINISHED s)) in *.
    assert (Hw : work s1 ys = work s ys - 1).
    { pose proof (work_put s ys id TASK_STATE_FINISHED ys.[id] Hl Hyl Hid) as Hw.
      rewrite aset_id, Hcost, E in Hw by (unfold valid_id in Hid; lia).
      change (work s1 ys) with (work (put_state id TASK_STATE_FINISHED s) ys). rewrite Hw.
      unfold slices_left. simpl. lia. }
    destruct (slice_finish s s1 TASK_STATE_FINISHED ys (lands (TaskContext id) (task_exit e s))
      (exit_between s Hinv Hrun) eq_refl Hys Hst (or_intror eq_refl)) as (y & Hy1 & Hres & Hk).
    { intros j Hj. by apply state_at_put. }
    { fold id. destruct ((_ != TASK_INVALID_ID) && _); destruct Hx as [-> Hx]; [|by rewrite Hx].
      destruct Hx as [_ Hx]. by exists s2. }
    exists y. rewrite Hw in Hres. by split.
  - destruct (yield_cases e s Hinv He Hrun) as (s2 & _ & _ & Hx). cbv zeta in Hx. fold id in Hx.
    set (s1 := put_state id TASK_STATE_READY s) in *.
    assert (Hys1 : script_ok ys.[id <- ys.[id] - 1]).
    { split; [by rewrite alen_aset|]. apply Forall_aset; [done|]. lia. }
    assert (Hw : work s1 ys.[id <- ys.[id] - 1] = work s ys - 1).
    { unfold s1. rewrite work_put, Hcost by done. unfold slices_left. simpl. lia. }
    destruct (slice_finish s s1 TASK_STATE_READY ys.[id <- ys.[id] - 1] (lands (TaskContext id) (task_yield e s))
      (yield_between s Hinv Hrun) eq_refl Hys1 Hst (or_introl eq_refl)) as (y & Hy1 & Hres & Hk).
    { intros j Hj. by apply state_at_put. }
    { fold id. destruct ((_ != TASK_INVALID_ID) && _); destruct Hx as [-> Hx]; [|by rewrite Hx].
      destruct Hx as [_ Hx]. exists s2. split; [done|].
      destruct (Z.eqb_spec (find_next_ready s1 id) id) as [->|]; done. }
    exists y. rewrite Hw in Hres. by split.
Qed.

(** Slices run until the budget or the work is used up. *)
Lemma run_slices_total fuel e s ys :
  sched_inv s -> is_u32 e -> scheduler_running s = true -> script_ok ys ->
  scheduler_initialized s = true -> 0 < work s ys -> remaining_dispatches s < Z.of_nat fuel ->
  exists s' ys', run_slices fuel e (TaskContext (current_task_id s), s) ys = Some (s', ys') /\
    sched_inv s' /\ scheduler_running s' = false /\ scheduler_initialized s' = true /\ script_ok ys' /\
    let n := Z.min (remaining_dispatches s + 1) (work s ys) in
    work s' ys' = work s ys - n /\ switch_count s' = u32 (switch_count s + (n - 1)) /\
    lives_on s s' /\ keeps_finished s s'.
Proof.
  revert s ys. induction fuel as [|fuel IH]; intros s ys Hinv He Hrun Hys Hin Hw Hf.
  { pose proof (si_budget _ (proj1 Hinv)). unfold is_u32 in *. lia. }
  destruct (slice_step e s ys Hinv He Hrun Hys) as ([c s1] & Hstep & Hys1 & Hres & Hlive & Hkeep).
  cbv zeta in *. cbn [run_slices fst snd]. set (id := current_task_id s) in *.
  set (ys1 := if ys.[id] == 0 then ys else ys.[id <- ys.[id] - 1]) in *.
  assert (Hgo : run_slices (S fuel) e (TaskContext id, s) ys = run_slices fuel e (c, s1) ys1).
  { cbn [run_slices fst snd]. unfold ys1. destruct (ys.[id] == 0); by rewrite Hstep. }
  cbn [run_slices fst snd] in Hgo. rewrite Hgo. clear Hgo Hstep.
  destruct Hres as ([Hinv1 Ho1] & Hw1 & Hin1 & Hcase). cbn [fst snd] in *.
  pose proof (si_budget _ (proj1 Hinv)) as Hb. unfold is_u32 in Hb.
  unfold owner in Ho1. destruct (scheduler_running s1) eqn:Er; subst c.
  - destruct Hcase as (Hr0 & Hr1 & Hsc & Hpos).
    destruct (IH s1 ys1 Hinv1 He Er Hys1 Hin1 ltac:(lia) ltac:(lia))
      as (s' & ys' & -> & Hi' & Hr' & Hin' & Hys' & Hw' & Hsc' & Hl' & Hk').
    exists s', ys'. repeat (split; [done|]). split; [lia|]. split; [|split].
    + rewrite Hsc', Hsc, Hr1, Hw1. unfold u32. rewrite Zplus_mod_idemp_l. f_equal. lia.
    + by eapply lives_on_trans.
    + intros j Hj Hfin. by apply Hk', Hkeep.
  - destruct Hcase as [Hsc Hend]. exists s1, ys1. destruct fuel; cbn [run_slices fst snd];
      (repeat (split; [done|]); split; [lia|]; split; [|done]; rewrite Hsc;
       replace (Z.min _ _ - 1) with 0 by lia; rewrite Z.add_0_r; symmetry; apply u32_small;
       apply (si_switches _ (proj1 Hinv))).
Qed.

(** ** Waiting *)

(** [waiting j x n y]: a sequence of steps from [x] to [y] with [n] dispatches
    in which task [j] stays ready. *)
Inductive waiting (j : Z) (x : cfg) : Z -> cfg -> Prop :=
| waiting_start : state_at (snd x) j = TASK_STATE_READY -> waiting j x 0 x
| waiting_step n y z :
    waiting j x n y -> sys_step y z -> state_at (snd z) j = TASK_STATE_READY ->
    waiting j x (n + u32 (switch_count (snd z) - switch_count (snd y))) z.

Lemma waiting_bound j x n y :
  valid_id j -> sys_inv x -> waiting j x n y ->
  sys_inv y /\ n + distance (round_robin_cursor (snd y)) j <= distance (round_robin_cursor (snd x)) j /\
  state_at (snd y) j = TASK_STATE_READY.
Proof.
  intros Hj Hx Hw. induction Hw as [Hr|n y z Hw IH Hs Hr]; [done|].
  destruct IH as (Hy & Hn & Hry). destruct (step_preserves y z Hy Hs) as [Hz Hp].
  split; [done|]. split; [|done]. pose proof (si_switches _ (proj1 (proj1 Hy))) as Hsw.
  destruct Hp as [Hsc Hcu|Hun|Hsc Hv Hrun Hmin].
  - rewrite Hsc, Hcu, Z.sub_diag. change (u32 0) with 0. lia.
  - rewrite Hun in Hr by done. done.
  - assert (Hd : u32 (switch_count (snd z) - switch_count (snd y)) = 1).
    { rewrite Hsc. unfold u32. rewrite Zminus_mod_idemp_l. unfold is_u32 in Hsw.
      by replace (switch_count (snd y) + 1 - switch_count (snd y)) with 1 by lia. }
    rewrite Hd. specialize (Hmin j Hj Hry).
    pose proof (distance_dispatch (round_robin_cursor (snd y)) (round_robin_cursor (snd z)) j
      (si_cursor _ (proj1 (proj1 Hy))) Hv Hj) as Hdd.
    assert (round_robin_cursor (snd z) <> j) by (intros Ej; rewrite Ej in Hrun; congruence).
    specialize (Hdd ltac:(done) Hmin). lia.
Qed.

Lemma static_inv : sys_inv (Bootstrap, sched_static).
Proof.
  split; [|done]. assert (Hu : forall j, valid_id j -> state_at sched_static j = TASK_STATE_UNUSED).
  { intros j Hj. unfold state_at. change (tasks sched_static) with (replicate (Z.to_nat TASK_MAX_TASKS) unused_task). by rewrite aget_replicate. }
  split; [split|]; try done.
  - by left.
  - intros j Hj. change (snd (Bootstrap, sched_static)) with sched_static. rewrite Hu by done. intros [|]; done.
  - split; [done|]. intros j Hj. by rewrite Hu.
Qed.

Lemma reachable_inv x : rtc sys_step (Bootstrap, sched_static) x -> sys_inv x.
Proof.
  intros Hr. assert (H : forall a b, rtc sys_step a b -> sys_inv a -> sys_inv b).
  { induction 1 as [|a b c Hs _ IH]; [done|]. intros Ha. apply IH. by eapply step_preserves. }
  eapply H; [exact Hr|apply static_inv].
Qed.

(** ** Stack frames *)

(** The six words a suspended context leaves on its stack. *)
Record frame_at (m : static_array) (sp : Z) (r : registers) : Prop := {
  fa_edi : load32 m sp = edi r;
  fa_esi : load32 m (sp + 4) = esi r;
  fa_ebx : load32 m (sp + 8) = ebx r;
  fa_ebp : load32 m (sp + 12) = ebp r;
  fa_eflags : load32 m (sp + 16) = r_eflags r;
  fa_eip : load32 m (sp + 20) = eip r;
}.

Definition FRAME_SIZE : Z := 24.

Lemma frame_ext m m' sp r :
  (forall x, sp <= x < sp + FRAME_SIZE -> zget m' x = zget m x) -> frame_at m sp r -> frame_at m' sp r.
Proof.
  unfold FRAME_SIZE. intros Hx [H1 H2 H3 H4 H5 H6].
  split; (rewrite (load32_ext m); [done|intros; apply Hx; lia]).
Qed.

(** A call of [task_context_switch] with room on the stack: the arguments are
    above the return address, and neither the caller's frame nor the slot
    overlaps what it reads. *)
Record switch_call (r : registers) (m : static_array) (slot new_sp flags : Z) : Prop := {
  sc_regs : is_u32 (edi r) /\ is_u32 (esi r) /\ is_u32 (ebx r) /\ is_u32 (ebp r);
  sc_esp : 20 <= esp r <= UINT32_MAX - 16;
  sc_slot : load32 m (esp r + 4) = slot;
  sc_new : load32 m (esp r + 8) = new_sp;
  sc_flags : load32 m (esp r + 12) = flags;
  sc_slot_free : slot + 4 <= esp r - 20 \/ esp r + 16 <= slot;
  sc_new_top : new_sp + FRAME_SIZE <= UINT32_MAX;
  sc_new_free : new_sp + FRAME_SIZE <= esp r - 20 \/ esp r <= new_sp;
  sc_new_slot : new_sp + FRAME_SIZE <= slot \/ slot + 4 <= new_sp;
}.

(** What is suspended: the callee-saved registers, the flags the scheduler
    captured before disabling interrupts, and the return address. *)
Definition suspended (r : registers) (m : static_array) (flags : Z) : registers :=
  mk_regs (edi r) (esi r) (ebx r) (ebp r) (esp r + 4) flags (load32 m (esp r)).

Lemma context_switch_spec r m slot new_sp flags r2 :
  switch_call r m slot new_sp flags -> frame_at m new_sp r2 -> esp r2 = new_sp + FRAME_SIZE ->
  exists m', task_context_switch r m = (r2, m') /\
    frame_at m' (esp r - 20) (suspended r m flags) /\ load32 m' slot = esp r - 20 /\
    forall x, ~ esp r - 20 <= x < esp r -> ~ slot <= x < slot + 4 -> zget m' x = zget m x.
Proof.
  intros [(R1 & R2 & R3 & R4) Hesp Hslot Hnew Hflags Hsf Hnt Hnf Hns] Hfr Hr2.
  unfold FRAME_SIZE, UINT32_MAX in *. pose proof (load32_range m (esp r + 12)) as Hfu. rewrite Hflags in Hfu.
  unfold task_context_switch, push_reg, push_word.
  assert (E1 : u32 (esp r - 4) = esp r - 4) by (apply u32_small; unfold is_u32; lia).
  assert (E2 : u32 (esp r - 4 - 4) = esp r - 8) by (rewrite u32_small by (unfold is_u32; lia); lia).
  assert (E3 : u32 (esp r - 8 - 4) = esp r - 12) by (rewrite u32_small by (unfold is_u32; lia); lia).
  assert (E4 : u32 (esp r - 12 - 4) = esp r - 16) by (rewrite u32_small by (unfold is_u32; lia); lia).
  assert (E5 : u32 (esp r - 16 - 4) = esp r - 20) by (rewrite u32_small by (unfold is_u32; lia); lia).
  rewrite E1, E2, E3, E4, E5, Hflags.
  set (m1 := store32 _ (esp r - 20) (edi r)).
  assert (Hm1 : forall x, ~ esp r - 20 <= x < esp r -> zget m1 x = zget m x).
  { intros x Hx. unfold m1. by rewrite !zget_store32_ne by lia. }
  assert (Hld : forall a, a + 4 <= esp r - 20 \/ esp r <= a -> load32 m1 a = load32 m a).
  { intros a Ha. apply load32_ext. intros x Hx. apply Hm1. lia. }
  replace (esp r - 20 + 24) with (esp r + 4) by lia. replace (esp r - 20 + 28) with (esp r + 8) by lia.
  rewrite (Hld (esp r + 4)), Hslot by lia.
  set (m2 := store32 m1 slot (esp r - 20)).
  assert (Hm2 : forall x, ~ esp r - 20 <= x < esp r -> ~ slot <= x < slot + 4 -> zget m2 x = zget m x).
  { intros x Hx Hx'. unfold m2. rewrite zget_store32_ne by lia. by apply Hm1. }
  assert (Hnew2 : load32 m2 (esp r + 8) = new_sp).
  { unfold m2. rewrite load32_store32_ne by lia. rewrite Hld by lia. done. }
  rewrite Hnew2. unfold pop_word.
  assert (Hfr2 : frame_at m2 new_sp r2).
  { eapply frame_ext; [|exact Hfr]. unfold FRAME_SIZE. intros x Hx. apply Hm2; lia. }
  pose proof (load32_range m (esp r + 8)) as Hnu. rewrite Hnew in Hnu. unfold is_u32 in Hnu.
  rewrite (u32_small (new_sp + 4)) by (unfold is_u32; lia).
  rewrite (u32_small (new_sp + 4 + 4)) by (unfold is_u32; lia).
  rewrite (u32_small (new_sp + 4 + 4 + 4)) by (unfold is_u32; lia).
  rewrite (u32_small (new_sp + 4 + 4 + 4 + 4)) by (unfold is_u32; lia).
  rewrite (u32_small (new_sp + 4 + 4 + 4 + 4 + 4)) by (unfold is_u32; lia).
  rewrite (u32_small (new_sp + 4 + 4 + 4 + 4 + 4 + 4)) by (unfold is_u32; lia).
  exists m2. split; [|split; [|split]].
  - destruct Hfr2 as [F1 F2 F3 F4 F5 F6].
    replace (new_sp + 4 + 4 + 4 + 4 + 4 + 4) with (esp r2) by lia.
    replace (new_sp + 4 + 4 + 4 + 4 + 4) with (new_sp + 20) by lia.
    replace (new_sp + 4 + 4 + 4 + 4) with (new_sp + 16) by lia.
    replace (new_sp + 4 + 4 + 4) with (new_sp + 12) by lia.
    replace (new_sp + 4 + 4) with (new_sp + 8) by lia.
    rewrite F1, F2, F3, F4, F5, F6. by destruct r2.
  - apply (frame_ext m1); [unfold FRAME_SIZE; intros x Hx; unfold m2; by rewrite zget_store32_ne by lia|].
    unfold m1, suspended. split; cbn [edi esi ebx ebp r_eflags eip].
    + apply load32_store32_eq. done.
    + replace (esp r - 20 + 4) with (esp r - 16) by lia. by autorewrite with mem.
    + replace (esp r - 20 + 8) with (esp r - 12) by lia. by autorewrite with mem.
    + replace (esp r - 20 + 12) with (esp r - 8) by lia. by autorewrite with mem.
    + replace (esp r - 20 + 16) with (esp r - 4) by lia. by autorewrite with mem.
    + replace (esp r - 20 + 20) with (esp r) by lia. by autorewrite with mem.
  - apply load32_store32_eq. unfold is_u32. lia.
  - exact Hm2.
Qed.

(** ** Properties *)

(** C18: in every state the kernel can reach through the task interface, the
    context that has the CPU is the one the scheduler records: the bootstrap
    outside a run, otherwise the current task, which is the only RUNNING one
    and the round-robin cursor; the finished count is the number of FINISHED
    slots.  A yield of that task never halts the machine: when the task itself
    is next it returns with the flags it was called with, and otherwise it
    switches, saving the stack pointer in the task's own slot and keeping the
    flags, to another task or to the bootstrap context; an exit switches in
    the same way.  The context switched to is the one then recorded, a task
    only if it is RUNNING, so never a finished one. *)
Theorem scheduler_invariant x e :
  rtc sys_step (Bootstrap, sched_static) x -> is_u32 e ->
  let s := snd x in
  sched_inv s /\ fst x = owner s /\
  (scheduler_running s = true ->
     (exists y, sys_inv y /\
        ((fst y = fst x /\ task_yield e s = Returns () e (snd y)) \/
         (fst y <> fst x /\ task_yield e s = Switches (fst x) (fst y) e (snd y)))) /\
     (exists y, sys_inv y /\ task_exit e s = Switches (fst x) (fst y) e (snd y))).
Proof.
  intros Hr He. cbv zeta. destruct x as [c s]. pose proof (reachable_inv _ Hr) as [Hinv Ho]. simpl in *.
  split; [done|]. split; [done|]. intros Hrun. unfold owner in Ho. rewrite Hrun in Ho. subst c. split.
  - destruct (yield_cases e s Hinv He Hrun) as (s2 & Hi2 & _ & Hy). cbv zeta in Hy.
    destruct ((_ != TASK_INVALID_ID) && _).
    + destruct Hy as (-> & Ho & _).
      destruct (Z.eqb_spec (find_next_ready (put_state (current_task_id s) TASK_STATE_READY s) (current_task_id s))
        (current_task_id s)) as [En|Hne].
      * exists (TaskContext (current_task_id s), s2). split; [split; [done|]; cbn [fst snd]; by rewrite Ho, En|]. by left.
      * eexists (TaskContext _, s2). split; [by split|]. right. split; [|done]. cbn [fst]. congruence.
    + destruct Hy as [-> Hs2]. exists (Bootstrap, s2). split; [split; [done|by rewrite Hs2]|]. by right.
  - destruct (exit_cases e s Hinv Hrun) as (s2 & Hi2 & _ & Hy). cbv zeta in Hy.
    destruct ((_ != TASK_INVALID_ID) && _).
    + destruct Hy as (-> & Ho & _). eexists (TaskContext _, s2). by split; [split|].
    + destruct Hy as [-> Hs2]. exists (Bootstrap, s2). split; [|done]. split; [done|]. by rewrite Hs2.
Qed.

Definition initialised : sched :=
  mk_sched (replicate (Z.to_nat TASK_MAX_TASKS) unused_task) 0 TASK_INVALID_ID TASK_INVALID_ID
    0 0 0 true false.

(** Two tasks created after [task_system_init]. *)
Definition two_tasks : sched :=
  set_tasks [mk_tcb TASK_STATE_READY 0x1000 1 0x103FE4; mk_tcb TASK_STATE_READY 0x2000 2 0x107FE4;
             unused_task; unused_task; unused_task; unused_task; unused_task; unused_task] initialised.

Lemma two_tasks_reachable : rtc sys_step (Bootstrap, sched_static) (Bootstrap, two_tasks).
Proof.
  eapply rtc_l; [apply (step_init _ _ 0 (Bootstrap, initialised)); reflexivity|].
  eapply rtc_l; [eapply (step_create _ _ 0x100000 7 8 0x1000 1 0 ∅); reflexivity|].
  eapply rtc_l; [eapply (step_create _ _ 0x100000 7 8 0x2000 2 0 ∅); reflexivity|].
  match goal with |- rtc _ ?x ?y => replace x with y; [apply rtc_refl|] end.
  vm_compute. reflexivity.
Qed.

Lemma scheduler_invariant_witness :
  exists y,
    let s := snd (activate_task 0 (set_running TASK_INVALID_ID true (set_budget 5 two_tasks))) in
    task_yield 0x202 s = Switches (TaskContext 0) (fst y) 0x202 (snd y) /\ fst y = TaskContext 1.
Proof.
  assert (Hr : rtc sys_step (Bootstrap, sched_static)
    (TaskContext 0, snd (activate_task 0 (set_running TASK_INVALID_ID true (set_budget 5 two_tasks))))).
  { eapply rtc_r; [exact two_tasks_reachable|].
    apply (step_run _ _ 5 0x202); [by split|by split|reflexivity]. }
  destruct (scheduler_invariant _ 0x202 Hr ltac:(by split)) as (_ & _ & Hrun).
  destruct (Hrun eq_refl) as [(y & _ & [[_ Hy]|[_ Hy]]) _]; [vm_compute in Hy; discriminate Hy|].
  exists y. split; [exact Hy|]. destruct y as [c s]. vm_compute in Hy. injection Hy as <- _. reflexivity.
Defined.

(** C19: bounded waiting: in any sequence of calls, by whatever contexts, from a
    reachable state, a task that stays READY is overtaken by at most seven
    dispatches of other tasks (more precisely by at most its distance from the
    round-robin cursor). *)
Theorem ready_task_bounded_wait j x n y :
  rtc sys_step (Bootstrap, sched_static) x -> valid_id j -> waiting j x n y ->
  n <= distance (round_robin_cursor (snd x)) j <= 7.
Proof.
  intros Hr Hj Hw. destruct (waiting_bound j x n y Hj (reachable_inv x Hr) Hw) as (_ & Hn & _).
  pose proof (distance_bounds (round_robin_cursor (snd x)) j).
  pose proof (distance_bounds (round_robin_cursor (snd y)) j). lia.
Qed.

Lemma ready_task_bounded_wait_witness :
  exists n y, waiting 1 (Bootstrap, two_tasks) n y /\ n = 1 /\
    n <= distance (round_robin_cursor two_tasks) 1 <= 7.
Proof.
  assert (Hw : waiting 1 (Bootstrap, two_tasks) 1
    (TaskContext 0, snd (activate_task 0 (set_running TASK_INVALID_ID true (set_budget 5 two_tasks))))).
  { refine (waiting_step 1 (Bootstrap, two_tasks) 0 (Bootstrap, two_tasks) (TaskContext 0,
      snd (activate_task 0 (set_running TASK_INVALID_ID true (set_budget 5 two_tasks)))) _ _ _).
    - constructor. reflexivity.
    - apply (step_run _ _ 5 0x202); [by split|by split|reflexivity].
    - reflexivity. }
  do 2 eexists. split; [exact Hw|]. split; [reflexivity|].
  exact (ready_task_bounded_wait 1 _ 1 _ two_tasks_reachable ltac:(by split) Hw).
Defined.

Lemma none_running s j :
  sched_inv s -> scheduler_running s = false -> valid_id j -> state_at s j <> TASK_STATE_RUNNING.
Proof. intros [_ Hri] Hrun. unfold run_inv in Hri. rewrite Hrun in Hri. by apply Hri. Qed.

(** Between runs a task is found ready exactly when work is left. *)
Lemma idle_verdict s ys :
  sched_inv s -> scheduler_running s = false -> script_ok ys ->
  (find_next_ready s (round_robin_cursor s) =? TASK_INVALID_ID) = (work s ys =? 0) /\
  (work s ys = 0 -> forall j, valid_id j -> state_at s j <> TASK_STATE_READY) /\
  (find_next_ready s (round_robin_cursor s) <> TASK_INVALID_ID ->
     valid_id (find_next_ready s (round_robin_cursor s)) /\
     state_at s (find_next_ready s (round_robin_cursor s)) = TASK_STATE_READY).
Proof.
  intros [Hc Hri] Hrun Hys. unfold run_inv in Hri. rewrite Hrun in Hri. destruct Hri as [_ Hidle].
  pose proof (find_next_ready_spec s _ (si_cursor _ Hc)) as Hn. cbv zeta in Hn.
  destruct (work_idle s ys (si_len _ Hc) Hys Hidle) as [Hw1 Hw2].
  destruct Hn as [[E Hn]|(Hv & Hst & _)].
  - rewrite E, (proj2 (Z.eqb_eq (work s ys) 0)), Z.eqb_refl by by apply Hw1. done.
  - assert (Hne : find_next_ready s (round_robin_cursor s) <> TASK_INVALID_ID)
      by (intros E; rewrite E in Hv; by destruct Hv).
    rewrite (proj2 (Z.eqb_neq _ TASK_INVALID_ID) Hne). split; [|done].
    symmetry. apply Z.eqb_neq. intros Hz. exact (Hw2 Hz _ Hv Hst).
Qed.

(** C10: a call of [task_run] from the bootstrap context comes back, whatever
    the budget, when every task yields finitely often: it dispatches exactly
    [min budget work] slices, where the work is the number of slices the ready
    tasks still need, it returns true exactly when the budget covers the work,
    and then every task that was ready has finished. *)
Theorem task_run_accounts budget e s ys :
  sched_inv s -> scheduler_initialized s = true -> scheduler_running s = false ->
  is_u32 budget -> is_u32 e -> script_ok ys ->
  exists s' ys', run_tasks budget e s ys = Some (work s ys <=? budget, s', ys') /\
    sched_inv s' /\ scheduler_running s' = false /\
    work s' ys' = work s ys - Z.min budget (work s ys) /\
    task_switch_count s' = u32 (task_switch_count s + Z.min budget (work s ys)) /\
    (work s ys <= budget -> forall j, valid_id j -> state_at s j = TASK_STATE_READY ->
       state_at s' j = TASK_STATE_FINISHED).
Proof.
  intros Hinv Hin Hrun Hb He Hys. pose proof (run_cases budget e s Hinv He Hb Hrun Hin) as Hr. cbv zeta in Hr.
  pose proof Hinv as [Hc _]. destruct (idle_verdict s ys Hinv Hrun Hys) as (Hverdict & Hnone & Hfound).
  pose proof (work_nonneg s ys Hys) as Hwn.
  pose proof (si_switches _ Hc) as Hsw. unfold is_u32 in Hb. unfold run_tasks, task_switch_count.
  rewrite Hverdict in Hr. destruct (Z.eqb_spec (work s ys) 0) as [Hz|Hpos].
  { rewrite Hr, Hz. exists s, ys.
    rewrite (proj2 (Z.leb_le 0 budget)), Z.min_r, Z.add_0_r, u32_small by (done || lia).
    repeat (split; [done|]). intros _ j Hj Hjr. by apply Hnone in Hjr. }
  apply Z.eqb_neq in Hverdict. destruct (Hfound Hverdict) as [Hv Hst].
  destruct (Z.eqb_spec budget 0) as [->|Hb0].
  { rewrite Hr. exists s, ys. rewrite (proj2 (Z.leb_gt _ 0)), Z.min_l, Z.add_0_r, u32_small by (done || lia).
    repeat (split; [done || lia|]). lia. }
  destruct Hr as (s2 & Hi2 & _ & Ho & -> & Ha).
  set (s1 := set_running TASK_INVALID_ID true (set_budget budget s)) in *.
  assert (Hc1 : core_inv s1) by (destruct Hc; by split).
  destruct (activate_spec s1 _ Hc1 Hv Hst) as (s2' & Ha' & _ & Hrun2 & Hcur2 & Hcu2 & Hrem & Hsc & Hts); try done.
  { intros j. by apply (none_running s). }
  assert (s2' = s2) as -> by congruence.
  destruct (work_activate s1 s2 ys _ (si_len _ Hc1) Hys Hv Hst Hts) as [Hwork Hlv].
  change (work s1 ys) with (work s ys) in Hwork.
  destruct (run_slices_total (Z.to_nat budget) e s2 ys Hi2 He Hrun2 Hys) as (s' & ys' & Hgo & Hi' & Hr' & Hin' & Hys' & Hw' & Hsc' & Hl' & Hk').
  { destruct Hi2 as [_ Hr2]. unfold run_inv in Hr2. rewrite Hrun2 in Hr2. apply Hr2. }
  { lia. } { rewrite Hrem. simpl. lia. }
  rewrite Hcur2 in Hgo. rewrite Hgo. cbn [mbind option_bind].
  unfold task_run_resumed, interrupt_state_save_and_disable. rewrite Hrem in Hw', Hsc'. simpl in Hw', Hsc'.
  rewrite Hwork in Hw', Hsc'. replace (budget - 1 + 1) with budget in Hw', Hsc' by lia.
  destruct (idle_verdict s' ys' Hi' Hr' Hys') as (Hverdict' & Hnone' & _).
  exists s', ys'. split; [|split; [done|split; [done|split; [done|split]]]].
  - rewrite Hverdict'. do 3 f_equal. apply eq_true_iff_eq. rewrite Z.eqb_eq, Z.leb_le. lia.
  - rewrite Hsc', Hsc. unfold u32. rewrite Zplus_mod_idemp_l. f_equal. simpl. lia.
  - intros Hle j Hj Hjr. pose proof (activated_live s1 s2 _ j (si_len _ Hc1) Hv Hts Hj (or_introl Hjr)) as Hlive.
    destruct (Hl' j Hj Hlive) as [[Hx|Hx]|Hx]; [|by apply (none_running s' j Hi' Hr') in Hx|done].
    exfalso. exact (Hnone' ltac:(lia) _ Hj Hx).
Qed.

Lemma two_tasks_inv : sched_inv two_tasks.
Proof. exact (proj1 (reachable_inv _ two_tasks_reachable)). Qed.

Lemma task_run_accounts_witness :
  exists s' ys', run_tasks 10 0x202 two_tasks [2; 0; 0; 0; 0; 0; 0; 0] = Some (true, s', ys') /\
    task_switch_count s' = 4 /\ state_at s' 0 = TASK_STATE_FINISHED /\ state_at s' 1 = TASK_STATE_FINISHED.
Proof.
  destruct (task_run_accounts 10 0x202 two_tasks [2; 0; 0; 0; 0; 0; 0; 0] two_tasks_inv eq_refl eq_refl
    ltac:(by split) ltac:(by split)) as (s' & ys' & Hr & _ & _ & _ & Hsc & Hfin).
  { split; [reflexivity|]. apply (bool_decide_unpack _). vm_compute. exact I. }
  exists s', ys'. split; [exact Hr|]. split; [exact Hsc|].
  split; (apply Hfin; [vm_compute; discriminate|by split|reflexivity]).
Defined.

(** C21: the context switch is a round trip: when a context has been switched
    out, and its slot and the part of its stack from the saved frame to its
    return address are as they were left, switching back to the stack pointer
    in its slot, from any other context, resumes it with its callee-saved
    registers, its return address, its stack pointer behind that address and
    the EFLAGS captured before interrupts were disabled. *)
Theorem context_switch_roundtrip r1 m1 slot1 new1 flags1 r2 m2 r3 m3 slot3 flags3 :
  switch_call r1 m1 slot1 new1 flags1 -> frame_at m1 new1 r2 -> esp r2 = new1 + FRAME_SIZE ->
  task_context_switch r1 m1 = (r2, m2) ->
  (forall x, slot1 <= x < slot1 + 4 \/ esp r1 - 20 <= x < esp r1 + 4 -> zget m3 x = zget m2 x) ->
  switch_call r3 m3 slot3 (load32 m3 slot1) flags3 ->
  exists m4, task_context_switch r3 m3 = (suspended r1 m1 flags1, m4).
Proof.
  intros H1 Hf2 He2 Hs1 Hkeep H3.
  destruct (context_switch_spec r1 m1 slot1 new1 flags1 r2 H1 Hf2 He2) as (m2' & Hs1' & Hf1 & Hslot & _).
  assert (m2' = m2) as -> by congruence.
  assert (Hl : load32 m3 slot1 = esp r1 - 20).
  { rewrite <-Hslot. apply load32_ext. intros x Hx. apply Hkeep. lia. }
  rewrite Hl in H3.
  destruct (context_switch_spec r3 m3 slot3 (esp r1 - 20) flags3 (suspended r1 m1 flags1) H3) as (m4 & Hs3 & _).
  - eapply frame_ext; [|exact Hf1]. unfold FRAME_SIZE. intros x Hx. apply Hkeep. lia.
  - unfold suspended, FRAME_SIZE. simpl. lia.
  - by exists m4.
Qed.

Definition demo_call (m : static_array) (esp ret slot new_sp flags : Z) : static_array :=
  store32 (store32 (store32 (store32 m esp ret) (esp + 4) slot) (esp + 8) new_sp) (esp + 12) flags.

Lemma context_switch_roundtrip_witness :
  let r1 := mk_regs 1 2 3 4 0x8000 0 0 in
  let m1 := demo_call ∅ 0x8000 0xCAFE 0x100 0x4000 0x202 in
  let m2 := snd (task_context_switch r1 m1) in
  let r3 := mk_regs 9 9 9 9 0x3F00 0 0 in
  let m3 := demo_call m2 0x3F00 0xBEEF 0x104 (load32 m2 0x100) 0x46 in
  fst (task_context_switch r3 m3) = mk_regs 1 2 3 4 0x8004 0x202 0xCAFE.
Proof.
  cbv zeta. set (r1 := mk_regs 1 2 3 4 0x8000 0 0).
  set (m1 := demo_call ∅ 0x8000 0xCAFE 0x100 0x4000 0x202).
  set (r3 := mk_regs 9 9 9 9 0x3F00 0 0).
  set (m3 := demo_call _ 0x3F00 _ _ _ _).
  destruct (context_switch_roundtrip r1 m1 0x100 0x4000 0x202 (mk_regs 0 0 0 0 0x4018 0 0)
    (snd (task_context_switch r1 m1)) r3 m3 0x104 0x46) as [m4 H4].
  - split; try reflexivity; vm_compute; intuition congruence.
  - split; reflexivity.
  - reflexivity.
  - reflexivity.
  - intros x Hx. unfold m3, demo_call. rewrite !zget_store32_ne; [reflexivity|simpl in Hx; lia..].
  - split; try reflexivity; vm_compute; intuition congruence.
  - rewrite H4. reflexivity.
Defined.

(** Where the linker may put the stacks, and the two code addresses. *)
Class StackPlacement (task_stacks task_exit_address task_trampoline_address : Z) : Prop := {
  stacks_positive : 0 < task_stacks;
  stacks_aligned : task_stacks mod 16 = 0;
  stacks_fit : task_stacks + TASK_MAX_TASKS * TASK_STACK_SIZE <= UINT32_MAX;
  code_addresses : is_u32 task_exit_address /\ is_u32 task_trampoline_address;
}.

Definition unsafe_flag (i : Z) : bool := (i == 8) || (i == 10) || (i == 14) || (i == 17).

Lemma initial_eflags_bits f i :
  is_u32 f -> 0 <= i < 32 ->
  Z.testbit (initial_task_eflags f) i = if unsafe_flag i then false else (i == 1) || Z.testbit f i.
Proof.
  intros Hf Hi. unfold initial_task_eflags, EFLAGS_RESERVED. rewrite Z.land_spec, testbit_set by lia.
  assert (Hm : Z.testbit (not32 (EFLAGS_TRAP .| EFLAGS_DIRECTION .| EFLAGS_NESTED_TASK .| EFLAGS_VIRTUAL_8086)) i
    = negb (unsafe_flag i)).
  { apply eqb_prop. revert i Hi. apply all_range_true. vm_compute. reflexivity. }
  rewrite Hm. destruct (unsafe_flag i); cbn [negb]; [by rewrite andb_false_r|].
  rewrite andb_true_r, orb_comm. f_equal. apply Z.eqb_sym.
Qed.

Lemma initial_eflags_range f : is_u32 f -> is_u32 (initial_task_eflags f).
Proof.
  intros Hf. unfold initial_task_eflags. apply land_u32; [|vm_compute; discriminate].
  unfold EFLAGS_RESERVED. apply set_bit_u32; [done|lia].
Qed.

Section FreshStack.
Context (task_stacks task_exit_address task_trampoline_address : Z).
Context {Hpl : StackPlacement task_stacks task_exit_address task_trampoline_address}.

Definition stack_top (id : Z) : Z := stack_base task_stacks id + TASK_STACK_SIZE.

Lemma prepare_stack_spec id flags s m :
  valid_id id -> alen (tasks s) = TASK_MAX_TASKS -> is_u32 flags ->
  exists s' m', prepare_initial_stack task_stacks task_exit_address task_trampoline_address id flags s m
      = (s', m') /\
    tasks s' = (tasks s).[id <- mk_tcb (state_at s id) (tcb_entry (tasks s).[id])
                                (tcb_argument (tasks s).[id]) (stack_top id - 28)] /\
    frame_at m' (stack_top id - 28)
      (mk_regs 0 0 0 0 (stack_top id - 4) (initial_task_eflags flags) task_trampoline_address) /\
    load32 m' (stack_top id - 4) = task_exit_address /\ stack_top id mod 16 = 0 /\
    (forall x, ~ stack_top id - 28 <= x < stack_top id -> zget m' x = zget m x).
Proof using Hpl.
  intros Hid Hl Hf. destruct Hpl as [P1 P2 P3 [P4 P5]].
  pose proof (initial_eflags_range flags Hf) as Hef.
  unfold valid_id, TASK_MAX_TASKS, TASK_STACK_SIZE, UINT32_MAX in *.
  assert (Htop : stack_top id = task_stacks + id * 16384 + 16384) by done.
  assert (Hmod : stack_top id mod 16 = 0)
    by (rewrite Htop; clear -P2; Z.to_euclidean_division_equations; lia).
  unfold prepare_initial_stack. fold (stack_top id). change (stack_base task_stacks id + TASK_STACK_SIZE) with (stack_top id).
  rewrite (u32_small (stack_top id)) by (unfold is_u32; lia).
  change 0x0F with 15. rewrite land_not32_15 by (unfold is_u32; lia).
  assert (Hal : 16 * (stack_top id / 16) = stack_top id)
    by (clear -Hmod; Z.to_euclidean_division_equations; lia).
  rewrite Hal. set (t := stack_top id) in *. clearbody t. unfold push_word.
  assert (E1 : u32 (t - 4) = t - 4) by (apply u32_small; unfold is_u32; lia).
  assert (E2 : u32 (t - 4 - 4) = t - 8) by (rewrite u32_small by (unfold is_u32; lia); lia).
  assert (E3 : u32 (t - 8 - 4) = t - 12) by (rewrite u32_small by (unfold is_u32; lia); lia).
  assert (E4 : u32 (t - 12 - 4) = t - 16) by (rewrite u32_small by (unfold is_u32; lia); lia).
  assert (E5 : u32 (t - 16 - 4) = t - 20) by (rewrite u32_small by (unfold is_u32; lia); lia).
  assert (E6 : u32 (t - 20 - 4) = t - 24) by (rewrite u32_small by (unfold is_u32; lia); lia).
  assert (E7 : u32 (t - 24 - 4) = t - 28) by (rewrite u32_small by (unfold is_u32; lia); lia).
  rewrite E1, E2, E3, E4, E5, E6, E7. do 2 eexists. split; [reflexivity|]. split; [done|].
  split; [|split; [|split; [done|]]].
  - split; cbn [edi esi ebx ebp r_eflags eip].
    + apply load32_store32_eq. done.
    + replace (t - 28 + 4) with (t - 24) by lia. by autorewrite with mem.
    + replace (t - 28 + 8) with (t - 20) by lia. by autorewrite with mem.
    + replace (t - 28 + 12) with (t - 16) by lia. by autorewrite with mem.
    + replace (t - 28 + 16) with (t - 12) by lia. by autorewrite with mem.
    + replace (t - 28 + 20) with (t - 8) by lia. by autorewrite with mem.
  - by autorewrite with mem.
  - intros x Hx. by rewrite !zget_store32_ne by lia.
Qed.
End FreshStack.

(** A created task starts as the comment in the source says: after a
    successful [task_create], a context switch to the new task's stack pointer
    enters the trampoline with [task_exit] as return address, ESP equal to 12
    modulo 16, zero callee-saved registers, and EFLAGS those of the creator
    with the trap, direction, nested-task and virtual-8086 flags clear and the
    reserved bit set; creation writes only inside the new task's own stack. *)
Theorem created_task_entry stacks ex tr `{!StackPlacement stacks ex tr} entry arg e s m id e' s' m' :
  sched_inv s -> is_u32 e ->
  task_create stacks ex tr entry arg e s m = (Returns id e' s', m') -> id <> TASK_INVALID_ID ->
  let top := stack_top stacks id in
  let sp := tcb_stack_pointer (tasks s').[id] in
  valid_id id /\ state_at s id = TASK_STATE_UNUSED /\ state_at s' id = TASK_STATE_READY /\ e' = e /\
  (forall x, ~ top - 28 <= x < top -> zget m' x = zget m x) /\
  (forall r slot flags, switch_call r m' slot sp flags ->
     exists m2, task_context_switch r m' =
       (mk_regs 0 0 0 0 (top - 4) (initial_task_eflags e) tr, m2)) /\
  load32 m' (top - 4) = ex /\ (top - 4) mod 16 = 12 /\
  (forall i, 0 <= i < 32 -> Z.testbit (initial_task_eflags e) i =
     if unsafe_flag i then false else (i == 1) || Z.testbit e i).
Proof.
  intros [Hc _] He Hcr Hne. cbv zeta. unfold task_create, interrupt_state_save_and_disable in Hcr.
  rewrite eflags_roundtrip in Hcr by done. pose proof (si_len _ Hc) as Hl.
  destruct (_ || _ || _) in Hcr; [congruence|].
  destruct (find_range _ _ _) as [k|] eqn:Ef; [|congruence].
  apply find_range_Some in Ef as (Hid & Hun & _). apply bool_decide_eq_true in Hun.
  set (s0 := set_tasks (tasks s).[k <- _] s) in Hcr.
  destruct (prepare_stack_spec stacks ex tr k e s0 m Hid) as (s1 & m1 & Hp & Hts & Hfr & Hex & Hmod & Hout);
    [unfold s0; simpl; by rewrite alen_aset|done|].
  rewrite Hp in Hcr. injection Hcr as <- <- <- <-. unfold TASK_MAX_TASKS in *.
  assert (Hst0 : alen (tasks s0) = 8) by (unfold s0; simpl; by rewrite alen_aset).
  assert (Hl1 : alen (tasks s1) = 8) by (rewrite Hts, alen_aset; done).
  assert (Hsp : tcb_stack_pointer (tasks (put_state k TASK_STATE_READY s1)).[k] = stack_top stacks k - 28).
  { unfold put_state. simpl. rewrite aget_aset_eq by lia. simpl. rewrite Hts, aget_aset_eq by lia. done. }
  rewrite Hsp. split; [done|]. split; [done|].
  split; [rewrite state_at_put, Z.eqb_refl by done; done|].
  split; [done|]. split; [done|]. split.
  - intros r slot flags Hcall.
    destruct (context_switch_spec r m1 slot _ flags _ Hcall Hfr) as (m2 & Hs & _).
    { unfold FRAME_SIZE. simpl. lia. }
    by exists m2.
  - split; [done|]. split; [|intros i Hi; by apply initial_eflags_bits].
    clear -Hmod. Z.to_euclidean_division_equations. lia.
Qed.

#[export] Instance demo_stacks : StackPlacement 0x100000 7 8.
Proof. split; [done..|by split]. Qed.

Definition returned_id (o : outcome Z) : Z :=
  match o with
  | Returns id _ _ => id
  | _ => TASK_INVALID_ID
  end.

Lemma initialised_inv : sched_inv initialised.
Proof.
  destruct (init_inv 0 sched_static eq_refl eq_refl) as (e0 & s0 & Hi & Hinv & _).
  injection Hi as _ <-. exact Hinv.
Qed.

Lemma created_task_entry_witness :
  exists e' s' m', task_create 0x100000 7 8 0x1000 1 0x646 initialised ∅ = (Returns 0 e' s', m') /\
    load32 m' 0x103FFC = 7 /\ e' = 0x646.
Proof.
  destruct (create_inv 0x100000 7 8 0x1000 1 0x646 initialised ∅ initialised_inv)
    as (id & e' & s' & m' & E & _).
  assert (Hid : returned_id (fst (task_create 0x100000 7 8 0x1000 1 0x646 initialised ∅)) = 0)
    by reflexivity.
  rewrite E in Hid. cbn [returned_id fst] in Hid. subst id.
  destruct (created_task_entry 0x100000 7 8 0x1000 1 0x646 initialised ∅ 0 e' s' m' initialised_inv
    ltac:(by split) E ltac:(discriminate)) as (_ & _ & _ & He & _ & _ & Hex & _).
  exists e', s', m'. split; [exact E|]. split; [exact Hex|exact He].
Defined.
