(* ===== verification/Ring.v ===== *)
(** * Ring buffers with free-running sequence numbers

    Both the IPC endpoints (src/kernel/ipc/ipc.c) and the keyboard queue
    (src/kernel/arch/x86/keyboard.c) keep a power-of-two array and two
    [uint32_t] sequence numbers that only ever increase, modulo [2^32].  This
    file holds the arithmetic the two share, and the interface [BoundedFifo]
    that states what such a queue promises to its clients. *)
From S2P Require Import Prelude.

Section Ring.
Context `{Inhabited A} (C : Z).
Hypothesis C_pos : 0 < C.
Hypothesis C_small : C < 4294967296.
Hypothesis C_divides : (C | 4294967296).
Implicit Types (buf : list A) (rd wr : Z).

(** [(uint32_t)(write - read)], the number of queued elements. *)
Definition ring_len (rd wr : Z) : Z := u32 (wr - rd).

(** The queued elements, oldest first. *)
Definition ring_contents (buf : list A) (rd wr : Z) : list A :=
  (fun k => buf.[(rd + k) mod C]) <$> seqZ 0 (ring_len rd wr).

Lemma ring_index_range z : 0 <= z mod C < C.
Proof. apply Z.mod_pos_bound. lia. Qed.

Lemma ring_wrap_mod z : u32 z mod C = z mod C.
Proof. unfold u32. by apply Z.mod_mod_divide. Qed.

Lemma ring_write_index rd wr : wr mod C = (rd + ring_len rd wr) mod C.
Proof.
  unfold ring_len. rewrite Z.add_mod, ring_wrap_mod, <-Z.add_mod by lia. f_equal. lia.
Qed.

Lemma ring_len_nonneg rd wr : 0 <= ring_len rd wr.
Proof. apply u32_range. Qed.

Lemma ring_len_zero rd wr : is_u32 rd -> is_u32 wr -> (ring_len rd wr = 0 <-> rd = wr).
Proof using. clear C_pos C_small C_divides. unfold ring_len. wrap_lia. Qed.

Lemma ring_len_push rd wr :
  ring_len rd wr < C -> ring_len rd (u32 (wr + 1)) = ring_len rd wr + 1.
Proof using C_small. clear C_pos C_divides. unfold ring_len. intros. wrap_lia. Qed.

Lemma ring_len_pop rd wr :
  ring_len rd wr <> 0 -> ring_len (u32 (rd + 1)) wr = ring_len rd wr - 1.
Proof using. clear C_pos C_small C_divides. unfold ring_len. intros. wrap_lia. Qed.

Lemma alen_ring_contents buf rd wr : alen (ring_contents buf rd wr) = ring_len rd wr.
Proof.
  unfold ring_contents, alen. rewrite length_fmap, length_seqZ.
  pose proof (ring_len_nonneg rd wr). lia.
Qed.

(** Distinct queue positions are distinct slots while fewer than [C] apart. *)
Lemma ring_slots_distinct z i j : 0 <= i < j -> j - i < C -> (z + i) mod C <> (z + j) mod C.
Proof.
  intros Hij HC Heq. assert (Hd : (j - i) mod C = 0).
  { replace (j - i) with ((z + j) - (z + i)) by lia.
    rewrite Zminus_mod, Heq, Z.sub_diag. apply Z.mod_0_l. lia. }
  rewrite Z.mod_small in Hd by lia. lia.
Qed.

Lemma ring_push buf rd wr x :
  alen buf = C -> ring_len rd wr < C ->
  ring_contents buf.[wr mod C <- x] rd (u32 (wr + 1)) = ring_contents buf rd wr ++ [x].
Proof.
  intros Hb Hlt. unfold ring_contents. rewrite ring_len_push by done.
  pose proof (ring_len_nonneg rd wr). rewrite seqZ_app, fmap_app by lia. f_equal.
  - apply list_fmap_ext. intros k z Hz. apply lookup_seqZ in Hz as [-> Hk].
    rewrite (ring_write_index rd wr). apply aget_aset_ne; [apply ring_index_range..|].
    intros Heq. symmetry in Heq. revert Heq. apply ring_slots_distinct; lia.
  - simpl. rewrite Z.add_0_l. f_equal. rewrite (ring_write_index rd wr).
    apply aget_aset_eq. rewrite Hb. apply ring_index_range.
Qed.

Lemma ring_pop buf rd wr :
  ring_len rd wr <> 0 ->
  ring_contents buf rd wr = buf.[rd mod C] :: ring_contents buf (u32 (rd + 1)) wr.
Proof.
  intros Hne. unfold ring_contents. rewrite ring_len_pop by done.
  pose proof (ring_len_nonneg rd wr).
  rewrite (seqZ_cons 0) by lia. simpl. rewrite Z.add_0_r. f_equal.
  change (Z.succ 0) with (1 + 0). rewrite <-(fmap_add_seqZ 1).
  rewrite <-list_fmap_compose. replace (Z.pred (ring_len rd wr)) with (ring_len rd wr - 1) by lia.
  apply list_fmap_ext. intros k z _. simpl. f_equal.
  rewrite (Z.add_mod (u32 _)), ring_wrap_mod, <-Z.add_mod by lia. f_equal. lia.
Qed.

Lemma ring_empty buf rd : ring_contents buf rd rd = [].
Proof. unfold ring_contents, ring_len. by rewrite Z.sub_diag. Qed.
End Ring.

(** ** The interface: a bounded first-in first-out queue

    [fifo_put] refuses exactly when the queue is full, otherwise it appends
    what it stores of the element; [fifo_get] takes the oldest element. *)

Class BoundedFifo (Q A : Type) := {
  fifo_inv : Q -> Prop;
  fifo_view : Q -> list A;
  fifo_capacity : Z;
  fifo_stored : A -> A;
  fifo_put : A -> Q -> bool * Q;
  fifo_get : Q -> option A * Q;
  fifo_put_ok : forall x q, fifo_inv q ->
    let '(ok, q') := fifo_put x q in
    fifo_inv q' /\ ok = (alen (fifo_view q) <? fifo_capacity) /\
    fifo_view q' = if ok then fifo_view q ++ [fifo_stored x] else fifo_view q;
  fifo_get_ok : forall q, fifo_inv q ->
    let '(r, q') := fifo_get q in
    fifo_inv q' /\ r = head (fifo_view q) /\ fifo_view q' = tail (fifo_view q);
  fifo_bounded : forall q, fifo_inv q -> alen (fifo_view q) <= fifo_capacity;
}.

(** ** What any client of the interface may rely on

    A run is a sequence of puts and gets in any order. *)

Section Client.
Context `{BoundedFifo Q A}.

Inductive fifo_action := Put (x : A) | Get.

(** The elements accepted and the elements delivered by a run, in order. *)
Fixpoint fifo_run (acts : list fifo_action) (q : Q) : list A * list A * Q :=
  match acts with
  | [] => ([], [], q)
  | Put x :: acts' =>
      let '(ok, q1) := fifo_put x q in
      let '(accepted, delivered, q2) := fifo_run acts' q1 in
      (if ok then fifo_stored x :: accepted else accepted, delivered, q2)
  | Get :: acts' =>
      let '(r, q1) := fifo_get q in
      let '(accepted, delivered, q2) := fifo_run acts' q1 in
      (accepted, from_option (fun x => x :: delivered) delivered r, q2)
  end.

(** No element is lost, duplicated or reordered. *)
Lemma fifo_run_order acts q :
  fifo_inv q ->
  let '(accepted, delivered, q') := fifo_run acts q in
  fifo_inv q' /\ fifo_view q ++ accepted = delivered ++ fifo_view q'.
Proof.
  revert q. induction acts as [|[x|] acts IH]; intros q Hq; simpl.
  - by rewrite app_nil_r.
  - pose proof (fifo_put_ok x q Hq) as Hput. destruct (fifo_put x q) as [ok q1].
    destruct Hput as (Hq1 & _ & Hv). specialize (IH q1 Hq1).
    destruct (fifo_run acts q1) as [[acc del] q2]. destruct IH as [Hq2 IH].
    split; [done|]. rewrite <-IH, Hv. destruct ok; [by rewrite <-app_assoc|done].
  - pose proof (fifo_get_ok q Hq) as Hget. destruct (fifo_get q) as [r q1].
    destruct Hget as (Hq1 & -> & Hv). specialize (IH q1 Hq1).
    destruct (fifo_run acts q1) as [[acc del] q2]. destruct IH as [Hq2 IH].
    split; [done|]. rewrite Hv in IH. destruct (fifo_view q) as [|x l]; simpl in *; [done|].
    by rewrite IH.
Qed.
End Client.
Arguments fifo_action : clear implicits.
