(* ===== verification/Ipc.v ===== *)
(** * Message passing (src/kernel/ipc/ipc.c)

    Eight static endpoints, each a ring of eight message slots addressed by
    free-running 32-bit sequence numbers.  A C pointer argument that may be
    NULL is an [option]; an output structure is passed in with its previous
    contents and returned. *)
From S2P Require Import Prelude Ring.

Definition IPC_MAX_ENDPOINTS : Z := 8.
Definition IPC_QUEUE_DEPTH : Z := 8.
Definition IPC_PAYLOAD_MAX : Z := 32.
Definition IPC_INVALID_ENDPOINT : Z := UINT32_MAX.

Record ipc_message := mk_msg {
  msg_sender : Z;
  msg_type : Z;
  msg_length : Z;
  msg_payload : list Z;
}.

Record ipc_endpoint_state := mk_ep {
  ep_allocated : bool;
  ep_read_sequence : Z;
  ep_write_sequence : Z;
  ep_rejected_messages : Z;
  ep_queue : list ipc_message;
}.

(** The static [endpoints] array. *)
Abbreviation ipc := (list ipc_endpoint_state).

Definition zero_message : ipc_message := mk_msg 0 0 0 (replicate (Z.to_nat IPC_PAYLOAD_MAX) 0).
#[export] Instance ipc_message_inhabited : Inhabited ipc_message := populate zero_message.

Definition zero_endpoint : ipc_endpoint_state :=
  mk_ep false 0 0 0 (replicate (Z.to_nat IPC_QUEUE_DEPTH) zero_message).
#[export] Instance ipc_endpoint_inhabited : Inhabited ipc_endpoint_state := populate zero_endpoint.

(** The zero-initialised statics. *)
Definition ipc_static : ipc := replicate (Z.to_nat IPC_MAX_ENDPOINTS) zero_endpoint.

(** ** Operations *)

Definition message_clear (m : ipc_message) : ipc_message :=
  mk_msg 0 0 0 (fill_range 0 IPC_PAYLOAD_MAX (fun _ => 0) (msg_payload m)).

Definition endpoint_is_valid (s : ipc) (endpoint : Z) : bool :=
  (endpoint <? IPC_MAX_ENDPOINTS) && ep_allocated s.[endpoint].

Definition ipc_init (s : ipc) : ipc :=
  for_range 0 IPC_MAX_ENDPOINTS (fun endpoint s =>
    let state := s.[endpoint] in
    let queue := for_range 0 IPC_QUEUE_DEPTH
                   (fun slot q => q.[slot <- message_clear q.[slot]]) (ep_queue state) in
    s.[endpoint <- mk_ep false 0 0 0 queue]) s.

Definition ipc_endpoint_create (s : ipc) : Z * ipc :=
  match find_range 0 IPC_MAX_ENDPOINTS (fun e => negb (ep_allocated s.[e])) with
  | Some endpoint =>
      (endpoint, s.[endpoint <- mk_ep true 0 0 0 (ep_queue s.[endpoint])])
  | None => (IPC_INVALID_ENDPOINT, s)
  end.

(** The part of [ipc_send] after the endpoint and length checks. *)
Definition endpoint_send (message : ipc_message) (state : ipc_endpoint_state)
  : bool * ipc_endpoint_state :=
  if u32 (ep_write_sequence state - ep_read_sequence state) >=? IPC_QUEUE_DEPTH then
    (false, mk_ep (ep_allocated state) (ep_read_sequence state) (ep_write_sequence state)
              (u32 (ep_rejected_messages state + 1)) (ep_queue state))
  else
    let slot := ep_write_sequence state mod IPC_QUEUE_DEPTH in
    let destination := (ep_queue state).[slot] in
    let payload := fill_range 0 IPC_PAYLOAD_MAX
      (fun index => if index <? msg_length message then (msg_payload message).[index] else 0)
      (msg_payload destination) in
    let destination :=
      mk_msg (msg_sender message) (msg_type message) (msg_length message) payload in
    (true, mk_ep (ep_allocated state) (ep_read_sequence state)
             (u32 (ep_write_sequence state + 1)) (ep_rejected_messages state)
             (ep_queue state).[slot <- destination]).

Definition ipc_send (endpoint : Z) (message : option ipc_message) (s : ipc) : bool * ipc :=
  match message with
  | None => (false, s)
  | Some message =>
      if negb (endpoint_is_valid s endpoint) || (msg_length message >? IPC_PAYLOAD_MAX)
      then (false, s)
      else let '(ok, state) := endpoint_send message s.[endpoint] in
           (ok, s.[endpoint <- state])
  end.

(** The part of [ipc_receive] after the endpoint and pointer checks; the
    message is the copied-out contents. *)
Definition endpoint_receive (message : ipc_message) (state : ipc_endpoint_state)
  : bool * ipc_message * ipc_endpoint_state :=
  if ep_read_sequence state == ep_write_sequence state then (false, message, state)
  else
    let source := (ep_queue state).[ep_read_sequence state mod IPC_QUEUE_DEPTH] in
    let payload := fill_range 0 IPC_PAYLOAD_MAX
      (fun index => (msg_payload source).[index]) (msg_payload message) in
    (true, mk_msg (msg_sender source) (msg_type source) (msg_length source) payload,
     mk_ep (ep_allocated state) (u32 (ep_read_sequence state + 1))
       (ep_write_sequence state) (ep_rejected_messages state) (ep_queue state)).

Definition ipc_receive (endpoint : Z) (message : option ipc_message) (s : ipc)
  : bool * option ipc_message * ipc :=
  match message with
  | None => (false, None, s)
  | Some out =>
      if negb (endpoint_is_valid s endpoint) then (false, Some out, s)
      else let '(ok, out, state) := endpoint_receive out s.[endpoint] in
           (ok, Some out, if ok then s.[endpoint <- state] else s)
  end.

Definition ipc_pending (endpoint : Z) (s : ipc) : Z :=
  if negb (endpoint_is_valid s endpoint) then 0
  else u32 (ep_write_sequence s.[endpoint] - ep_read_sequence s.[endpoint]).

Definition ipc_rejected_count (endpoint : Z) (s : ipc) : Z :=
  if negb (endpoint_is_valid s endpoint) then 0
  else ep_rejected_messages s.[endpoint].

(** ** Abstract specification

    An endpoint is unallocated, or a bounded list of messages with the number
    of rejected sends; a sent message is copied with its payload cut at its
    length and zero-filled. *)

Definition copied_message (m : ipc_message) : ipc_message :=
  mk_msg (msg_sender m) (msg_type m) (msg_length m)
    (tabulate IPC_PAYLOAD_MAX (fun i => if i <? msg_length m then (msg_payload m).[i] else 0)).

Abbreviation endpoint_spec := (option (list ipc_message * Z)).
Abbreviation ipc_spec := (list endpoint_spec).

Definition spec_endpoint (a : ipc_spec) (e : Z) : endpoint_spec :=
  if e <? IPC_MAX_ENDPOINTS then a.[e] else None.

Inductive ipc_op :=
| IpcCreate
| IpcSend (e : Z) (m : option ipc_message)
| IpcReceive (e : Z) (out : option ipc_message)
| IpcPending (e : Z)
| IpcRejectedCount (e : Z).

Inductive ipc_ret :=
| RetEndpoint (e : Z)
| RetSent (ok : bool)
| RetReceived (ok : bool) (out : option ipc_message)
| RetCount (n : Z).

Definition ipc_exec (op : ipc_op) (s : ipc) : ipc_ret * ipc :=
  match op with
  | IpcCreate => let '(e, s') := ipc_endpoint_create s in (RetEndpoint e, s')
  | IpcSend e m => let '(ok, s') := ipc_send e m s in (RetSent ok, s')
  | IpcReceive e out => let '(ok, out', s') := ipc_receive e out s in (RetReceived ok out', s')
  | IpcPending e => (RetCount (ipc_pending e s), s)
  | IpcRejectedCount e => (RetCount (ipc_rejected_count e s), s)
  end.

Definition ipc_spec_exec (op : ipc_op) (a : ipc_spec) : ipc_ret * ipc_spec :=
  match op with
  | IpcCreate =>
      match find_range 0 IPC_MAX_ENDPOINTS (fun e => bool_decide (a.[e] = None)) with
      | Some e => (RetEndpoint e, a.[e <- Some ([], 0)])
      | None => (RetEndpoint IPC_INVALID_ENDPOINT, a)
      end
  | IpcSend e m =>
      match m, spec_endpoint a e with
      | Some m, Some (q, rejected) =>
          if IPC_PAYLOAD_MAX <? msg_length m then (RetSent false, a)
          else if alen q <? IPC_QUEUE_DEPTH
          then (RetSent true, a.[e <- Some (q ++ [copied_message m], rejected)])
          else (RetSent false, a.[e <- Some (q, u32 (rejected + 1))])
      | _, _ => (RetSent false, a)
      end
  | IpcReceive e out =>
      match out, spec_endpoint a e with
      | Some _, Some (m :: q, rejected) => (RetReceived true (Some m), a.[e <- Some (q, rejected)])
      | _, _ => (RetReceived false out, a)
      end
  | IpcPending e =>
      (RetCount (from_option (fun '(q, _) => alen q) 0 (spec_endpoint a e)), a)
  | IpcRejectedCount e =>
      (RetCount (from_option snd 0 (spec_endpoint a e)), a)
  end.

(** ** Invariant and abstraction *)

Definition msg_ok (m : ipc_message) : Prop := alen (msg_payload m) = IPC_PAYLOAD_MAX.

Record endpoint_inv (st : ipc_endpoint_state) : Prop := {
  ep_read_u32 : is_u32 (ep_read_sequence st);
  ep_write_u32 : is_u32 (ep_write_sequence st);
  ep_rejected_u32 : is_u32 (ep_rejected_messages st);
  ep_queue_len : alen (ep_queue st) = IPC_QUEUE_DEPTH;
  ep_queue_ok : Forall msg_ok (ep_queue st);
  ep_bounded : ring_len (ep_read_sequence st) (ep_write_sequence st) <= IPC_QUEUE_DEPTH;
}.

Definition ipc_inv (s : ipc) : Prop :=
  alen s = IPC_MAX_ENDPOINTS /\ Forall endpoint_inv s.

Definition endpoint_queue (st : ipc_endpoint_state) : list ipc_message :=
  ring_contents IPC_QUEUE_DEPTH (ep_queue st) (ep_read_sequence st) (ep_write_sequence st).

Definition endpoint_abs (st : ipc_endpoint_state) : endpoint_spec :=
  if ep_allocated st then Some (endpoint_queue st, ep_rejected_messages st) else None.

Definition ipc_abs (s : ipc) : ipc_spec := endpoint_abs <$> s.

(** The C types of the arguments. *)
Definition ipc_op_ok (op : ipc_op) : Prop :=
  match op with
  | IpcSend e m => is_u32 e /\ from_option msg_ok True m
  | IpcReceive e m => is_u32 e /\ from_option msg_ok True m
  | IpcPending e | IpcRejectedCount e => is_u32 e
  | IpcCreate => True
  end.

Ltac ipc_lia := unfold IPC_QUEUE_DEPTH, IPC_MAX_ENDPOINTS, IPC_PAYLOAD_MAX in *; lia.

Lemma depth_divides : (IPC_QUEUE_DEPTH | 4294967296).
Proof. exists 536870912. done. Qed.

Lemma copied_message_ok m : msg_ok (copied_message m).
Proof. unfold msg_ok. simpl. by rewrite alen_tabulate. Qed.

(** Copying a stored message out reproduces it. *)
Lemma receive_copy m out :
  msg_ok m -> msg_ok out ->
  mk_msg (msg_sender m) (msg_type m) (msg_length m)
    (fill_range 0 IPC_PAYLOAD_MAX (fun i => (msg_payload m).[i]) (msg_payload out)) = m.
Proof.
  intros Hm Ho. destruct m as [a b c p]. simpl. f_equal. by apply fill_range_all.
Qed.

Lemma send_copy m dest :
  msg_ok dest ->
  mk_msg (msg_sender m) (msg_type m) (msg_length m)
    (fill_range 0 IPC_PAYLOAD_MAX
       (fun i => if i <? msg_length m then (msg_payload m).[i] else 0) (msg_payload dest))
  = copied_message m.
Proof. intros Hd. unfold copied_message. f_equal. by apply fill_range_tabulate. Qed.

(** ** Endpoints implement the bounded queue interface *)

Lemma endpoint_send_ok m st :
  endpoint_inv st ->
  let '(ok, st') := endpoint_send m st in
  endpoint_inv st' /\ ok = (alen (endpoint_queue st) <? IPC_QUEUE_DEPTH) /\
  ep_allocated st' = ep_allocated st /\
  endpoint_queue st' =
    (if ok then endpoint_queue st ++ [copied_message m] else endpoint_queue st) /\
  ep_rejected_messages st' =
    (if ok then ep_rejected_messages st else u32 (ep_rejected_messages st + 1)).
Proof.
  intros [Hr Hw Hj Hl Hq Hb]. unfold endpoint_send, endpoint_queue.
  rewrite alen_ring_contents. fold (ring_len (ep_read_sequence st) (ep_write_sequence st)).
  destruct (_ >=? _) eqn:E; bprop; simpl.
  - split; [by split; simpl; auto with wrap|]. split; [symmetry; apply Z.ltb_ge; lia|done].
  - assert (Hidx : 0 <= ep_write_sequence st mod IPC_QUEUE_DEPTH < alen (ep_queue st)).
    { rewrite Hl. apply ring_index_range. done. }
    rewrite send_copy by (by apply Forall_aget).
    split.
    { split; simpl; auto with wrap.
      - by rewrite alen_aset.
      - apply Forall_aset; [done|apply copied_message_ok].
      - rewrite (ring_len_push IPC_QUEUE_DEPTH) by ipc_lia. ipc_lia. }
    split; [symmetry; apply Z.ltb_lt; lia|]. split; [done|]. split; [|done].
    apply ring_push; try done. apply depth_divides.
Qed.

Lemma endpoint_receive_ok out st :
  endpoint_inv st -> msg_ok out ->
  let '(ok, out', st') := endpoint_receive out st in
  endpoint_inv st' /\ ep_allocated st' = ep_allocated st /\
  ep_rejected_messages st' = ep_rejected_messages st /\
  match endpoint_queue st with
  | [] => ok = false /\ out' = out /\ st' = st
  | m :: q => ok = true /\ out' = m /\ endpoint_queue st' = q
  end.
Proof.
  intros Hi Ho. pose proof Hi as [Hr Hw Hj Hl Hq Hb]. unfold endpoint_receive, endpoint_queue.
  destruct (_ == _) eqn:E; bprop.
  - rewrite E, ring_empty. done.
  - assert (Hne : ring_len (ep_read_sequence st) (ep_write_sequence st) <> 0).
    { by rewrite ring_len_zero. }
    rewrite (ring_pop IPC_QUEUE_DEPTH) by (done || apply depth_divides). simpl.
    rewrite receive_copy; [|apply Forall_aget; [done|rewrite Hl; by apply ring_index_range]|done].
    split; [|done]. split; simpl; auto with wrap.
    rewrite (ring_len_pop) by done. lia.
Qed.

Lemma endpoint_bounded st :
  endpoint_inv st -> alen (endpoint_queue st) <= IPC_QUEUE_DEPTH.
Proof. intros Hi. unfold endpoint_queue. rewrite alen_ring_contents. apply Hi. Qed.

(** The interface's get, with the caller's buffer zeroed. *)
Definition endpoint_get (st : ipc_endpoint_state) : option ipc_message * ipc_endpoint_state :=
  let '(ok, m, st') := endpoint_receive zero_message st in
  (if ok then Some m else None, st').

#[export] Instance endpoint_fifo : BoundedFifo ipc_endpoint_state ipc_message.
Proof.
  refine {| fifo_inv := endpoint_inv; fifo_view := endpoint_queue;
            fifo_capacity := IPC_QUEUE_DEPTH; fifo_stored := copied_message;
            fifo_put := endpoint_send; fifo_get := endpoint_get;
            fifo_bounded := endpoint_bounded |}.
  - intros m st Hi. pose proof (endpoint_send_ok m st Hi) as H.
    destruct (endpoint_send m st). tauto.
  - intros st Hi. unfold endpoint_get.
    pose proof (endpoint_receive_ok zero_message st Hi eq_refl) as H.
    destruct (endpoint_receive _ st) as [[ok m] st'].
    destruct (endpoint_queue st) as [|x q] eqn:E; destruct H as (H1 & _ & _ & H);
      destruct H as (-> & -> & H); split_and!; try done. by subst st'.
Defined.

(** ** Refinement of the whole component *)

Lemma ipc_abs_get s e :
  alen s = IPC_MAX_ENDPOINTS -> 0 <= e < IPC_MAX_ENDPOINTS ->
  (ipc_abs s).[e] = endpoint_abs s.[e].
Proof. intros Hl He. apply aget_fmap. lia. Qed.

Lemma spec_endpoint_valid s e :
  alen s = IPC_MAX_ENDPOINTS -> 0 <= e ->
  spec_endpoint (ipc_abs s) e =
    if endpoint_is_valid s e
    then Some (endpoint_queue s.[e], ep_rejected_messages s.[e]) else None.
Proof.
  intros Hl He. unfold spec_endpoint, endpoint_is_valid.
  destruct (e <? IPC_MAX_ENDPOINTS) eqn:E; [|done]. bprop.
  rewrite ipc_abs_get by lia. done.
Qed.

Lemma endpoint_valid_index s e :
  alen s = IPC_MAX_ENDPOINTS -> 0 <= e -> endpoint_is_valid s e = true ->
  0 <= e < alen s /\ ep_allocated s.[e] = true.
Proof. intros Hl He Hv. unfold endpoint_is_valid in Hv. bprop. split; [lia|done]. Qed.

Lemma ipc_inv_set s e st :
  ipc_inv s -> endpoint_inv st -> ipc_inv s.[e <- st].
Proof. intros [Hl Hf] Hst. split; [by rewrite alen_aset|by apply Forall_aset]. Qed.

Lemma ipc_exec_refines op s :
  ipc_inv s -> ipc_op_ok op ->
  ipc_inv (snd (ipc_exec op s)) /\
  ipc_spec_exec op (ipc_abs s) = (fst (ipc_exec op s), ipc_abs (snd (ipc_exec op s))).
Proof.
  intros Hi Hop. pose proof Hi as [Hl Hf].
  destruct op as [|e m|e out|e|e]; simpl in Hop; unfold ipc_exec, ipc_spec_exec.
  - unfold ipc_endpoint_create.
    rewrite (find_range_ext 0 IPC_MAX_ENDPOINTS (fun e => bool_decide ((ipc_abs s).[e] = None))
      (fun e => negb (ep_allocated s.[e]))).
    2:{ intros e He. rewrite ipc_abs_get by done. unfold endpoint_abs.
        by destruct (ep_allocated _). }
    destruct (find_range 0 IPC_MAX_ENDPOINTS _) as [e|] eqn:E; simpl; [|done].
    apply find_range_Some in E as (He & _ & _).
    assert (Hst : endpoint_inv s.[e]) by (apply Forall_aget; [done|lia]).
    split.
    + apply ipc_inv_set; [done|]. destruct Hst. by split; simpl; auto with wrap.
    + f_equal. unfold ipc_abs. by rewrite fmap_aset.
  - destruct Hop as [He Hm]. unfold ipc_send. destruct m as [m|]; [|done].
    rewrite spec_endpoint_valid by (done || apply He).
    destruct (endpoint_is_valid s e) eqn:Ev; simpl; [|done].
    apply endpoint_valid_index in Ev as [Hidx Hal]; [|done|apply He].
    rewrite Z.gtb_ltb. destruct (IPC_PAYLOAD_MAX <? msg_length m); [done|].
    pose proof (endpoint_send_ok m s.[e] (Forall_aget _ _ _ Hf Hidx)) as Hs.
    destruct (endpoint_send m s.[e]) as [ok st']. destruct Hs as (Hst' & Hok & Hal' & Hq & Hr).
    rewrite <-Hok. split; [by apply ipc_inv_set|]. simpl. unfold ipc_abs. rewrite fmap_aset.
    replace (endpoint_abs st') with (Some (endpoint_queue st', ep_rejected_messages st'))
      by (unfold endpoint_abs; by rewrite Hal', Hal).
    rewrite Hq, Hr. by destruct ok.
  - destruct Hop as [He Ho]. unfold ipc_receive. destruct out as [out|]; [|done].
    rewrite spec_endpoint_valid by (done || apply He).
    destruct (endpoint_is_valid s e) eqn:Ev; simpl; [|done].
    apply endpoint_valid_index in Ev as [Hidx Hal]; [|done|apply He].
    pose proof (endpoint_receive_ok out s.[e] (Forall_aget _ _ _ Hf Hidx) Ho) as Hs.
    destruct (endpoint_receive out s.[e]) as [[ok out'] st'].
    destruct Hs as (Hst' & Hal' & Hr & Hq).
    destruct (endpoint_queue s.[e]) as [|x q]; destruct Hq as (-> & -> & Hq); [done|].
    split; [by apply ipc_inv_set|]. simpl. unfold ipc_abs. rewrite fmap_aset.
    replace (endpoint_abs st') with (Some (endpoint_queue st', ep_rejected_messages st'))
      by (unfold endpoint_abs; by rewrite Hal', Hal).
    by rewrite Hq, Hr.
  - unfold ipc_pending. rewrite spec_endpoint_valid by (done || apply Hop).
    destruct (endpoint_is_valid s e); simpl; [|done].
    unfold endpoint_queue. by rewrite alen_ring_contents.
  - unfold ipc_rejected_count. rewrite spec_endpoint_valid by (done || apply Hop).
    by destruct (endpoint_is_valid s e).
Qed.

(** ** Initialisation *)

Lemma message_clear_zero m : msg_ok m -> message_clear m = zero_message.
Proof.
  intros Hm. unfold message_clear, zero_message. f_equal.
  apply fill_range_all; [done|by rewrite alen_replicate|]. intros j Hj. by apply aget_replicate.
Qed.

Lemma clear_queue q :
  alen q = IPC_QUEUE_DEPTH -> Forall msg_ok q ->
  for_range 0 IPC_QUEUE_DEPTH (fun slot q => q.[slot <- message_clear q.[slot]]) q =
  ep_queue zero_endpoint.
Proof.
  intros Hl Hq.
  assert (H : forall q', q' = for_range 0 IPC_QUEUE_DEPTH
    (fun slot q => q.[slot <- message_clear q.[slot]]) q ->
    alen q' = IPC_QUEUE_DEPTH /\
    forall i, 0 <= i < IPC_QUEUE_DEPTH -> q'.[i] =
      if i <? IPC_QUEUE_DEPTH then zero_message else q.[i]).
  { intros q' ->. apply (for_range_ind (fun k t => alen t = IPC_QUEUE_DEPTH /\
      forall i, 0 <= i < IPC_QUEUE_DEPTH -> t.[i] = if i <? k then zero_message else q.[i]));
      [done| |].
    - split; [done|]. intros i Hi. bcase; [lia|done].
    - intros k t Hk [Htl Ht]. split; [by rewrite alen_aset|]. intros i Hi.
      destruct (decide (k = i)) as [->|].
      + rewrite aget_aset_eq, Ht by lia. rewrite Z.ltb_irrefl.
        rewrite message_clear_zero by (apply Forall_aget; [done|lia]).
        bcase; [done|lia].
      + rewrite aget_aset_ne, Ht by lia. bcase; try lia; done. }
  destruct (H _ eq_refl) as [Hl' Hg].
  change (ep_queue zero_endpoint) with (replicate (Z.to_nat IPC_QUEUE_DEPTH) zero_message).
  apply array_eq; [by rewrite Hl', alen_replicate|]. rewrite Hl'. intros i Hi.
  rewrite Hg by done. rewrite aget_replicate by done. bcase; [done|lia].
Qed.

Lemma ipc_init_static s : ipc_inv s -> ipc_init s = ipc_static.
Proof.
  intros [Hl Hf].
  assert (H : alen (ipc_init s) = IPC_MAX_ENDPOINTS /\
    forall i, 0 <= i < IPC_MAX_ENDPOINTS -> (ipc_init s).[i] =
      if i <? IPC_MAX_ENDPOINTS then zero_endpoint else s.[i]).
  { unfold ipc_init. apply (for_range_ind (fun k t => alen t = IPC_MAX_ENDPOINTS /\
      forall i, 0 <= i < IPC_MAX_ENDPOINTS -> t.[i] = if i <? k then zero_endpoint else s.[i]));
      [done| |].
    - split; [done|]. intros i Hi. bcase; [lia|done].
    - intros k t Hk [Htl Ht]. split; [by rewrite alen_aset|]. intros i Hi.
      destruct (decide (k = i)) as [->|].
      + rewrite aget_aset_eq, Ht by lia. rewrite Z.ltb_irrefl.
        assert (Hst : endpoint_inv s.[i]) by (apply Forall_aget; [done|lia]).
        rewrite clear_queue by apply Hst. bcase; [done|lia].
      + rewrite aget_aset_ne, Ht by lia. bcase; try lia; done. }
  destruct H as [Hl' Hg]. apply array_eq; [by rewrite Hl'|]. rewrite Hl'. intros i Hi.
  rewrite Hg by done. unfold ipc_static. rewrite aget_replicate by done. bcase; [done|lia].
Qed.

Lemma ipc_static_inv : ipc_inv ipc_static.
Proof.
  split; [done|]. apply Forall_replicate. split; try done.
  apply Forall_replicate. done.
Qed.

(** ** Runs *)

Fixpoint ipc_run (ops : list ipc_op) (s : ipc) : list ipc_ret * ipc :=
  match ops with
  | [] => ([], s)
  | op :: ops' =>
      let '(r, s1) := ipc_exec op s in
      let '(rs, s2) := ipc_run ops' s1 in (r :: rs, s2)
  end.

Fixpoint ipc_spec_run (ops : list ipc_op) (a : ipc_spec) : list ipc_ret * ipc_spec :=
  match ops with
  | [] => ([], a)
  | op :: ops' =>
      let '(r, a1) := ipc_spec_exec op a in
      let '(rs, a2) := ipc_spec_run ops' a1 in (r :: rs, a2)
  end.

Lemma ipc_run_simulation ops s :
  ipc_inv s -> Forall ipc_op_ok ops ->
  ipc_inv (snd (ipc_run ops s)) /\
  ipc_spec_run ops (ipc_abs s) = (fst (ipc_run ops s), ipc_abs (snd (ipc_run ops s))).
Proof.
  revert s. induction ops as [|op ops IH]; intros s Hi Hok; [done|].
  inversion Hok as [|? ? Hop Hops]; subst.
  pose proof (ipc_exec_refines op s Hi Hop) as [Hi1 Hr1]. simpl.
  destruct (ipc_exec op s) as [r s1]. simpl in *. rewrite Hr1.
  destruct (IH s1 Hi1 Hops) as [Hi2 Hr2]. rewrite Hr2.
  by destruct (ipc_run ops s1).
Qed.

(** The messages a run's results show as accepted for, and delivered from,
    one endpoint. *)
Definition op_accepted (e : Z) (op : ipc_op) (r : ipc_ret) : list ipc_message :=
  match op, r with
  | IpcSend e' (Some m), RetSent true => if e' =? e then [copied_message m] else []
  | _, _ => []
  end.

Definition op_delivered (e : Z) (op : ipc_op) (r : ipc_ret) : list ipc_message :=
  match op, r with
  | IpcReceive e' _, RetReceived true (Some m) => if e' =? e then [m] else []
  | _, _ => []
  end.

Definition accepted_messages (e : Z) (ops : list ipc_op) (rs : list ipc_ret) : list ipc_message :=
  concat (zip_with (op_accepted e) ops rs).
Definition delivered_messages (e : Z) (ops : list ipc_op) (rs : list ipc_ret) : list ipc_message :=
  concat (zip_with (op_delivered e) ops rs).

Definition queued (a : ipc_spec) (e : Z) : list ipc_message :=
  from_option fst [] (spec_endpoint a e).

Lemma queued_set a e e' st :
  alen a = IPC_MAX_ENDPOINTS -> 0 <= e -> 0 <= e' < IPC_MAX_ENDPOINTS ->
  queued a.[e' <- st] e = if e' =? e then from_option fst [] st else queued a e.
Proof.
  intros Hl He He'. unfold queued, spec_endpoint.
  destruct (Z.eqb_spec e' e) as [->|Hne].
  - replace (e <? IPC_MAX_ENDPOINTS) with true by (symmetry; apply Z.ltb_lt; lia).
    rewrite aget_aset_eq by lia. done.
  - destruct (e <? IPC_MAX_ENDPOINTS); [|done]. by rewrite aget_aset_ne by lia.
Qed.

Lemma spec_endpoint_Some a e st :
  spec_endpoint a e = Some st -> e < IPC_MAX_ENDPOINTS.
Proof. unfold spec_endpoint. destruct (e <? _) eqn:E; bprop; [done|by intros]. Qed.

Lemma ipc_spec_exec_alen op a :
  alen (snd (ipc_spec_exec op a)) = alen a.
Proof.
  destruct op as [|e m|e out|e|e]; unfold ipc_spec_exec.
  - destruct (find_range _ _ _); simpl; by rewrite ?alen_aset.
  - destruct m as [m|]; [|done]. destruct (spec_endpoint a e) as [[q j]|]; [|done].
    destruct (_ <? _); [done|]. destruct (_ <? _); simpl; by rewrite alen_aset.
  - destruct out as [out|]; [|done]. destruct (spec_endpoint a e) as [[[|m q] j]|]; try done.
    simpl. by rewrite alen_aset.
  - done.
  - done.
Qed.

Lemma ipc_spec_step_order op a e :
  alen a = IPC_MAX_ENDPOINTS -> 0 <= e -> ipc_op_ok op ->
  let '(r, a') := ipc_spec_exec op a in
  queued a e ++ op_accepted e op r = op_delivered e op r ++ queued a' e.
Proof.
  intros Hl He Hop. destruct op as [|e' m|e' out|e'|e'];
    cbv beta iota delta [ipc_spec_exec op_accepted op_delivered]; rewrite ?app_nil_r; try done.
  - destruct (find_range _ _ _) as [e'|] eqn:E; [|done].
    apply find_range_Some in E as (He' & Hn & _). apply bool_decide_eq_true in Hn.
    rewrite queued_set by done. destruct (Z.eqb_spec e' e) as [->|]; [|done].
    unfold queued, spec_endpoint. rewrite Hn. by destruct (_ <? _).
  - destruct m as [m|]; [|by rewrite app_nil_r].
    destruct (spec_endpoint a e') as [[q j]|] eqn:E; [|by rewrite app_nil_r].
    pose proof (spec_endpoint_Some _ _ _ E). destruct Hop as [He' _]. unfold is_u32 in He'.
    destruct (_ <? msg_length m); [by rewrite app_nil_r|].
    destruct (alen q <? _); rewrite queued_set by (done || lia);
      (destruct (Z.eqb_spec e' e) as [->|]; [|by rewrite ?app_nil_r]);
      unfold queued; rewrite E; simpl; by rewrite ?app_nil_r.
  - destruct out as [out|]; [|done].
    destruct (spec_endpoint a e') as [[[|m q] j]|] eqn:E; try done.
    pose proof (spec_endpoint_Some _ _ _ E). destruct Hop as [He' _]. unfold is_u32 in He'.
    rewrite queued_set by (done || lia). destruct (Z.eqb_spec e' e) as [->|]; [|done].
    unfold queued. by rewrite E.
Qed.

Lemma ipc_spec_run_order ops a e :
  alen a = IPC_MAX_ENDPOINTS -> 0 <= e -> Forall ipc_op_ok ops ->
  let '(rs, a') := ipc_spec_run ops a in
  queued a e ++ accepted_messages e ops rs = delivered_messages e ops rs ++ queued a' e.
Proof.
  intros Hl He Hok. revert a Hl. induction ops as [|op ops IH]; intros a Hl.
  { simpl. unfold accepted_messages, delivered_messages. simpl. by rewrite app_nil_r. }
  inversion Hok as [|? ? Hop Hops]; subst. simpl.
  pose proof (ipc_spec_step_order op a e Hl He Hop) as Hs.
  pose proof (ipc_spec_exec_alen op a) as Hl1.
  destruct (ipc_spec_exec op a) as [r a1]. simpl in Hl1.
  specialize (IH Hops a1 ltac:(lia)). destruct (ipc_spec_run ops a1) as [rs a2].
  unfold accepted_messages, delivered_messages in *. simpl.
  by rewrite app_assoc, Hs, <-app_assoc, IH, app_assoc.
Qed.

Definition ipc_spec_init : ipc_spec := replicate (Z.to_nat IPC_MAX_ENDPOINTS) None.

Lemma ipc_reachable s ops :
  ipc_inv s -> Forall ipc_op_ok ops ->
  let s' := snd (ipc_run ops (ipc_init s)) in
  ipc_inv s' /\ ipc_spec_run ops ipc_spec_init = (fst (ipc_run ops (ipc_init s)), ipc_abs s').
Proof.
  intros Hi Hok. rewrite (ipc_init_static s Hi).
  exact (ipc_run_simulation ops ipc_static ipc_static_inv Hok).
Qed.

(** Concrete runs for the witnesses. *)
Definition demo_message (n : Z) : ipc_message :=
  mk_msg n 9 3 (tabulate IPC_PAYLOAD_MAX (fun i => u8 (n + i))).

Definition ipc_demo_ops : list ipc_op :=
  [IpcCreate; IpcCreate; IpcSend 0 (Some (demo_message 32)); IpcSend 1 (Some (demo_message 64));
   IpcSend 0 (Some (demo_message 48)); IpcReceive 0 (Some zero_message);
   IpcReceive 7 (Some zero_message); IpcPending 0].

Lemma ipc_demo_ops_ok : Forall ipc_op_ok ipc_demo_ops.
Proof. repeat constructor; simpl; unfold is_u32; lia. Qed.

Example ipc_demo_run :
  fst (ipc_run ipc_demo_ops ipc_static) =
  [RetEndpoint 0; RetEndpoint 1; RetSent true; RetSent true; RetSent true;
   RetReceived true (Some (mk_msg 32 9 3 ([32; 33; 34] ++ replicate 29 0)));
   RetReceived false (Some zero_message); RetCount 1].
Proof. vm_compute. reflexivity. Qed.

(** ** Properties *)

(** C13: after [ipc_init] every sequence of create, send, receive, pending and
    rejected-count calls returns exactly what the abstract endpoints return:
    a send is refused for an invalid endpoint, a NULL message, an over-long
    payload or a full queue (only the last counts as rejected), an accepted
    message is stored with its payload cut at its length and zero-filled, a
    receive takes the oldest message and a failed receive leaves the caller's
    buffer and the queues untouched. *)
Theorem ipc_run_refines s ops :
  ipc_inv s -> Forall ipc_op_ok ops ->
  ipc_spec_run ops ipc_spec_init =
    (fst (ipc_run ops (ipc_init s)), ipc_abs (snd (ipc_run ops (ipc_init s)))).
Proof. intros Hi Hok. apply (ipc_reachable s ops Hi Hok). Qed.

Lemma ipc_run_refines_witness :
  ipc_spec_run ipc_demo_ops ipc_spec_init =
    (fst (ipc_run ipc_demo_ops (ipc_init ipc_static)),
     ipc_abs (snd (ipc_run ipc_demo_ops (ipc_init ipc_static)))).
Proof. exact (ipc_run_refines ipc_static ipc_demo_ops ipc_static_inv ipc_demo_ops_ok). Defined.

(** C38: per-endpoint FIFO delivery. In every run from [ipc_init], whatever is
    interleaved on other endpoints, the messages accepted for an endpoint are
    the messages delivered from it followed by those still queued, in the
    order they were sent: nothing is lost, duplicated, reordered or delivered
    to another endpoint. *)
Theorem ipc_fifo_delivery s ops e :
  ipc_inv s -> Forall ipc_op_ok ops -> is_u32 e ->
  let '(rs, s') := ipc_run ops (ipc_init s) in
  accepted_messages e ops rs = delivered_messages e ops rs ++ queued (ipc_abs s') e.
Proof.
  intros Hi Hok He. destruct (ipc_reachable s ops Hi Hok) as [_ Hr].
  pose proof (ipc_spec_run_order ops ipc_spec_init e eq_refl (proj1 He) Hok) as Ho.
  rewrite Hr in Ho. destruct (ipc_run ops (ipc_init s)) as [rs s']. simpl in Ho.
  rewrite <-Ho. unfold queued, spec_endpoint.
  destruct (e <? IPC_MAX_ENDPOINTS) eqn:E; [|done]. bprop.
  unfold ipc_spec_init. by rewrite aget_replicate by (unfold is_u32 in He; lia).
Qed.

Lemma ipc_fifo_delivery_witness :
  let '(rs, s') := ipc_run ipc_demo_ops (ipc_init ipc_static) in
  accepted_messages 0 ipc_demo_ops rs =
    delivered_messages 0 ipc_demo_ops rs ++ queued (ipc_abs s') 0.
Proof.
  apply (ipc_fifo_delivery ipc_static ipc_demo_ops 0 ipc_static_inv ipc_demo_ops_ok).
  unfold is_u32. lia.
Defined.

(** An endpoint stays a FIFO across the wrap-around of its 32-bit
    sequence numbers: from any endpoint state whose numbers are at most the
    queue depth apart modulo 2^32, any sequence of sends and receives
    delivers the queued and accepted messages in order. *)
Theorem endpoint_fifo_across_wrap (acts : list (fifo_action ipc_message)) st :
  endpoint_inv st ->
  let '(accepted, delivered, st') := fifo_run acts st in
  endpoint_inv st' /\ endpoint_queue st ++ accepted = delivered ++ endpoint_queue st'.
Proof. intros Hi. exact (fifo_run_order acts st Hi). Qed.

Definition wrapping_endpoint : ipc_endpoint_state :=
  mk_ep true UINT32_MAX UINT32_MAX 0 (ep_queue zero_endpoint).

Lemma wrapping_endpoint_inv : endpoint_inv wrapping_endpoint.
Proof.
  split; try done; try (simpl; unfold is_u32, UINT32_MAX; lia).
  apply Forall_replicate. done.
Qed.

Example wrapping_endpoint_run :
  fst (fifo_run [Put (demo_message 1); Put (demo_message 2); Get; Get; Get] wrapping_endpoint) =
  ([copied_message (demo_message 1); copied_message (demo_message 2)],
   [copied_message (demo_message 1); copied_message (demo_message 2)]).
Proof. vm_compute. reflexivity. Qed.

Lemma endpoint_fifo_across_wrap_witness :
  let '(accepted, delivered, st') :=
    fifo_run [Put (demo_message 1); Put (demo_message 2); Get; Get; Get] wrapping_endpoint in
  endpoint_inv st' /\
  endpoint_queue wrapping_endpoint ++ accepted = delivered ++ endpoint_queue st'.
Proof.
  exact (endpoint_fifo_across_wrap
    [Put (demo_message 1); Put (demo_message 2); Get; Get; Get] wrapping_endpoint
    wrapping_endpoint_inv).
Defined.
