(* ===== verification/Keyboard.v ===== *)
(** * PS/2 keyboard (src/kernel/arch/x86/keyboard.c)

    The Set 1 decoder, its modifier state, and the 64-character queue that
    the IRQ1 handler fills while the main loop empties it.  The last part
    models the interleaving: the consumer runs in its four memory accesses,
    and a whole interrupt may run between any two of them. *)
From S2P Require Import Prelude Ring.

Definition KEYBOARD_STATUS_OUTPUT_FULL : Z := 0x01.
Definition KEYBOARD_EXTENDED_PREFIX : Z := 0xE0.
Definition KEYBOARD_RELEASE_BIT : Z := 0x80.
Definition KEYBOARD_LEFT_SHIFT : Z := 0x2A.
Definition KEYBOARD_RIGHT_SHIFT : Z := 0x36.
Definition KEYBOARD_CAPS_LOCK : Z := 0x3A.
Definition KEYBOARD_ENTER : Z := 0x1C.
Definition KEYBOARD_BACKSPACE : Z := 0x0E.
Definition KEYBOARD_SPACE : Z := 0x39.
Definition KEYBOARD_QUEUE_CAPACITY : Z := 64.
Definition KEYBOARD_QUEUE_MASK : Z := KEYBOARD_QUEUE_CAPACITY - 1.

Record keyboard := mk_kbd {
  character_queue : list Z;
  kbd_write_sequence : Z;
  kbd_read_sequence : Z;
  dropped_characters : Z;
  left_shift_down : bool;
  right_shift_down : bool;
  caps_lock_enabled : bool;
  extended_prefix_pending : bool;
}.

Definition keyboard_static : keyboard :=
  mk_kbd (replicate (Z.to_nat KEYBOARD_QUEUE_CAPACITY) 0) 0 0 0 false false false false.

Definition with_queue (q : list Z) (wr dropped : Z) (k : keyboard) : keyboard :=
  mk_kbd q wr (kbd_read_sequence k) dropped (left_shift_down k) (right_shift_down k)
    (caps_lock_enabled k) (extended_prefix_pending k).

Definition with_read (rd : Z) (k : keyboard) : keyboard :=
  mk_kbd (character_queue k) (kbd_write_sequence k) rd (dropped_characters k)
    (left_shift_down k) (right_shift_down k) (caps_lock_enabled k) (extended_prefix_pending k).

Definition with_modifiers (lshift rshift caps ext : bool) (k : keyboard) : keyboard :=
  mk_kbd (character_queue k) (kbd_write_sequence k) (kbd_read_sequence k)
    (dropped_characters k) lshift rshift caps ext.

(** ** Decoding *)

Definition letter_for_scancode (code : Z) : Z :=
  match code with
  | 0x1E => ch "a" | 0x30 => ch "b" | 0x2E => ch "c" | 0x20 => ch "d"
  | 0x12 => ch "e" | 0x21 => ch "f" | 0x22 => ch "g" | 0x23 => ch "h"
  | 0x17 => ch "i" | 0x24 => ch "j" | 0x25 => ch "k" | 0x26 => ch "l"
  | 0x32 => ch "m" | 0x31 => ch "n" | 0x18 => ch "o" | 0x19 => ch "p"
  | 0x10 => ch "q" | 0x13 => ch "r" | 0x1F => ch "s" | 0x14 => ch "t"
  | 0x16 => ch "u" | 0x2F => ch "v" | 0x11 => ch "w" | 0x2D => ch "x"
  | 0x15 => ch "y" | 0x2C => ch "z"
  | _ => NUL
  end.

Definition unshifted_digits : list Z := cstr "1234567890".
Definition shifted_digits : list Z := cstr "!@#$%^&*()".

Definition digit_for_scancode (code : Z) (shifted : bool) : Z :=
  if (code <? 0x02) || (code >? 0x0B) then NUL
  else
    let index := u8 (code - 0x02) in
    if shifted then shifted_digits.[index] else unshifted_digits.[index].

(** ** Operations *)

Definition queue_push (character : Z) (k : keyboard) : bool * keyboard :=
  let write := kbd_write_sequence k in
  let read := kbd_read_sequence k in
  if u32 (write - read) >=? KEYBOARD_QUEUE_CAPACITY then
    (false, with_queue (character_queue k) write (u32 (dropped_characters k + 1)) k)
  else
    (true, with_queue (character_queue k).[write .& KEYBOARD_QUEUE_MASK <- character]
             (u32 (write + 1)) (dropped_characters k) k).

(** The queue storage keeps its old bytes. *)
Definition keyboard_init (k : keyboard) : keyboard :=
  mk_kbd (character_queue k) 0 0 0 false false false false.

Definition keyboard_feed_scancode (scancode : Z) (k : keyboard) : bool * keyboard :=
  let '(mk_kbd _ _ _ _ lshift rshift caps ext) := k in
  if scancode == KEYBOARD_EXTENDED_PREFIX then
    (false, with_modifiers lshift rshift caps true k)
  else if ext then (false, with_modifiers lshift rshift caps false k)
  else
    let released := scancode .& KEYBOARD_RELEASE_BIT != 0 in
    let code := scancode .& not8 KEYBOARD_RELEASE_BIT in
    if code == KEYBOARD_LEFT_SHIFT then
      (false, with_modifiers (negb released) rshift caps ext k)
    else if code == KEYBOARD_RIGHT_SHIFT then
      (false, with_modifiers lshift (negb released) caps ext k)
    else if released then (false, k)
    else if code == KEYBOARD_CAPS_LOCK then
      (false, with_modifiers lshift rshift (negb caps) ext k)
    else
      let shifted := lshift || rshift in
      let character := letter_for_scancode code in
      if character != NUL then
        let character :=
          if xorb shifted caps then u8 (character - (ch "a" - ch "A")) else character in
        queue_push character k
      else
        let character := digit_for_scancode code shifted in
        if character != NUL then queue_push character k
        else if code == KEYBOARD_ENTER then queue_push NEWLINE k
        else if code == KEYBOARD_BACKSPACE then queue_push BACKSPACE k
        else if code == KEYBOARD_SPACE then queue_push SPACE k
        else (false, k).

(** [status] and [data] are the bytes the controller's two ports return. *)
Definition keyboard_handle_irq (status data : Z) (k : keyboard) : keyboard :=
  if status .& KEYBOARD_STATUS_OUTPUT_FULL == 0 then k
  else snd (keyboard_feed_scancode data k).

(** [character] is the output cell, [None] for a NULL pointer. *)
Definition keyboard_pop_char (character : option Z) (k : keyboard)
  : bool * option Z * keyboard :=
  match character with
  | None => (false, None, k)
  | Some c =>
      let read := kbd_read_sequence k in
      let write := kbd_write_sequence k in
      if read == write then (false, Some c, k)
      else
        let c := (character_queue k).[read .& KEYBOARD_QUEUE_MASK] in
        (true, Some c, with_read (u32 (read + 1)) k)
  end.

Definition keyboard_dropped_count (k : keyboard) : Z := dropped_characters k.

(** ** Abstraction: the pending characters, oldest first *)

Definition keyboard_pending (k : keyboard) : list Z :=
  ring_contents KEYBOARD_QUEUE_CAPACITY (character_queue k)
    (kbd_read_sequence k) (kbd_write_sequence k).

(** What the shell may receive: printable ASCII, newline or backspace. *)
Definition typable (c : Z) : bool :=
  ((0x20 <=? c) && (c <=? 0x7E)) || (c == NEWLINE) || (c == BACKSPACE).

Record keyboard_inv (k : keyboard) : Prop := {
  kbd_queue_len : alen (character_queue k) = KEYBOARD_QUEUE_CAPACITY;
  kbd_write_u32 : is_u32 (kbd_write_sequence k);
  kbd_read_u32 : is_u32 (kbd_read_sequence k);
  kbd_bounded : ring_len (kbd_read_sequence k) (kbd_write_sequence k)
                  <= KEYBOARD_QUEUE_CAPACITY;
  kbd_typable : Forall (fun c => typable c = true) (keyboard_pending k);
}.

(** ** Reference decoder: the US layout as a table

    Each key has its plain and its shifted character; letters also follow
    Caps Lock. *)

Definition us_layout : list (Z * (Z * Z)) :=
  zip (seqZ 0x02 10) (zip (cstr "1234567890") (cstr "!@#$%^&*()")) ++
  zip (seqZ 0x10 10) (zip (cstr "qwertyuiop") (cstr "QWERTYUIOP")) ++
  zip (seqZ 0x1E 9) (zip (cstr "asdfghjkl") (cstr "ASDFGHJKL")) ++
  zip (seqZ 0x2C 7) (zip (cstr "zxcvbnm") (cstr "ZXCVBNM")) ++
  [(0x1C, (NEWLINE, NEWLINE)); (0x0E, (BACKSPACE, BACKSPACE)); (0x39, (SPACE, SPACE))].

Inductive key_effect :=
| NoEffect
| SetPrefix (on : bool)
| SetLeftShift (down : bool)
| SetRightShift (down : bool)
| ToggleCaps
| Emit (c : Z).

#[export] Instance key_effect_eq_dec : EqDecision key_effect.
Proof. solve_decision. Defined.

Definition is_lower (c : Z) : bool := (ch "a" <=? c) && (c <=? ch "z").

Definition layout_effect (scancode : Z) (lshift rshift caps ext : bool) : key_effect :=
  let pressed := scancode <? 128 in
  let key := scancode mod 128 in
  let shift := lshift || rshift in
  if scancode =? 0xE0 then SetPrefix true
  else if ext then SetPrefix false
  else if key =? 0x2A then SetLeftShift pressed
  else if key =? 0x36 then SetRightShift pressed
  else if negb pressed then NoEffect
  else if key =? 0x3A then ToggleCaps
  else match list_find (fun row => row.1 = key) us_layout with
  | Some (_, (_, (plain, shifted))) =>
      Emit (if (if is_lower plain then xorb shift caps else shift) then shifted else plain)
  | None => NoEffect
  end.

Definition effect_of (scancode : Z) (k : keyboard) : key_effect :=
  layout_effect scancode (left_shift_down k) (right_shift_down k)
    (caps_lock_enabled k) (extended_prefix_pending k).

Definition apply_effect (ef : key_effect) (k : keyboard) : bool * keyboard :=
  let '(mk_kbd _ _ _ _ lshift rshift caps ext) := k in
  match ef with
  | NoEffect => (false, k)
  | SetPrefix on => (false, with_modifiers lshift rshift caps on k)
  | SetLeftShift down => (false, with_modifiers down rshift caps ext k)
  | SetRightShift down => (false, with_modifiers lshift down caps ext k)
  | ToggleCaps => (false, with_modifiers lshift rshift (negb caps) ext k)
  | Emit c => queue_push c k
  end.

(** The decision structure of [keyboard_feed_scancode], without the queue. *)
Definition code_effect (scancode : Z) (lshift rshift caps ext : bool) : key_effect :=
  if scancode == KEYBOARD_EXTENDED_PREFIX then SetPrefix true
  else if ext then SetPrefix false
  else
    let released := scancode .& KEYBOARD_RELEASE_BIT != 0 in
    let code := scancode .& not8 KEYBOARD_RELEASE_BIT in
    if code == KEYBOARD_LEFT_SHIFT then SetLeftShift (negb released)
    else if code == KEYBOARD_RIGHT_SHIFT then SetRightShift (negb released)
    else if released then NoEffect
    else if code == KEYBOARD_CAPS_LOCK then ToggleCaps
    else
      let shifted := lshift || rshift in
      let letter := letter_for_scancode code in
      let digit := digit_for_scancode code shifted in
      if letter != NUL
      then Emit (if xorb shifted caps then u8 (letter - (ch "a" - ch "A")) else letter)
      else if digit != NUL then Emit digit
      else if code == KEYBOARD_ENTER then Emit NEWLINE
      else if code == KEYBOARD_BACKSPACE then Emit BACKSPACE
      else if code == KEYBOARD_SPACE then Emit SPACE
      else NoEffect.

Lemma feed_code_effect scancode k :
  keyboard_feed_scancode scancode k =
  apply_effect (code_effect scancode (left_shift_down k) (right_shift_down k)
    (caps_lock_enabled k) (extended_prefix_pending k)) k.
Proof.
  destruct k as [q wr rd d l r c e]. unfold keyboard_feed_scancode, code_effect.
  cbn [left_shift_down right_shift_down caps_lock_enabled extended_prefix_pending].
  repeat match goal with |- context [if ?b then _ else _] => destruct b; [reflexivity|] end.
  all: try reflexivity.
  all: by repeat match goal with |- context [if ?b then _ else _] => destruct b end.
Qed.

(** Every scan code under every modifier state, compared with the table. *)
Lemma code_effect_table :
  Forall (fun sc => Forall (fun l => Forall (fun r => Forall (fun c => Forall (fun e =>
    code_effect sc l r c e = layout_effect sc l r c e)
    [false; true]) [false; true]) [false; true]) [false; true]) (seqZ 0 256).
Proof. apply (bool_decide_unpack _). vm_compute. exact I. Qed.

Lemma code_effect_layout sc l r c e :
  is_u8 sc -> code_effect sc l r c e = layout_effect sc l r c e.
Proof.
  assert (Hb : forall b, In b [false; true]) by (intros []; simpl; auto).
  intros Hsc. pose proof code_effect_table as H. rewrite Forall_seqZ in H.
  specialize (H sc Hsc).
  rewrite Forall_forall in H. specialize (H l (Hb l)).
  rewrite Forall_forall in H. specialize (H r (Hb r)).
  rewrite Forall_forall in H. specialize (H c (Hb c)).
  rewrite Forall_forall in H. exact (H e (Hb e)).
Qed.

Lemma feed_effect sc k :
  is_u8 sc -> keyboard_feed_scancode sc k = apply_effect (effect_of sc k) k.
Proof. intros Hsc. rewrite feed_code_effect, code_effect_layout by done. done. Qed.

(** Whatever the table emits is typable. *)
Lemma layout_rows_typable :
  Forall (fun row => typable row.2.1 = true /\ typable row.2.2 = true) us_layout.
Proof. apply (bool_decide_unpack _). vm_compute. exact I. Qed.

Lemma layout_emits_typable sc l r c e x :
  layout_effect sc l r c e = Emit x -> typable x = true.
Proof.
  unfold layout_effect. intros H.
  repeat match type of H with context [if ?b then _ else _] =>
    lazymatch b with context [is_lower] => fail | _ => destruct b; [discriminate H|] end end.
  destruct (list_find _ us_layout) as [[i [key [plain shifted]]]|] eqn:E; [|discriminate H].
  apply list_find_Some in E as (Hrow & _ & _).
  pose proof (Forall_lookup_1 _ _ _ _ layout_rows_typable Hrow) as [Hp Hs].
  injection H as <-. by destruct (if is_lower plain then _ else _).
Qed.

(** ** The queue *)

Ltac kbd_lia := unfold KEYBOARD_QUEUE_CAPACITY in *; lia.

Lemma queue_mask z : z .& KEYBOARD_QUEUE_MASK = z mod KEYBOARD_QUEUE_CAPACITY.
Proof. exact (land_low_bits z 6 ltac:(lia)). Qed.

Lemma capacity_divides : (KEYBOARD_QUEUE_CAPACITY | 4294967296).
Proof. exists 67108864. done. Qed.

Lemma queue_push_ok c k :
  keyboard_inv k -> typable c = true ->
  let '(ok, k') := queue_push c k in
  keyboard_inv k' /\ ok = (alen (keyboard_pending k) <? KEYBOARD_QUEUE_CAPACITY) /\
  keyboard_pending k' = (if ok then keyboard_pending k ++ [c] else keyboard_pending k) /\
  kbd_read_sequence k' = kbd_read_sequence k /\
  dropped_characters k' =
    (if ok then dropped_characters k else u32 (dropped_characters k + 1)).
Proof.
  intros [Hl Hw Hr Hb Ht] Hc. unfold queue_push, keyboard_pending in *.
  rewrite alen_ring_contents, queue_mask.
  fold (ring_len (kbd_read_sequence k) (kbd_write_sequence k)).
  destruct (_ >=? _) eqn:E; bprop; simpl.
  - split; [by split|]. split; [symmetry; apply Z.ltb_ge; lia|done].
  - assert (Hpush : ring_contents KEYBOARD_QUEUE_CAPACITY
      (character_queue k).[kbd_write_sequence k mod KEYBOARD_QUEUE_CAPACITY <- c]
      (kbd_read_sequence k) (u32 (kbd_write_sequence k + 1)) =
      ring_contents KEYBOARD_QUEUE_CAPACITY (character_queue k) (kbd_read_sequence k)
        (kbd_write_sequence k) ++ [c]).
    { apply ring_push; try done. apply capacity_divides. }
    split.
    { split; simpl; auto with wrap.
      - by rewrite alen_aset.
      - rewrite (ring_len_push KEYBOARD_QUEUE_CAPACITY) by kbd_lia. kbd_lia.
      - unfold keyboard_pending. simpl. rewrite Hpush. apply Forall_app. by repeat constructor. }
    split; [symmetry; apply Z.ltb_lt; lia|done].
Qed.

Lemma with_modifiers_inv l r c e k : keyboard_inv k -> keyboard_inv (with_modifiers l r c e k).
Proof. intros []. by split. Qed.

Lemma apply_effect_ok ef k :
  keyboard_inv k -> (forall c, ef = Emit c -> typable c = true) ->
  let '(ok, k') := apply_effect ef k in
  keyboard_inv k' /\ kbd_read_sequence k' = kbd_read_sequence k /\
  keyboard_pending k' = keyboard_pending k ++
    match ef with Emit c => if ok then [c] else [] | _ => [] end.
Proof.
  intros Hi Hty. destruct k as [q wr rd d l r c e].
  destruct ef as [| | | | |x]; cbn [apply_effect];
    try (rewrite app_nil_r; split; [by apply with_modifiers_inv|done]).
  { by rewrite app_nil_r. }
  pose proof (queue_push_ok x _ Hi (Hty x eq_refl)) as H.
  destruct (queue_push x _) as [ok k']. destruct H as (H1 & _ & H2 & H3 & _).
  split; [done|]. split; [done|]. rewrite H2. destruct ok; [done|by rewrite app_nil_r].
Qed.

(** [keyboard_feed_scancode] on a valid state, in one lemma. *)
Definition enqueued (sc : Z) (k : keyboard) : list Z :=
  match effect_of sc k with
  | Emit c => if fst (keyboard_feed_scancode sc k) then [c] else []
  | _ => []
  end.

Lemma feed_ok sc k :
  keyboard_inv k -> is_u8 sc ->
  let k' := snd (keyboard_feed_scancode sc k) in
  keyboard_inv k' /\ kbd_read_sequence k' = kbd_read_sequence k /\
  keyboard_pending k' = keyboard_pending k ++ enqueued sc k.
Proof.
  intros Hi Hsc. unfold enqueued. rewrite (feed_effect sc k Hsc).
  pose proof (apply_effect_ok (effect_of sc k) k Hi) as H.
  destruct (apply_effect (effect_of sc k) k) as [ok k']. apply H.
  intros c Hc. by eapply layout_emits_typable.
Qed.

Lemma keyboard_init_inv k :
  alen (character_queue k) = KEYBOARD_QUEUE_CAPACITY ->
  keyboard_inv (keyboard_init k) /\ keyboard_pending (keyboard_init k) = [].
Proof. intros Hl. by split. Qed.

Lemma pending_head k :
  keyboard_inv k -> kbd_read_sequence k <> kbd_write_sequence k ->
  keyboard_pending k =
    (character_queue k).[kbd_read_sequence k mod KEYBOARD_QUEUE_CAPACITY] ::
    keyboard_pending (with_read (u32 (kbd_read_sequence k + 1)) k).
Proof.
  intros [Hl Hw Hr Hb Ht] Hne. unfold keyboard_pending. simpl.
  apply ring_pop; try done; [apply capacity_divides|by rewrite ring_len_zero].
Qed.

Lemma with_read_inv k :
  keyboard_inv k -> kbd_read_sequence k <> kbd_write_sequence k ->
  keyboard_inv (with_read (u32 (kbd_read_sequence k + 1)) k).
Proof.
  intros Hi Hne. pose proof (pending_head k Hi Hne) as Hp. destruct Hi as [Hl Hw Hr Hb Ht].
  split; simpl; auto with wrap.
  - rewrite ring_len_pop by (by rewrite ring_len_zero). lia.
  - rewrite Hp in Ht. by inversion Ht.
Qed.

Lemma pending_empty k :
  keyboard_inv k -> (keyboard_pending k = [] <-> kbd_read_sequence k = kbd_write_sequence k).
Proof.
  intros Hi. split.
  - intros E. destruct (decide (kbd_read_sequence k = kbd_write_sequence k)); [done|].
    by rewrite pending_head in E.
  - intros E. unfold keyboard_pending. rewrite E. apply ring_empty.
Qed.

(** ** Interleaving of the interrupt and the main loop

    [keyboard_pop_char] as its four accesses to shared memory.  The program
    point holds the values already loaded. *)

Inductive pop_point :=
| PopStart
| PopReadLoaded (read : Z)
| PopBothLoaded (read write : Z)
| PopCharLoaded (read character : Z).

(** [produced] and [consumed] record the characters enqueued by interrupts
    and returned by [keyboard_pop_char] so far. *)
Record kbd_system := mk_sys {
  sys_kbd : keyboard;
  sys_point : pop_point;
  produced : list Z;
  consumed : list Z;
}.

Inductive kbd_step : kbd_system -> kbd_system -> Prop :=
| step_irq k pt pr co status data :
    is_u8 data ->
    kbd_step (mk_sys k pt pr co)
      (mk_sys (keyboard_handle_irq status data k) pt
         (pr ++ if status .& KEYBOARD_STATUS_OUTPUT_FULL == 0 then [] else enqueued data k) co)
| step_load_read k pr co :
    kbd_step (mk_sys k PopStart pr co)
      (mk_sys k (PopReadLoaded (kbd_read_sequence k)) pr co)
| step_load_write k read pr co :
    kbd_step (mk_sys k (PopReadLoaded read) pr co)
      (mk_sys k (PopBothLoaded read (kbd_write_sequence k)) pr co)
| step_empty k read pr co :
    kbd_step (mk_sys k (PopBothLoaded read read) pr co) (mk_sys k PopStart pr co)
| step_load_char k read write pr co :
    read <> write ->
    kbd_step (mk_sys k (PopBothLoaded read write) pr co)
      (mk_sys k (PopCharLoaded read (character_queue k).[read .& KEYBOARD_QUEUE_MASK]) pr co)
| step_publish k read character pr co :
    kbd_step (mk_sys k (PopCharLoaded read character) pr co)
      (mk_sys (with_read (u32 (read + 1)) k) PopStart pr (co ++ [character])).

(** The consumer's loaded values stay valid under interrupts. *)
Definition point_ok (k : keyboard) (pt : pop_point) : Prop :=
  match pt with
  | PopStart => True
  | PopReadLoaded read => read = kbd_read_sequence k
  | PopBothLoaded read write =>
      read = kbd_read_sequence k /\ (read <> write -> keyboard_pending k <> [])
  | PopCharLoaded read c => read = kbd_read_sequence k /\ head (keyboard_pending k) = Some c
  end.

Record sys_inv (y : kbd_system) : Prop := {
  sys_kbd_inv : keyboard_inv (sys_kbd y);
  sys_point_ok : point_ok (sys_kbd y) (sys_point y);
  sys_history : produced y = consumed y ++ keyboard_pending (sys_kbd y);
}.

Lemma point_ok_irq k k' pt new :
  kbd_read_sequence k' = kbd_read_sequence k ->
  keyboard_pending k' = keyboard_pending k ++ new -> point_ok k pt -> point_ok k' pt.
Proof.
  intros Hr Hp. destruct pt as [|read|read write|read c]; simpl; rewrite ?Hr, ?Hp; [done..| |].
  - intros [-> H]. split; [done|]. intros Hne. specialize (H Hne).
    by destruct (keyboard_pending k).
  - intros [-> H]. split; [done|]. by destruct (keyboard_pending k).
Qed.

Lemma kbd_step_inv y y' : kbd_step y y' -> sys_inv y -> sys_inv y'.
Proof.
  intros Hstep [Hi Hpt Hh]. destruct Hstep as
    [k pt pr co status data Hd|k pr co|k read pr co|k read pr co|k read write pr co Hne
    |k read c pr co]; simpl in *; split; simpl; try done.
  - unfold keyboard_handle_irq. destruct (_ == 0); [done|]. by apply feed_ok.
  - unfold keyboard_handle_irq. destruct (_ == 0); [done|].
    destruct (feed_ok data k Hi Hd) as (_ & Hr & Hp). by eapply point_ok_irq.
  - unfold keyboard_handle_irq. destruct (_ == 0); [by rewrite app_nil_r|].
    destruct (feed_ok data k Hi Hd) as (_ & _ & ->). by rewrite Hh, app_assoc.
  - subst read. split; [done|]. intros Hne Hnil. apply Hne, (pending_empty k Hi), Hnil.
  - destruct Hpt as [-> Hpend]. split; [done|]. specialize (Hpend Hne).
    rewrite queue_mask. rewrite pending_empty in Hpend by done. by rewrite pending_head.
  - destruct Hpt as [-> Hhd]. apply with_read_inv; [done|]. intros E.
    apply pending_empty in E; [|done]. by rewrite E in Hhd.
  - destruct Hpt as [-> Hhd].
    assert (Hne : kbd_read_sequence k <> kbd_write_sequence k).
    { intros E. apply pending_empty in E; [|done]. by rewrite E in Hhd. }
    rewrite Hh, (pending_head k Hi Hne). rewrite (pending_head k Hi Hne) in Hhd.
    injection Hhd as ->. by rewrite <-app_assoc.
Qed.

Lemma kbd_reachable_inv y y' : rtc kbd_step y y' -> sys_inv y -> sys_inv y'.
Proof. induction 1; eauto using kbd_step_inv. Qed.

Definition kbd_boot : kbd_system := mk_sys (keyboard_init keyboard_static) PopStart [] [].

Lemma kbd_boot_inv : sys_inv kbd_boot.
Proof. by split; [apply keyboard_init_inv|..]. Qed.

(** Without an interrupt in between, the steps are [keyboard_pop_char]. *)
Lemma pop_char_steps k c0 pr co :
  keyboard_inv k ->
  let '(ok, out, k') := keyboard_pop_char (Some c0) k in
  rtc kbd_step (mk_sys k PopStart pr co)
    (mk_sys k' PopStart pr (if ok then co ++ from_option (fun c => [c]) [] out else co)).
Proof.
  intros Hi. unfold keyboard_pop_char. destruct (_ == _) eqn:E; bprop.
  - eapply rtc_l; [apply step_load_read|]. eapply rtc_l; [apply step_load_write|].
    rewrite <-E. eapply rtc_l; [apply step_empty|]. apply rtc_refl.
  - eapply rtc_l; [apply step_load_read|]. eapply rtc_l; [apply step_load_write|].
    eapply rtc_l; [by apply step_load_char|]. eapply rtc_l; [apply step_publish|]. apply rtc_refl.
Qed.

(** ** Properties *)

(** C11: in every interleaving of keyboard interrupts with the four memory
    accesses of [keyboard_pop_char] (an interrupt may arrive between any two
    of them), the characters handed to the main loop followed by those still
    queued are exactly the characters the interrupts enqueued, in order; the
    queue never holds more than 64, and every queued character is printable
    ASCII, newline or backspace. *)
Theorem keyboard_queue_interleaving y :
  rtc kbd_step kbd_boot y ->
  produced y = consumed y ++ keyboard_pending (sys_kbd y) /\
  alen (keyboard_pending (sys_kbd y)) <= KEYBOARD_QUEUE_CAPACITY /\
  Forall (fun c => typable c = true) (produced y).
Proof.
  intros Hr.
  assert (H : sys_inv y /\ Forall (fun c => typable c = true) (produced y)).
  { revert Hr. generalize kbd_boot_inv.
    assert (Forall (fun c => typable c = true) (produced kbd_boot)) as H0 by constructor.
    revert H0. generalize kbd_boot. intros y0 H0 Hi Hr.
    induction Hr as [z|z z1 z2 Hstep _ IH]; [done|].
    pose proof (kbd_step_inv _ _ Hstep Hi) as Hi1. apply IH; [|done].
    destruct Hstep; try done. simpl in *. apply Forall_app. split; [done|].
    destruct (_ == 0); [constructor|]. unfold enqueued.
    destruct (effect_of data k) as [| | | | |c] eqn:Ef; try constructor.
    destruct (fst _); repeat constructor. by eapply layout_emits_typable. }
  destruct H as [Hi Hty]. split; [apply Hi|]. split; [|done].
  unfold keyboard_pending. rewrite alen_ring_contents. apply Hi.
Qed.

(** A pop interrupted after it has loaded both sequence numbers. *)
Lemma demo_interleaved : exists y, rtc kbd_step kbd_boot y /\
  produced y = [ch "a"; ch "s"] /\ consumed y = [ch "a"].
Proof.
  eexists. split; [|split].
  - eapply rtc_l; [apply (step_irq _ _ _ _ 1 0x1E); unfold is_u8; lia|].
    eapply rtc_l; [apply step_load_read|]. eapply rtc_l; [apply step_load_write|].
    eapply rtc_l; [apply (step_irq _ _ _ _ 1 0x1F); unfold is_u8; lia|].
    eapply rtc_l; [apply step_load_char; vm_compute; discriminate|].
    eapply rtc_l; [apply step_publish|]. apply rtc_refl.
  - vm_compute. reflexivity.
  - vm_compute. reflexivity.
Qed.

Lemma keyboard_queue_interleaving_witness :
  exists y, rtc kbd_step kbd_boot y /\ consumed y = [ch "a"] /\
    produced y = consumed y ++ keyboard_pending (sys_kbd y).
Proof.
  destruct demo_interleaved as (y & Hr & _ & Hc). exists y. split; [exact Hr|].
  split; [exact Hc|]. exact (proj1 (keyboard_queue_interleaving y Hr)).
Defined.

(** C40: the decoder is the US Set 1 layout: for every scan code and every
    state of the shift keys, Caps Lock and the extended prefix,
    [keyboard_feed_scancode] has the effect the layout table gives (which
    character is queued, which modifier changes), and nothing else. *)
Theorem keyboard_decodes_us_layout sc k :
  is_u8 sc -> keyboard_feed_scancode sc k = apply_effect (effect_of sc k) k.
Proof. apply feed_effect. Qed.

Lemma keyboard_decodes_us_layout_witness :
  keyboard_feed_scancode 0x1E (keyboard_init keyboard_static) =
  apply_effect (Emit (ch "a")) (keyboard_init keyboard_static).
Proof.
  apply (keyboard_decodes_us_layout 0x1E (keyboard_init keyboard_static)).
  unfold is_u8. lia.
Defined.

(** Enqueueing from any valid queue state succeeds exactly when fewer
    than 64 characters are pending; a refused character leaves the pending
    characters unchanged and adds one to the dropped counter, an accepted one
    leaves the counter unchanged. *)
Theorem keyboard_drop_accounting c k :
  keyboard_inv k -> typable c = true ->
  let '(ok, k') := queue_push c k in
  ok = (alen (keyboard_pending k) <? KEYBOARD_QUEUE_CAPACITY) /\
  keyboard_pending k' = (if ok then keyboard_pending k ++ [c] else keyboard_pending k) /\
  keyboard_dropped_count k' =
    (if ok then keyboard_dropped_count k else u32 (keyboard_dropped_count k + 1)).
Proof.
  intros Hi Hc. pose proof (queue_push_ok c k Hi Hc) as H.
  destruct (queue_push c k) as [ok k']. unfold keyboard_dropped_count. tauto.
Qed.

(** A queue whose write sequence number is about to wrap. *)
Definition full_keyboard : keyboard :=
  mk_kbd (replicate (Z.to_nat KEYBOARD_QUEUE_CAPACITY) (ch "x")) 10 4294967242 0
    false false false false.

Lemma full_keyboard_inv : keyboard_inv full_keyboard.
Proof.
  split; try done; try (simpl; unfold is_u32; lia).
  apply (bool_decide_unpack _). vm_compute. exact I.
Qed.

Lemma keyboard_drop_accounting_witness :
  keyboard_dropped_count (snd (queue_push (ch "y") full_keyboard)) = 1.
Proof.
  pose proof (keyboard_drop_accounting (ch "y") full_keyboard full_keyboard_inv eq_refl) as H.
  vm_compute in H. exact (proj2 (proj2 H)).
Defined.
