(* ===== verification/Console.v ===== *)
(** * Console (src/kernel/console/console.c, src/kernel/serial.c)

    The VGA text buffer with its cursor and the bytes sent to COM1.  Waiting
    for the transmitter is not modelled: a byte handed to [serial_write_char]
    is sent.  [serial_init] is the sequence of its port writes. *)
From S2P Require Import Prelude.

Definition VGA_WIDTH : Z := 80.
Definition VGA_HEIGHT : Z := 25.
Definition VGA_COLOR_LIGHT_GREY_ON_BLACK : Z := 0x07.
Definition VGA_BUFFER_CELLS : Z := VGA_WIDTH * VGA_HEIGHT.
Definition COM1 : Z := 0x3F8.

(** What goes out on the ports: a byte for a port. *)
Record console := mk_console {
  vga_buffer : list Z;
  vga_row : Z;
  vga_column : Z;
  port_writes : list (Z * Z);
}.

Definition set_vga (b : list Z) (r c : Z) (s : console) : console := mk_console b r c (port_writes s).

(** ** serial.c *)

Definition outb (port value : Z) (s : console) : console :=
  mk_console (vga_buffer s) (vga_row s) (vga_column s) (port_writes s ++ [(port, value)]).

Definition serial_write_char (value : Z) (s : console) : console := outb COM1 (u8 value) s.

Definition serial_init (s : console) : console :=
  let s := outb (COM1 + 1) 0x00 s in
  let s := outb (COM1 + 3) 0x80 s in
  let s := outb (COM1 + 0) 0x03 s in
  let s := outb (COM1 + 1) 0x00 s in
  let s := outb (COM1 + 3) 0x03 s in
  let s := outb (COM1 + 2) 0xC7 s in
  outb (COM1 + 4) 0x0B s.

Fixpoint serial_write (text : list Z) (s : console) : console :=
  match text with
  | [] => s
  | c :: text =>
      if c == NUL then s
      else
        let s := if c == NEWLINE then serial_write_char RETURN s else s in
        serial_write text (serial_write_char c s)
  end.

(** ** The VGA buffer *)

Definition vga_entry (value : Z) : Z :=
  u16 (u8 value) .| u16 (Z.shiftl VGA_COLOR_LIGHT_GREY_ON_BLACK 8).

Definition vga_blank : Z := vga_entry SPACE.

Definition vga_put_cell (row column entry : Z) (s : console) : console :=
  let index := u32 (u32 (row * VGA_WIDTH) + column) in
  if index >=? VGA_BUFFER_CELLS then s
  else set_vga (vga_buffer s).[index <- entry] (vga_row s) (vga_column s) s.

Definition vga_scroll (s : console) : console :=
  let s := for_range 0 (VGA_HEIGHT - 1) (fun row s =>
    for_range 0 VGA_WIDTH (fun column s =>
      vga_put_cell row column (vga_buffer s).[(row + 1) * VGA_WIDTH + column] s) s) s in
  let s := for_range 0 VGA_WIDTH (fun column s =>
    vga_put_cell (VGA_HEIGHT - 1) column vga_blank s) s in
  set_vga (vga_buffer s) (VGA_HEIGHT - 1) (vga_column s) s.

Definition vga_advance_line (s : console) : console :=
  let s := set_vga (vga_buffer s) (u32 (vga_row s + 1)) 0 s in
  if vga_row s == VGA_HEIGHT then vga_scroll s else s.

Definition vga_backspace (s : console) : bool * console :=
  if vga_column s >? 0 then
    let s := set_vga (vga_buffer s) (vga_row s) (u32 (vga_column s - 1)) s in
    (true, vga_put_cell (vga_row s) (vga_column s) vga_blank s)
  else if vga_row s >? 0 then
    let s := set_vga (vga_buffer s) (u32 (vga_row s - 1)) (VGA_WIDTH - 1) s in
    (true, vga_put_cell (vga_row s) (vga_column s) vga_blank s)
  else (false, s).

Definition vga_put_printable (value : Z) (s : console) : console :=
  let s := vga_put_cell (vga_row s) (vga_column s) (vga_entry value) s in
  let s := set_vga (vga_buffer s) (vga_row s) (u32 (vga_column s + 1)) s in
  if vga_column s == VGA_WIDTH then vga_advance_line s else s.

Definition serial_putc (value : Z) (s : console) : console := serial_write [value; NUL] s.

(** ** The interface *)

Definition console_clear (s : console) : console :=
  let s := for_range 0 VGA_HEIGHT (fun row s =>
    for_range 0 VGA_WIDTH (fun column s => vga_put_cell row column vga_blank s) s) s in
  set_vga (vga_buffer s) 0 0 s.

Definition console_init (s : console) : console := console_clear (serial_init s).

Definition console_putc (value : Z) (s : console) : console :=
  if value == NEWLINE then serial_putc value (vga_advance_line s)
  else if value == RETURN then serial_putc value (set_vga (vga_buffer s) (vga_row s) 0 s)
  else if value == BACKSPACE then
    let '(moved, s) := vga_backspace s in
    if moved then serial_write [BACKSPACE; SPACE; BACKSPACE] s else s
  else if (value <? 0x20) || (value >? 0x7E) then s
  else serial_putc value (vga_put_printable value s).

(** [None] is the null pointer. *)
Fixpoint console_write_text (text : list Z) (s : console) : console :=
  match text with
  | [] => s
  | c :: text => if c == NUL then s else console_write_text text (console_putc c s)
  end.

Definition console_write (text : option (list Z)) (s : console) : console :=
  match text with
  | None => s
  | Some text => console_write_text text s
  end.

Definition hex_digits : list Z := cstr "0123456789abcdef".

(** The loop runs from nibble 7 down to nibble 0. *)
Definition console_write_u32_hex (value : Z) (s : console) : console :=
  let s := console_write (Some (cstr "0x")) s in
  for_range 0 8 (fun i s =>
    let nibble := 7 - i in
    console_putc hex_digits.[Z.shiftr value (nibble * 4) .& 0xF] s) s.

(** The digits, least significant first; ten cover every 32-bit value. *)
Fixpoint collect_digits (fuel : nat) (value count : Z) (digits : list Z) : option (Z * list Z) :=
  if value >? 0 then
    match fuel with
    | O => None
    | S fuel => collect_digits fuel (value / 10) (count + 1) digits.[count <- ch "0" + value mod 10]
    end
  else Some (count, digits).

Definition print_digits (count : Z) (digits : list Z) (s : console) : console :=
  for_range 0 count (fun i s => console_putc digits.[count - 1 - i] s) s.

(** [None]: the digit buffer would be overrun. *)
Definition console_write_u32_dec (value : Z) (s : console) : option console :=
  if value == 0 then Some (console_putc (ch "0") s)
  else
    match collect_digits 10 value 0 (replicate 10 0) with
    | Some (count, digits) => Some (print_digits count digits s)
    | None => None
    end.

(** ** Specification

    A terminal: 2000 character cells in reading order, one linear cursor and
    the bytes sent over the serial line. *)

Record terminal := mk_terminal {
  cells : list Z;
  cursor : Z;
  sent : list Z;
}.

Definition blank_terminal (sent : list Z) : terminal := mk_terminal (replicate 2000 SPACE) 0 sent.

(** One line up. *)
Definition scroll_cells {A} (blank : A) (b : list A) : list A := drop 80 b ++ replicate 80 blank.

(** A cursor past the last cell scrolls the cells up by one line. *)
Definition scrolled (t : terminal) : terminal :=
  if cursor t == 2000
  then mk_terminal (scroll_cells SPACE (cells t)) 1920 (sent t)
  else t.

Definition send (bytes : list Z) (t : terminal) : terminal := mk_terminal (cells t) (cursor t) (sent t ++ bytes).

Definition printable (c : Z) : bool := (0x20 <=? c) && (c <=? 0x7E).

Definition term_putc (c : Z) (t : terminal) : terminal :=
  if c == NEWLINE then
    send [RETURN; NEWLINE] (scrolled (mk_terminal (cells t) ((cursor t / 80 + 1) * 80) (sent t)))
  else if c == RETURN then send [RETURN] (mk_terminal (cells t) (cursor t / 80 * 80) (sent t))
  else if c == BACKSPACE then
    if cursor t == 0 then t
    else send [BACKSPACE; SPACE; BACKSPACE] (mk_terminal (cells t).[cursor t - 1 <- SPACE] (cursor t - 1) (sent t))
  else if printable c then
    send [c] (scrolled (mk_terminal (cells t).[cursor t <- c] (cursor t + 1) (sent t)))
  else t.

Definition term_write (text : list Z) (t : terminal) : terminal :=
  fold_left (fun t c => term_putc c t) (c_chars text) t.

(** [s] shows [t]; [before] are the port writes made before. *)
Record shows (before : list (Z * Z)) (s : console) (t : terminal) : Prop := {
  sh_cells : alen (cells t) = 2000;
  sh_cursor : 0 <= cursor t < 2000;
  sh_buffer : vga_buffer s = vga_entry <$> cells t;
  sh_row : vga_row s = cursor t / 80;
  sh_column : vga_column s = cursor t mod 80;
  sh_ports : port_writes s = before ++ ((fun b => (COM1, b)) <$> sent t);
}.

(** ** The buffer loops *)

Lemma put_cell_inside row column entry s :
  0 <= row < 25 -> 0 <= column < 80 ->
  vga_put_cell row column entry s =
  set_vga (vga_buffer s).[row * 80 + column <- entry] (vga_row s) (vga_column s) s.
Proof.
  intros Hr Hc. unfold vga_put_cell, VGA_WIDTH. rewrite !u32_small by (rewrite ?u32_small; unfold is_u32; lia).
  change VGA_BUFFER_CELLS with 2000. by rewrite Z.geb_leb, (proj2 (Z.leb_gt _ _)) by lia.
Qed.

(** One line is overwritten with [g], where [f] computes a cell of [g] from
    any buffer that still holds the old cells from there on. *)
Section Fill.
Context (lo hi : Z) (f : Z -> Z -> list Z -> Z) (g : Z -> Z) (old : list Z) (s : console).
Hypothesis Hlines : 0 <= lo <= hi /\ hi <= 25.
Hypothesis Hold : alen old = 2000.
Hypothesis Hf : forall row column buf, lo <= row < hi -> 0 <= column < 80 ->
  (forall j, row * 80 + column <= j < 2000 -> buf.[j] = old.[j]) -> f row column buf = g (row * 80 + column).

(** Cells before [k] are new, the others old. *)
Definition filled (k : Z) (t : console) : Prop :=
  exists buf, t = set_vga buf (vga_row s) (vga_column s) s /\ alen buf = 2000 /\
    forall j, 0 <= j < 2000 -> buf.[j] = if j <? k then g j else old.[j].

Lemma fill_line row t :
  lo <= row < hi -> filled (row * 80) t ->
  filled (row * 80 + 80) (for_range 0 80 (fun column t => vga_put_cell row column (f row column (vga_buffer t)) t) t).
Proof using Hlines Hold Hf.
  intros Hr H0. apply (for_range_ind (fun k t => filled (row * 80 + k) t)); [lia|by rewrite Z.add_0_r|].
  intros column t' Hc (buf & -> & Hl & Hb). rewrite put_cell_inside by lia. cbn [vga_buffer set_vga].
  rewrite (Hf row column buf) by (try lia; intros j Hj; rewrite Hb, (proj2 (Z.ltb_ge j _)) by lia; done).
  exists buf.[row * 80 + column <- g (row * 80 + column)]. split; [done|]. split; [by rewrite alen_aset|].
  intros j Hj. destruct (decide (j = row * 80 + column)) as [->|Hne].
  - rewrite aget_aset_eq by lia. by rewrite (proj2 (Z.ltb_lt _ _)) by lia.
  - rewrite aget_aset_ne, Hb by lia. bcase; try lia; done.
Qed.

Lemma fill_lines t :
  filled (lo * 80) t ->
  filled (hi * 80) (for_range lo hi (fun row t =>
    for_range 0 80 (fun column t => vga_put_cell row column (f row column (vga_buffer t)) t) t) t).
Proof using Hlines Hold Hf.
  intros H0. apply (for_range_ind (fun k t => filled (k * 80) t)); [lia|done|].
  intros row t' Hrow Ht'. replace ((row + 1) * 80) with (row * 80 + 80) by lia. by apply fill_line.
Qed.
End Fill.

Lemma filled_start g s k :
  alen (vga_buffer s) = 2000 -> (forall j, 0 <= j < k -> g j = (vga_buffer s).[j]) -> filled g (vga_buffer s) s k s.
Proof.
  intros Hl Hg. exists (vga_buffer s). split; [by destruct s|]. split; [done|].
  intros j Hj. destruct (Z.ltb_spec j k); [|done]. rewrite Hg by lia. done.
Qed.

(** The state in which all cells are [cs]. *)
Lemma filled_all g old s t cs :
  filled g old s 2000 t -> alen cs = 2000 -> (forall j, 0 <= j < 2000 -> g j = cs.[j]) ->
  t = set_vga cs (vga_row s) (vga_column s) s.
Proof.
  intros (buf & -> & Hl & Hb) Hcs Hg. f_equal. apply array_eq; [lia|]. rewrite Hl. intros j Hj.
  rewrite Hb, (proj2 (Z.ltb_lt _ _)) by lia. by apply Hg.
Qed.

Lemma scroll_cells_get `{Inhabited A} (blank : A) b j :
  alen b = 2000 -> 0 <= j < 2000 ->
  (scroll_cells blank b).[j] = if j <? 1920 then b.[j + 80] else blank.
Proof.
  intros Hl Hj. unfold scroll_cells, aget, alen in *. destruct (Z.ltb_spec j 1920).
  - rewrite lookup_total_app_l by (rewrite length_drop; lia).
    rewrite lookup_total_drop. f_equal. lia.
  - rewrite lookup_total_app_r by (rewrite length_drop; lia).
    apply lookup_total_replicate_2. rewrite length_drop. lia.
Qed.

Lemma alen_scroll_cells {A} (blank : A) b : alen b = 2000 -> alen (scroll_cells blank b) = 2000.
Proof. intros. unfold scroll_cells. rewrite alen_app. unfold alen in *. rewrite length_drop, length_replicate. lia. Qed.

(** The first loop moves 24 lines up, the second blanks the last one. *)
Lemma vga_scroll_spec s :
  alen (vga_buffer s) = 2000 ->
  vga_scroll s = set_vga (scroll_cells vga_blank (vga_buffer s)) 24 (vga_column s) s.
Proof.
  intros Hl. unfold vga_scroll, VGA_HEIGHT, VGA_WIDTH. change (25 - 1) with 24. cbv zeta.
  assert (H1 : filled (fun j => (vga_buffer s).[j + 80]) (vga_buffer s) s (24 * 80)
    (for_range 0 24 (fun row s => for_range 0 80 (fun column s =>
      vga_put_cell row column (vga_buffer s).[(row + 1) * 80 + column] s) s) s)).
  { apply (fill_lines 0 24 (fun row column buf => buf.[(row + 1) * 80 + column])); [lia|done| |].
    - intros row column buf Hr Hc Hb. rewrite Hb by lia. f_equal. lia.
    - apply filled_start; [done|]. intros; lia. }
  destruct (for_range 0 24 _ s) as [b2 r2 c2 p2] eqn:E2. destruct H1 as (buf & [= -> -> -> ->] & Hl2 & Hb2).
  clear E2. set (s2 := mk_console _ _ _ _).
  assert (H2 : filled (fun j => if j <? 1920 then buf.[j] else vga_blank) buf s2 (24 * 80 + 80)
    (for_range 0 80 (fun column s => vga_put_cell 24 column vga_blank s) s2)).
  { apply (fill_line 24 25 (fun _ _ _ => vga_blank)); [lia|done| |lia|].
    - intros row column b Hr Hc _. rewrite (proj2 (Z.ltb_ge _ 1920)) by lia. done.
    - apply (filled_start _ s2); [done|]. intros j Hj. by rewrite (proj2 (Z.ltb_lt j 1920)) by lia. }
  rewrite (filled_all _ _ _ _ (scroll_cells vga_blank (vga_buffer s)) H2); [done|by apply alen_scroll_cells|].
  intros j Hj. rewrite scroll_cells_get by done. destruct (Z.ltb_spec j 1920); [|done].
  rewrite Hb2, (proj2 (Z.ltb_lt _ _)) by lia. done.
Qed.

Lemma console_clear_spec s :
  alen (vga_buffer s) = 2000 -> console_clear s = set_vga (replicate 2000 vga_blank) 0 0 s.
Proof.
  intros Hl. unfold console_clear, VGA_HEIGHT, VGA_WIDTH. cbv zeta.
  assert (H : filled (fun _ => vga_blank) (vga_buffer s) s (25 * 80)
    (for_range 0 25 (fun row s => for_range 0 80 (fun column s => vga_put_cell row column vga_blank s) s) s)).
  { apply (fill_lines 0 25 (fun _ _ _ => vga_blank)); [lia|done|done|].
    apply filled_start; [done|]. intros; lia. }
  rewrite (filled_all _ _ _ _ (replicate 2000 vga_blank) H); [done|done|].
  intros j Hj. symmetry. by apply (aget_replicate 2000).
Qed.

(** ** Characters *)

Lemma scroll_cells_entry cs :
  vga_entry <$> scroll_cells SPACE cs = scroll_cells vga_blank (vga_entry <$> cs).
Proof. unfold scroll_cells. by rewrite fmap_app, fmap_drop, fmap_replicate. Qed.

(** The state [s] with the cells, cursor and serial output of [t]. *)
Definition display (before : list (Z * Z)) (t : terminal) : console :=
  mk_console (vga_entry <$> cells t) (cursor t / 80) (cursor t mod 80)
    (before ++ ((fun b => (COM1, b)) <$> sent t)).

Lemma shows_display before s t :
  shows before s t -> s = display before t /\ alen (cells t) = 2000 /\ 0 <= cursor t < 2000.
Proof. intros [H1 H2 H3 H4 H5 H6]. destruct s. unfold display. simpl in *. by subst. Qed.

Lemma display_shows before t : alen (cells t) = 2000 -> 0 <= cursor t < 2000 -> shows before (display before t) t.
Proof. by split. Qed.

Lemma advance_line_display before cs row column bytes :
  alen cs = 2000 -> 0 <= row < 25 ->
  vga_advance_line (mk_console (vga_entry <$> cs) row column (before ++ ((fun b => (COM1, b)) <$> bytes))) =
  display before (scrolled (mk_terminal cs ((row + 1) * 80) bytes)).
Proof.
  intros Hl Hr. unfold vga_advance_line, set_vga. cbn [vga_row vga_buffer port_writes].
  rewrite u32_small by (unfold is_u32; lia). unfold VGA_HEIGHT, scrolled. cbn [cursor cells sent].
  destruct (Z.eqb_spec (row + 1) 25) as [E|E].
  - rewrite (proj2 (Z.eqb_eq ((row + 1) * 80) 2000)) by lia. rewrite vga_scroll_spec by (cbn [vga_buffer]; by rewrite alen_fmap).
    unfold display, set_vga. cbn [cells cursor sent vga_buffer vga_column port_writes].
    by rewrite scroll_cells_entry.
  - rewrite (proj2 (Z.eqb_neq ((row + 1) * 80) 2000)) by lia. unfold display. cbn [cells cursor sent].
    by rewrite Z.div_mul, Z.mod_mul by lia.
Qed.

Lemma cursor_split k : 0 <= k < 2000 -> 0 <= k / 80 < 25 /\ 0 <= k mod 80 < 80 /\ k / 80 * 80 + k mod 80 = k.
Proof. intros Hk. Z.to_euclidean_division_equations. lia. Qed.

Lemma put_cell_display before t c :
  alen (cells t) = 2000 -> 0 <= cursor t < 2000 ->
  vga_put_cell (cursor t / 80) (cursor t mod 80) (vga_entry c) (display before t) =
  display before (mk_terminal (cells t).[cursor t <- c] (cursor t) (sent t)).
Proof.
  intros Hl Hc. destruct (cursor_split (cursor t) Hc) as (Hr & Hcol & Hs).
  rewrite put_cell_inside, Hs by done. unfold display, set_vga. cbn. by rewrite fmap_aset.
Qed.

Lemma printable_display before t c :
  alen (cells t) = 2000 -> 0 <= cursor t < 2000 ->
  vga_put_printable c (display before t) =
  display before (scrolled (mk_terminal (cells t).[cursor t <- c] (cursor t + 1) (sent t))).
Proof.
  intros Hl Hc. destruct (cursor_split (cursor t) Hc) as (Hr & Hcol & Hs).
  unfold vga_put_printable. cbn [display vga_row vga_column]. fold (display before t).
  rewrite put_cell_display by done. set (rhs := display before (scrolled _)).
  unfold display, set_vga. cbn [vga_buffer vga_row vga_column port_writes cells cursor sent]. subst rhs.
  rewrite u32_small by (unfold is_u32; lia). unfold VGA_WIDTH.
  destruct (Z.eqb_spec (cursor t mod 80 + 1) 80) as [E|E].
  - rewrite advance_line_display by (rewrite ?alen_aset; done). do 3 f_equal. lia.
  - unfold scrolled. cbn [cursor]. rewrite (proj2 (Z.eqb_neq (cursor t + 1) 2000)); [|clear -E Hc; Z.to_euclidean_division_equations; lia].
    unfold display. cbn [cells cursor sent]. f_equal; clear -E Hc Hcol; Z.to_euclidean_division_equations; lia.
Qed.

Lemma backspace_display before t :
  alen (cells t) = 2000 -> 0 <= cursor t < 2000 ->
  vga_backspace (display before t) =
  if cursor t == 0 then (false, display before t)
  else (true, display before (mk_terminal (cells t).[cursor t - 1 <- SPACE] (cursor t - 1) (sent t))).
Proof.
  intros Hl Hc. destruct (cursor_split (cursor t) Hc) as (Hr & Hcol & Hs). unfold vga_backspace.
  cbn [display vga_row vga_column vga_buffer]. rewrite !Z.gtb_ltb.
  destruct (Z.eqb_spec (cursor t) 0) as [E0|E0]; [by rewrite E0|].
  set (t1 := mk_terminal (cells t) (cursor t - 1) (sent t)).
  assert (Hput : vga_put_cell (cursor t1 / 80) (cursor t1 mod 80) vga_blank (display before t1) =
    display before (mk_terminal (cells t).[cursor t - 1 <- SPACE] (cursor t - 1) (sent t)))
    by (apply (put_cell_display before t1 SPACE); [done|cbn; lia]).
  destruct (Z.ltb_spec 0 (cursor t mod 80)) as [Hpos|Hzero].
  - assert (E : set_vga (vga_entry <$> cells t) (cursor t / 80) (u32 (cursor t mod 80 - 1)) (display before t) = display before t1).
    { rewrite u32_small by (unfold is_u32; lia). unfold display, set_vga, t1. cbn.
      f_equal; clear -Hpos Hc; Z.to_euclidean_division_equations; lia. }
    fold (display before t). rewrite E. cbn [display vga_row vga_column] in *. fold (display before t1) in *. by rewrite Hput.
  - rewrite (proj2 (Z.ltb_lt 0 (cursor t / 80))) by lia.
    assert (E : set_vga (vga_entry <$> cells t) (u32 (cursor t / 80 - 1)) (VGA_WIDTH - 1) (display before t) = display before t1).
    { rewrite u32_small by (unfold is_u32; lia). unfold display, set_vga, t1, VGA_WIDTH. cbn.
      f_equal; clear -Hzero Hcol E0 Hc; Z.to_euclidean_division_equations; lia. }
    fold (display before t). rewrite E. cbn [display vga_row vga_column] in *. fold (display before t1) in *. by rewrite Hput.
Qed.

(** ** Serial output *)

Ltac bytes := repeat apply Forall_cons_2; try apply Forall_nil_2; try done; unfold is_u8; lia.

Lemma write_char_display before t c :
  is_u8 c -> serial_write_char c (display before t) = display before (send [c] t).
Proof.
  intros Hc. unfold serial_write_char, outb, display, send. cbn. rewrite u8_small by done.
  by rewrite fmap_app, <-app_assoc.
Qed.

Lemma send_send bs bs' t : send bs' (send bs t) = send (bs ++ bs') t.
Proof. unfold send. cbn. by rewrite <-app_assoc. Qed.

(** What [serial_write] sends for a text. *)
Definition serial_bytes (text : list Z) : list Z :=
  flat_map (fun c => if c == NEWLINE then [RETURN; c] else [c]) (c_chars text).

Lemma send_nil t : send [] t = t.
Proof. unfold send. rewrite app_nil_r. by destruct t. Qed.

Lemma serial_write_display before text t :
  Forall is_u8 text -> serial_write text (display before t) = display before (send (serial_bytes text) t).
Proof.
  intros Ht. revert t. induction Ht as [|c text Hc _ IH]; intros t; unfold serial_bytes; cbn [serial_write c_chars].
  { cbn. by rewrite send_nil. }
  destruct (Z.eqb_spec c 0) as [->|Hnz].
  { cbn. by rewrite send_nil. }
  rewrite (proj2 (Z.eqb_neq c NUL)) by done. cbn [flat_map]. destruct (Z.eqb_spec c NEWLINE) as [->|Hnl].
  - rewrite !write_char_display, IH by done. by rewrite !send_send.
  - rewrite write_char_display, IH by done. by rewrite !send_send.
Qed.

(** ** The interface refines the terminal *)

Lemma scrolled_ok t : alen (cells t) = 2000 -> 0 <= cursor t <= 2000 ->
  alen (cells (scrolled t)) = 2000 /\ 0 <= cursor (scrolled t) < 2000.
Proof.
  intros Hl Hc. unfold scrolled. destruct (Z.eqb_spec (cursor t) 2000); cbn [cells cursor]; [|lia].
  split; [by apply alen_scroll_cells|lia].
Qed.

Lemma putc_display before c t :
  is_u8 c -> alen (cells t) = 2000 -> 0 <= cursor t < 2000 ->
  console_putc c (display before t) = display before (term_putc c t) /\
  alen (cells (term_putc c t)) = 2000 /\ 0 <= cursor (term_putc c t) < 2000.
Proof.
  intros Hu Hl Hc. destruct (cursor_split (cursor t) Hc) as (Hr & Hcol & Hs).
  unfold console_putc, term_putc, serial_putc. destruct (Z.eqb_spec c NEWLINE) as [->|H1].
  { unfold display at 1. rewrite advance_line_display, serial_write_display by first [done | bytes].
    split; [done|]. apply scrolled_ok; cbn [cells cursor]; [done|lia]. }
  destruct (Z.eqb_spec c RETURN) as [->|H2].
  { assert (E : set_vga (vga_buffer (display before t)) (vga_row (display before t)) 0 (display before t) =
      display before (mk_terminal (cells t) (cursor t / 80 * 80) (sent t)))
      by (unfold display, set_vga; cbn; by rewrite Z.div_mul, Z.mod_mul by lia).
    rewrite E, serial_write_display by bytes. split; [done|]. cbn. split; [done|]. lia. }
  destruct (Z.eqb_spec c BACKSPACE) as [->|H3].
  { rewrite backspace_display by done. destruct (Z.eqb_spec (cursor t) 0) as [E|E]; [done|].
    rewrite serial_write_display by bytes. split; [done|]. cbn. rewrite alen_aset. lia. }
  unfold printable. rewrite Z.gtb_ltb. destruct (Z.ltb_spec c 0x20), (Z.leb_spec 0x20 c); try lia; [done|].
  destruct (Z.ltb_spec 0x7E c), (Z.leb_spec c 0x7E); try lia; [done|]. cbn [andb orb].
  rewrite printable_display, serial_write_display by first [done | bytes].
  unfold serial_bytes. cbn [c_chars]. rewrite (proj2 (Z.eqb_neq c 0)) by lia. cbn [flat_map c_chars].
  rewrite (proj2 (Z.eqb_neq c NEWLINE)) by done. split; [done|]. apply scrolled_ok; cbn [cells cursor]; rewrite ?alen_aset; [done|lia].
Qed.

Lemma putc_shows before c s t :
  is_u8 c -> shows before s t -> shows before (console_putc c s) (term_putc c t).
Proof.
  intros Hu Hsh. destruct (shows_display _ _ _ Hsh) as (-> & Hl & Hc).
  destruct (putc_display before c t Hu Hl Hc) as (-> & Hl' & Hc'). by apply display_shows.
Qed.

(** Writing the characters of a list one by one. *)
Definition term_chars (text : list Z) (t : terminal) : terminal := fold_left (fun t c => term_putc c t) text t.
Definition putc_all (text : list Z) (s : console) : console := fold_left (fun s c => console_putc c s) text s.

Lemma putc_all_shows before text s t :
  Forall is_u8 text -> shows before s t -> shows before (putc_all text s) (term_chars text t).
Proof.
  intros Ht. revert s t. induction Ht as [|c text Hc _ IH]; intros s t Hs; [done|].
  apply IH. by apply putc_shows.
Qed.

Lemma console_write_all text s : console_write_text text s = putc_all (c_chars text) s.
Proof.
  revert s. induction text as [|c text IH]; intros s; cbn [console_write_text c_chars]; [done|].
  change NUL with 0. destruct (c == 0); [done|]. apply IH.
Qed.

Lemma c_chars_u8 text : Forall is_u8 text -> Forall is_u8 (c_chars text).
Proof. induction 1 as [|c text Hc _ IH]; cbn [c_chars]; [done|]. destruct (c == 0); [done|by constructor]. Qed.

Lemma write_shows before text s t :
  Forall is_u8 text -> shows before s t ->
  shows before (console_write (Some text) s) (term_write text t).
Proof.
  intros Ht Hs. cbn [console_write]. rewrite console_write_all.
  apply putc_all_shows; [by apply c_chars_u8|done].
Qed.

Definition init_writes : list (Z * Z) :=
  [(COM1 + 1, 0x00); (COM1 + 3, 0x80); (COM1 + 0, 0x03); (COM1 + 1, 0x00); (COM1 + 3, 0x03); (COM1 + 2, 0xC7);
   (COM1 + 4, 0x0B)].

Lemma clear_shows before s t : shows before s t -> shows before (console_clear s) (blank_terminal (sent t)).
Proof.
  intros Hs. destruct (shows_display _ _ _ Hs) as (-> & Hl & _).
  rewrite console_clear_spec by (cbn; by rewrite alen_fmap).
  by split.
Qed.

Lemma init_shows s :
  alen (vga_buffer s) = 2000 -> shows (port_writes s ++ init_writes) (console_init s) (blank_terminal []).
Proof.
  intros Hl. unfold console_init. rewrite console_clear_spec by done.
  split; try done; cbn [cells blank_terminal vga_buffer set_vga port_writes sent].
  unfold serial_init, outb. cbn [port_writes vga_buffer vga_row vga_column]. by rewrite <-!app_assoc, app_nil_r.
Qed.

(** ** Numbers *)

Definition digit_value (c : Z) : Z := c - ch "0".

(** The value of decimal text, most significant digit first. *)
Definition decimal_value (text : list Z) : Z := fold_left (fun v c => 10 * v + digit_value c) text 0.

(** The decimal numeral of a 32-bit value: digits only, no leading zero. *)
Definition is_numeral (value : Z) (text : list Z) : Prop :=
  Forall (fun c => ch "0" <= c <= ch "9") text /\ decimal_value text = value /\
  (value <> 0 -> hd 0 text <> ch "0") /\ 1 <= alen text <= 10.

(** Digits from the least significant on. *)
Fixpoint low_digits (fuel : nat) (value : Z) : list Z :=
  match fuel with
  | O => []
  | S fuel => if value >? 0 then (ch "0" + value mod 10) :: low_digits fuel (value / 10) else []
  end.

Lemma div10_bound n value : 0 <= value < 10 ^ Z.of_nat (S n) -> 0 <= value / 10 < 10 ^ Z.of_nat n.
Proof.
  rewrite Nat2Z.inj_succ, Z.pow_succ_r by lia. intros Hv. split; [apply Z.div_pos; lia|].
  apply Z.div_lt_upper_bound; lia.
Qed.

Lemma low_digits_zero fuel : low_digits fuel 0 = [].
Proof. by destruct fuel. Qed.

Lemma alen_low_digits fuel value : alen (low_digits fuel value) <= Z.of_nat fuel.
Proof.
  revert value. induction fuel as [|fuel IH]; intros value; cbn [low_digits]; [done|].
  destruct (value >? 0); [|unfold alen; cbn; lia]. rewrite alen_cons. specialize (IH (value / 10)). lia.
Qed.

(** The collecting loop stores the digits from [count] on and never needs more
    than [fuel] rounds. *)
Lemma collect_digits_spec fuel value count digits :
  0 <= value < 10 ^ Z.of_nat fuel -> 0 <= count -> count + Z.of_nat fuel <= alen digits ->
  exists digits', collect_digits fuel value count digits =
    Some (count + alen (low_digits fuel value), digits') /\ alen digits' = alen digits /\
    (forall i, 0 <= i < count -> digits'.[i] = digits.[i]) /\
    forall i, 0 <= i < alen (low_digits fuel value) -> digits'.[count + i] = (low_digits fuel value).[i].
Proof.
  revert value count digits. induction fuel as [|fuel IH]; intros value count digits Hv Hc Hl; cbn [collect_digits low_digits].
  - rewrite Z.gtb_ltb, (proj2 (Z.ltb_ge 0 value)) by (simpl in Hv; lia). exists digits. rewrite Z.add_0_r.
    repeat (split; [done|]). unfold alen. simpl. lia.
  - rewrite Z.gtb_ltb. destruct (Z.ltb_spec 0 value) as [Hpos|Hz]; cycle 1.
    { exists digits. rewrite Z.add_0_r. repeat (split; [done|]). unfold alen. simpl. lia. }
    destruct (IH (value / 10) (count + 1) digits.[count <- ch "0" + value mod 10]) as (digits' & E & Hl' & Hlow & Hnew).
    { by apply div10_bound. } { lia. } { rewrite alen_aset. lia. }
    exists digits'. rewrite E, alen_cons, alen_aset in *. split; [do 2 f_equal; lia|]. split; [done|]. split.
    + intros i Hi. rewrite Hlow, aget_aset_ne by lia. done.
    + intros i Hi. destruct (decide (i = 0)) as [->|Hne].
      * rewrite Z.add_0_r, Hlow, aget_aset_eq by lia. done.
      * replace (count + i) with (count + 1 + (i - 1)) by lia. rewrite Hnew by lia.
        unfold aget. replace (Z.to_nat i) with (S (Z.to_nat (i - 1))) by lia. done.
Qed.

Lemma decimal_value_snoc text c : decimal_value (text ++ [c]) = 10 * decimal_value text + digit_value c.
Proof. unfold decimal_value. by rewrite fold_left_app. Qed.

Lemma low_digits_value fuel value :
  0 <= value < 10 ^ Z.of_nat fuel -> decimal_value (rev (low_digits fuel value)) = value.
Proof.
  revert value. induction fuel as [|fuel IH]; intros value Hv; cbn [low_digits].
  - simpl in Hv. unfold decimal_value. simpl. lia.
  - rewrite Z.gtb_ltb. destruct (Z.ltb_spec 0 value) as [Hpos|Hz]; [|cbn; lia].
    cbn [rev]. rewrite decimal_value_snoc, IH by by apply div10_bound.
    unfold digit_value. pose proof (Z.div_mod value 10). lia.
Qed.

Lemma low_digits_chars fuel value : Forall (fun c => ch "0" <= c <= ch "9") (low_digits fuel value).
Proof.
  revert value. induction fuel as [|fuel IH]; intros value; cbn [low_digits]; [done|].
  destruct (value >? 0); [|done]. constructor; [|apply IH].
  pose proof (Z.mod_pos_bound value 10 ltac:(lia)). change (ch "0") with 48. change (ch "9") with 57. lia.
Qed.

(** The last of the low digits is the leading digit, which is not 0. *)
Lemma low_digits_leading fuel value :
  0 < value < 10 ^ Z.of_nat fuel -> hd 0 (rev (low_digits fuel value)) <> ch "0" /\ low_digits fuel value <> [].
Proof.
  revert value. induction fuel as [|fuel IH]; intros value Hv; [simpl in Hv; lia|]. cbn [low_digits].
  rewrite Z.gtb_ltb, (proj2 (Z.ltb_lt 0 value)) by lia. split; [|done]. cbn [rev].
  pose proof (div10_bound fuel value ltac:(lia)) as Hd. destruct (decide (value / 10 = 0)) as [E|E].
  - rewrite E, low_digits_zero. cbn. change (ch "0") with 48. clear -E Hv. Z.to_euclidean_division_equations. lia.
  - destruct (IH (value / 10) ltac:(lia)) as [Hh Hne]. destruct (rev (low_digits fuel (value / 10))) eqn:Er; [|done].
    apply (f_equal (@rev Z)) in Er. rewrite rev_involutive in Er. done.
Qed.

Lemma aget_rev (l : list Z) i : 0 <= i < alen l -> (rev l).[i] = l.[alen l - 1 - i].
Proof.
  intros Hi. unfold aget, alen in *. rewrite rev_alt. fold (reverse l).
  apply list_lookup_total_correct.
  rewrite reverse_lookup by lia. rewrite (list_lookup_lookup_total_lt l) by lia. do 2 f_equal. lia.
Qed.

Lemma print_digits_all count digits l s :
  count = alen l -> (forall i, 0 <= i < count -> digits.[i] = l.[i]) ->
  print_digits count digits s = putc_all (rev l) s.
Proof.
  intros -> Hd. unfold print_digits, putc_all. rewrite <-for_range_list.
  replace (alen (rev l)) with (alen l) by (unfold alen; by rewrite length_rev).
  apply for_range_ext. intros i t Hi. by rewrite Hd, aget_rev by lia.
Qed.

Definition decimal_text (value : Z) : list Z := if value == 0 then [ch "0"] else rev (low_digits 10 value).

(** Both number printers write text through [console_putc]. *)
Lemma write_dec_all value s :
  is_u32 value ->
  is_numeral value (decimal_text value) /\ console_write_u32_dec value s = Some (putc_all (decimal_text value) s).
Proof.
  intros Hv. unfold is_u32 in Hv. unfold console_write_u32_dec, decimal_text. destruct (Z.eqb_spec value 0) as [->|Hnz].
  { split; [|done]. split; [repeat constructor; done|]. split; [done|]. split; [done|].
    unfold alen. simpl. lia. }
  destruct (collect_digits_spec 10 value 0 (replicate 10 0)) as (digits & -> & _ & _ & Hd); [simpl; lia|lia|unfold alen; simpl; lia|].
  rewrite Z.add_0_l in *.
  rewrite (print_digits_all _ digits (low_digits 10 value)) by (done || intros; by rewrite <-Hd). split; [|done].
  destruct (low_digits_leading 10 value) as [Hh Hne]; [simpl; lia|].
  split; [apply Forall_rev, low_digits_chars|]. split; [apply low_digits_value; simpl; lia|]. split; [done|].
  pose proof (alen_low_digits 10 value). replace (alen (rev (low_digits 10 value))) with (alen (low_digits 10 value))
    by (unfold alen; by rewrite length_rev). destruct (low_digits 10 value); [done|]. rewrite alen_cons in *.
  pose proof (alen_nonneg l). lia.
Qed.

Definition hex_value (c : Z) : Z := if c <=? ch "9" then c - ch "0" else c - ch "a" + 10.

Definition hex_text (value : Z) : list Z :=
  (fun k => hex_digits.[value / 16 ^ k mod 16]) <$> [7; 6; 5; 4; 3; 2; 1; 0].

Lemma hex_digit_value d : 0 <= d < 16 -> hex_value hex_digits.[d] = d /\ is_u8 hex_digits.[d].
Proof.
  intros Hd. assert (Hall : Forall (fun d => hex_value hex_digits.[d] = d /\ is_u8 hex_digits.[d])
    [0; 1; 2; 3; 4; 5; 6; 7; 8; 9; 10; 11; 12; 13; 14; 15]) by (repeat constructor; done).
  rewrite Forall_forall in Hall. apply Hall. simpl. lia.
Qed.

Lemma nibble value k : 0 <= k -> Z.shiftr value (k * 4) .& 0xF = value / 16 ^ k mod 16.
Proof.
  intros Hk. change 0xF with 15. rewrite land_15, Z.shiftr_div_pow2 by lia.
  rewrite Z.mul_comm, Z.pow_mul_r by lia. done.
Qed.

Lemma hex_text_value value :
  is_u32 value -> fold_left (fun v c => 16 * v + hex_value c) (hex_text value) 0 = value /\
  Forall is_u8 (hex_text value).
Proof.
  intros Hv. unfold is_u32 in Hv.
  assert (Hd : forall k, 0 <= value / 16 ^ k mod 16 < 16) by (intros k; apply Z.mod_pos_bound; lia).
  split.
  - cbn [hex_text fmap list_fmap fold_left]. rewrite !(proj1 (hex_digit_value _ (Hd _))).
    cbn [Z.pow Z.pow_pos Pos.iter Z.mul Pos.mul]. clear -Hv. Z.to_euclidean_division_equations. lia.
  - unfold hex_text. apply Forall_fmap. apply Forall_forall. intros k _. apply hex_digit_value, Hd.
Qed.

Lemma write_hex_all value s :
  is_u32 value -> console_write_u32_hex value s = putc_all (cstr "0x" ++ hex_text value) s.
Proof.
  intros Hv. unfold console_write_u32_hex. cbn [console_write]. rewrite console_write_all.
  change (c_chars (cstr "0x")) with (cstr "0x"). unfold putc_all at 2. rewrite fold_left_app. fold (putc_all (cstr "0x") s).
  change 8 with (alen (hex_text value)). rewrite <-for_range_list. apply for_range_ext. intros i t Hi.
  change (alen (hex_text value)) with 8 in Hi. rewrite nibble by lia. f_equal.
  assert (Hk : [7; 6; 5; 4; 3; 2; 1; 0].[i] = 7 - i).
  { assert (Hall : Forall (fun i => [7; 6; 5; 4; 3; 2; 1; 0].[i] = 7 - i) [0; 1; 2; 3; 4; 5; 6; 7]) by (repeat constructor; done).
    rewrite Forall_forall in Hall. apply Hall. simpl. lia. }
  unfold hex_text. rewrite aget_fmap by done. by rewrite Hk.
Qed.

(** ** Runs *)

Inductive console_op :=
  | Clear
  | PutC (c : Z)
  | WriteText (text : option (list Z))
  | WriteHex (value : Z)
  | WriteDec (value : Z).

Definition console_op_ok (o : console_op) : Prop :=
  match o with
  | Clear | WriteText None => True
  | PutC c => is_u8 c
  | WriteText (Some text) => Forall is_u8 text
  | WriteHex value | WriteDec value => is_u32 value
  end.

Definition console_exec (o : console_op) (s : console) : option console :=
  match o with
  | Clear => Some (console_clear s)
  | PutC c => Some (console_putc c s)
  | WriteText text => Some (console_write text s)
  | WriteHex value => Some (console_write_u32_hex value s)
  | WriteDec value => console_write_u32_dec value s
  end.

Definition console_run (ops : list console_op) (s : console) : option console :=
  fold_left (fun s o => s ≫= console_exec o) ops (Some s).

Lemma console_run_none ops : fold_left (fun s o => s ≫= console_exec o) ops None = None.
Proof. by induction ops. Qed.

Lemma console_run_app ops ops' s : console_run (ops ++ ops') s = console_run ops s ≫= console_run ops'.
Proof.
  unfold console_run. rewrite fold_left_app. destruct (fold_left _ ops (Some s)); [done|]. apply console_run_none.
Qed.

Definition term_exec (o : console_op) (t : terminal) : terminal :=
  match o with
  | Clear => blank_terminal (sent t)
  | PutC c => term_putc c t
  | WriteText None => t
  | WriteText (Some text) => term_write text t
  | WriteHex value => term_chars (cstr "0x" ++ hex_text value) t
  | WriteDec value => term_chars (decimal_text value) t
  end.

(** The terminal after a sequence of calls. *)
Definition show (ops : list console_op) (t : terminal) : terminal := fold_left (fun t o => term_exec o t) ops t.

Lemma show_app ops ops' t : show (ops ++ ops') t = show ops' (show ops t).
Proof. apply fold_left_app. Qed.

Lemma numeral_u8 value text : is_numeral value text -> Forall is_u8 text.
Proof.
  intros [H _]. revert H. apply Forall_impl. intros c. change (ch "0") with 48. change (ch "9") with 57. unfold is_u8. lia.
Qed.

Lemma exec_shows before o s t :
  console_op_ok o -> shows before s t -> exists s', console_exec o s = Some s' /\ shows before s' (term_exec o t).
Proof.
  intros Ho Hs. destruct o as [|c|[text|]|value|value]; cbn [console_exec term_exec console_op_ok] in *.
  - eexists. split; [done|]. by apply clear_shows.
  - eexists. split; [done|]. by apply putc_shows.
  - eexists. split; [done|]. by apply write_shows.
  - by exists s.
  - eexists. split; [done|]. rewrite write_hex_all by done. apply putc_all_shows; [|done].
    apply Forall_app. split; [bytes|by apply hex_text_value].
  - destruct (write_dec_all value s Ho) as [Hn ->]. eexists. split; [done|].
    apply putc_all_shows; [by eapply numeral_u8|done].
Qed.

Lemma run_shows before ops s t :
  Forall console_op_ok ops -> shows before s t ->
  exists s', console_run ops s = Some s' /\ shows before s' (show ops t).
Proof.
  intros Hops. revert s t. induction Hops as [|o ops Ho _ IH]; intros s t Hs; [by exists s|].
  destruct (exec_shows before o s t Ho Hs) as (s1 & E & Hs1).
  destruct (IH s1 _ Hs1) as (s2 & E2 & Hs2). exists s2. split; [|done].
  unfold console_run in *. cbn [fold_left mbind option_bind]. by rewrite E.
Qed.

(** C15: After [console_init] every sequence of console calls runs to its end
    and shows what a terminal with 2000 cells, one linear cursor and a serial
    line shows: wrapping, scrolling, carriage return and backspace across
    lines included, with CR LF on the line for a newline and nothing for
    other control characters.  The row stays below 25 and the column below
    80, and every store stays in the buffer. *)
Theorem console_run_refines s ops :
  alen (vga_buffer s) = VGA_BUFFER_CELLS -> Forall console_op_ok ops ->
  exists s', console_run ops (console_init s) = Some s' /\
    let t := show ops (blank_terminal []) in
    vga_buffer s' = vga_entry <$> cells t /\ alen (vga_buffer s') = VGA_BUFFER_CELLS /\
    vga_row s' * VGA_WIDTH + vga_column s' = cursor t /\
    0 <= vga_row s' < VGA_HEIGHT /\ 0 <= vga_column s' < VGA_WIDTH /\
    port_writes s' = port_writes s ++ init_writes ++ ((fun b => (COM1, b)) <$> sent t).
Proof.
  intros Hl Hops. destruct (run_shows _ ops _ _ Hops (init_shows s Hl)) as (s' & E & [H1 H2 H3 H4 H5 H6]).
  exists s'. split; [done|]. cbv zeta. destruct (cursor_split _ H2) as (Hr & Hc & Hs).
  change VGA_BUFFER_CELLS with 2000. unfold VGA_WIDTH, VGA_HEIGHT. rewrite H4, H5.
  split; [done|]. split; [by rewrite H3, alen_fmap|]. do 3 (split; [done|]). by rewrite H6, <-app_assoc.
Qed.

(** [console_write_u32_dec] writes the decimal numeral of every 32-bit
    value (at most ten digits, no leading zero, so the digit buffer is never
    overrun) and [console_write_u32_hex] writes 0x and eight hexadecimal
    digits of that value, both through [console_putc]. *)
Theorem console_numbers_exact value s :
  is_u32 value ->
  (exists text, is_numeral value text /\ console_write_u32_dec value s = Some (putc_all text s)) /\
  (exists text, alen text = 8 /\ fold_left (fun v c => 16 * v + hex_value c) text 0 = value /\
     console_write_u32_hex value s = putc_all (cstr "0x" ++ text) s).
Proof.
  intros Hv. split.
  - destruct (write_dec_all value s Hv) as [H1 H2]. by exists (decimal_text value).
  - exists (hex_text value). split; [done|]. split; [by apply hex_text_value|by apply write_hex_all].
Qed.

Definition dark_screen : console := mk_console (replicate 2000 0) 7 9 [].

Definition tick_ops : list console_op :=
  [WriteText (Some (cstr "Tick ")); WriteDec 4294967295; PutC NEWLINE; PutC BACKSPACE].

Lemma tick_ops_ok : Forall console_op_ok tick_ops.
Proof.
  assert (Forall is_u8 (cstr "Tick ")) by (vm_compute; repeat (constructor; [split; congruence|]); constructor).
  repeat (apply Forall_cons_2; [done|]). apply Forall_nil_2.
Qed.

Lemma console_run_refines_witness :
  exists s', console_run tick_ops (console_init dark_screen) = Some s' /\
    vga_row s' * VGA_WIDTH + vga_column s' = 79.
Proof.
  destruct (console_run_refines dark_screen tick_ops eq_refl tick_ops_ok) as (s' & E & _ & _ & Hc & _).
  exists s'. split; [exact E|]. rewrite Hc. vm_compute. reflexivity.
Defined.

Lemma console_numbers_exact_witness :
  exists text, is_numeral 4294967295 text /\
    console_write_u32_dec 4294967295 dark_screen = Some (putc_all text dark_screen).
Proof.
  exact (proj1 (console_numbers_exact 4294967295 dark_screen ltac:(unfold is_u32; lia))).
Defined.
