(* ===== verification/LineEditor.v ===== *)
(** * Line editor (src/kernel/shell/line_editor.c)

    A 127-character line with its NUL terminator, fed one character at a
    time.  A NULL editor or line pointer is [None]. *)
From S2P Require Import Prelude.

Definition SHELL_LINE_MAX : Z := 127.

Inductive shell_line_event :=
| SHELL_LINE_NONE | SHELL_LINE_ECHO | SHELL_LINE_ERASE | SHELL_LINE_READY | SHELL_LINE_FULL.

#[export] Instance shell_line_event_eq_dec : EqDecision shell_line_event.
Proof. solve_decision. Defined.

Record shell_line_editor := mk_editor {
  ed_buffer : list Z;
  ed_length : Z;
  ed_overflow_count : Z;
  ed_ready : bool;
}.

Definition is_printable_ascii (character : Z) : bool :=
  (character >=? 0x20) && (character <=? 0x7E).

Definition clear_line_buffer (editor : shell_line_editor) : shell_line_editor :=
  mk_editor (fill_range 0 (SHELL_LINE_MAX + 1) (fun _ => NUL) (ed_buffer editor))
    0 (ed_overflow_count editor) false.

Definition shell_line_editor_init (editor : option shell_line_editor)
  : option shell_line_editor :=
  match editor with
  | None => None
  | Some editor =>
      let editor := clear_line_buffer editor in
      Some (mk_editor (ed_buffer editor) (ed_length editor) 0 (ed_ready editor))
  end.

(** The body of [shell_line_editor_feed] for a non-NULL editor. *)
Definition editor_feed (editor : shell_line_editor) (character : Z)
  : shell_line_event * shell_line_editor :=
  let '(mk_editor buffer length overflow ready) := editor in
  if ready then (SHELL_LINE_NONE, editor)
  else if character == BACKSPACE then
    if length == 0 then (SHELL_LINE_NONE, editor)
    else
      let length := u32 (length - 1) in
      (SHELL_LINE_ERASE, mk_editor buffer.[length <- NUL] length overflow ready)
  else if (character == NEWLINE) || (character == RETURN) then
    (SHELL_LINE_READY, mk_editor buffer length overflow true)
  else if negb (is_printable_ascii character) then (SHELL_LINE_NONE, editor)
  else if length >=? SHELL_LINE_MAX then
    (SHELL_LINE_FULL, mk_editor buffer length (u32 (overflow + 1)) ready)
  else
    let buffer := buffer.[length <- character] in
    let length := u32 (length + 1) in
    (SHELL_LINE_ECHO, mk_editor buffer.[length <- NUL] length overflow ready).

Definition shell_line_editor_feed (editor : option shell_line_editor) (character : Z)
  : shell_line_event * option shell_line_editor :=
  match editor with
  | None => (SHELL_LINE_NONE, None)
  | Some editor => let '(event, editor) := editor_feed editor character in (event, Some editor)
  end.

Definition shell_line_editor_take
    (editor : option shell_line_editor) (line : option (list Z)) (capacity : Z)
  : bool * option (list Z) * option shell_line_editor :=
  match editor, line with
  | Some ed, Some buf =>
      if negb (ed_ready ed) || (ed_length ed >? SHELL_LINE_MAX) || (capacity <=? ed_length ed)
      then (false, line, editor)
      else
        (true, Some (fill_range 0 (ed_length ed + 1) (fun i => (ed_buffer ed).[i]) buf),
         Some (clear_line_buffer ed))
  | _, _ => (false, line, editor)
  end.

Definition shell_line_editor_overflow_count (editor : option shell_line_editor) : Z :=
  match editor with
  | None => 0
  | Some editor => ed_overflow_count editor
  end.

(** ** Abstract editor: the text typed so far *)

(** The characters a line can hold: the blank (32) to the tilde (126). *)
Definition printable (c : Z) : bool := (32 <=? c) && (c <=? 126).

Lemma is_printable_ascii_printable c : is_printable_ascii c = printable c.
Proof. unfold is_printable_ascii, printable. by rewrite Z.geb_leb. Qed.

(** The longest line, 127 characters; Backspace is 8, Enter 10 or 13. *)
Record line_spec := mk_line { line_text : list Z; line_overflow : Z; line_ready : bool }.

Definition line_feed (c : Z) (l : line_spec) : shell_line_event * line_spec :=
  let '(mk_line text overflow ready) := l in
  if ready then (SHELL_LINE_NONE, l)
  else if c =? 8 then
    match text with
    | [] => (SHELL_LINE_NONE, l)
    | _ => (SHELL_LINE_ERASE, mk_line (removelast text) overflow ready)
    end
  else if (c =? 10) || (c =? 13) then (SHELL_LINE_READY, mk_line text overflow true)
  else if negb (printable c) then (SHELL_LINE_NONE, l)
  else if alen text <? 127
  then (SHELL_LINE_ECHO, mk_line (text ++ [c]) overflow ready)
  else (SHELL_LINE_FULL, mk_line text (u32 (overflow + 1)) ready).

(** ** Representation

    The buffer is the text followed by zeros. *)

Record editor_repr (ed : shell_line_editor) (l : line_spec) : Prop := {
  er_buffer : ed_buffer ed = padded (SHELL_LINE_MAX + 1) (line_text l);
  er_length : ed_length ed = alen (line_text l);
  er_bound : alen (line_text l) <= SHELL_LINE_MAX;
  er_overflow : ed_overflow_count ed = line_overflow l;
  er_ready : ed_ready ed = line_ready l;
  er_text : Forall (fun c => printable c = true) (line_text l);
}.

Lemma clear_line_buffer_repr ed :
  alen (ed_buffer ed) = SHELL_LINE_MAX + 1 ->
  editor_repr (clear_line_buffer ed) (mk_line [] (ed_overflow_count ed) false).
Proof.
  intros Hl. split; simpl; try done.
  apply fill_range_all; [done|by rewrite alen_padded|].
  intros j Hj. rewrite padded_get by done. change (alen (@nil Z)) with 0. bcase; [lia|done].
Qed.

Lemma editor_repr_buffer_len ed l :
  editor_repr ed l -> alen (ed_buffer ed) = SHELL_LINE_MAX + 1.
Proof. intros [-> _ Hb _ _ _]. apply alen_padded. lia. Qed.

Lemma removelast_Forall {A} (P : A -> Prop) l : Forall P l -> Forall P (removelast l).
Proof.
  intros H. destruct l as [|x l] using rev_ind; [done|].
  rewrite removelast_last. by apply Forall_app in H as [H _].
Qed.

Lemma editor_feed_refines ed l c :
  editor_repr ed l ->
  let '(ev, ed') := editor_feed ed c in
  let '(ev', l') := line_feed c l in
  ev = ev' /\ editor_repr ed' l'.
Proof.
  intros Hrep. pose proof Hrep as [Hbuf Hlen Hb Ho Hr Ht].
  destruct ed as [buf len ov rdy], l as [text ov' rdy']. simpl in *. subst.
  pose proof (alen_nonneg text). unfold SHELL_LINE_MAX in *.
  destruct rdy'; [done|]. unfold BACKSPACE, NEWLINE, RETURN. destruct (c == 8).
  { destruct text as [|x text']; [done|].
    replace (alen (x :: text') == 0) with false
      by (symmetry; apply Z.eqb_neq; rewrite alen_cons; pose proof (alen_nonneg text'); lia).
    rewrite (u32_small (_ - 1)) by (unfold is_u32; rewrite alen_cons in *;
      pose proof (alen_nonneg text'); lia).
    assert (Hl : alen (removelast (x :: text')) = alen (x :: text') - 1).
    { destruct (exists_last (l:=x :: text')) as (l0 & y & E); [done|].
      rewrite E, removelast_last, alen_app. change (alen [y]) with 1. lia. }
    split; [done|]. split; cbn [ed_buffer ed_length ed_overflow_count ed_ready
      line_text line_overflow line_ready]; unfold SHELL_LINE_MAX; try done; try lia.
    - apply padded_erase; [done|lia].
    - by apply removelast_Forall. }
  destruct (_ || _); [by split; [|split; simpl; unfold SHELL_LINE_MAX]|].
  rewrite is_printable_ascii_printable. destruct (printable c) eqn:Ep; [|done]. simpl.
  rewrite Z.geb_leb. destruct (alen text <? 127) eqn:El; bprop.
  - replace (127 <=? alen text) with false by (symmetry; apply Z.leb_gt; lia).
    rewrite (u32_small (_ + 1)) by (unfold is_u32; lia).
    split; [done|]. split; simpl; unfold SHELL_LINE_MAX; try done.
    + apply padded_append. lia.
    + by rewrite alen_app.
    + rewrite alen_app. change (alen [c]) with 1. lia.
    + apply Forall_app. by repeat constructor.
  - replace (127 <=? alen text) with true by (symmetry; apply Z.leb_le; lia).
    by split; [|split; simpl; unfold SHELL_LINE_MAX].
Qed.

(** A submitted line is copied out with its terminator. *)
Definition take_result (text buf : list Z) : list Z := text ++ 0 :: drop (S (length text)) buf.

Lemma copy_line text buf :
  alen text < alen buf -> alen text <= SHELL_LINE_MAX ->
  fill_range 0 (alen text + 1) (fun i => (padded (SHELL_LINE_MAX + 1) text).[i]) buf
  = take_result text buf.
Proof.
  intros Hb Ht. pose proof (alen_nonneg text).
  destruct (fill_range_spec 0 (alen text + 1)
    (fun i => (padded (SHELL_LINE_MAX + 1) text).[i]) buf ltac:(lia)) as [Hl Hg].
  assert (Hl2 : alen (take_result text buf) = alen buf).
  { unfold take_result, alen in *. rewrite length_app. simpl. rewrite length_drop. lia. }
  apply array_eq; [lia|]. rewrite Hl. intros i Hi. rewrite Hg by done.
  unfold take_result, SHELL_LINE_MAX in *.
  destruct ((0 <=? i) && (i <? alen text + 1)) eqn:E; bprop.
  - rewrite padded_get by lia. unfold aget, alen in *. bcase.
    + symmetry. apply lookup_total_app_l. lia.
    + rewrite lookup_total_app_r by lia. by replace (Z.to_nat i - length text)%nat with O by lia.
  - assert (alen text < i) by (apply andb_false_iff in E as [E|E]; bprop; lia).
    unfold aget, alen in *. rewrite lookup_total_app_r by lia.
    replace (Z.to_nat i - length text)%nat with (S (Z.to_nat i - S (length text)))%nat by lia.
    change ((0 :: ?l) !!! S ?k) with (l !!! k). rewrite lookup_total_drop. f_equal. lia.
Qed.

Lemma printable_nonzero text :
  Forall (fun c => printable c = true) text -> Forall (fun c => c <> 0) text.
Proof.
  apply Forall_impl. intros c Hc ->. by vm_compute in Hc.
Qed.

(** ** Runs of the editor *)

Fixpoint editor_run (cs : list Z) (ed : shell_line_editor)
  : list shell_line_event * shell_line_editor :=
  match cs with
  | [] => ([], ed)
  | c :: cs' =>
      let '(ev, ed1) := editor_feed ed c in
      let '(evs, ed2) := editor_run cs' ed1 in (ev :: evs, ed2)
  end.

Fixpoint line_run (cs : list Z) (l : line_spec) : list shell_line_event * line_spec :=
  match cs with
  | [] => ([], l)
  | c :: cs' =>
      let '(ev, l1) := line_feed c l in
      let '(evs, l2) := line_run cs' l1 in (ev :: evs, l2)
  end.

Lemma editor_run_simulation cs ed l :
  editor_repr ed l ->
  fst (editor_run cs ed) = fst (line_run cs l) /\
  editor_repr (snd (editor_run cs ed)) (snd (line_run cs l)).
Proof.
  revert ed l. induction cs as [|c cs IH]; intros ed l Hrep; [done|]. simpl.
  pose proof (editor_feed_refines ed l c Hrep) as Hf.
  destruct (editor_feed ed c) as [ev ed1], (line_feed c l) as [ev' l1].
  destruct Hf as [-> Hrep1]. destruct (IH ed1 l1 Hrep1) as [He Hr].
  destruct (editor_run cs ed1), (line_run cs l1). simpl in *. by subst.
Qed.

(** Typing printable text that fits, then Enter. *)
Lemma line_run_text cs text ov :
  Forall (fun c => printable c = true) cs -> alen (text ++ cs) <= SHELL_LINE_MAX ->
  snd (line_run (cs ++ [NEWLINE]) (mk_line text ov false)) = mk_line (text ++ cs) ov true.
Proof.
  intros Hcs. revert text. induction Hcs as [|c cs Hc _ IH]; intros text Hl.
  { simpl. by rewrite app_nil_r. }
  assert (Hbs : (c == 8) = false /\ (c == 10) = false /\ (c == 13) = false).
  { unfold printable in Hc. bprop.
    rewrite !Z.eqb_neq. lia. }
  destruct Hbs as (E1 & E2 & E3).
  assert (Hlt : (alen text <? 127) = true).
  { unfold SHELL_LINE_MAX in Hl. apply Z.ltb_lt. rewrite alen_app, alen_cons in Hl. pose proof (alen_nonneg cs). lia. }
  simpl. rewrite E1, E2, E3, Hc, Hlt. simpl.
  specialize (IH (text ++ [c])). rewrite <-app_assoc in IH. simpl in IH. specialize (IH Hl).
  destruct (line_run (cs ++ [NEWLINE]) _). exact IH.
Qed.

Definition blank_editor : shell_line_editor :=
  mk_editor (replicate (Z.to_nat (SHELL_LINE_MAX + 1)) 0) 0 0 false.

Lemma editor_init_repr ed :
  alen (ed_buffer ed) = SHELL_LINE_MAX + 1 ->
  exists ed0, shell_line_editor_init (Some ed) = Some ed0 /\ editor_repr ed0 (mk_line [] 0 false).
Proof.
  intros Hl. eexists. split; [reflexivity|].
  destruct (clear_line_buffer_repr ed Hl) as [H1 H2 H3 H4 H5 H6]. by split.
Qed.

(** ** Properties *)

(** C25: fed any characters from an initialised state, the editor reports the
    events and holds the text of the abstract editor (the characters 32 to 126
    are appended up to 127 of them, Backspace drops the last, Enter submits,
    anything else is ignored, a full line counts an overflow), and its buffer
    is that text followed only by NUL bytes. *)
Theorem editor_refines_line cs ed :
  alen (ed_buffer ed) = SHELL_LINE_MAX + 1 ->
  exists ed0, shell_line_editor_init (Some ed) = Some ed0 /\
    fst (editor_run cs ed0) = fst (line_run cs (mk_line [] 0 false)) /\
    editor_repr (snd (editor_run cs ed0)) (snd (line_run cs (mk_line [] 0 false))).
Proof.
  intros Hl. destruct (editor_init_repr ed Hl) as (ed0 & Hi & Hr).
  exists ed0. split; [done|]. by apply editor_run_simulation.
Qed.

Lemma editor_refines_line_witness :
  exists ed0, shell_line_editor_init (Some blank_editor) = Some ed0 /\
    fst (editor_run (cstr "ab" ++ [BACKSPACE; NEWLINE; ch "x"]) ed0) =
    [SHELL_LINE_ECHO; SHELL_LINE_ECHO; SHELL_LINE_ERASE; SHELL_LINE_READY; SHELL_LINE_NONE].
Proof.
  destruct (editor_refines_line (cstr "ab" ++ [BACKSPACE; NEWLINE; ch "x"]) blank_editor eq_refl)
    as (ed0 & Hi & He & _).
  exists ed0. split; [exact Hi|]. rewrite He. vm_compute. reflexivity.
Defined.

(** [shell_line_editor_take] on a represented editor succeeds exactly when
    a line is submitted and the caller's capacity exceeds its length; it then
    copies the text with its terminator, leaves the rest of the caller's
    buffer alone and empties the editor, keeping the overflow count; a refusal
    changes neither the buffer nor the editor. *)
Theorem editor_take_correct ed l buf capacity :
  editor_repr ed l -> capacity <= alen buf ->
  let '(ok, buf', ed') := shell_line_editor_take (Some ed) (Some buf) capacity in
  ok = line_ready l && (alen (line_text l) <? capacity) /\
  if ok then
    buf' = Some (take_result (line_text l) buf) /\
    c_chars (take_result (line_text l) buf) = line_text l /\
    exists ed1, ed' = Some ed1 /\ editor_repr ed1 (mk_line [] (line_overflow l) false)
  else buf' = Some buf /\ ed' = Some ed.
Proof.
  intros Hrep Hcap. pose proof Hrep as [Hbuf Hlen Hb Ho Hr Ht].
  unfold shell_line_editor_take. rewrite Hr, Hlen.
  replace (alen (line_text l) >? SHELL_LINE_MAX) with false
    by (symmetry; rewrite Z.gtb_ltb; apply Z.ltb_ge; done).
  rewrite orb_false_r. destruct (line_ready l); simpl; [|done].
  rewrite Z.leb_antisym. destruct (alen (line_text l) <? capacity) eqn:E; bprop; simpl; [|done].
  split; [done|]. rewrite Hbuf, copy_line by lia. split; [done|]. split.
  - apply c_chars_app_nul. by apply printable_nonzero.
  - eexists. split; [done|]. rewrite <-Ho. apply clear_line_buffer_repr.
    by eapply editor_repr_buffer_len.
Qed.

Lemma editor_take_correct_witness :
  let ed := snd (editor_run (cstr "hi" ++ [NEWLINE]) blank_editor) in
  let '(ok, buf', _) := shell_line_editor_take (Some ed) (Some (replicate 8 0xA5)) 8 in
  ok = true /\ buf' = Some (cstr "hi" ++ 0 :: replicate 5 0xA5).
Proof.
  pose proof (editor_run_simulation (cstr "hi" ++ [NEWLINE]) blank_editor (mk_line [] 0 false))
    as [_ Hrep]; [by split|].
  pose proof (editor_take_correct _ _ (replicate 8 0xA5) 8 Hrep ltac:(done)) as H.
  vm_compute in H. vm_compute. exact (conj (proj1 H) (proj1 (proj2 H))).
Defined.

(** Round trip of a typed line: feeding printable text of at most 127
    characters and then Enter to a freshly initialised editor, and taking the
    line into a 128-byte buffer, gives back exactly that text. *)
Theorem typed_line_roundtrip cs ed buf :
  alen (ed_buffer ed) = SHELL_LINE_MAX + 1 ->
  Forall (fun c => printable c = true) cs -> alen cs <= SHELL_LINE_MAX ->
  alen buf = SHELL_LINE_MAX + 1 ->
  exists ed0 buf' ed',
    shell_line_editor_init (Some ed) = Some ed0 /\
    shell_line_editor_take (Some (snd (editor_run (cs ++ [NEWLINE]) ed0))) (Some buf)
      (SHELL_LINE_MAX + 1) = (true, Some buf', Some ed') /\
    c_chars buf' = cs /\ ed_length ed' = 0 /\ ed_ready ed' = false.
Proof.
  intros Hl Hcs Hlen Hbl. destruct (editor_init_repr ed Hl) as (ed0 & Hi & Hr0).
  destruct (editor_run_simulation (cs ++ [NEWLINE]) ed0 _ Hr0) as [_ Hrep].
  rewrite line_run_text in Hrep by done. simpl in Hrep.
  pose proof Hrep as [Hbuf Hln Hb Ho Hr Ht]. simpl in *.
  exists ed0. unfold shell_line_editor_take. rewrite Hr, Hln. simpl.
  replace (alen cs >? SHELL_LINE_MAX) with false
    by (symmetry; rewrite Z.gtb_ltb; apply Z.ltb_ge; done).
  replace (SHELL_LINE_MAX + 1 <=? alen cs) with false
    by (symmetry; apply Z.leb_gt; lia).
  simpl. do 2 eexists. split; [done|]. split; [reflexivity|].
  rewrite Hbuf, copy_line by lia. split; [|done].
  apply c_chars_app_nul. by apply printable_nonzero.
Qed.

Lemma typed_line_roundtrip_witness :
  exists ed0 buf' ed',
    shell_line_editor_init (Some blank_editor) = Some ed0 /\
    shell_line_editor_take (Some (snd (editor_run (cstr "ls -a" ++ [NEWLINE]) ed0)))
      (Some (replicate 128 0)) (SHELL_LINE_MAX + 1) = (true, Some buf', Some ed') /\
    c_chars buf' = cstr "ls -a" /\ ed_length ed' = 0 /\ ed_ready ed' = false.
Proof.
  apply (typed_line_roundtrip (cstr "ls -a") blank_editor (replicate 128 0)).
  - reflexivity.
  - apply (bool_decide_unpack _). vm_compute. exact I.
  - vm_compute. discriminate.
  - reflexivity.
Defined.
