(* ===== verification/Command.v ===== *)
(** * Command parser (src/kernel/shell/command.c)

    Tokenising a NUL-terminated line into a name and up to eight arguments of
    up to 31 characters, command recognition and arity.  Cursors are the rest
    of the line; fixed [char] arrays are lists of 32 bytes. *)
From S2P Require Import Prelude.

Definition SHELL_COMMAND_MAX_ARGS : Z := 8.
Definition SHELL_COMMAND_ARG_MAX : Z := 31.

Inductive shell_command_kind :=
| SHELL_COMMAND_HELP | SHELL_COMMAND_CLEAR | SHELL_COMMAND_ECHO | SHELL_COMMAND_LS
| SHELL_COMMAND_CAT | SHELL_COMMAND_TOUCH | SHELL_COMMAND_WRITE | SHELL_COMMAND_APPEND
| SHELL_COMMAND_RM | SHELL_COMMAND_STATUS | SHELL_COMMAND_ABOUT | SHELL_COMMAND_UNKNOWN.

Inductive shell_parse_result :=
| SHELL_PARSE_OK | SHELL_PARSE_EMPTY | SHELL_PARSE_INVALID_ARGUMENT
| SHELL_PARSE_TOO_MANY_ARGUMENTS | SHELL_PARSE_ARGUMENT_TOO_LONG.

#[export] Instance shell_command_kind_eq_dec : EqDecision shell_command_kind.
Proof. solve_decision. Defined.
#[export] Instance shell_parse_result_eq_dec : EqDecision shell_parse_result.
Proof. solve_decision. Defined.

Record shell_command := mk_cmd {
  cmd_kind : shell_command_kind;
  cmd_name : list Z;
  cmd_argument_count : Z;
  cmd_arguments : list (list Z);
}.

(** ** Helpers *)

Definition is_separator (character : Z) : bool := (character == SPACE) || (character == TAB).

(** [strings_equal] of both command.c and runtime.c; the index of the C loop
    is the number of characters dropped from both strings. *)
Fixpoint strings_equal (l r : list Z) : bool :=
  match l with
  | [] => 0 == r.[0]
  | c :: l' =>
      if c != r.[0] then false
      else if c == NUL then true
      else strings_equal l' (tail r)
  end.

Definition command_kind (name : list Z) : shell_command_kind :=
  if strings_equal name (cstr "help") then SHELL_COMMAND_HELP
  else if strings_equal name (cstr "clear") then SHELL_COMMAND_CLEAR
  else if strings_equal name (cstr "echo") then SHELL_COMMAND_ECHO
  else if strings_equal name (cstr "ls") then SHELL_COMMAND_LS
  else if strings_equal name (cstr "cat") then SHELL_COMMAND_CAT
  else if strings_equal name (cstr "touch") then SHELL_COMMAND_TOUCH
  else if strings_equal name (cstr "write") then SHELL_COMMAND_WRITE
  else if strings_equal name (cstr "append") then SHELL_COMMAND_APPEND
  else if strings_equal name (cstr "rm") then SHELL_COMMAND_RM
  else if strings_equal name (cstr "status") then SHELL_COMMAND_STATUS
  else if strings_equal name (cstr "about") then SHELL_COMMAND_ABOUT
  else SHELL_COMMAND_UNKNOWN.

Definition command_clear (command : shell_command) : shell_command :=
  mk_cmd SHELL_COMMAND_UNKNOWN
    (fill_range 0 (SHELL_COMMAND_ARG_MAX + 1) (fun _ => NUL) (cmd_name command))
    0
    (for_range 0 SHELL_COMMAND_MAX_ARGS
       (fun argument args =>
          args.[argument <- fill_range 0 (SHELL_COMMAND_ARG_MAX + 1) (fun _ => NUL) args.[argument]])
       (cmd_arguments command)).

(** [while (is_separator ( *cursor)) cursor += 1;] *)
Fixpoint skip_separators (cursor : list Z) : list Z :=
  match cursor with
  | [] => []
  | c :: rest => if is_separator c then skip_separators rest else cursor
  end.

(** The token loop: result, cursor and destination after it. *)
Fixpoint copy_token_loop (cursor : list Z) (length : Z) (destination : list Z)
  : shell_parse_result * list Z * list Z :=
  match cursor with
  | [] => (SHELL_PARSE_OK, [], destination.[length <- NUL])
  | c :: rest =>
      if (c != NUL) && negb (is_separator c) then
        if length >=? SHELL_COMMAND_ARG_MAX
        then (SHELL_PARSE_ARGUMENT_TOO_LONG, cursor, destination)
        else copy_token_loop rest (u32 (length + 1)) destination.[length <- c]
      else (SHELL_PARSE_OK, cursor, destination.[length <- NUL])
  end.

Definition copy_token (cursor destination : list Z)
  : shell_parse_result * list Z * list Z := copy_token_loop cursor 0 destination.

(** The argument loop.  Every pass that continues adds an argument, so ten
    passes always suffice; [None] would be running out of fuel. *)
Fixpoint parse_arguments (fuel : nat) (cursor : list Z) (parsed : shell_command)
  : option (shell_parse_result * shell_command) :=
  match fuel with
  | O => None
  | S fuel =>
      let cursor := skip_separators cursor in
      if cursor.[0] == NUL then Some (SHELL_PARSE_OK, parsed)
      else if cmd_argument_count parsed >=? SHELL_COMMAND_MAX_ARGS
      then Some (SHELL_PARSE_TOO_MANY_ARGUMENTS, parsed)
      else
        let n := cmd_argument_count parsed in
        match copy_token cursor (cmd_arguments parsed).[n] with
        | (SHELL_PARSE_OK, cursor, argument) =>
            parse_arguments fuel cursor
              (mk_cmd (cmd_kind parsed) (cmd_name parsed) (u32 (n + 1))
                 (cmd_arguments parsed).[n <- argument])
        | (result, _, _) => Some (result, parsed)
        end
  end.

Definition parse_fuel : nat := 10.

(** [parsed] is the uninitialised local of the C function: nothing may depend
    on what it holds. *)
Definition shell_command_parse (parsed : shell_command) (line : option (list Z)) (command : option shell_command)
  : shell_parse_result * option shell_command :=
  match line, command with
  | Some line, Some _ =>
      let cursor := skip_separators line in
      if cursor.[0] == NUL then (SHELL_PARSE_EMPTY, command)
      else
        let parsed := command_clear parsed in
        match copy_token cursor (cmd_name parsed) with
        | (SHELL_PARSE_OK, cursor, name) =>
            let parsed := mk_cmd (command_kind name) name
                            (cmd_argument_count parsed) (cmd_arguments parsed) in
            match parse_arguments parse_fuel cursor parsed with
            | Some (SHELL_PARSE_OK, parsed) => (SHELL_PARSE_OK, Some parsed)
            | Some (result, _) => (result, command)
            | None => (SHELL_PARSE_INVALID_ARGUMENT, command)
            end
        | (result, _, _) => (result, command)
        end
  | _, _ => (SHELL_PARSE_INVALID_ARGUMENT, command)
  end.

Definition shell_command_has_valid_arity (command : option shell_command) : bool :=
  match command with
  | None => false
  | Some command =>
      let n := cmd_argument_count command in
      match cmd_kind command with
      | SHELL_COMMAND_HELP | SHELL_COMMAND_CLEAR | SHELL_COMMAND_LS
      | SHELL_COMMAND_STATUS | SHELL_COMMAND_ABOUT => n == 0
      | SHELL_COMMAND_CAT | SHELL_COMMAND_TOUCH | SHELL_COMMAND_RM => n == 1
      | SHELL_COMMAND_WRITE | SHELL_COMMAND_APPEND =>
          (n >=? 2) && (n <=? SHELL_COMMAND_MAX_ARGS)
      | SHELL_COMMAND_ECHO => n <=? SHELL_COMMAND_MAX_ARGS
      | SHELL_COMMAND_UNKNOWN => false
      end
  end.

Definition shell_command_usage (kind : shell_command_kind) : option (list Z) :=
  match kind with
  | SHELL_COMMAND_HELP => Some (cstr "help")
  | SHELL_COMMAND_CLEAR => Some (cstr "clear")
  | SHELL_COMMAND_ECHO => Some (cstr "echo [text ...]")
  | SHELL_COMMAND_LS => Some (cstr "ls")
  | SHELL_COMMAND_CAT => Some (cstr "cat <name>")
  | SHELL_COMMAND_TOUCH => Some (cstr "touch <name>")
  | SHELL_COMMAND_WRITE => Some (cstr "write <name> <text ...>")
  | SHELL_COMMAND_APPEND => Some (cstr "append <name> <text ...>")
  | SHELL_COMMAND_RM => Some (cstr "rm <name>")
  | SHELL_COMMAND_STATUS => Some (cstr "status")
  | SHELL_COMMAND_ABOUT => Some (cstr "about")
  | SHELL_COMMAND_UNKNOWN => None
  end.

Definition shell_command_help : list Z :=
  cstr "help" ++ [NEWLINE] ++
  cstr "clear" ++ [NEWLINE] ++
  cstr "echo [text ...]" ++ [NEWLINE] ++
  cstr "ls" ++ [NEWLINE] ++
  cstr "cat <name>" ++ [NEWLINE] ++
  cstr "touch <name>" ++ [NEWLINE] ++
  cstr "write <name> <text ...>" ++ [NEWLINE] ++
  cstr "append <name> <text ...>" ++ [NEWLINE] ++
  cstr "rm <name>" ++ [NEWLINE] ++
  cstr "status" ++ [NEWLINE] ++
  cstr "about".

(** ** Reference tokeniser

    Maximal runs of characters other than blanks (32) and tabs (9), in order. *)

Definition blank (c : Z) : bool := (c =? 32) || (c =? 9).

Definition flush (word : list Z) : list (list Z) :=
  match word with
  | [] => []
  | _ => [word]
  end.

Fixpoint split_tokens (acc l : list Z) : list (list Z) :=
  match l with
  | [] => flush acc
  | c :: l' =>
      if blank c then flush acc ++ split_tokens [] l'
      else split_tokens (acc ++ [c]) l'
  end.

Definition tokens (l : list Z) : list (list Z) := split_tokens [] l.

Definition too_long (t : list Z) : bool := 31 <? alen t.

(** The verdict on the arguments that follow, with room for [n] of them: the
    parser stops at the first fault it meets. *)
Definition parse_verdict (n : nat) (args : list (list Z)) : shell_parse_result :=
  if existsb too_long (take n args) then SHELL_PARSE_ARGUMENT_TOO_LONG
  else if (n <? length args)%nat then SHELL_PARSE_TOO_MANY_ARGUMENTS
  else SHELL_PARSE_OK.

Definition token_buffer (t : list Z) : list Z := padded 32 t.

(** The commands by name. *)
Definition keywords : list (list Z * shell_command_kind) :=
  [(cstr "about", SHELL_COMMAND_ABOUT); (cstr "append", SHELL_COMMAND_APPEND); (cstr "cat", SHELL_COMMAND_CAT);
   (cstr "clear", SHELL_COMMAND_CLEAR); (cstr "echo", SHELL_COMMAND_ECHO); (cstr "help", SHELL_COMMAND_HELP);
   (cstr "ls", SHELL_COMMAND_LS); (cstr "rm", SHELL_COMMAND_RM); (cstr "status", SHELL_COMMAND_STATUS);
   (cstr "touch", SHELL_COMMAND_TOUCH); (cstr "write", SHELL_COMMAND_WRITE)].

Definition kind_named (w : list Z) : shell_command_kind :=
  foldr (fun '(k, kind) other => if bool_decide (w = k) then kind else other) SHELL_COMMAND_UNKNOWN keywords.

Definition built_command (name : list Z) (args : list (list Z)) : shell_command :=
  mk_cmd (kind_named name) (token_buffer name) (alen args)
    ((token_buffer <$> args) ++ replicate (8 - length args) (token_buffer [])).

(** What [shell_command_parse] must return for a line and an output struct. *)
Definition parse_spec (line : list Z) (command : shell_command)
  : shell_parse_result * option shell_command :=
  match tokens (c_chars line) with
  | [] => (SHELL_PARSE_EMPTY, Some command)
  | name :: args =>
      if too_long name then (SHELL_PARSE_ARGUMENT_TOO_LONG, Some command)
      else match parse_verdict 8 args with
      | SHELL_PARSE_OK => (SHELL_PARSE_OK, Some (built_command name args))
      | r => (r, Some command)
      end
  end.

(** An output struct, and a [parsed] full of old bytes. *)
Definition blank_command : shell_command :=
  mk_cmd SHELL_COMMAND_UNKNOWN (replicate 32 0) 0 (replicate 8 (replicate 32 0)).

Definition old_command : shell_command :=
  mk_cmd SHELL_COMMAND_RM (replicate 32 0x55) 77 (replicate 8 (replicate 32 0xAA)).

(** The arrays of a [struct shell_command]. *)
Definition command_sized (command : shell_command) : Prop :=
  alen (cmd_name command) = 32 /\ length (cmd_arguments command) = 8%nat /\
  Forall (fun a => alen a = 32) (cmd_arguments command).

Lemma old_command_sized : command_sized old_command.
Proof. repeat split. by apply Forall_replicate. Qed.

Example parse_demo :
  shell_command_parse old_command (Some ([SPACE; SPACE] ++ cstr "write" ++ [TAB] ++ cstr "note  hello world "))
    (Some blank_command) =
  (SHELL_PARSE_OK, Some (built_command (cstr "write")
     [cstr "note"; cstr "hello"; cstr "world"])).
Proof. vm_compute. reflexivity. Qed.

(** ** Strings *)

Lemma strings_equal_spec l r : strings_equal l r = bool_decide (c_chars l = c_chars r).
Proof.
  revert r. induction l as [|c l IH]; intros [|d r]; cbn [strings_equal c_chars tail].
  - done.
  - change ((d :: r).[0]) with d. rewrite Z.eqb_sym. by destruct (d == 0).
  - change ((@nil Z).[0]) with 0. unfold NUL. by destruct (c == 0).
  - change ((d :: r).[0]) with d. unfold NUL. destruct (Z.eqb_spec c d) as [->|Hne]; simpl.
    + destruct (d == 0); [by rewrite bool_decide_true|]. rewrite IH. apply bool_decide_ext.
      split; congruence.
    + destruct (Z.eqb_spec c 0), (Z.eqb_spec d 0); symmetry; try lia;
        apply bool_decide_eq_false; congruence.
Qed.

Lemma is_separator_blank c : is_separator c = blank c.
Proof. reflexivity. Qed.

Lemma command_kind_named n : command_kind n = kind_named (c_chars n).
Proof.
  unfold command_kind. rewrite !strings_equal_spec.
  repeat match goal with |- context [c_chars (cstr ?s)] => change (c_chars (cstr s)) with (cstr s) end.
  unfold kind_named. cbn [foldr keywords].
  repeat match goal with
  | |- context [bool_decide (c_chars n = ?w)] =>
      let Hne := fresh in
      destruct (decide (c_chars n = w)) as [->|Hne]; [reflexivity|rewrite !(bool_decide_eq_false_2 _ Hne); clear Hne]
  end.
  reflexivity.
Qed.

Lemma command_kind_chars n : command_kind (c_chars n) = command_kind n.
Proof. unfold command_kind. by rewrite !strings_equal_spec, !c_chars_idemp. Qed.

(** ** Words at the cursor *)

Definition token_char (c : Z) : bool := (c != NUL) && negb (is_separator c).

Fixpoint word (l : list Z) : list Z :=
  match l with
  | c :: l' => if token_char c then c :: word l' else []
  | [] => []
  end.

Fixpoint after (l : list Z) : list Z :=
  match l with
  | c :: l' => if token_char c then after l' else l
  | [] => []
  end.

Lemma separator_nonzero c : is_separator c = true -> (c == 0) = false.
Proof.
  unfold is_separator, SPACE, TAB. intros H. apply Z.eqb_neq. intros ->. done.
Qed.

Lemma skip_separators_chars l : c_chars (skip_separators l) = skip_separators (c_chars l).
Proof.
  induction l as [|c l IH]; cbn [skip_separators c_chars]; [done|].
  destruct (is_separator c) eqn:E.
  - rewrite (separator_nonzero c E), IH. cbn [skip_separators]. by rewrite E.
  - cbn [c_chars]. destruct (c == 0); [done|]. cbn [skip_separators]. by rewrite E.
Qed.

Lemma word_chars l : word (c_chars l) = word l.
Proof.
  induction l as [|c l IH]; [done|]. cbn [c_chars word]. unfold token_char, NUL.
  destruct (c == 0) eqn:E; simpl; [done|]. unfold token_char, NUL. rewrite E, IH. done.
Qed.

Lemma after_chars l : c_chars (after l) = after (c_chars l).
Proof.
  induction l as [|c l IH]; [done|]. cbn [c_chars after]. unfold token_char, NUL.
  destruct (c == 0) eqn:E; simpl; [by rewrite E|]. unfold token_char, NUL. rewrite E. simpl.
  destruct (is_separator c); simpl; [by rewrite E|done].
Qed.

Lemma head_nul l : (l.[0] == NUL) = match c_chars l with [] => true | _ => false end.
Proof. destruct l as [|c l]; [done|]. change ((c :: l).[0]) with c. unfold NUL. cbn [c_chars]. by destruct (c == 0). Qed.

Lemma word_nonzero l : Forall (fun c => c <> 0) (word l).
Proof.
  induction l as [|c l IH]; simpl; [done|]. destruct (token_char c) eqn:E; [|done].
  constructor; [|done]. intros ->. done.
Qed.

Lemma split_tokens_word acc l :
  Forall (fun c => c <> 0) l ->
  split_tokens acc l = flush (acc ++ word l) ++ split_tokens [] (after l).
Proof.
  intros Hl. revert acc. induction Hl as [|c l Hc Hl IH]; intros acc; simpl.
  { by rewrite !app_nil_r. }
  apply Z.eqb_neq in Hc. unfold token_char, NUL. rewrite Hc. change (is_separator c) with (blank c). simpl.
  destruct (blank c) eqn:E; simpl.
  - by rewrite E, app_nil_r.
  - rewrite IH, <-app_assoc. done.
Qed.

Lemma tokens_skip l : tokens (skip_separators l) = tokens l.
Proof.
  unfold tokens. induction l as [|c l IH]; [done|]. simpl. change (is_separator c) with (blank c).
  destruct (blank c) eqn:E; [done|]. simpl. by rewrite E.
Qed.

(** The tokens of a cursor after its separators: none, or a word and the rest. *)
Lemma tokens_step cur :
  let cur' := skip_separators cur in
  tokens (c_chars cur) =
  if cur'.[0] == NUL then [] else word cur' :: tokens (c_chars (after cur')).
Proof.
  cbv zeta. rewrite head_nul, <-tokens_skip, <-skip_separators_chars.
  pose proof (skip_separators_chars cur) as Hs.
  destruct (c_chars (skip_separators cur)) as [|c l] eqn:E; [done|].
  pose proof (c_chars_nonzero (skip_separators cur)) as Hnz.
  rewrite <-word_chars, after_chars. rewrite E in Hnz |- *.
  unfold tokens at 1. rewrite split_tokens_word by done.
  assert (Hsep : token_char c = true); [|by cbn [word app flush]; rewrite Hsep].
  assert (is_separator c = false).
  { clear -Hs. remember (c_chars cur) as m eqn:Em. clear Em. induction m as [|d m IH]; simpl in *; [done|].
    destruct (is_separator d) eqn:E; [by apply IH|]. congruence. }
  unfold token_char, NUL. inversion_clear Hnz as [|? ? Hc _]. apply Z.eqb_neq in Hc.
  by rewrite Hc, H.
Qed.

(** ** The copying loop *)

Lemma copy_token_loop_spec cur pre :
  alen pre <= SHELL_COMMAND_ARG_MAX ->
  exists cur' dst,
    copy_token_loop cur (alen pre) (token_buffer pre) =
    (if too_long (pre ++ word cur) then SHELL_PARSE_ARGUMENT_TOO_LONG else SHELL_PARSE_OK,
     cur', dst) /\
    (too_long (pre ++ word cur) = false -> cur' = after cur /\ dst = token_buffer (pre ++ word cur)).
Proof.
  unfold too_long, token_buffer, SHELL_COMMAND_ARG_MAX.
  revert pre. induction cur as [|c cur IH]; intros pre Hpre; pose proof (alen_nonneg pre).
  { simpl. rewrite app_nil_r, (proj2 (Z.ltb_ge _ _)) by done. do 2 eexists.
    split; [done|]. split; [done|]. apply padded_terminate. lia. }
  cbn [copy_token_loop word after]. fold (token_char c). destruct (token_char c).
  - rewrite Z.geb_leb. unfold SHELL_COMMAND_ARG_MAX. destruct (31 <=? alen pre) eqn:E; bprop.
    + assert (31 < alen (pre ++ c :: word cur)).
      { rewrite alen_app, alen_cons. pose proof (alen_nonneg (word cur)). lia. }
      rewrite (proj2 (Z.ltb_lt _ _)) by done. by do 2 eexists.
    + rewrite u32_small by (unfold is_u32; lia). rewrite padded_put by lia.
      replace (alen pre + 1) with (alen (pre ++ [c])) by (by rewrite alen_app).
      destruct (IH (pre ++ [c])) as (cur' & dst & He & Ho).
      { rewrite alen_app. change (alen [c]) with 1. lia. }
      rewrite <-app_assoc in He, Ho. by exists cur', dst.
  - rewrite app_nil_r, (proj2 (Z.ltb_ge _ _)) by done. do 2 eexists.
    split; [done|]. split; [done|]. apply padded_terminate. lia.
Qed.

(** ** The argument loop *)

(** The struct being filled, with the arguments [done] already stored. *)
Definition partial_command (kind : shell_command_kind) (name : list Z) (args : list (list Z))
  : shell_command :=
  mk_cmd kind name (alen args)
    ((token_buffer <$> args) ++ replicate (8 - length args) (token_buffer [])).

Lemma partial_next args :
  (length args < 8)%nat ->
  ((token_buffer <$> args) ++ replicate (8 - length args) (token_buffer [])).[alen args]
  = token_buffer [].
Proof.
  intros Hl. unfold aget, alen. rewrite Nat2Z.id.
  rewrite lookup_total_app_r by (rewrite length_fmap; lia).
  apply lookup_total_replicate_2. rewrite length_fmap. lia.
Qed.

Lemma partial_store args w :
  (length args < 8)%nat ->
  ((token_buffer <$> args) ++ replicate (8 - length args) (token_buffer [])).[alen args <-
    token_buffer w]
  = (token_buffer <$> args ++ [w]) ++ replicate (8 - length (args ++ [w])) (token_buffer []).
Proof.
  intros Hl. unfold aset, alen. rewrite Nat2Z.id, insert_app_r_alt by (rewrite length_fmap; lia).
  rewrite length_fmap, Nat.sub_diag, fmap_app, <-app_assoc. f_equal.
  rewrite length_app. simpl. by replace (8 - length args)%nat with (S (8 - (length args + 1))) by lia.
Qed.

Lemma parse_arguments_spec fuel cur kind name args :
  (length args <= 8)%nat -> (8 - length args < fuel)%nat ->
  let rest := tokens (c_chars cur) in
  exists p,
    parse_arguments fuel cur (partial_command kind name args) =
    Some (parse_verdict (8 - length args) rest, p) /\
    (parse_verdict (8 - length args) rest = SHELL_PARSE_OK ->
     p = partial_command kind name (args ++ rest)).
Proof.
  cbv zeta. revert cur args. induction fuel as [|fuel IH]; intros cur args Hl Hf; [lia|].
  cbn [parse_arguments]. rewrite tokens_step. cbv zeta.
  destruct (_ == NUL) eqn:En.
  { eexists. split; [|by rewrite app_nil_r]. unfold parse_verdict.
    by destruct (8 - length args)%nat. }
  cbn [cmd_argument_count partial_command cmd_arguments].
  rewrite Z.geb_leb. unfold SHELL_COMMAND_MAX_ARGS. destruct (8 <=? alen args) eqn:E; bprop.
  { unfold alen in E. replace (8 - length args)%nat with O by lia. by eexists. }
  unfold alen in E. assert (Hlt : (length args < 8)%nat) by lia.
  rewrite partial_next by done. unfold copy_token.
  destruct (copy_token_loop_spec (skip_separators cur) [] ltac:(done)) as (cur' & dst & He & Hok).
  change (alen (@nil Z)) with 0 in He. rewrite He. clear He.
  simpl app in *. assert (Hn : (8 - length args)%nat =
    S (8 - length (args ++ [word (skip_separators cur)]))) by (rewrite length_app; simpl; lia).
  destruct (too_long (word (skip_separators cur))) eqn:Et.
  { rewrite Hn. unfold parse_verdict. simpl. rewrite Et. simpl. eexists. split; [done|]. done. }
  destruct (Hok eq_refl) as [-> ->]. rewrite partial_store by done. rewrite Hn.
  rewrite u32_small by (unfold is_u32, alen; lia).
  replace (alen args + 1) with (alen (args ++ [word (skip_separators cur)])) by (by rewrite alen_app).
  destruct (IH (after (skip_separators cur)) (args ++ [word (skip_separators cur)])) as (p & Hp & Hq).
  { rewrite length_app. simpl. lia. } { rewrite length_app. simpl. lia. }
  exists p. rewrite <-app_assoc in Hq. unfold partial_command in *.
  cbn [cmd_kind cmd_name]. rewrite Hp. unfold parse_verdict in *. simpl. by rewrite Et.
Qed.

(** Clearing overwrites every byte, whatever the struct held. *)
Lemma command_clear_erases command :
  command_sized command -> command_clear command = partial_command SHELL_COMMAND_UNKNOWN (token_buffer []) [].
Proof.
  intros (Hn & Ha & Hs). unfold command_clear, partial_command. f_equal.
  - rewrite (fill_range_tabulate (SHELL_COMMAND_ARG_MAX + 1) _ _ ltac:(unfold SHELL_COMMAND_ARG_MAX; lia) Hn). reflexivity.
  - destruct (cmd_arguments command) as [|a0 [|a1 [|a2 [|a3 [|a4 [|a5 [|a6 [|a7 [|]]]]]]]]]; try discriminate Ha.
    repeat (apply Forall_cons_1 in Hs as [? Hs]).
    change (for_range 0 SHELL_COMMAND_MAX_ARGS ?f ?x) with (fold_left (fun s i => f i s) [0;1;2;3;4;5;6;7] x).
    cbn [fold_left]. unfold aget, aset. cbn [Z.to_nat Pos.to_nat Pos.iter_op Init.Nat.add list_lookup_total insert list_insert].
    rewrite !(fill_range_tabulate (SHELL_COMMAND_ARG_MAX + 1)) by (done || (unfold SHELL_COMMAND_ARG_MAX; lia)). reflexivity.
Qed.

Lemma command_kind_buffer w :
  too_long w = false -> Forall (fun c => c <> 0) w -> command_kind (token_buffer w) = kind_named w.
Proof.
  unfold too_long, token_buffer. intros Hl Hnz. bprop.
  rewrite command_kind_named, c_chars_padded by (done || lia). done.
Qed.

Lemma parse_is_spec parsed line command :
  command_sized parsed -> shell_command_parse parsed (Some line) (Some command) = parse_spec line command.
Proof.
  intros Hsized. unfold shell_command_parse, parse_spec. rewrite tokens_step. cbv zeta.
  destruct (_ == NUL); [done|]. rewrite command_clear_erases by done. unfold copy_token.
  cbn [cmd_name partial_command cmd_argument_count cmd_arguments].
  set (cur := skip_separators line).
  destruct (copy_token_loop_spec cur [] ltac:(done)) as (cur' & dst & He & Hok).
  change (alen (@nil Z)) with 0 in He. rewrite He. simpl app in *. clear He.
  destruct (too_long (word cur)) eqn:Et; [done|]. destruct (Hok eq_refl) as [-> ->].
  rewrite command_kind_buffer by (done || apply word_nonzero).
  destruct (parse_arguments_spec parse_fuel (after cur) (kind_named (word cur))
    (token_buffer (word cur)) [] ltac:(simpl; lia) ltac:(unfold parse_fuel; simpl; lia)) as (p & Hp & Hq).
  match goal with
  | |- context [parse_arguments parse_fuel _ ?start] =>
      change start with (partial_command (kind_named (word cur)) (token_buffer (word cur)) [])
  end.
  simpl length in *. rewrite Nat.sub_0_r in *. rewrite Hp.
  destruct (parse_verdict 8 _); try done. by rewrite (Hq eq_refl).
Qed.

(** ** Printing a command line *)

Definition print_command (name : list Z) (args : list (list Z)) : list Z :=
  name ++ concat ((cons SPACE) <$> args).

(** A word the parser can store: not empty, no separator or NUL, short. *)
Definition storable (w : list Z) : bool :=
  negb (bool_decide (w = [])) && forallb token_char w && negb (too_long w).

Lemma split_tokens_chars w acc l :
  forallb token_char w = true -> split_tokens acc (w ++ l) = split_tokens (acc ++ w) l.
Proof.
  revert acc. induction w as [|c w IH]; intros acc Hw; simpl in *; [by rewrite app_nil_r|].
  apply andb_prop in Hw as [Hc Hw]. unfold token_char in Hc. apply andb_prop in Hc as [_ Hc].
  apply negb_true_iff in Hc. change (is_separator c) with (blank c) in Hc. rewrite Hc, IH by done. by rewrite <-app_assoc.
Qed.

Lemma tokens_print name args :
  storable name = true -> forallb storable args = true ->
  tokens (print_command name args) = name :: args.
Proof.
  unfold tokens, print_command. revert name.
  induction args as [|a args IH]; intros name Hn Ha; simpl in Ha; bprop;
    pose proof Hn as Hn'; unfold storable in Hn'; bprop;
    rewrite split_tokens_chars by done; apply bool_decide_eq_false in H1 || apply bool_decide_eq_false in H.
  - simpl. by destruct name.
  - simpl. destruct name; [done|]. simpl. f_equal. by apply IH.
Qed.

Lemma print_nonzero name args :
  storable name = true -> forallb storable args = true ->
  Forall (fun c => c <> 0) (print_command name args).
Proof.
  assert (Hw : forall w, storable w = true -> Forall (fun c => c <> 0) w).
  { intros w Hs. unfold storable in Hs. bprop. apply Forall_forall. intros c Hc ->.
    rewrite forallb_forall in H1. by specialize (H1 0 Hc). }
  intros Hn Ha. unfold print_command. apply Forall_app. split; [by apply Hw|].
  induction args as [|a args IH]; simpl in *; [done|]. bprop.
  constructor; [done|]. apply Forall_app. split; [by apply Hw|by apply IH].
Qed.

(** ** Properties *)

(** C24: on every line, NUL-terminated anywhere, and whatever its uninitialised
    local struct holds, [shell_command_parse] returns exactly what the
    reference tokeniser and the table of commands say: nothing but blanks and
    tabs is EMPTY, a name or one of the first eight arguments of more than 31
    characters is ARGUMENT_TOO_LONG, a ninth argument TOO_MANY_ARGUMENTS, and
    otherwise the command holds the name, its kind in the table and the
    arguments in order, every other byte zero.  On any error the caller's
    struct is left as it was, and a null pointer is refused. *)
Theorem parse_correct parsed line command :
  command_sized parsed ->
  shell_command_parse parsed (Some line) (Some command) = parse_spec line command /\
  shell_command_parse parsed None (Some command) = (SHELL_PARSE_INVALID_ARGUMENT, Some command) /\
  shell_command_parse parsed (Some line) None = (SHELL_PARSE_INVALID_ARGUMENT, None).
Proof. intros Hs. split; [by apply parse_is_spec|done]. Qed.

Lemma parse_correct_witness :
  shell_command_parse old_command (Some ([TAB] ++ cstr "ls" ++ [SPACE; SPACE] ++ cstr "x")) (Some blank_command) =
  (SHELL_PARSE_OK, Some (mk_cmd SHELL_COMMAND_LS (padded 32 (cstr "ls")) 1
     (padded 32 (cstr "x") :: replicate 7 (replicate 32 0)))).
Proof. rewrite (proj1 (parse_correct old_command _ blank_command old_command_sized)). vm_compute. reflexivity. Defined.

(** Round trip: printing a name and at most eight arguments, all of
    non-separator characters and at most 31 long, separated by single spaces,
    and parsing the line gives the command back, every stored field being the
    original word once read up to its NUL. *)
Theorem parse_print_roundtrip uninitialised name args command :
  command_sized uninitialised -> storable name = true -> forallb storable args = true -> alen args <= SHELL_COMMAND_MAX_ARGS ->
  exists parsed,
    shell_command_parse uninitialised (Some (print_command name args)) (Some command) =
      (SHELL_PARSE_OK, Some parsed) /\
    cmd_kind parsed = kind_named name /\ c_chars (cmd_name parsed) = name /\
    cmd_argument_count parsed = alen args /\
    c_chars <$> take (length args) (cmd_arguments parsed) = args.
Proof.
  intros Hu Hn Ha Hl. rewrite parse_is_spec by done. unfold parse_spec.
  rewrite c_chars_id, tokens_print by (by try apply print_nonzero).
  assert (Hlong : forall w, storable w = true -> too_long w = false)
    by (unfold storable; intros w Hw; bprop; done).
  assert (Hchars : forall w, storable w = true -> c_chars (token_buffer w) = w).
  { intros w Hw. pose proof (Hlong w Hw) as Hlw. unfold too_long, SHELL_COMMAND_ARG_MAX in Hlw.
    bprop. apply c_chars_padded; [unfold SHELL_COMMAND_ARG_MAX; lia|].
    pose proof (print_nonzero w [] Hw eq_refl) as Hnz. unfold print_command in Hnz.
    by rewrite app_nil_r in Hnz. }
  rewrite (Hlong name Hn). unfold parse_verdict.
  replace (existsb too_long (take 8 args)) with false; cycle 1.
  { symmetry. apply not_true_is_false. intros He. apply existsb_exists in He as (w & Hw & Ht).
    rewrite forallb_forall in Ha. rewrite Hlong in Ht; [done|]. apply Ha.
    rewrite <-(take_drop 8 args). apply in_or_app. by left. }
  unfold alen, SHELL_COMMAND_MAX_ARGS in Hl. rewrite (proj2 (Nat.ltb_ge _ _)) by lia.
  eexists. split; [done|]. cbn [built_command cmd_kind cmd_name cmd_argument_count cmd_arguments].
  split; [done|]. split; [by apply Hchars|]. split; [done|].
  rewrite take_app_length' by (by rewrite length_fmap).
  rewrite <-list_fmap_compose. rewrite <-(list_fmap_id args) at 2.
  apply list_fmap_ext. intros i w Hw. simpl. apply Hchars.
  rewrite forallb_forall in Ha. apply Ha, list_elem_of_In. by eapply list_elem_of_lookup_2.
Qed.

Lemma parse_print_roundtrip_witness :
  exists parsed,
    shell_command_parse old_command (Some (print_command (cstr "write") [cstr "note"; cstr "hi"]))
      (Some blank_command) = (SHELL_PARSE_OK, Some parsed) /\
    cmd_kind parsed = SHELL_COMMAND_WRITE /\ c_chars (cmd_name parsed) = cstr "write" /\
    cmd_argument_count parsed = 2 /\
    c_chars <$> take 2 (cmd_arguments parsed) = [cstr "note"; cstr "hi"].
Proof.
  apply (parse_print_roundtrip old_command (cstr "write") [cstr "note"; cstr "hi"] blank_command);
    [exact old_command_sized|..]; vm_compute; congruence.
Defined.

(** What a usage text says: its first word is the command, a word opening
    with [<] is a required argument, and an ellipsis allows up to eight. *)
Definition required_words (usage : list Z) : Z :=
  alen (filter (fun w => w.[0] = ch "<") (tokens usage)).

Definition open_ended (usage : list Z) : bool :=
  existsb (fun w => bool_decide (take 3 w = cstr "...")) (tokens usage).

(** The command table is consistent: a name is recognised as a kind
    exactly when it is the first word of that kind's usage text, and the
    arity check accepts exactly the argument counts the usage text shows. *)
Theorem command_table_consistent kind usage name count args :
  shell_command_usage kind = Some usage -> 0 <= count ->
  (command_kind name = kind <-> head (tokens usage) = Some (c_chars name)) /\
  shell_command_has_valid_arity (Some (mk_cmd kind name count args)) =
    (required_words usage <=? count) &&
    (count <=? if open_ended usage then SHELL_COMMAND_MAX_ARGS else required_words usage).
Proof.
  intros Hu Hc. split.
  - rewrite <-command_kind_chars. split.
    + unfold command_kind. rewrite !strings_equal_spec, c_chars_idemp.
      repeat case_bool_decide; intros <-; simpl in Hu; simplify_eq;
        match goal with E : c_chars name = _ |- _ => rewrite E end; reflexivity.
    + destruct kind; simpl in Hu; simplify_eq; vm_compute (head _); intros [= <-]; reflexivity.
  - destruct kind; simpl in Hu; simplify_eq; cbn [shell_command_has_valid_arity cmd_kind cmd_argument_count];
      vm_compute (required_words _); vm_compute (open_ended _); unfold SHELL_COMMAND_MAX_ARGS;
      apply eq_true_iff_eq; rewrite ?andb_true_iff, ?Z.geb_leb, ?Z.leb_le, ?Z.eqb_eq; lia.
Qed.

Lemma command_table_consistent_witness :
  command_kind (cstr "rm") = SHELL_COMMAND_RM /\
  shell_command_has_valid_arity
    (Some (mk_cmd SHELL_COMMAND_RM (cstr "rm") 2 [])) = false.
Proof.
  destruct (command_table_consistent SHELL_COMMAND_RM (cstr "rm <name>") (cstr "rm") 2 []
    eq_refl ltac:(lia)) as [Hk Ha].
  split; [apply Hk; reflexivity|]. rewrite Ha. reflexivity.
Defined.
