(* ===== verification/Ramfs.v ===== *)
(** * RAM file system (src/kernel/fs/ramfs.c)

    Sixteen static slots, each with a NUL-padded name of up to 31 characters
    and up to 512 bytes of data.  A pointer that may be NULL is an [option];
    an output buffer is passed in with its contents and returned; a slot
    pointer is the slot's index. *)
From S2P Require Import Prelude.

Definition RAMFS_MAX_FILES : Z := 16.
Definition RAMFS_NAME_MAX : Z := 31.
Definition RAMFS_FILE_MAX_BYTES : Z := 512.

Inductive ramfs_result :=
| RAMFS_RESULT_OK | RAMFS_RESULT_INVALID_ARGUMENT | RAMFS_RESULT_INVALID_NAME
| RAMFS_RESULT_NOT_FOUND | RAMFS_RESULT_ALREADY_EXISTS | RAMFS_RESULT_NO_SPACE
| RAMFS_RESULT_TOO_LARGE.

#[export] Instance ramfs_result_eq_dec : EqDecision ramfs_result.
Proof. solve_decision. Defined.

Record ramfs_slot := mk_slot {
  slot_alive : bool;
  slot_name : list Z;
  slot_data : list Z;
  slot_length : Z;
}.

Definition zero_slot : ramfs_slot :=
  mk_slot false (replicate 32 0) (replicate 512 0) 0.
#[export] Instance ramfs_slot_inhabited : Inhabited ramfs_slot := populate zero_slot.

Record ramfs_file_info := mk_info { info_name : list Z; info_size : Z }.

(** The statics [slots] and [live_file_count]. *)
Record ramfs := mk_fs { slots : list ramfs_slot; live_file_count : Z }.

Definition ramfs_static : ramfs := mk_fs (replicate (Z.to_nat RAMFS_MAX_FILES) zero_slot) 0.

(** ** Helpers *)

Definition clear_slot (slot : ramfs_slot) : ramfs_slot :=
  mk_slot false
    (fill_range 0 (RAMFS_NAME_MAX + 1) (fun _ => NUL) (slot_name slot))
    (fill_range 0 RAMFS_FILE_MAX_BYTES (fun _ => 0) (slot_data slot)) 0.

Definition name_char_allowed (character : Z) : bool :=
  ((character >=? ch "a") && (character <=? ch "z")) ||
  ((character >=? ch "A") && (character <=? ch "Z")) ||
  ((character >=? ch "0") && (character <=? ch "9")) ||
  (character == ch ".") || (character == ch "_") || (character == ch "-").

(** The loop of [name_is_valid], [n] iterations from [length]. *)
Fixpoint name_scan (n : nat) (length : Z) (name : list Z) : bool :=
  match n with
  | O => false
  | S n =>
      let character := name.[length] in
      if character == NUL then
        if length == 0 then false
        else if (length == 1) && (name.[0] == ch ".") then false
        else if (length == 2) && (name.[0] == ch ".") && (name.[1] == ch ".") then false
        else true
      else if negb (name_char_allowed character) then false
      else name_scan n (length + 1) name
  end.

Definition name_is_valid (name : option (list Z)) : bool :=
  match name with
  | None => false
  | Some name => name_scan (Z.to_nat (RAMFS_NAME_MAX + 1)) 0 name
  end.

Fixpoint names_equal_loop (n : nat) (index : Z) (left right : list Z) : bool :=
  match n with
  | O => false
  | S n =>
      if left.[index] != right.[index] then false
      else if left.[index] == NUL then true
      else names_equal_loop n (index + 1) left right
  end.

Definition names_equal (left right : list Z) : bool :=
  names_equal_loop (Z.to_nat (RAMFS_NAME_MAX + 1)) 0 left right.

Definition find_slot (s : ramfs) (name : list Z) : option Z :=
  find_range 0 RAMFS_MAX_FILES (fun index =>
    slot_alive (slots s).[index] && names_equal (slot_name (slots s).[index]) name).

Definition find_empty_slot (s : ramfs) : option Z :=
  find_range 0 RAMFS_MAX_FILES (fun index => negb (slot_alive (slots s).[index])).

Definition update_slot (s : ramfs) (index : Z) (slot : ramfs_slot) : ramfs :=
  mk_fs (slots s).[index <- slot] (live_file_count s).

(** ** Operations *)

Definition ramfs_init (s : ramfs) : ramfs :=
  mk_fs (for_range 0 RAMFS_MAX_FILES
           (fun index sl => sl.[index <- clear_slot sl.[index]]) (slots s)) 0.

(** The copying loop of [ramfs_create], left at the terminating NUL. *)
Fixpoint copy_name (n : nat) (index : Z) (name destination : list Z) : list Z :=
  match n with
  | O => destination
  | S n =>
      let destination := destination.[index <- name.[index]] in
      if name.[index] == NUL then destination
      else copy_name n (index + 1) name destination
  end.

Definition ramfs_create (s : ramfs) (name : option (list Z)) : ramfs_result * ramfs :=
  match name with
  | None => (RAMFS_RESULT_INVALID_ARGUMENT, s)
  | Some nm =>
      if negb (name_is_valid name) then (RAMFS_RESULT_INVALID_NAME, s)
      else match find_slot s nm with
      | Some _ => (RAMFS_RESULT_ALREADY_EXISTS, s)
      | None =>
          match find_empty_slot s with
          | None => (RAMFS_RESULT_NO_SPACE, s)
          | Some slot =>
              let cleared := clear_slot (slots s).[slot] in
              let filled := mk_slot true
                (copy_name (Z.to_nat (RAMFS_NAME_MAX + 1)) 0 nm (slot_name cleared))
                (slot_data cleared) (slot_length cleared) in
              (RAMFS_RESULT_OK,
               mk_fs (slots s).[slot <- filled] (u32 (live_file_count s + 1)))
          end
      end
  end.

(** A null [data] with a non-zero length. *)
Definition missing_data (data : option (list Z)) (length : Z) : bool :=
  match data with
  | None => length != 0
  | Some _ => false
  end.

Definition ramfs_write (s : ramfs) (name data : option (list Z)) (length : Z)
  : ramfs_result * ramfs :=
  match name with
  | None => (RAMFS_RESULT_INVALID_ARGUMENT, s)
  | Some nm =>
      if missing_data data length then (RAMFS_RESULT_INVALID_ARGUMENT, s)
      else if negb (name_is_valid name) then (RAMFS_RESULT_INVALID_NAME, s)
      else match find_slot s nm with
      | None => (RAMFS_RESULT_NOT_FOUND, s)
      | Some i =>
          let slot := (slots s).[i] in
          if length >? RAMFS_FILE_MAX_BYTES then (RAMFS_RESULT_TOO_LARGE, s)
          else
            let bytes := fill_range 0 RAMFS_FILE_MAX_BYTES
              (fun index => if index <? length then (default [] data).[index] else 0)
              (slot_data slot) in
            (RAMFS_RESULT_OK,
             update_slot s i (mk_slot (slot_alive slot) (slot_name slot) bytes length))
      end
  end.

Definition ramfs_append (s : ramfs) (name data : option (list Z)) (length : Z)
  : ramfs_result * ramfs :=
  match name with
  | None => (RAMFS_RESULT_INVALID_ARGUMENT, s)
  | Some nm =>
      if missing_data data length then (RAMFS_RESULT_INVALID_ARGUMENT, s)
      else if negb (name_is_valid name) then (RAMFS_RESULT_INVALID_NAME, s)
      else match find_slot s nm with
      | None => (RAMFS_RESULT_NOT_FOUND, s)
      | Some i =>
          let slot := (slots s).[i] in
          if length >? u32 (RAMFS_FILE_MAX_BYTES - slot_length slot)
          then (RAMFS_RESULT_TOO_LARGE, s)
          else
            let bytes := for_range 0 length
              (fun index d => d.[u32 (slot_length slot + index) <- (default [] data).[index]])
              (slot_data slot) in
            (RAMFS_RESULT_OK,
             update_slot s i (mk_slot (slot_alive slot) (slot_name slot) bytes
                                (u32 (slot_length slot + length))))
      end
  end.

(** The result, the caller's buffer and the caller's length afterwards. *)
Definition ramfs_read (s : ramfs) (name data : option (list Z)) (capacity : Z)
    (length : option Z) : ramfs_result * option (list Z) * option Z :=
  match name, length with
  | Some nm, Some _ =>
      if negb (name_is_valid name) then (RAMFS_RESULT_INVALID_NAME, data, length)
      else match find_slot s nm with
      | None => (RAMFS_RESULT_NOT_FOUND, data, length)
      | Some i =>
          let slot := (slots s).[i] in
          match data with
          | None =>
              if (slot_length slot != 0) || (capacity != 0)
              then (RAMFS_RESULT_INVALID_ARGUMENT, data, length)
              else (RAMFS_RESULT_OK, data, Some (slot_length slot))
          | Some buffer =>
              if capacity <? slot_length slot then (RAMFS_RESULT_TOO_LARGE, data, length)
              else
                (RAMFS_RESULT_OK,
                 Some (fill_range 0 (slot_length slot) (fun index => (slot_data slot).[index]) buffer),
                 Some (slot_length slot))
          end
      end
  | _, _ => (RAMFS_RESULT_INVALID_ARGUMENT, data, length)
  end.

Definition ramfs_remove (s : ramfs) (name : option (list Z)) : ramfs_result * ramfs :=
  match name with
  | None => (RAMFS_RESULT_INVALID_ARGUMENT, s)
  | Some nm =>
      if negb (name_is_valid name) then (RAMFS_RESULT_INVALID_NAME, s)
      else match find_slot s nm with
      | None => (RAMFS_RESULT_NOT_FOUND, s)
      | Some i =>
          (RAMFS_RESULT_OK,
           mk_fs (slots s).[i <- clear_slot (slots s).[i]] (u32 (live_file_count s - 1)))
      end
  end.

Definition ramfs_count (s : ramfs) : Z := live_file_count s.

(** The slot the loop of [ramfs_get_info] stops at. *)
Fixpoint info_scan (n : nat) (slot_index live_index index : Z) (s : ramfs) : option Z :=
  match n with
  | O => None
  | S n =>
      if negb (slot_alive (slots s).[slot_index])
      then info_scan n (slot_index + 1) live_index index s
      else if live_index != index
      then info_scan n (slot_index + 1) (u32 (live_index + 1)) index s
      else Some slot_index
  end.

Definition ramfs_get_info (s : ramfs) (index : Z) (info : option ramfs_file_info)
  : bool * option ramfs_file_info :=
  match info with
  | None => (false, info)
  | Some out =>
      match info_scan (Z.to_nat RAMFS_MAX_FILES) 0 0 index s with
      | None => (false, info)
      | Some slot_index =>
          let slot := (slots s).[slot_index] in
          (true, Some (mk_info
             (fill_range 0 (RAMFS_NAME_MAX + 1) (fun i => (slot_name slot).[i]) (info_name out))
             (slot_length slot)))
      end
  end.

(** The slot loop of [ramfs_validate]: the live slots counted, or [None] at
    the first inconsistency. *)
Fixpoint validate_slots (n : nat) (index alive_count : Z) (s : ramfs) : option Z :=
  match n with
  | O => Some alive_count
  | S n =>
      let slot := (slots s).[index] in
      if negb (slot_alive slot) then
        if slot_length slot != 0 then None
        else if negb (all_range 0 (RAMFS_NAME_MAX + 1) (fun i => (slot_name slot).[i] == NUL)) then None
        else if negb (all_range 0 RAMFS_FILE_MAX_BYTES (fun i => (slot_data slot).[i] == 0)) then None
        else validate_slots n (index + 1) alive_count s
      else if negb (name_is_valid (Some (slot_name slot)))
              || (slot_length slot >? RAMFS_FILE_MAX_BYTES) then None
      else if negb (all_range (index + 1) RAMFS_MAX_FILES (fun other =>
                 negb (slot_alive (slots s).[other]
                       && names_equal (slot_name slot) (slot_name (slots s).[other])))) then None
      else validate_slots n (index + 1) (u32 (alive_count + 1)) s
  end.

Definition ramfs_validate (s : ramfs) : bool :=
  if live_file_count s >? RAMFS_MAX_FILES then false
  else match validate_slots (Z.to_nat RAMFS_MAX_FILES) 0 0 s with
  | None => false
  | Some alive_count => alive_count == live_file_count s
  end.

(** ** Names *)

Definition valid_name (n : list Z) : bool :=
  forallb name_char_allowed n && (1 <=? alen n) && (alen n <=? RAMFS_NAME_MAX) &&
  negb (bool_decide (n = cstr ".")) && negb (bool_decide (n = cstr "..")).

(** Reading a C string at an index and going on behind it. *)
Lemma c_chars_drop i l :
  c_chars (drop i l) =
  if l.[Z.of_nat i] == 0 then [] else l.[Z.of_nat i] :: c_chars (drop (S i) l).
Proof.
  unfold aget. rewrite Nat2Z.id. destruct (l !! i) as [c|] eqn:E.
  - rewrite (drop_S l c i) by done. rewrite (list_lookup_total_correct _ _ _ E). done.
  - rewrite list_lookup_total_alt, E. simpl. rewrite drop_ge; [done|]. by apply lookup_ge_None.
Qed.

Lemma names_equal_loop_spec n i l r :
  (length (c_chars (drop i l)) < n)%nat ->
  names_equal_loop n (Z.of_nat i) l r = bool_decide (c_chars (drop i l) = c_chars (drop i r)).
Proof.
  revert i. induction n as [|n IH]; intros i Hl; [lia|]. cbn [names_equal_loop].
  rewrite (c_chars_drop i l) in *. rewrite (c_chars_drop i r). unfold NUL.
  destruct (Z.eqb_spec l.[Z.of_nat i] r.[Z.of_nat i]) as [E|E]; simpl.
  - rewrite <-E in *. destruct (_ == 0); [by rewrite bool_decide_true|].
    replace (Z.of_nat i + 1) with (Z.of_nat (S i)) by lia. rewrite IH by (simpl in Hl; lia).
    apply bool_decide_ext. split; congruence.
  - symmetry. apply bool_decide_eq_false.
    destruct (Z.eqb_spec l.[Z.of_nat i] 0), (Z.eqb_spec r.[Z.of_nat i] 0); congruence.
Qed.

Lemma names_equal_spec l r :
  alen (c_chars l) <= RAMFS_NAME_MAX -> names_equal l r = bool_decide (c_chars l = c_chars r).
Proof.
  unfold RAMFS_NAME_MAX, alen. intros Hl.
  apply (names_equal_loop_spec _ 0). change (drop 0 l) with l.
  change (Z.to_nat (RAMFS_NAME_MAX + 1)) with 32%nat. lia.
Qed.

Definition name_end_ok (length : Z) (name : list Z) : bool :=
  negb (length == 0) && negb ((length == 1) && (name.[0] == ch ".")) &&
  negb ((length == 2) && (name.[0] == ch ".") && (name.[1] == ch ".")).

Lemma name_scan_spec n i name :
  let w := c_chars (drop i name) in
  name_scan n (Z.of_nat i) name =
  forallb name_char_allowed w && (length w <? n)%nat && name_end_ok (Z.of_nat i + alen w) name.
Proof.
  cbv zeta. revert i. induction n as [|n IH]; intros i.
  { simpl. by rewrite andb_false_r. }
  cbn [name_scan]. rewrite (c_chars_drop i). unfold NUL. destruct (_ == 0).
  - change (alen (@nil Z)) with 0. rewrite Z.add_0_r. unfold name_end_ok.
    repeat match goal with |- context [if ?b then false else _] => destruct b end; done.
  - simpl. destruct (name_char_allowed _); [|done]. simpl.
    replace (Z.of_nat i + 1) with (Z.of_nat (S i)) by lia. rewrite IH, alen_cons.
    do 2 f_equal. lia.
Qed.

Lemma c_chars_get l i : 0 <= i < alen (c_chars l) -> l.[i] = (c_chars l).[i].
Proof.
  revert i. induction l as [|c l IH]; intros i Hi; [done|]. cbn [c_chars] in *.
  destruct (c == 0); [unfold alen in Hi; simpl in Hi; lia|].
  destruct (decide (i = 0)) as [->|]; [done|]. rewrite alen_cons in Hi.
  specialize (IH (i - 1) ltac:(lia)). unfold aget in *.
  by replace (Z.to_nat i) with (S (Z.to_nat (i - 1))) by lia.
Qed.

Lemma name_end_ok_chars name :
  name_end_ok (alen (c_chars name)) name =
  (1 <=? alen (c_chars name)) && negb (bool_decide (c_chars name = cstr ".")) &&
  negb (bool_decide (c_chars name = cstr "..")).
Proof.
  unfold name_end_ok. pose proof (c_chars_get name) as Hg.
  destruct (c_chars name) as [|a [|b [|c w]]] eqn:E.
  - done.
  - rewrite (Hg 0) by done. change ([a].[0]) with a. simpl.
    change (cstr ".") with [ch "."]. destruct (Z.eqb_spec a (ch ".")) as [->|]; simpl.
    + done.
    + rewrite !bool_decide_false by (change (cstr "..") with [ch "."; ch "."]; congruence). done.
  - rewrite (Hg 0), (Hg 1) by done. change ([a; b].[0]) with a. change ([a; b].[1]) with b. simpl.
    change (cstr "..") with [ch "."; ch "."]. rewrite (bool_decide_false ([a; b] = cstr ".")) by done.
    destruct (Z.eqb_spec a (ch ".")) as [->|]; simpl.
    + destruct (Z.eqb_spec b (ch ".")) as [->|]; simpl; [done|].
      rewrite bool_decide_false by congruence. done.
    + rewrite bool_decide_false by congruence. done.
  - rewrite !bool_decide_false by done. pose proof (alen_nonneg w). rewrite !alen_cons.
    repeat match goal with |- context [alen w + 1 + 1 + 1 == ?k] =>
      rewrite (proj2 (Z.eqb_neq (alen w + 1 + 1 + 1) k)) by lia end.
    simpl. symmetry. rewrite andb_true_r. simpl. rewrite andb_true_r. apply Z.leb_le. lia.
Qed.

Lemma name_is_valid_spec name : name_is_valid (Some name) = valid_name (c_chars name).
Proof.
  unfold name_is_valid, valid_name. rewrite (name_scan_spec _ 0). change (drop 0 name) with name.
  change (Z.to_nat (RAMFS_NAME_MAX + 1)) with 32%nat. rewrite Z.add_0_l, name_end_ok_chars.
  replace (length (c_chars name) <? 32)%nat with (alen (c_chars name) <=? RAMFS_NAME_MAX).
  - by destruct (forallb _ _), (1 <=? _), (_ <=? RAMFS_NAME_MAX).
  - unfold alen, RAMFS_NAME_MAX. apply eq_true_iff_eq. rewrite Z.leb_le, Nat.ltb_lt. lia.
Qed.

(** ** Abstract file system

    A finite map from names to contents. *)

Abbreviation files := (gmap (list Z) (list Z)).

(** What a slot holds: nothing, or a named file. *)
Abbreviation entry := (option (list Z * list Z)).

Definition slot_of (e : entry) : ramfs_slot :=
  match e with
  | None => mk_slot false (padded (RAMFS_NAME_MAX + 1) []) (padded RAMFS_FILE_MAX_BYTES []) 0
  | Some (n, c) =>
      mk_slot true (padded (RAMFS_NAME_MAX + 1) n) (padded RAMFS_FILE_MAX_BYTES c) (alen c)
  end.

Definition entry_live (e : entry) : bool :=
  match e with
  | None => false
  | Some _ => true
  end.

Definition live_entries (ents : list entry) : Z :=
  count_range 0 RAMFS_MAX_FILES (fun i => entry_live ents.[i]).

Record ents_repr (ents : list entry) (m : files) : Prop := {
  en_len : alen ents = RAMFS_MAX_FILES;
  en_valid : forall i n c, 0 <= i < RAMFS_MAX_FILES -> ents.[i] = Some (n, c) ->
    valid_name n = true /\ alen c <= RAMFS_FILE_MAX_BYTES;
  en_map : forall n c, m !! n = Some c <-> exists i, 0 <= i < RAMFS_MAX_FILES /\ ents.[i] = Some (n, c);
  en_uniq : forall i j n c d, 0 <= i < RAMFS_MAX_FILES -> 0 <= j < RAMFS_MAX_FILES ->
    ents.[i] = Some (n, c) -> ents.[j] = Some (n, d) -> i = j;
  en_size : live_entries ents = Z.of_nat (size m);
}.

Record fs_repr (s : ramfs) (ents : list entry) (m : files) : Prop := {
  fr_slots : slots s = slot_of <$> ents;
  fr_live : live_file_count s = Z.of_nat (size m);
  fr_ents : ents_repr ents m;
}.

Lemma entry_aset_cases (ents : list entry) i j e :
  alen ents = RAMFS_MAX_FILES -> 0 <= i < RAMFS_MAX_FILES -> 0 <= j < RAMFS_MAX_FILES ->
  (ents.[i <- e]).[j] = if i =? j then e else ents.[j].
Proof.
  intros Hl Hi Hj. destruct (Z.eqb_spec i j) as [->|].
  - apply aget_aset_eq. lia.
  - apply aget_aset_ne; [lia|lia|done].
Qed.

Lemma live_entries_update ents i e :
  alen ents = RAMFS_MAX_FILES -> 0 <= i < RAMFS_MAX_FILES ->
  live_entries ents.[i <- e] =
  live_entries ents - Z.b2z (entry_live ents.[i]) + Z.b2z (entry_live e).
Proof.
  intros Hl Hi. unfold live_entries.
  rewrite (count_range_update _ _ (fun i => entry_live ents.[i]) _ i Hi).
  - by rewrite entry_aset_cases, Z.eqb_refl by done.
  - intros j Hj Hne. rewrite entry_aset_cases by done.
    by rewrite (proj2 (Z.eqb_neq i j)) by congruence.
Qed.

(** Storing a file at a slot that is empty or already holds it. *)
Lemma ents_repr_insert ents m i n c :
  ents_repr ents m -> 0 <= i < RAMFS_MAX_FILES -> valid_name n = true ->
  alen c <= RAMFS_FILE_MAX_BYTES ->
  (ents.[i] = None /\ m !! n = None \/ exists c0, ents.[i] = Some (n, c0)) ->
  ents_repr ents.[i <- Some (n, c)] (<[n := c]> m).
Proof.
  intros [Hl Hv Hm Hu Hs] Hi Hn Hc Hold.
  assert (Hother : forall j d, 0 <= j < RAMFS_MAX_FILES -> i <> j -> ents.[j] <> Some (n, d)).
  { intros j d Hj Hne Hd. destruct Hold as [[_ Hnone]|[c0 Hc0]].
    - assert (m !! n = Some d) by (apply Hm; eauto). congruence.
    - apply Hne. by apply (Hu i j n c0 d). }
  split.
  - by rewrite alen_aset.
  - intros j n' c' Hj. rewrite entry_aset_cases by done. destruct (_ =? _); [by intros [= <- <-]|by apply Hv].
  - intros n' c'. destruct (decide (n = n')) as [<-|Hne].
    + rewrite lookup_insert_eq. split.
      * intros [= <-]. exists i. by rewrite entry_aset_cases, Z.eqb_refl.
      * intros (j & Hj & Hd). rewrite entry_aset_cases in Hd by done.
        destruct (Z.eqb_spec i j); [congruence|]. by apply Hother in Hd.
    + rewrite lookup_insert_ne, Hm by done. split; intros (j & Hj & Hd); exists j; (split; [done|]);
        rewrite entry_aset_cases in * by done; destruct (Z.eqb_spec i j) as [<-|]; try done.
      * destruct Hold as [[? _]|[? ?]]; congruence.
      * congruence.
  - intros j k n' c' d' Hj Hk. rewrite !entry_aset_cases by done.
    destruct (Z.eqb_spec i j) as [<-|], (Z.eqb_spec i k) as [<-|]; intros E1 E2; try done.
    + simplify_eq. by apply Hother in E2.
    + simplify_eq. by apply Hother in E1.
    + by apply (Hu j k n' c' d').
  - rewrite live_entries_update by done. destruct Hold as [[-> Hnone]|[c0 Hc0]].
    + rewrite map_size_insert_None by done. simpl. lia.
    + rewrite Hc0, map_size_insert_Some by (exists c0; apply Hm; eauto). simpl. lia.
Qed.

Lemma ents_repr_delete ents m i n c :
  ents_repr ents m -> 0 <= i < RAMFS_MAX_FILES -> ents.[i] = Some (n, c) ->
  ents_repr ents.[i <- None] (delete n m).
Proof.
  intros [Hl Hv Hm Hu Hs] Hi Hd0. split.
  - by rewrite alen_aset.
  - intros j n' c' Hj. rewrite entry_aset_cases by done. destruct (_ =? _); [done|by apply Hv].
  - intros n' c'. destruct (decide (n = n')) as [<-|Hne].
    + rewrite lookup_delete_eq. split; [done|]. intros (j & Hj & Hd).
      rewrite entry_aset_cases in Hd by done. destruct (Z.eqb_spec i j) as [|Hne]; [done|].
      destruct Hne. by apply (Hu i j n c c').
    + rewrite lookup_delete_ne, Hm by done. split; intros (j & Hj & Hd); exists j; (split; [done|]);
        rewrite entry_aset_cases in * by done; destruct (Z.eqb_spec i j) as [<-|]; try done.
      congruence.
  - intros j k n' c' d' Hj Hk. rewrite !entry_aset_cases by done.
    destruct (Z.eqb_spec i j) as [<-|], (Z.eqb_spec i k) as [<-|]; try done. by apply Hu.
  - assert (Hn : m !! n = Some c) by (apply Hm; eauto).
    rewrite live_entries_update, Hd0 by done. simpl.
    rewrite map_size_delete_Some by eauto.
    assert (size m <> 0)%nat by (intros E; apply map_size_empty_inv in E; set_solver). lia.
Qed.

(** ** Lookup *)

Lemma slots_get s ents m i :
  fs_repr s ents m -> 0 <= i < RAMFS_MAX_FILES -> (slots s).[i] = slot_of ents.[i].
Proof.
  intros [-> _ [Hl _ _ _ _]] Hi. apply aget_fmap. lia.
Qed.

Lemma valid_name_nonzero n : valid_name n = true -> Forall (fun c => c <> 0) n.
Proof.
  unfold valid_name. intros H. bprop. apply Forall_forall. intros c Hc ->.
  rewrite forallb_forall in H. by specialize (H 0 Hc).
Qed.

Lemma valid_name_length n : valid_name n = true -> 1 <= alen n <= RAMFS_NAME_MAX.
Proof. unfold valid_name. intros H. by bprop. Qed.

Lemma valid_name_buffer n :
  valid_name n = true -> c_chars (padded (RAMFS_NAME_MAX + 1) n) = n.
Proof.
  intros Hn. pose proof (valid_name_length n Hn). apply c_chars_padded; [lia|].
  by apply valid_name_nonzero.
Qed.

Lemma slot_matches s ents m i raw :
  fs_repr s ents m -> 0 <= i < RAMFS_MAX_FILES ->
  slot_alive (slots s).[i] && names_equal (slot_name (slots s).[i]) raw = true <->
  exists c, ents.[i] = Some (c_chars raw, c).
Proof.
  intros Hr Hi. rewrite (slots_get _ _ _ _ Hr Hi). pose proof (fr_ents _ _ _ Hr) as He.
  destruct ents.[i] as [[n c]|] eqn:E; simpl; [|split; [done|intros []; done]].
  destruct (en_valid _ _ He i n c Hi E) as [Hn _].
  rewrite names_equal_spec, valid_name_buffer, bool_decide_eq_true by
    (done || rewrite valid_name_buffer by done; by apply valid_name_length).
  split; [intros ->; eauto|]. by intros [? [= -> _]].
Qed.

Lemma find_slot_repr s ents m raw :
  fs_repr s ents m ->
  match find_slot s raw with
  | Some i => 0 <= i < RAMFS_MAX_FILES /\
      exists c, ents.[i] = Some (c_chars raw, c) /\ m !! c_chars raw = Some c
  | None => m !! c_chars raw = None
  end.
Proof.
  intros Hr. pose proof (fr_ents _ _ _ Hr) as He. unfold find_slot.
  destruct (find_range _ _ _) as [i|] eqn:E.
  - apply find_range_Some in E as (Hi & Hp & _). split; [done|].
    apply (slot_matches _ _ _ _ _ Hr Hi) in Hp as [c Hc]. exists c. split; [done|].
    apply (en_map _ _ He). eauto.
  - rewrite find_range_None in E. destruct (m !! c_chars raw) as [c|] eqn:Em; [|done].
    apply (en_map _ _ He) in Em as (i & Hi & Hc). specialize (E i Hi).
    rewrite (proj2 (slot_matches _ _ _ _ _ Hr Hi)) in E by eauto. done.
Qed.

Lemma find_empty_repr s ents m :
  fs_repr s ents m ->
  match find_empty_slot s with
  | Some i => 0 <= i < RAMFS_MAX_FILES /\ ents.[i] = None /\ Z.of_nat (size m) < RAMFS_MAX_FILES
  | None => Z.of_nat (size m) = RAMFS_MAX_FILES
  end.
Proof.
  intros Hr. pose proof (fr_ents _ _ _ Hr) as He. rewrite <-(en_size _ _ He).
  assert (Ha : forall i, 0 <= i < RAMFS_MAX_FILES ->
    negb (slot_alive (slots s).[i]) = negb (entry_live ents.[i])).
  { intros i Hi. rewrite (slots_get _ _ _ _ Hr Hi). by destruct ents.[i] as [[]|]. }
  unfold find_empty_slot, live_entries. destruct (find_range _ _ _) as [i|] eqn:E.
  - apply find_range_Some in E as (Hi & Hp & _). rewrite Ha in Hp by done.
    split; [done|]. destruct ents.[i] eqn:Ei; [done|]. split; [done|].
    apply count_range_lt with i; [done|]. by rewrite Ei.
  - rewrite find_range_None in E. apply count_range_full; [done|]. intros i Hi.
    specialize (E i Hi). rewrite Ha in E by done. by apply negb_false_iff in E.
Qed.

(** ** The loops over a slot's buffers *)

Lemma clear_slot_sized slot :
  alen (slot_name slot) = RAMFS_NAME_MAX + 1 -> alen (slot_data slot) = RAMFS_FILE_MAX_BYTES ->
  clear_slot slot = slot_of None.
Proof.
  assert (Hz : forall k b, 0 <= k -> alen b = k -> fill_range 0 k (fun _ => 0) b = padded k []).
  { intros k b Hk Hb. apply fill_range_all; [done|by rewrite alen_padded|].
    intros j Hj. rewrite padded_get by done. change (alen (@nil Z)) with 0. by bcase; [lia|]. }
  intros Hn Hd. unfold clear_slot, slot_of. f_equal; by apply Hz.
Qed.

Lemma clear_slot_of e :
  (forall n c, e = Some (n, c) -> valid_name n = true /\ alen c <= RAMFS_FILE_MAX_BYTES) ->
  clear_slot (slot_of e) = slot_of None.
Proof.
  intros He. destruct e as [[n c]|]; [|by apply clear_slot_sized].
  destruct (He n c eq_refl) as [Hn Hc]. apply valid_name_length in Hn.
  apply clear_slot_sized; apply alen_padded; lia.
Qed.

Lemma copy_name_spec n i name pre :
  (length (c_chars (drop i name)) < n)%nat -> length pre = i ->
  alen pre + alen (c_chars (drop i name)) <= RAMFS_NAME_MAX ->
  copy_name n (Z.of_nat i) name (padded (RAMFS_NAME_MAX + 1) pre) =
  padded (RAMFS_NAME_MAX + 1) (pre ++ c_chars (drop i name)).
Proof.
  unfold RAMFS_NAME_MAX. revert i pre. induction n as [|n IH]; intros i pre Hn Hi Hl; [lia|].
  assert (Ha : Z.of_nat i = alen pre) by (unfold alen; lia).
  cbn [copy_name]. rewrite (c_chars_drop i) in *. unfold NUL.
  destruct (Z.eqb_spec name.[Z.of_nat i] 0) as [E|E].
  - rewrite app_nil_r, E, Ha. apply padded_terminate. change (alen (@nil Z)) with 0 in Hl. lia.
  - rewrite alen_cons in Hl. pose proof (alen_nonneg (c_chars (drop (S i) name))).
    rewrite Ha at 2. rewrite padded_put by lia.
    replace (Z.of_nat i + 1) with (Z.of_nat (S i)) by lia. rewrite IH.
    + by rewrite <-app_assoc.
    + simpl in Hn. lia.
    + rewrite length_app. simpl. lia.
    + rewrite alen_app. change (alen [_]) with 1. lia.
Qed.

Lemma copy_name_whole name :
  alen (c_chars name) <= RAMFS_NAME_MAX ->
  copy_name (Z.to_nat (RAMFS_NAME_MAX + 1)) 0 name (padded (RAMFS_NAME_MAX + 1) []) =
  padded (RAMFS_NAME_MAX + 1) (c_chars name).
Proof.
  intros Hl. apply (copy_name_spec _ 0 name []); [|done|done].
  unfold alen, RAMFS_NAME_MAX in Hl. change (drop 0 name) with name.
  change (Z.to_nat (RAMFS_NAME_MAX + 1)) with 32%nat. lia.
Qed.

(** The bytes a caller hands over, and that they are there. *)
Definition bytes_of (data : option (list Z)) (length : Z) : list Z :=
  take (Z.to_nat length) (default [] data).

Definition readable (data : option (list Z)) (length : Z) : Prop :=
  is_u32 length /\ (data = None \/ length <= alen (default [] data)).

Lemma alen_bytes_of data length :
  readable data length -> missing_data data length = false -> alen (bytes_of data length) = length.
Proof.
  intros [Hu Hr] Hm. unfold bytes_of, alen, is_u32 in *. rewrite length_take.
  destruct data as [d|]; simpl in *; bprop; [destruct Hr; [done|]|]; lia.
Qed.

Lemma bytes_of_get data length i :
  0 <= i < length -> (bytes_of data length).[i] = (default [] data).[i].
Proof. intros. unfold bytes_of, aget. apply lookup_total_take_lt. lia. Qed.

Lemma write_loop data length buf :
  readable data length -> missing_data data length = false ->
  length <= RAMFS_FILE_MAX_BYTES -> alen buf = RAMFS_FILE_MAX_BYTES ->
  fill_range 0 RAMFS_FILE_MAX_BYTES
    (fun i => if i <? length then (default [] data).[i] else 0) buf =
  padded RAMFS_FILE_MAX_BYTES (bytes_of data length).
Proof.
  intros Hr Hm Hle Hb. pose proof (alen_bytes_of _ _ Hr Hm) as Hl.
  apply fill_range_all; [done|apply alen_padded; lia|].
  intros j Hj. rewrite padded_get, Hl by lia. bcase; [|done].
  apply bytes_of_get. lia.
Qed.

Lemma append_loop data length c :
  readable data length -> missing_data data length = false ->
  alen c + length <= RAMFS_FILE_MAX_BYTES ->
  for_range 0 length (fun i d => d.[u32 (alen c + i) <- (default [] data).[i]])
    (padded RAMFS_FILE_MAX_BYTES c) =
  padded RAMFS_FILE_MAX_BYTES (c ++ bytes_of data length).
Proof.
  intros Hr Hm Hle. pose proof (alen_bytes_of _ _ Hr Hm) as Hl.
  pose proof (alen_nonneg c). unfold RAMFS_FILE_MAX_BYTES in *.
  destruct Hr as [[Hu0 Hu] Hr].
  apply (for_range_ind (fun i t => t = padded 512 (c ++ bytes_of data i))); [lia| |].
  - unfold bytes_of. rewrite Z2Nat.inj_0, take_0, app_nil_r. done.
  - intros i t Hi ->. rewrite u32_small by (unfold is_u32; lia).
    assert (Hli : alen (bytes_of data i) = i).
    { unfold bytes_of, alen in *. rewrite length_take in *. lia. }
    replace (alen c + i) with (alen (c ++ bytes_of data i)) by (rewrite alen_app; lia).
    rewrite padded_put by (rewrite alen_app; lia). rewrite <-app_assoc. f_equal. f_equal.
    unfold bytes_of. replace (Z.to_nat (i + 1)) with (S (Z.to_nat i)) by lia.
    symmetry. apply take_S_r. apply aget_lookup.
    unfold bytes_of, alen in Hl |- *. rewrite length_take in Hl. lia.
Qed.

Definition read_back (c buffer : list Z) : list Z := c ++ drop (length c) buffer.

Lemma read_loop c buf :
  alen c <= RAMFS_FILE_MAX_BYTES -> alen c <= alen buf ->
  fill_range 0 (alen c) (fun i => (padded RAMFS_FILE_MAX_BYTES c).[i]) buf = read_back c buf.
Proof.
  intros Hc Hb. pose proof (alen_nonneg c).
  destruct (fill_range_spec 0 (alen c) (fun i => (padded RAMFS_FILE_MAX_BYTES c).[i]) buf
    ltac:(lia)) as [Hl Hg].
  apply array_eq.
  - rewrite Hl. unfold read_back, alen in *. rewrite length_app, length_drop. lia.
  - rewrite Hl. intros i Hi. rewrite Hg by done. unfold read_back.
    destruct (Z.ltb_spec i (alen c)).
    + rewrite (proj2 (Z.leb_le 0 i)) by lia. simpl. rewrite padded_get by lia.
      rewrite (proj2 (Z.ltb_lt _ _)) by done. symmetry. unfold aget, alen in *.
      apply lookup_total_app_l. lia.
    + rewrite andb_false_r. unfold aget, alen in *. rewrite lookup_total_app_r by lia.
      rewrite lookup_total_drop. f_equal. lia.
Qed.

(** ** Specification of each call on the map *)

(** The checks every named call makes, in the order of the code: [k] is the
    call on an existing file. *)
Definition on_file {R : Type} (m : files) (name : list Z) (err : ramfs_result -> R) (k : list Z -> R) : R :=
  if negb (valid_name name) then err RAMFS_RESULT_INVALID_NAME
  else match m !! name with
  | None => err RAMFS_RESULT_NOT_FOUND
  | Some c => k c
  end.

Definition fs_create (m : files) (name : option (list Z)) : ramfs_result * files :=
  match c_chars <$> name with
  | None => (RAMFS_RESULT_INVALID_ARGUMENT, m)
  | Some n =>
      if negb (valid_name n) then (RAMFS_RESULT_INVALID_NAME, m)
      else if bool_decide (is_Some (m !! n)) then (RAMFS_RESULT_ALREADY_EXISTS, m)
      else if RAMFS_MAX_FILES <=? Z.of_nat (size m) then (RAMFS_RESULT_NO_SPACE, m)
      else (RAMFS_RESULT_OK, <[n := []]> m)
  end.

(** [write] replaces the contents with [k c], [append] extends them. *)
Definition fs_store (k : list Z -> list Z) (m : files) (name data : option (list Z)) (length : Z)
  : ramfs_result * files :=
  match c_chars <$> name with
  | None => (RAMFS_RESULT_INVALID_ARGUMENT, m)
  | Some n =>
      if missing_data data length then (RAMFS_RESULT_INVALID_ARGUMENT, m)
      else on_file m n (fun r => (r, m)) (fun c =>
        if RAMFS_FILE_MAX_BYTES <? alen (k c) then (RAMFS_RESULT_TOO_LARGE, m)
        else (RAMFS_RESULT_OK, <[n := k c]> m))
  end.

Definition fs_read (m : files) (name data : option (list Z)) (capacity : Z) (length : option Z)
  : ramfs_result * option (list Z) * option Z :=
  match c_chars <$> name, length with
  | Some n, Some _ =>
      on_file m n (fun r => (r, data, length)) (fun c =>
        match data with
        | None =>
            if (alen c != 0) || (capacity != 0) then (RAMFS_RESULT_INVALID_ARGUMENT, data, length)
            else (RAMFS_RESULT_OK, data, Some (alen c))
        | Some buffer =>
            if capacity <? alen c then (RAMFS_RESULT_TOO_LARGE, data, length)
            else (RAMFS_RESULT_OK, Some (read_back c buffer), Some (alen c))
        end)
  | _, _ => (RAMFS_RESULT_INVALID_ARGUMENT, data, length)
  end.

Definition fs_remove (m : files) (name : option (list Z)) : ramfs_result * files :=
  match c_chars <$> name with
  | None => (RAMFS_RESULT_INVALID_ARGUMENT, m)
  | Some n => on_file m n (fun r => (r, m)) (fun _ => (RAMFS_RESULT_OK, delete n m))
  end.

(** ** Refinement of each call *)

(** A call of the code agrees with a call of the specification. *)
Definition agrees {R : Type} (code : R * ramfs) (spec : R * files) : Prop :=
  fst code = fst spec /\ exists ents, fs_repr (snd code) ents (snd spec).

Lemma agrees_refl {R : Type} (r : R) s ents m : fs_repr s ents m -> agrees (r, s) (r, m).
Proof. intros Hr. split; [done|]. by exists ents. Qed.

Lemma repr_size_bound s ents m : fs_repr s ents m -> 0 <= live_file_count s <= RAMFS_MAX_FILES.
Proof.
  intros [_ Hlive He]. rewrite Hlive, <-(en_size _ _ He). unfold live_entries.
  pose proof (count_range_nonneg 0 RAMFS_MAX_FILES (fun i => entry_live ents.[i])).
  unfold RAMFS_MAX_FILES in *. lia.
Qed.

(** Replacing the slot at [i] by one that represents [e]. *)
Lemma fs_repr_put s ents m i e live m' :
  fs_repr s ents m -> 0 <= i < RAMFS_MAX_FILES ->
  ents_repr ents.[i <- e] m' -> live = Z.of_nat (size m') ->
  fs_repr (mk_fs (slots s).[i <- slot_of e] live) ents.[i <- e] m'.
Proof.
  intros [Hs _ _] Hi He Hl. split; simpl; [|done|done]. by rewrite Hs, fmap_aset.
Qed.

Lemma create_agrees s ents m name :
  fs_repr s ents m -> agrees (ramfs_create s name) (fs_create m name).
Proof.
  intros Hr. unfold ramfs_create, fs_create. destruct name as [raw|]; [|by eapply agrees_refl].
  cbn [fmap option_fmap option_map]. rewrite name_is_valid_spec.
  destruct (valid_name (c_chars raw)) eqn:Hv; [|by eapply agrees_refl]. simpl negb. cbv iota.
  pose proof (find_slot_repr s ents m raw Hr) as Hf. destruct (find_slot s raw) as [i|].
  { destruct Hf as (_ & c & _ & Hm). rewrite bool_decide_true by eauto. by eapply agrees_refl. }
  rewrite bool_decide_false by (rewrite Hf; by intros []).
  pose proof (find_empty_repr s ents m Hr) as Hem. destruct (find_empty_slot s) as [i|].
  2: { rewrite (proj2 (Z.leb_le _ _)) by lia. by eapply agrees_refl. }
  destruct Hem as (Hi & Hnone & Hsz). rewrite (proj2 (Z.leb_gt _ _)) by done.
  split; [done|]. exists ents.[i <- Some (c_chars raw, [])]. cbn [snd].
  rewrite (slots_get _ _ _ _ Hr Hi), Hnone, (clear_slot_of None) by done.
  change (slot_name (slot_of None)) with (padded (RAMFS_NAME_MAX + 1) []).
  rewrite copy_name_whole by (by apply valid_name_length).
  apply (fs_repr_put s ents m i (Some (c_chars raw, []))); [done..| |].
  - apply ents_repr_insert; [by apply Hr|done|done|done|by left].
  - pose proof (repr_size_bound _ _ _ Hr) as Hb. rewrite (fr_live _ _ _ Hr) in *.
    rewrite map_size_insert_None, u32_small by (done || unfold is_u32, RAMFS_MAX_FILES in *; lia). lia.
Qed.

(** The common part of [write] and [append]. *)
Lemma store_agrees s ents m i n c c' :
  fs_repr s ents m -> 0 <= i < RAMFS_MAX_FILES -> ents.[i] = Some (n, c) -> m !! n = Some c ->
  alen c' <= RAMFS_FILE_MAX_BYTES ->
  agrees (RAMFS_RESULT_OK, update_slot s i (slot_of (Some (n, c')))) (RAMFS_RESULT_OK, <[n := c']> m).
Proof.
  intros Hr Hi Hc Hm Hl. split; [done|]. exists ents.[i <- Some (n, c')].
  apply (fs_repr_put s ents m i (Some (n, c'))); [done..| |].
  - destruct (en_valid _ _ (fr_ents _ _ _ Hr) i n c Hi Hc) as [Hn _].
    apply ents_repr_insert; [by apply Hr|done|done|done|right; eauto].
  - cbn [snd]. rewrite (fr_live _ _ _ Hr), map_size_insert_Some by eauto. done.
Qed.

Lemma write_agrees s ents m name data length :
  fs_repr s ents m -> readable data length ->
  agrees (ramfs_write s name data length)
    (fs_store (fun _ => bytes_of data length) m name data length).
Proof.
  intros Hr Hd. unfold ramfs_write, fs_store, on_file. destruct name as [raw|]; [|by eapply agrees_refl].
  cbn [fmap option_fmap option_map]. rewrite name_is_valid_spec.
  destruct (missing_data data length) eqn:Hmiss; [by eapply agrees_refl|].
  destruct (valid_name (c_chars raw)) eqn:Hv; [|by eapply agrees_refl]. simpl negb. cbv iota.
  pose proof (find_slot_repr s ents m raw Hr) as Hf. destruct (find_slot s raw) as [i|].
  2: { rewrite Hf. by eapply agrees_refl. }
  destruct Hf as (Hi & c & Hc & Hm). rewrite Hm, (slots_get _ _ _ _ Hr Hi), Hc.
  rewrite alen_bytes_of, Z.gtb_ltb by done.
  destruct (RAMFS_FILE_MAX_BYTES <? length) eqn:E; bprop; [by eapply agrees_refl|].
  destruct (en_valid _ _ (fr_ents _ _ _ Hr) i _ c Hi Hc) as [Hn Hlc].
  cbn [slot_of slot_data slot_alive slot_name].
  rewrite write_loop by (done || by apply alen_padded).
  rewrite <-(alen_bytes_of data length Hd Hmiss) at 2.
  apply (store_agrees s ents m i _ c (bytes_of data length)); try done.
  by rewrite alen_bytes_of.
Qed.

Lemma append_agrees s ents m name data length :
  fs_repr s ents m -> readable data length ->
  agrees (ramfs_append s name data length)
    (fs_store (fun c => c ++ bytes_of data length) m name data length).
Proof.
  intros Hr Hd. unfold ramfs_append, fs_store, on_file. destruct name as [raw|]; [|by eapply agrees_refl].
  cbn [fmap option_fmap option_map]. rewrite name_is_valid_spec.
  destruct (missing_data data length) eqn:Hmiss; [by eapply agrees_refl|].
  destruct (valid_name (c_chars raw)) eqn:Hv; [|by eapply agrees_refl]. simpl negb. cbv iota.
  pose proof (find_slot_repr s ents m raw Hr) as Hf. destruct (find_slot s raw) as [i|].
  2: { rewrite Hf. by eapply agrees_refl. }
  destruct Hf as (Hi & c & Hc & Hm). rewrite Hm, (slots_get _ _ _ _ Hr Hi), Hc.
  destruct (en_valid _ _ (fr_ents _ _ _ Hr) i _ c Hi Hc) as [Hn Hlc].
  pose proof (alen_nonneg c). destruct Hd as [Hu Hd].
  cbn [slot_of slot_data slot_alive slot_name slot_length].
  rewrite alen_app, alen_bytes_of, Z.gtb_ltb by done.
  rewrite (u32_small (_ - _)) by (unfold is_u32, RAMFS_FILE_MAX_BYTES in *; lia).
  replace (RAMFS_FILE_MAX_BYTES <? alen c + length) with (RAMFS_FILE_MAX_BYTES - alen c <? length)
    by (apply eq_true_iff_eq; rewrite !Z.ltb_lt; lia).
  destruct (RAMFS_FILE_MAX_BYTES - alen c <? length) eqn:E; bprop; [by eapply agrees_refl|].
  rewrite append_loop by (done || lia).
  rewrite u32_small by (unfold is_u32, RAMFS_FILE_MAX_BYTES in *; lia).
  replace (alen c + length) with (alen (c ++ bytes_of data length)) by (by rewrite alen_app, alen_bytes_of).
  apply (store_agrees s ents m i _ c (c ++ bytes_of data length)); try done.
  rewrite alen_app, alen_bytes_of by done. lia.
Qed.

Lemma remove_agrees s ents m name :
  fs_repr s ents m -> agrees (ramfs_remove s name) (fs_remove m name).
Proof.
  intros Hr. unfold ramfs_remove, fs_remove, on_file. destruct name as [raw|]; [|by eapply agrees_refl].
  cbn [fmap option_fmap option_map]. rewrite name_is_valid_spec.
  destruct (valid_name (c_chars raw)) eqn:Hv; [|by eapply agrees_refl]. simpl negb. cbv iota.
  pose proof (find_slot_repr s ents m raw Hr) as Hf. destruct (find_slot s raw) as [i|].
  2: { rewrite Hf. by eapply agrees_refl. }
  destruct Hf as (Hi & c & Hc & Hm). rewrite Hm, (slots_get _ _ _ _ Hr Hi), Hc.
  pose proof (fr_ents _ _ _ Hr) as He. pose proof (en_valid _ _ He i _ c Hi Hc) as Hec.
  rewrite clear_slot_of by (by intros n' c' [= <- <-]).
  split; [done|]. exists ents.[i <- None].
  apply (fs_repr_put s ents m i None); [done..|by eapply ents_repr_delete|].
  pose proof (repr_size_bound _ _ _ Hr) as Hb. rewrite (fr_live _ _ _ Hr) in *.
  cbn [snd]. rewrite map_size_delete_Some by eauto.
  assert (size m <> 0)%nat by (intros E; apply map_size_empty_inv in E; set_solver).
  rewrite u32_small by (unfold is_u32, RAMFS_MAX_FILES in *; lia). lia.
Qed.

Lemma read_agrees s ents m name data capacity length :
  fs_repr s ents m -> (forall buf, data = Some buf -> capacity <= alen buf) ->
  ramfs_read s name data capacity length = fs_read m name data capacity length.
Proof.
  intros Hr Hd. unfold ramfs_read, fs_read, on_file. destruct name as [raw|], length as [len|]; try done.
  cbn [fmap option_fmap option_map]. rewrite name_is_valid_spec.
  destruct (valid_name (c_chars raw)) eqn:Hv; [|done]. simpl negb. cbv iota.
  pose proof (find_slot_repr s ents m raw Hr) as Hf. destruct (find_slot s raw) as [i|].
  2: { by rewrite Hf. }
  destruct Hf as (Hi & c & Hc & Hm). rewrite Hm, (slots_get _ _ _ _ Hr Hi), Hc.
  destruct (en_valid _ _ (fr_ents _ _ _ Hr) i _ c Hi Hc) as [Hn Hlc].
  destruct data as [buf|]; [|done]. specialize (Hd buf eq_refl).
  cbn [slot_of slot_data slot_length].
  destruct (capacity <? alen c) eqn:E; bprop; [done|]. by rewrite read_loop by lia.
Qed.

(** ** Runs *)

Inductive fs_op :=
| OpCreate (name : option (list Z))
| OpWrite (name data : option (list Z)) (length : Z)
| OpAppend (name data : option (list Z)) (length : Z)
| OpRead (name data : option (list Z)) (capacity : Z) (length : option Z)
| OpRemove (name : option (list Z))
| OpCount.

Inductive fs_response :=
| Result (r : ramfs_result)
| ReadResult (r : ramfs_result) (data : option (list Z)) (length : option Z)
| Count (n : Z).

(** The caller's buffers are as long as the caller says. *)
Definition op_ok (op : fs_op) : Prop :=
  match op with
  | OpWrite _ data length | OpAppend _ data length => readable data length
  | OpRead _ data capacity _ => forall buf, data = Some buf -> capacity <= alen buf
  | _ => True
  end.

Definition ramfs_step (op : fs_op) (s : ramfs) : fs_response * ramfs :=
  match op with
  | OpCreate name => let '(r, s) := ramfs_create s name in (Result r, s)
  | OpWrite name data length => let '(r, s) := ramfs_write s name data length in (Result r, s)
  | OpAppend name data length => let '(r, s) := ramfs_append s name data length in (Result r, s)
  | OpRead name data capacity length =>
      let '(r, data, length) := ramfs_read s name data capacity length in
      (ReadResult r data length, s)
  | OpRemove name => let '(r, s) := ramfs_remove s name in (Result r, s)
  | OpCount => (Count (ramfs_count s), s)
  end.

Definition fs_step (op : fs_op) (m : files) : fs_response * files :=
  match op with
  | OpCreate name => let '(r, m) := fs_create m name in (Result r, m)
  | OpWrite name data length =>
      let '(r, m) := fs_store (fun _ => bytes_of data length) m name data length in (Result r, m)
  | OpAppend name data length =>
      let '(r, m) := fs_store (fun c => c ++ bytes_of data length) m name data length in (Result r, m)
  | OpRead name data capacity length =>
      let '(r, data, length) := fs_read m name data capacity length in
      (ReadResult r data length, m)
  | OpRemove name => let '(r, m) := fs_remove m name in (Result r, m)
  | OpCount => (Count (Z.of_nat (size m)), m)
  end.

Fixpoint ramfs_run (ops : list fs_op) (s : ramfs) : list fs_response * ramfs :=
  match ops with
  | [] => ([], s)
  | op :: ops =>
      let '(r, s) := ramfs_step op s in
      let '(rs, s) := ramfs_run ops s in (r :: rs, s)
  end.

Fixpoint fs_run (ops : list fs_op) (m : files) : list fs_response * files :=
  match ops with
  | [] => ([], m)
  | op :: ops =>
      let '(r, m) := fs_step op m in
      let '(rs, m) := fs_run ops m in (r :: rs, m)
  end.

Lemma agrees_map {R R' : Type} (f : R -> R') (code : R * ramfs) (spec : R * files) :
  agrees code spec ->
  agrees (let '(r, s) := code in (f r, s)) (let '(r, m) := spec in (f r, m)).
Proof. destruct code, spec. intros [H1 H2]. simpl in *. subst. by split. Qed.

Lemma step_agrees op s ents m :
  fs_repr s ents m -> op_ok op -> agrees (ramfs_step op s) (fs_step op m).
Proof.
  intros Hr Hop. destruct op; cbn [ramfs_step fs_step op_ok] in *.
  - eapply agrees_map, create_agrees, Hr.
  - eapply agrees_map, write_agrees, Hop. apply Hr.
  - eapply agrees_map, append_agrees, Hop. apply Hr.
  - rewrite (read_agrees s ents m) by done. destruct (fs_read _ _ _ _ _) as [[]]. by eapply agrees_refl.
  - eapply agrees_map, remove_agrees, Hr.
  - unfold ramfs_count. rewrite (fr_live _ _ _ Hr). by eapply agrees_refl.
Qed.

Lemma run_agrees ops s ents m :
  fs_repr s ents m -> Forall op_ok ops -> agrees (ramfs_run ops s) (fs_run ops m).
Proof.
  intros Hr Hops. revert s ents m Hr. induction Hops as [|op ops Hop _ IH]; intros s ents m Hr; simpl.
  { by eapply agrees_refl. }
  destruct (step_agrees op s ents m Hr Hop) as [He [ents1 Hr1]].
  destruct (ramfs_step op s) as [r s1], (fs_step op m) as [r' m1]. simpl in *. subst.
  apply (agrees_map (cons r')), (IH s1 ents1 m1 Hr1).
Qed.

(** ** Initialisation *)

(** The statics as arrays of their declared sizes. *)
Definition fs_sized (s : ramfs) : Prop :=
  alen (slots s) = RAMFS_MAX_FILES /\
  Forall (fun slot => alen (slot_name slot) = RAMFS_NAME_MAX + 1 /\
                      alen (slot_data slot) = RAMFS_FILE_MAX_BYTES) (slots s).

Lemma init_repr s :
  fs_sized s -> fs_repr (ramfs_init s) (replicate (Z.to_nat RAMFS_MAX_FILES) None) ∅.
Proof.
  intros [Hl Hs]. assert (Hget : forall i, 0 <= i < RAMFS_MAX_FILES ->
    (replicate (Z.to_nat RAMFS_MAX_FILES) (@None (list Z * list Z))).[i] = None)
    by (intros; by apply aget_replicate).
  split; cbn [ramfs_init slots live_file_count]; [|done|].
  - rewrite for_range_map by done. rewrite fmap_replicate, <-Hl. unfold alen. rewrite Nat2Z.id.
    symmetry. apply replicate_as_elem_of. split; [by rewrite length_fmap|].
    intros x Hx. apply list_elem_of_fmap in Hx as (y & -> & Hy).
    rewrite Forall_forall in Hs. destruct (Hs y) as [Hn Hd]; [by apply list_elem_of_In|].
    by apply clear_slot_sized.
  - split.
    + by apply alen_replicate.
    + intros i n c Hi. by rewrite Hget.
    + intros n c. rewrite lookup_empty. split; [done|]. intros (i & Hi & Hc). by rewrite Hget in Hc.
    + intros i j n c d Hi Hj. by rewrite Hget.
    + unfold live_entries. rewrite map_size_empty. apply count_range_none. intros i Hi.
      by rewrite Hget.
Qed.

(** ** Validation and listing *)

Lemma all_range_ok lo hi p :
  (forall i, lo <= i < hi -> p i = true) -> negb (all_range lo hi p) = false.
Proof. intros H. apply negb_false_iff. by apply all_range_true. Qed.

Lemma padded_nil_get n i : 0 <= i < n -> (padded n []).[i] = 0.
Proof.
  intros Hi. rewrite padded_get by (change (alen (@nil Z)) with 0; lia).
  change (alen (@nil Z)) with 0. by bcase; [lia|].
Qed.

Lemma validate_slots_repr n index count s ents m :
  fs_repr s ents m -> 0 <= index -> index + Z.of_nat n = RAMFS_MAX_FILES -> 0 <= count <= index ->
  validate_slots n index count s =
  Some (count + count_range index RAMFS_MAX_FILES (fun i => entry_live ents.[i])).
Proof.
  intros Hr. pose proof (fr_ents _ _ _ Hr) as He. unfold RAMFS_MAX_FILES.
  revert index count. induction n as [|n IH]; intros index count Hi Hn Hc.
  { simpl. rewrite count_range_none by (intros; lia). f_equal. lia. }
  cbn [validate_slots]. assert (Hi' : 0 <= index < RAMFS_MAX_FILES) by (unfold RAMFS_MAX_FILES; lia).
  rewrite (slots_get _ _ _ _ Hr Hi'), count_range_step by lia.
  destruct ents.[index] as [[nm c]|] eqn:E; cbn [slot_of slot_alive slot_length slot_name slot_data negb entry_live].
  - destruct (en_valid _ _ He index nm c Hi' E) as [Hnm Hlc].
    rewrite name_is_valid_spec, valid_name_buffer, Hnm by done.
    rewrite Z.gtb_ltb, (proj2 (Z.ltb_ge _ _)) by done. cbn [negb orb].
    rewrite all_range_ok; cycle 1.
    { intros j Hj. assert (Hj' : 0 <= j < RAMFS_MAX_FILES) by lia.
      rewrite (slots_get _ _ _ _ Hr Hj').
      destruct ents.[j] as [[nj cj]|] eqn:Ej; simpl; [|done].
      destruct (en_valid _ _ He j nj cj Hj' Ej) as [Hnj _].
      rewrite names_equal_spec by (rewrite valid_name_buffer by done; by apply valid_name_length).
      rewrite !valid_name_buffer by done. rewrite bool_decide_false; [done|]. intros <-.
      pose proof (en_uniq _ _ He index j nm c cj Hi' Hj' E Ej). lia. }
    rewrite u32_small by (unfold is_u32; lia).
    rewrite IH by lia. cbn [Z.b2z]. f_equal. lia.
  - rewrite !all_range_ok; [|intros; apply Z.eqb_eq, padded_nil_get; lia..].
    change (0 != 0) with false. cbv iota. rewrite IH by lia. cbn [Z.b2z]. done.
Qed.

Lemma validate_repr s ents m : fs_repr s ents m -> ramfs_validate s = true.
Proof.
  intros Hr. unfold ramfs_validate. pose proof (repr_size_bound _ _ _ Hr) as Hb.
  rewrite Z.gtb_ltb, (proj2 (Z.ltb_ge _ _)) by lia.
  rewrite (validate_slots_repr _ 0 0 s ents m Hr) by done.
  rewrite Z.add_0_l. change (count_range _ _ _) with (live_entries ents).
  rewrite (en_size _ _ (fr_ents _ _ _ Hr)), (fr_live _ _ _ Hr). apply Z.eqb_refl.
Qed.

(** The files in slot order. *)
Definition listing (ents : list entry) : list (list Z * list Z) := omap id ents.

Lemma info_scan_repr n slot_index live_index index s ents m :
  fs_repr s ents m -> 0 <= slot_index -> slot_index + Z.of_nat n = RAMFS_MAX_FILES ->
  0 <= live_index <= index -> live_index <= slot_index ->
  match info_scan n slot_index live_index index s with
  | Some k => 0 <= k < RAMFS_MAX_FILES /\
      listing (drop (Z.to_nat slot_index) ents) !! Z.to_nat (index - live_index) = ents.[k] /\
      ents.[k] <> None
  | None => listing (drop (Z.to_nat slot_index) ents) !! Z.to_nat (index - live_index) = None
  end.
Proof.
  intros Hr. pose proof (en_len _ _ (fr_ents _ _ _ Hr)) as Hlen. unfold RAMFS_MAX_FILES in *.
  revert slot_index live_index. induction n as [|n IH]; intros k l Hk Hn Hl Hlk.
  { simpl. rewrite drop_ge; [done|]. unfold alen in Hlen. lia. }
  cbn [info_scan]. assert (Hk' : 0 <= k < RAMFS_MAX_FILES) by (unfold RAMFS_MAX_FILES; lia).
  rewrite (slots_get _ _ _ _ Hr Hk').
  rewrite (drop_S ents ents.[k]) by (apply aget_lookup; lia).
  replace (S (Z.to_nat k)) with (Z.to_nat (k + 1)) by lia.
  destruct ents.[k] as [[nm c]|] eqn:E; cbn [slot_of slot_alive negb].
  - cbn [listing omap list_omap id]. destruct (Z.eqb_spec l index) as [->|Hne]; cbn [negb].
    + rewrite Z.sub_diag. cbn. rewrite E. done.
    + rewrite u32_small by (unfold is_u32; lia).
      replace (Z.to_nat (index - l)) with (S (Z.to_nat (index - (l + 1)))) by lia.
      apply IH; lia.
  - apply IH; lia.
Qed.

Lemma listing_spec ents m :
  ents_repr ents m ->
  NoDup (listing ents).*1 /\ (forall n c, (n, c) ∈ listing ents <-> m !! n = Some c).
Proof.
  intros He. assert (Hlk : forall k e, ents !! k = Some e ->
    0 <= Z.of_nat k < RAMFS_MAX_FILES /\ ents.[Z.of_nat k] = e).
  { intros k e Hk. pose proof (lookup_lt_Some _ _ _ Hk) as Hlt. pose proof (en_len _ _ He) as Hl.
    unfold alen in Hl. split; [lia|]. unfold aget. rewrite Nat2Z.id. by apply list_lookup_total_correct. }
  assert (Hu : forall i j n c d, ents !! i = Some (Some (n, c)) -> ents !! j = Some (Some (n, d)) -> i = j).
  { intros i j n c d Hi Hj. destruct (Hlk _ _ Hi) as [Hi1 Hi2], (Hlk _ _ Hj) as [Hj1 Hj2].
    pose proof (en_uniq _ _ He _ _ n c d Hi1 Hj1 Hi2 Hj2). lia. }
  split.
  - clear He Hlk. unfold listing. induction ents as [|e ents IH]; [constructor|].
    assert (NoDup (omap id ents).*1).
    { apply IH. intros i j n c d Hi Hj. specialize (Hu (S i) (S j) n c d Hi Hj). lia. }
    destruct e as [[n c]|]; simpl; [|done]. constructor; [|done]. intros Hin.
    apply list_elem_of_fmap in Hin as ([n' d] & Hn & Hd). simpl in Hn. subst n'.
    apply list_elem_of_omap in Hd as ([x|] & Hx & Hxe); simpl in Hxe; simplify_eq.
    apply list_elem_of_lookup in Hx as [j Hj]. by specialize (Hu O (S j) n c d eq_refl Hj).
  - intros n c. rewrite (en_map _ _ He). unfold listing. rewrite list_elem_of_omap. split.
    + intros (e & Hin & Hid). simpl in Hid. subst e.
      apply list_elem_of_lookup in Hin as [k Hk]. exists (Z.of_nat k). by apply Hlk.
    + intros (i & Hi & Hc). exists (Some (n, c)). split; [|done].
      rewrite <-Hc. apply list_elem_of_lookup. exists (Z.to_nat i). apply aget_lookup.
      rewrite (en_len _ _ He). done.
Qed.

Lemma listing_map ents m : ents_repr ents m -> list_to_map (listing ents) = m.
Proof.
  intros He. destruct (listing_spec ents m He) as [Hnd Hin]. apply map_eq. intros n. apply option_eq. intros c.
  by rewrite <-Hin, <-elem_of_list_to_map.
Qed.

Lemma listing_count s ents m : fs_repr s ents m -> alen (listing ents) = ramfs_count s.
Proof.
  intros Hr. destruct (listing_spec ents m (fr_ents _ _ _ Hr)) as [Hnd _]. unfold ramfs_count. rewrite (fr_live _ _ _ Hr).
  unfold alen. by rewrite <-(listing_map ents m (fr_ents _ _ _ Hr)), map_size_list_to_map.
Qed.

Lemma get_info_repr s ents m idx info :
  fs_repr s ents m -> 0 <= idx -> alen (info_name info) = RAMFS_NAME_MAX + 1 ->
  ramfs_get_info s idx (Some info) =
  match listing ents !! Z.to_nat idx with
  | Some (n, c) => (true, Some (mk_info (padded (RAMFS_NAME_MAX + 1) n) (alen c)))
  | None => (false, Some info)
  end.
Proof.
  intros Hr Hidx Hi. unfold ramfs_get_info.
  pose proof (info_scan_repr (Z.to_nat RAMFS_MAX_FILES) 0 0 idx s ents m Hr) as H.
  specialize (H ltac:(done) ltac:(done) ltac:(lia) ltac:(done)).
  change (drop (Z.to_nat 0) ents) with ents in H. rewrite Z.sub_0_r in H.
  destruct (info_scan _ _ _ _ _) as [k|].
  - destruct H as (Hk & -> & Hne). rewrite (slots_get _ _ _ _ Hr Hk).
    destruct ents.[k] as [[n c]|] eqn:E; [|done]. cbn [slot_of slot_name slot_length].
    do 3 f_equal. destruct (en_valid _ _ (fr_ents _ _ _ Hr) k n c Hk E) as [Hn _].
    apply valid_name_length in Hn. apply fill_range_all; [done| |done]. apply alen_padded. lia.
  - by rewrite H.
Qed.

(** What the loop of [ramfs_validate] has checked of a slot. *)
Definition slot_consistent (s : ramfs) (i : Z) : Prop :=
  let slot := (slots s).[i] in
  if slot_alive slot then
    name_is_valid (Some (slot_name slot)) = true /\ slot_length slot <= RAMFS_FILE_MAX_BYTES /\
    forall j, i < j < RAMFS_MAX_FILES -> slot_alive (slots s).[j] = true ->
      names_equal (slot_name slot) (slot_name (slots s).[j]) = false
  else
    slot_length slot = 0 /\
    (forall k, 0 <= k <= RAMFS_NAME_MAX -> (slot_name slot).[k] = 0) /\
    (forall k, 0 <= k < RAMFS_FILE_MAX_BYTES -> (slot_data slot).[k] = 0).

Lemma validate_slots_sound n index count s k :
  0 <= index -> index + Z.of_nat n = RAMFS_MAX_FILES -> 0 <= count <= index ->
  validate_slots n index count s = Some k ->
  k = count + count_range index RAMFS_MAX_FILES (fun i => slot_alive (slots s).[i]) /\
  forall i, index <= i < RAMFS_MAX_FILES -> slot_consistent s i.
Proof.
  unfold RAMFS_MAX_FILES. revert index count.
  induction n as [|n IH]; intros index count Hi Hn Hc; cbn [validate_slots].
  { intros [= <-]. rewrite count_range_none by (intros; lia). split; [lia|intros; lia]. }
  intros Hv. assert (Hhere : slot_consistent s index /\
    validate_slots n (index + 1) (count + Z.b2z (slot_alive (slots s).[index])) s = Some k).
  { unfold slot_consistent. destruct (slot_alive (slots s).[index]); cbn [negb] in Hv.
    - destruct (negb (name_is_valid _) || _) eqn:E1; [done|].
      destruct (negb (all_range _ _ _)) eqn:E2; [done|]. bprop.
      rewrite u32_small in Hv by (unfold is_u32; lia). split; [|done].
      split; [done|]. split; [done|]. intros j Hj Ha. rewrite all_range_true in E2.
      specialize (E2 j ltac:(unfold RAMFS_MAX_FILES in *; lia)). rewrite Ha in E2. by bprop.
    - destruct (slot_length _ != 0) eqn:E1; [done|].
      destruct (negb (all_range 0 (RAMFS_NAME_MAX + 1) _)) eqn:E2; [done|].
      destruct (negb (all_range 0 RAMFS_FILE_MAX_BYTES _)) eqn:E3; [done|]. bprop.
      rewrite all_range_true in E2, E3. rewrite Z.add_0_r. split; [|done]. split; [done|].
      split; intros j Hj; apply Z.eqb_eq; [apply E2|apply E3]; lia. }
  destruct Hhere as [Hhere Hrec].
  destruct (IH (index + 1) (count + Z.b2z (slot_alive (slots s).[index]))) as [Hk Hall];
    [lia|lia|destruct (slot_alive _); simpl; lia|done|].
  split; [rewrite (count_range_step index) by lia; lia|].
  intros i Hi2. destruct (decide (i = index)) as [->|]; [done|]. apply Hall. lia.
Qed.

(** ** Properties *)

(** C5: started with [ramfs_init], any sequence of create, write, append,
    read, remove and count calls returns exactly what the abstract map from
    names to contents returns, every error verdict included, keeps the slots a
    representation of that map (at most sixteen files of at most 512 bytes,
    names valid and distinct, all padding zero), and leaves a state that
    [ramfs_validate] accepts. *)
Theorem ramfs_run_refines ops s :
  fs_sized s -> Forall op_ok ops ->
  fst (ramfs_run ops (ramfs_init s)) = fst (fs_run ops ∅) /\
  ramfs_validate (snd (ramfs_run ops (ramfs_init s))) = true /\
  exists ents, fs_repr (snd (ramfs_run ops (ramfs_init s))) ents (snd (fs_run ops ∅)).
Proof.
  intros Hs Hops. destruct (run_agrees ops _ _ _ (init_repr s Hs) Hops) as [He [ents Hr]].
  split; [done|]. split; [by eapply validate_repr|by exists ents].
Qed.

Definition demo_ops : list fs_op :=
  [OpCreate (Some (cstr "a.txt")); OpCreate (Some (cstr "a.txt")); OpCreate (Some (cstr ".."));
   OpWrite (Some (cstr "a.txt")) (Some [1; 2; 3]) 3; OpAppend (Some (cstr "a.txt")) (Some [4]) 1;
   OpAppend (Some (cstr "a.txt")) (Some (replicate 512 7)) 509;
   OpRead (Some (cstr "a.txt")) (Some [9; 9; 9; 9; 9]) 5 (Some 0); OpCount;
   OpRemove (Some (cstr "a.txt")); OpRemove (Some (cstr "a.txt")); OpCount].

Lemma ramfs_static_sized : fs_sized ramfs_static.
Proof. split; [reflexivity|]. by apply Forall_replicate. Qed.

Lemma ramfs_run_refines_witness :
  fst (ramfs_run demo_ops (ramfs_init ramfs_static)) =
  [Result RAMFS_RESULT_OK; Result RAMFS_RESULT_ALREADY_EXISTS; Result RAMFS_RESULT_INVALID_NAME;
   Result RAMFS_RESULT_OK; Result RAMFS_RESULT_OK; Result RAMFS_RESULT_TOO_LARGE;
   ReadResult RAMFS_RESULT_OK (Some [1; 2; 3; 4; 9]) (Some 4); Count 1;
   Result RAMFS_RESULT_OK; Result RAMFS_RESULT_NOT_FOUND; Count 0].
Proof.
  destruct (ramfs_run_refines demo_ops ramfs_static ramfs_static_sized) as [He _].
  - unfold demo_ops. repeat apply Forall_cons_2; try exact (Forall_nil_2 _); cbn [op_ok]; try exact I;
      try (split; [vm_compute; split; congruence|right; vm_compute; congruence]).
    intros buf [= <-]. vm_compute. congruence.
  - rewrite He. vm_compute. reflexivity.
Defined.

(** C39: in a state that represents a map, [ramfs_get_info] with the indices
    0, 1, 2, ... lists every file exactly once with its name and size, and
    refuses, leaving the caller's struct alone, exactly from [ramfs_count] on. *)
Theorem ramfs_listing_complete s ents m :
  fs_repr s ents m ->
  exists l : list (list Z * list Z),
    NoDup l.*1 /\ (forall n c, (n, c) ∈ l <-> m !! n = Some c) /\ alen l = ramfs_count s /\
    forall idx info, 0 <= idx -> alen (info_name info) = RAMFS_NAME_MAX + 1 ->
      ramfs_get_info s idx (Some info) =
      match l !! Z.to_nat idx with
      | Some (n, c) => (true, Some (mk_info (padded (RAMFS_NAME_MAX + 1) n) (alen c)))
      | None => (false, Some info)
      end.
Proof.
  intros Hr. destruct (listing_spec ents m (fr_ents _ _ _ Hr)) as [Hnd Hin].
  exists (listing ents). split; [done|]. split; [done|]. split; [by eapply listing_count|].
  intros idx info Hidx Hi. by apply (get_info_repr s ents m).
Qed.

Lemma ramfs_listing_complete_witness :
  exists s, ramfs_create (ramfs_init ramfs_static) (Some (cstr "f")) = (RAMFS_RESULT_OK, s) /\
    forall info, alen (info_name info) = RAMFS_NAME_MAX + 1 ->
      ramfs_get_info s 0 (Some info) = (true, Some (mk_info (padded (RAMFS_NAME_MAX + 1) (c_chars (cstr "f"))) 0)) /\
      ramfs_get_info s 1 (Some info) = (false, Some info).
Proof.
  pose proof (create_agrees _ _ _ (Some (cstr "f")) (init_repr ramfs_static ramfs_static_sized)) as [He [ents Hr]].
  destruct (ramfs_create (ramfs_init ramfs_static) (Some (cstr "f"))) as [r s].
  change (r = RAMFS_RESULT_OK) in He. subst r. cbn [snd] in Hr.
  exists s. split; [reflexivity|]. change (fs_repr s ents {[c_chars (cstr "f") := []]}) in Hr.
  destruct (ramfs_listing_complete s ents _ Hr) as (l & Hnd & Hin & _ & Hl).
  assert (E : l = [(c_chars (cstr "f"), [])]).
  { destruct l as [|[n c] l].
    - pose proof (proj2 (Hin (c_chars (cstr "f")) []) (lookup_singleton_eq _ _)) as H1. inversion H1.
    - pose proof (proj1 (Hin n c) (list_elem_of_here _ _)) as H1. apply lookup_singleton_Some in H1 as [<- <-].
      destruct l as [|[n c] l]; [done|]. exfalso.
      pose proof (proj1 (Hin n c) (list_elem_of_further _ _ _ (list_elem_of_here _ _))) as H1.
      apply lookup_singleton_Some in H1 as [<- <-].
      apply NoDup_cons_1_1 in Hnd. apply Hnd. by left. }
  intros info Hi. rewrite !Hl by (done || lia). rewrite E. split; reflexivity.
Defined.

Lemma fs_store_ok k m name d length c :
  valid_name (c_chars name) = true -> m !! c_chars name = Some c ->
  alen (k c) <= RAMFS_FILE_MAX_BYTES ->
  fs_store k m (Some name) (Some d) length = (RAMFS_RESULT_OK, <[c_chars name := k c]> m).
Proof.
  intros Hv Hm Hl. unfold fs_store, on_file. cbn [fmap option_fmap option_map missing_data].
  rewrite Hv, Hm. cbn [negb]. by rewrite (proj2 (Z.ltb_ge _ _)).
Qed.

(** In a state that represents a map holding a file, writing [d1] and then
    appending [d2] (together at most 512 bytes) both succeed, and reading the
    file back into a large enough buffer returns [d1 ++ d2] with its length
    and leaves the rest of the buffer alone; reading any other file gives what
    it gave before. *)
Theorem ramfs_write_append_read s ents m name d1 d2 c buf capacity len0 :
  fs_repr s ents m -> m !! c_chars name = Some c ->
  alen (d1 ++ d2) <= RAMFS_FILE_MAX_BYTES -> alen (d1 ++ d2) <= capacity <= alen buf ->
  exists s1 s2,
    ramfs_write s (Some name) (Some d1) (alen d1) = (RAMFS_RESULT_OK, s1) /\
    ramfs_append s1 (Some name) (Some d2) (alen d2) = (RAMFS_RESULT_OK, s2) /\
    ramfs_read s2 (Some name) (Some buf) capacity (Some len0) =
      (RAMFS_RESULT_OK, Some (read_back (d1 ++ d2) buf), Some (alen (d1 ++ d2))) /\
    forall other, c_chars other <> c_chars name ->
      ramfs_read s2 (Some other) (Some buf) capacity (Some len0) =
      ramfs_read s (Some other) (Some buf) capacity (Some len0).
Proof.
  intros Hr Hm Hsz Hcap. set (n := c_chars name) in *.
  assert (Hv : valid_name n = true).
  { apply (en_map _ _ (fr_ents _ _ _ Hr)) in Hm as (i & Hi & Hc).
    by destruct (en_valid _ _ (fr_ents _ _ _ Hr) i n c Hi Hc). }
  assert (Hall : forall d, bytes_of (Some d) (alen d) = d)
    by (intros d; unfold bytes_of, alen; simpl; by rewrite Nat2Z.id, firstn_all).
  rewrite alen_app in *. unfold RAMFS_FILE_MAX_BYTES in *.
  pose proof (alen_nonneg d1). pose proof (alen_nonneg d2).
  assert (Hrd : forall d, alen d <= 512 -> readable (Some d) (alen d)).
  { intros d Hd. pose proof (alen_nonneg d). split; [unfold is_u32; lia|]. right. simpl. lia. }
  pose proof (write_agrees s ents m (Some name) (Some d1) (alen d1) Hr (Hrd d1 ltac:(lia))) as [Hw [e1 Hr1]].
  rewrite (fs_store_ok _ _ _ _ _ c), Hall in Hw, Hr1 by (done || rewrite Hall; unfold RAMFS_FILE_MAX_BYTES; lia).
  fold n in Hr1. destruct (ramfs_write s _ _ _) as [r1 s1]. simpl in Hw, Hr1. subst r1.
  pose proof (append_agrees s1 e1 _ (Some name) (Some d2) (alen d2) Hr1 (Hrd d2 ltac:(lia))) as [Ha [e2 Hr2]].
  rewrite (fs_store_ok _ _ _ _ _ d1), Hall in Ha, Hr2 by
    (done || apply lookup_insert_eq || rewrite Hall, alen_app; unfold RAMFS_FILE_MAX_BYTES; lia).
  fold n in Hr2. destruct (ramfs_append s1 _ _ _) as [r2 s2] eqn:Es2. simpl in Ha, Hr2. subst r2.
  exists s1, s2. split; [done|]. split; [done|].
  assert (Hbuf : forall b, Some buf = Some b -> capacity <= alen b) by (intros b [= <-]; lia).
  split.
  - rewrite (read_agrees s2 e2 _ _ _ _ _ Hr2 Hbuf). unfold fs_read, on_file.
    cbn [fmap option_fmap option_map]. fold n. rewrite Hv, lookup_insert_eq. cbn [negb].
    by rewrite alen_app, (proj2 (Z.ltb_ge _ _)) by lia.
  - intros other Hne. rewrite (read_agrees s2 e2 _ _ _ _ _ Hr2 Hbuf), (read_agrees s ents _ _ _ _ _ Hr Hbuf).
    unfold fs_read, on_file. cbn [fmap option_fmap option_map].
    by rewrite !lookup_insert_ne by done.
Qed.

Lemma ramfs_write_append_read_witness :
  exists s s1 s2,
    ramfs_create (ramfs_init ramfs_static) (Some (cstr "f")) = (RAMFS_RESULT_OK, s) /\
    ramfs_write s (Some (cstr "f")) (Some [1; 2]) 2 = (RAMFS_RESULT_OK, s1) /\
    ramfs_append s1 (Some (cstr "f")) (Some [3]) 1 = (RAMFS_RESULT_OK, s2) /\
    ramfs_read s2 (Some (cstr "f")) (Some [7; 7; 7; 7]) 4 (Some 0) =
      (RAMFS_RESULT_OK, Some [1; 2; 3; 7], Some 3).
Proof.
  pose proof (create_agrees _ _ _ (Some (cstr "f")) (init_repr ramfs_static ramfs_static_sized))
    as [He [ents Hr]].
  destruct (ramfs_create (ramfs_init ramfs_static) (Some (cstr "f"))) as [r s].
  change (r = RAMFS_RESULT_OK) in He. subst r. cbn [snd] in Hr.
  destruct (ramfs_write_append_read s ents _ (cstr "f") [1; 2] [3] [] [7; 7; 7; 7] 4 0 Hr eq_refl
    ltac:(vm_compute; congruence) ltac:(vm_compute; split; congruence)) as (s1 & s2 & Hw & Ha & Hrd & _).
  exists s, s1, s2. split; [reflexivity|]. split; [exact Hw|]. split; [exact Ha|exact Hrd].
Defined.

(** The integrity check is sound: when [ramfs_validate] returns true, in
    whatever state, the live count is the number of live slots, each live
    slot has a valid name that no other live slot has, so a lookup of its
    name finds that very slot, and every dead slot is entirely zero. *)
Theorem ramfs_validate_sound s :
  ramfs_validate s = true ->
  live_file_count s = count_range 0 RAMFS_MAX_FILES (fun i => slot_alive (slots s).[i]) /\
  forall i, 0 <= i < RAMFS_MAX_FILES ->
    if slot_alive (slots s).[i] then
      name_is_valid (Some (slot_name (slots s).[i])) = true /\
      slot_length (slots s).[i] <= RAMFS_FILE_MAX_BYTES /\
      find_slot s (slot_name (slots s).[i]) = Some i
    else slot_consistent s i.
Proof.
  unfold ramfs_validate. destruct (live_file_count s >? RAMFS_MAX_FILES); [done|].
  destruct (validate_slots _ 0 0 s) as [k|] eqn:E; [|done]. intros Hk. bprop.
  apply validate_slots_sound in E as [Hk2 Hall]; [|done..]. rewrite Z.add_0_l in Hk2.
  split; [congruence|]. intros i Hi. pose proof (Hall i Hi) as Hcons.
  destruct (slot_alive (slots s).[i]) eqn:Ea; [|done].
  unfold slot_consistent in Hcons. rewrite Ea in Hcons. destruct Hcons as (Hv & Hl & _).
  split; [done|]. split; [done|]. rewrite name_is_valid_spec in Hv. apply valid_name_length in Hv.
  apply find_range_first; [done| |].
  - rewrite Ea, names_equal_spec by lia. by apply bool_decide_eq_true.
  - intros j Hj. pose proof (Hall j ltac:(lia)) as Hj2. unfold slot_consistent in Hj2.
    destruct (slot_alive (slots s).[j]); [|done]. destruct Hj2 as (_ & _ & Hd).
    apply Hd; [lia|done].
Qed.

Lemma ramfs_validate_sound_witness :
  let s := snd (ramfs_create (ramfs_init ramfs_static) (Some (cstr "f"))) in
  live_file_count s = count_range 0 RAMFS_MAX_FILES (fun i => slot_alive (slots s).[i]).
Proof.
  pose proof (create_agrees _ _ _ (Some (cstr "f")) (init_repr ramfs_static ramfs_static_sized))
    as [_ [ents Hr]].
  apply validate_repr in Hr.
  intros s. change (ramfs_validate s = true) in Hr. clearbody s.
  exact (proj1 (ramfs_validate_sound s Hr)).
Defined.
