(* ===== verification/Descriptors.v ===== *)
(** * Descriptor tables (src/kernel/arch/x86/gdt.c, src/kernel/arch/x86/idt.c)

    The segment and gate tables the kernel builds, the two loads
    (src/boot/gdt_load.S, src/boot/idt_load.S) as their effect on the
    processor's registers, and the processor's own reading of a descriptor,
    which starts from the eight bytes in memory. *)
From S2P Require Import Prelude.

(** ** gdt.h, gdt.c *)

Definition GDT_NULL_SELECTOR : Z := 0x00.
Definition GDT_KERNEL_CODE_SELECTOR : Z := 0x08.
Definition GDT_KERNEL_DATA_SELECTOR : Z := 0x10.
Definition GDT_USER_CODE_SELECTOR : Z := 0x1B.
Definition GDT_USER_DATA_SELECTOR : Z := 0x23.

Definition GDT_ENTRY_COUNT : Z := 5.
Definition GDT_FLAT_LIMIT : Z := 0x000FFFFF.
Definition GDT_FLAG_32_BIT_GRANULAR_4K : Z := 0xC0.
Definition GDT_ACCESS_KERNEL_CODE : Z := 0x9A.
Definition GDT_ACCESS_KERNEL_DATA : Z := 0x92.
Definition GDT_ACCESS_USER_CODE : Z := 0xFA.
Definition GDT_ACCESS_USER_DATA : Z := 0xF2.

Record gdt_entry := mk_gdt_entry {
  limit_low : Z;
  base_low : Z;
  base_middle : Z;
  access : Z;
  granularity : Z;
  base_high : Z;
}.

#[export] Instance gdt_entry_inhabited : Inhabited gdt_entry := populate (mk_gdt_entry 0 0 0 0 0 0).

(** [struct gdt_descriptor] and [struct idtr_descriptor] have this shape. *)
Record table_register := mk_table_register { tr_limit : Z; tr_base : Z }.

(** The registers the two loads write. *)
Record cpu_tables := mk_cpu_tables {
  cpu_gdtr : table_register;
  cpu_idtr : table_register;
  reg_cs : Z; reg_ds : Z; reg_es : Z; reg_fs : Z; reg_gs : Z; reg_ss : Z;
}.

Record gdt_state := mk_gdt_state { gdt : list gdt_entry; gdtr : table_register }.

Definition gdt_set_entry (index base limit access flags : Z) (t : list gdt_entry) : list gdt_entry :=
  t.[index <- mk_gdt_entry
    (u16 (limit .& 0xFFFF))
    (u16 (base .& 0xFFFF))
    (u8 (Z.shiftr base 16 .& 0xFF))
    access
    (u8 ((Z.shiftr limit 16 .& 0x0F) .| (flags .& 0xF0)))
    (u8 (Z.shiftr base 24 .& 0xFF))].

(** [lgdt], the data segment registers, and the far jump that reloads CS. *)
Definition gdt_load (descriptor : table_register) (c : cpu_tables) : cpu_tables :=
  mk_cpu_tables descriptor (cpu_idtr c) GDT_KERNEL_CODE_SELECTOR
    GDT_KERNEL_DATA_SELECTOR GDT_KERNEL_DATA_SELECTOR GDT_KERNEL_DATA_SELECTOR
    GDT_KERNEL_DATA_SELECTOR GDT_KERNEL_DATA_SELECTOR.

(** [gdt_address] is where the linker put the table. *)
Definition gdt_init (gdt_address : Z) (s : gdt_state) (c : cpu_tables) : gdt_state * cpu_tables :=
  let t := gdt s in
  let t := gdt_set_entry 0 0 0 0 0 t in
  let t := gdt_set_entry 1 0 GDT_FLAT_LIMIT GDT_ACCESS_KERNEL_CODE GDT_FLAG_32_BIT_GRANULAR_4K t in
  let t := gdt_set_entry 2 0 GDT_FLAT_LIMIT GDT_ACCESS_KERNEL_DATA GDT_FLAG_32_BIT_GRANULAR_4K t in
  let t := gdt_set_entry 3 0 GDT_FLAT_LIMIT GDT_ACCESS_USER_CODE GDT_FLAG_32_BIT_GRANULAR_4K t in
  let t := gdt_set_entry 4 0 GDT_FLAT_LIMIT GDT_ACCESS_USER_DATA GDT_FLAG_32_BIT_GRANULAR_4K t in
  let r := mk_table_register (u16 (u32 (GDT_ENTRY_COUNT * 8 - 1))) (u32 gdt_address) in
  (mk_gdt_state t r, gdt_load r c).

(** ** idt.h, idt.c *)

Definition IDT_ENTRY_COUNT : Z := 256.
Definition CPU_EXCEPTION_COUNT : Z := 32.
Definition INTERRUPT_GATE : Z := 0x8E.

Record idt_entry := mk_idt_entry {
  offset_low : Z;
  gate_selector : Z;
  reserved : Z;
  type_attributes : Z;
  offset_high : Z;
}.

#[export] Instance idt_entry_inhabited : Inhabited idt_entry := populate (mk_idt_entry 0 0 0 0 0).

Record idt_state := mk_idt_state { idt : list idt_entry; idtr : table_register }.

Definition idt_set_gate (vector handler selector type_attributes : Z) (s : idt_state) : idt_state :=
  mk_idt_state
    (idt s).[vector <- mk_idt_entry (u16 (handler .& 0xFFFF)) selector 0 type_attributes
                         (u16 (Z.shiftr handler 16 .& 0xFFFF))]
    (idtr s).

(** [lidt]. *)
Definition idt_load (descriptor : table_register) (c : cpu_tables) : cpu_tables :=
  mk_cpu_tables (cpu_gdtr c) descriptor (reg_cs c) (reg_ds c) (reg_es c) (reg_fs c) (reg_gs c) (reg_ss c).

(** [isr_stub_table] holds the addresses of the assembly stubs. *)
Definition idt_init (isr_stub_table : list Z) (idt_address : Z) (s : idt_state) (c : cpu_tables)
  : idt_state * cpu_tables :=
  let s := for_range 0 IDT_ENTRY_COUNT (fun vector s => idt_set_gate (u8 vector) 0 0 0 s) s in
  let s := for_range 0 CPU_EXCEPTION_COUNT (fun vector s =>
    idt_set_gate (u8 vector) isr_stub_table.[vector] GDT_KERNEL_CODE_SELECTOR INTERRUPT_GATE s) s in
  let r := mk_table_register (u16 (u32 (IDT_ENTRY_COUNT * 8 - 1))) (u32 idt_address) in
  (mk_idt_state (idt s) r, idt_load r c).

(** ** The processor's view

    A descriptor is eight bytes; the fields are where the processor manual
    puts them. *)

Definition le16 (v : Z) : list Z := [v mod 256; v / 256].

(** The packed structures as bytes. *)
Definition gdt_entry_bytes (e : gdt_entry) : list Z :=
  le16 (limit_low e) ++ le16 (base_low e) ++ [base_middle e; access e; granularity e; base_high e].

Definition idt_entry_bytes (e : idt_entry) : list Z :=
  le16 (offset_low e) ++ le16 (gate_selector e) ++ [reserved e; type_attributes e] ++ le16 (offset_high e).

(** Eight bytes as a little-endian integer, and a field of it. *)
Definition quad (bytes : list Z) : Z := foldr (fun b v => b + 256 * v) 0 bytes.
Definition bits (v lo n : Z) : Z := v / 2 ^ lo mod 2 ^ n.

Record segment := mk_segment {
  seg_base : Z;
  seg_limit : Z; (* the last byte that may be accessed *)
  seg_present : bool;
  seg_ring : Z;
  seg_ordinary : bool; (* code or data; otherwise a system descriptor *)
  seg_code : bool;
  seg_special : bool; (* data: expands down; code: conforming *)
  seg_writable : bool; (* of data; readable, of code *)
  seg_32bit : bool;
}.

Definition decode_segment (bytes : list Z) : segment :=
  let q := quad bytes in
  let limit := bits q 0 16 + 65536 * bits q 48 4 in
  mk_segment (bits q 16 24 + 16777216 * bits q 56 8)
    (if bits q 55 1 == 1 then 4096 * limit + 4095 else limit)
    (bits q 47 1 == 1) (bits q 45 2) (bits q 44 1 == 1) (bits q 43 1 == 1) (bits q 42 1 == 1) (bits q 41 1 == 1)
    (bits q 54 1 == 1).

(** What a selector selects: nothing when it is null or lies past the limit. *)
Definition select_segment (t : list gdt_entry) (r : table_register) (selector : Z) : option segment :=
  let index := selector / 8 in
  if (index == 0) || (index * 8 + 7 >? tr_limit r) then None
  else Some (decode_segment (gdt_entry_bytes t.[index])).

Record gate := mk_gate { gate_target : Z; gate_segment : Z; gate_ring : Z; gate_masks_interrupts : bool }.

(** The gate of a vector: none when it is not present, past the limit or not
    a 32-bit interrupt or trap gate. *)
Definition select_gate (t : list idt_entry) (r : table_register) (vector : Z) : option gate :=
  if vector * 8 + 7 >? tr_limit r then None
  else
    let q := quad (idt_entry_bytes t.[vector]) in
    if (bits q 47 1 == 1) && ((bits q 40 5 == 14) || (bits q 40 5 == 15))
    then Some (mk_gate (bits q 0 16 + 65536 * bits q 48 16) (bits q 16 16) (bits q 45 2) (bits q 40 5 == 14))
    else None.

(** ** Encoding and decoding *)

Lemma land_mask x n : 0 <= n -> x .& (2 ^ n - 1) = x mod 2 ^ n.
Proof. intros. rewrite <-Z.land_ones, Z.ones_equiv by lia. done. Qed.

Lemma low_high_nibbles a b : 0 <= a < 16 -> a .| (b .& 0xF0) = a + 16 * (b / 16 mod 16).
Proof.
  intros Ha. assert (Hb : b .& 0xF0 = Z.shiftl (b / 16 mod 16) 4).
  { apply Z.bits_inj'. intros i Hi. rewrite Z.land_spec, Z.shiftl_spec by lia.
    change 0xF0 with (Z.shiftl (Z.ones 4) 4). rewrite Z.shiftl_spec by lia.
    change 16 with (2 ^ 4). rewrite <-Z.shiftr_div_pow2, <-Z.land_ones, Z.land_spec by lia.
    destruct (decide (i < 4)).
    - rewrite !(Z.testbit_neg_r _ (i - 4)) by lia. by rewrite !andb_false_r.
    - rewrite Z.shiftr_spec by lia. by replace (i - 4 + 4) with i by lia. }
  rewrite Hb, <-Z.add_nocarry_lor; [rewrite Z.shiftl_mul_pow2 by lia; lia|].
  apply Z.bits_inj'. intros i Hi. rewrite Z.land_spec, Z.testbit_0_l.
  destruct (decide (i < 4)); [by rewrite Z.shiftl_spec_low, andb_false_r by lia|].
  by rewrite (testbit_high 4 a) by (done || lia).
Qed.

(** The fields of an entry, without bit operations. *)
Lemma gdt_set_entry_fields index base limit access flags t :
  is_u32 base -> 0 <= limit < 2 ^ 20 ->
  gdt_set_entry index base limit access flags t =
  t.[index <- mk_gdt_entry (limit mod 65536) (base mod 65536) (base / 65536 mod 256) access
                (limit / 65536 + 16 * (flags / 16 mod 16)) (base / 16777216)].
Proof.
  intros Hb Hl. unfold gdt_set_entry. f_equal. unfold is_u32 in *.
  change 0xFFFF with (2 ^ 16 - 1). change 0x0F with (2 ^ 4 - 1). change 0xFF with (2 ^ 8 - 1).
  rewrite !land_mask, !Z.shiftr_div_pow2 by lia. rewrite low_high_nibbles by (Z.to_euclidean_division_equations; lia).
  f_equal; wrap_lia.
Qed.

(** The fields of eight bytes, each in its range. *)
Lemma segment_of_bytes b0 b1 b2 b3 b4 b5 b6 b7 :
  Forall is_u8 [b0; b1; b2; b3; b4; b5; b6; b7] ->
  decode_segment [b0; b1; b2; b3; b4; b5; b6; b7] =
  let limit := b0 + 256 * b1 + 65536 * (b6 mod 16) in
  mk_segment (b2 + 256 * b3 + 65536 * b4 + 16777216 * b7)
    (if b6 / 128 == 1 then 4096 * limit + 4095 else limit)
    (b5 / 128 == 1) (b5 / 32 mod 4) (b5 / 16 mod 2 == 1) (b5 / 8 mod 2 == 1) (b5 / 4 mod 2 == 1) (b5 / 2 mod 2 == 1)
    (b6 / 64 mod 2 == 1).
Proof.
  intros H. repeat (apply Forall_cons_1 in H as [? H]). unfold decode_segment, bits, quad, is_u8 in *.
  cbn [foldr]. cbv zeta.
  repeat match goal with |- context [2 ^ ?n] => let v := eval vm_compute in (2 ^ n) in change (2 ^ n) with v end.
  f_equal; [| | f_equal | | f_equal | f_equal | f_equal | f_equal | f_equal].
  2: { match goal with |- (if ?a then _ else _) = (if ?b then _ else _) => replace a with b end.
       - destruct (b6 / 128 == 1); wrap_lia.
       - f_equal. wrap_lia. }
  all: wrap_lia.
Qed.

Lemma gate_of_bytes b0 b1 b2 b3 b4 b5 b6 b7 :
  Forall is_u8 [b0; b1; b2; b3; b4; b5; b6; b7] ->
  let q := quad [b0; b1; b2; b3; b4; b5; b6; b7] in
  bits q 0 16 + 65536 * bits q 48 16 = b0 + 256 * b1 + 65536 * (b6 + 256 * b7) /\
  bits q 16 16 = b2 + 256 * b3 /\ bits q 47 1 = b5 / 128 /\ bits q 45 2 = b5 / 32 mod 4 /\ bits q 40 5 = b5 mod 32.
Proof.
  intros H. repeat (apply Forall_cons_1 in H as [? H]). unfold bits, quad, is_u8 in *.
  cbn [foldr]. cbv zeta.
  repeat match goal with |- context [2 ^ ?n] => let v := eval vm_compute in (2 ^ n) in change (2 ^ n) with v end.
  repeat split; wrap_lia.
Qed.

Definition gate_entry (handler selector type_attributes : Z) : idt_entry :=
  mk_idt_entry (handler mod 65536) selector 0 type_attributes (handler / 65536).

Lemma idt_set_gate_fields vector handler selector attributes s :
  is_u32 handler ->
  idt_set_gate vector handler selector attributes s =
  mk_idt_state (idt s).[vector <- gate_entry handler selector attributes] (idtr s).
Proof.
  intros Hh. unfold idt_set_gate, gate_entry. change 0xFFFF with (2 ^ 16 - 1).
  rewrite !land_mask, !Z.shiftr_div_pow2 by lia. repeat f_equal; wrap_lia.
Qed.

(** A gate written by the kernel is the gate the processor finds. *)
Lemma gate_entry_selects t r vector handler selector :
  is_u32 handler -> is_u16 selector -> vector * 8 + 7 <= tr_limit r ->
  t.[vector] = gate_entry handler selector INTERRUPT_GATE ->
  select_gate t r vector = Some (mk_gate handler selector 0 true).
Proof.
  intros Hh Hs Hv Ht. unfold select_gate. rewrite Z.gtb_ltb, (proj2 (Z.ltb_ge _ _)), Ht by lia.
  unfold idt_entry_bytes, gate_entry, le16. cbn [offset_low gate_selector reserved type_attributes offset_high app].
  edestruct gate_of_bytes as (E1 & E2 & E3 & E4 & E5);
    [|cbv zeta; rewrite E1, E2, E3, E4, E5; change INTERRUPT_GATE with 142; simpl].
  - repeat apply Forall_cons_2; try done; unfold is_u8, is_u32, is_u16, INTERRUPT_GATE in *; wrap_lia.
  - repeat f_equal; unfold is_u32, is_u16 in *; wrap_lia.
Qed.

Lemma absent_gate t r vector : t.[vector] = gate_entry 0 0 0 -> select_gate t r vector = None.
Proof. intros Ht. unfold select_gate. rewrite Ht. by destruct (_ >? _). Qed.

(** A loop that writes one gate per vector. *)
Definition set_gates (lo hi : Z) (handler : Z -> Z) (selector attributes : Z) (s : idt_state) : idt_state :=
  for_range lo hi (fun vector s => idt_set_gate vector (handler vector) selector attributes s) s.

Lemma set_gates_fill lo hi handler selector attributes s :
  0 <= lo <= hi -> (forall v, lo <= v < hi -> is_u32 (handler v)) ->
  set_gates lo hi handler selector attributes s =
  mk_idt_state (fill_range lo hi (fun v => gate_entry (handler v) selector attributes) (idt s)) (idtr s).
Proof.
  intros Hle Hh. unfold set_gates, fill_range.
  rewrite (for_range_ext lo hi _ (fun v s => mk_idt_state (idt s).[v <- gate_entry (handler v) selector attributes] (idtr s)))
    by (intros v t Hv; by apply idt_set_gate_fields, Hh).
  unfold for_range. generalize (Z.to_nat (hi - lo)) as n. clear. intros n.
  revert lo s. induction n as [|n IH]; intros lo s; simpl; [by destruct s|]. by rewrite IH.
Qed.

Lemma set_gates_get lo hi handler selector attributes s v :
  0 <= lo <= hi -> (forall v, lo <= v < hi -> is_u32 (handler v)) -> 0 <= v < alen (idt s) ->
  (idt (set_gates lo hi handler selector attributes s)).[v] =
  if (lo <=? v) && (v <? hi) then gate_entry (handler v) selector attributes else (idt s).[v].
Proof.
  intros Hle Hh Hv. rewrite set_gates_fill by done. cbn [idt].
  by destruct (fill_range_spec lo hi (fun v => gate_entry (handler v) selector attributes) (idt s) Hle) as [_ ->].
Qed.

Lemma set_gates_len lo hi handler selector attributes s :
  0 <= lo <= hi -> (forall v, lo <= v < hi -> is_u32 (handler v)) ->
  alen (idt (set_gates lo hi handler selector attributes s)) = alen (idt s) /\
  idtr (set_gates lo hi handler selector attributes s) = idtr s.
Proof. intros. rewrite set_gates_fill by done. split; [|done]. by apply alen_fill_range. Qed.

(** The table after [idt_init]: the stubs of the 32 exceptions and nothing else. *)
Lemma idt_init_table stubs address s c :
  Forall is_u32 stubs -> alen stubs = 32 -> alen (idt s) = 256 -> is_u32 address ->
  let '(s', c') := idt_init stubs address s c in
  alen (idt s') = 256 /\ cpu_idtr c' = mk_table_register 2047 address /\ idtr s' = cpu_idtr c' /\
  forall v, 0 <= v < 256 ->
    (idt s').[v] = if v <? 32 then gate_entry stubs.[v] GDT_KERNEL_CODE_SELECTOR INTERRUPT_GATE else gate_entry 0 0 0.
Proof.
  intros Hst Hl Hi Ha. unfold idt_init. cbv zeta.
  assert (E1 : for_range 0 IDT_ENTRY_COUNT (fun vector s => idt_set_gate (u8 vector) 0 0 0 s) s =
    set_gates 0 256 (fun _ => 0) 0 0 s).
  { apply for_range_ext. intros v t Hv. rewrite u8_small by (unfold is_u8, IDT_ENTRY_COUNT in *; lia). done. }
  rewrite E1. set (s1 := set_gates _ _ _ _ _ s).
  assert (E2 : for_range 0 CPU_EXCEPTION_COUNT (fun vector s =>
      idt_set_gate (u8 vector) stubs.[vector] GDT_KERNEL_CODE_SELECTOR INTERRUPT_GATE s) s1 =
    set_gates 0 32 (fun v => stubs.[v]) GDT_KERNEL_CODE_SELECTOR INTERRUPT_GATE s1).
  { apply for_range_ext. intros v t Hv. rewrite u8_small by (unfold is_u8, CPU_EXCEPTION_COUNT in *; lia). done. }
  rewrite E2. clear E1 E2.
  assert (Hu : forall v, 0 <= v < 32 -> is_u32 stubs.[v]) by (intros v Hv; apply (Forall_aget _ _ _ Hst); lia).
  assert (H0 : forall v, 0 <= v < 256 -> is_u32 ((fun _ => 0) v)) by done.
  destruct (set_gates_len 0 256 (fun _ => 0) 0 0 s ltac:(lia) H0) as [L1 _]. fold s1 in L1.
  destruct (set_gates_len 0 32 (fun v => stubs.[v]) GDT_KERNEL_CODE_SELECTOR INTERRUPT_GATE s1 ltac:(lia) Hu) as [L2 _].
  cbn [idt idtr idt_load cpu_idtr]. rewrite (u32_small address) by done.
  split; [lia|]. split; [done|]. split; [done|]. intros v Hv. rewrite set_gates_get by (done || lia).
  rewrite (proj2 (Z.leb_le 0 v)) by lia. cbn [andb]. destruct (v <? 32); [done|].
  unfold s1. rewrite set_gates_get by (done || lia).
  by rewrite (proj2 (Z.leb_le 0 v)), (proj2 (Z.ltb_lt v 256)) by lia.
Qed.

(** ** Properties *)

(** A segment written with [gdt_set_entry] is the segment the processor
    decodes from the entry's eight bytes: base, limit, granularity, presence,
    privilege ring, kind and operand size are the ones asked for, and the
    other entries of the table are untouched. *)
Theorem gdt_entry_decodes index base limit acc flags t :
  0 <= index < alen t -> is_u32 base -> 0 <= limit < 2 ^ 20 -> is_u8 acc -> is_u8 flags ->
  let t' := gdt_set_entry index base limit acc flags t in
  decode_segment (gdt_entry_bytes t'.[index]) =
    mk_segment base (if flags / 128 == 1 then 4096 * limit + 4095 else limit)
      (acc / 128 == 1) (acc / 32 mod 4) (acc / 16 mod 2 == 1) (acc / 8 mod 2 == 1) (acc / 4 mod 2 == 1) (acc / 2 mod 2 == 1)
      (flags / 64 mod 2 == 1) /\
  (forall j, 0 <= j -> j <> index -> t'.[j] = t.[j]) /\ alen t' = alen t.
Proof.
  intros Hi Hb Hl Ha Hf. cbv zeta. rewrite gdt_set_entry_fields, aget_aset_eq, alen_aset by done.
  split; [|split; [|done]].
  - unfold gdt_entry_bytes, le16. cbn [limit_low base_low base_middle access granularity base_high app].
    unfold is_u32, is_u8 in *. change (2 ^ 20) with 1048576 in Hl.
    rewrite segment_of_bytes by (repeat apply Forall_cons_2; try done; unfold is_u8; wrap_lia).
    cbv zeta. f_equal; [wrap_lia| |f_equal; wrap_lia].
    replace ((limit / 65536 + 16 * (flags / 16 mod 16)) / 128) with (flags / 128) by wrap_lia.
    destruct (flags / 128 == 1); wrap_lia.
  - intros j Hj Hne. rewrite aget_aset_ne by lia. done.
Qed.

(** What the kernel means its table to hold. *)
Definition flat_segment (ring : Z) (code : bool) : segment :=
  mk_segment 0 0xFFFFFFFF true ring true code false true true.

Definition kernel_segment (index : Z) : option segment :=
  if index == 1 then Some (flat_segment 0 true)
  else if index == 2 then Some (flat_segment 0 false)
  else if index == 3 then Some (flat_segment 3 true)
  else if index == 4 then Some (flat_segment 3 false)
  else None.

(** C37: whatever the table and the registers held, after [gdt_init] every
    selector selects exactly what it is meant to: entries 1 to 4 are present,
    cover all 4 GiB from address 0 and are the kernel's and the user's code and
    data segments (no system descriptors, the data growing upwards, the code
    not conforming), every other selector selects nothing; the segment registers
    hold kernel selectors, CS a code segment and the others a data segment of
    ring 0, and the four selector constants ask for the ring of their
    segment. *)
Theorem gdt_init_segments address s c :
  alen (gdt s) = 5 -> is_u32 address ->
  let '(s', c') := gdt_init address s c in
  (forall selector, is_u16 selector -> select_segment (gdt s') (cpu_gdtr c') selector = kernel_segment (selector / 8)) /\
  cpu_gdtr c' = gdtr s' /\ tr_base (cpu_gdtr c') = address /\ cpu_idtr c' = cpu_idtr c /\
  kernel_segment (reg_cs c' / 8) = Some (flat_segment 0 true) /\
  Forall (fun r => kernel_segment (r / 8) = Some (flat_segment 0 false)) [reg_ds c'; reg_es c'; reg_fs c'; reg_gs c'; reg_ss c'] /\
  Forall (fun r => exists g, kernel_segment (r / 8) = Some g /\ seg_ring g = r mod 4)
    [GDT_KERNEL_CODE_SELECTOR; GDT_KERNEL_DATA_SELECTOR; GDT_USER_CODE_SELECTOR; GDT_USER_DATA_SELECTOR].
Proof.
  intros Hl Ha. destruct s as [t r]. cbn [gdt] in Hl.
  do 5 (destruct t as [|? t]; [discriminate Hl|]). destruct t; [|rewrite !alen_cons in Hl; pose proof (alen_nonneg t); lia].
  unfold gdt_init. cbv zeta. cbn [gdt gdtr gdt_load cpu_gdtr cpu_idtr tr_base reg_cs reg_ds reg_es reg_fs reg_gs reg_ss].
  split; [|split; [done|split; [by apply u32_small|split; [done|split; [done|split]]]]].
  - intros selector Hs. unfold select_segment. cbn [tr_limit]. change (u16 _) with 39.
    assert (Hi : 0 <= selector / 8) by (apply Z.div_pos; [apply Hs|lia]).
    generalize dependent (selector / 8). intros i Hi. unfold kernel_segment.
    destruct (Z.eqb_spec i 0) as [->|]; [done|]. cbn [orb].
    destruct (Z.gtb_spec (i * 8 + 7) 39).
    + by rewrite !(proj2 (Z.eqb_neq i _)) by lia.
    + assert (i = 1 \/ i = 2 \/ i = 3 \/ i = 4) as [-> | [-> | [-> | ->]]] by lia; vm_compute; reflexivity.
  - repeat constructor.
  - repeat constructor; eexists; split; reflexivity.
Qed.

Lemma gdt_entry_decodes_witness :
  decode_segment (gdt_entry_bytes (gdt_set_entry 1 0xB8000 0x0000F 0x92 0x40 (gdt (mk_gdt_state (replicate 2 inhabitant) (mk_table_register 0 0)))).[1]) =
  mk_segment 0xB8000 15 true 0 true false false true true.
Proof.
  eapply (gdt_entry_decodes 1 0xB8000 0xF 0x92 0x40); [vm_compute; split; congruence|..]; done.
Defined.

Lemma gdt_init_segments_witness :
  let '(s', c') := gdt_init 0x104000 (mk_gdt_state (replicate 5 inhabitant) (mk_table_register 0 0))
    (mk_cpu_tables (mk_table_register 0 0) (mk_table_register 0 0) 0x10 0x18 0x18 0x18 0x18 0x18) in
  select_segment (gdt s') (cpu_gdtr c') GDT_USER_CODE_SELECTOR = Some (flat_segment 3 true).
Proof.
  pose proof (gdt_init_segments 0x104000 (mk_gdt_state (replicate 5 inhabitant) (mk_table_register 0 0))
    (mk_cpu_tables (mk_table_register 0 0) (mk_table_register 0 0) 0x10 0x18 0x18 0x18 0x18 0x18) eq_refl ltac:(done)) as H.
  destruct (gdt_init _ _ _) as [s' c']. destruct H as [H _]. apply (H GDT_USER_CODE_SELECTOR). done.
Defined.
