(* ===== verification/Pic.v ===== *)
(** * Interrupt controllers (src/kernel/arch/x86/pic.c)

    The driver is its two mask bytes and the bytes it writes to the ports.
    What those writes do is the other half of the file: a pair of cascaded
    8259A controllers with their initialisation sequence, mask and in-service
    registers, as their data sheet describes them. *)
From S2P Require Import Prelude.

Definition PIC_MASTER_COMMAND : Z := 0x20.
Definition PIC_MASTER_DATA : Z := 0x21.
Definition PIC_SLAVE_COMMAND : Z := 0xA0.
Definition PIC_SLAVE_DATA : Z := 0xA1.
Definition PIC_ICW1_INIT : Z := 0x11.
Definition PIC_ICW4_8086 : Z := 0x01.
Definition PIC_MASTER_VECTOR_OFFSET : Z := 0x20.
Definition PIC_SLAVE_VECTOR_OFFSET : Z := 0x28.
Definition PIC_MASTER_CASCADE_IRQ : Z := 0x04.
Definition PIC_SLAVE_CASCADE_ID : Z := 0x02.
Definition PIC_ALL_MASKED : Z := 0xFF.
Definition PIC_SLAVE_IRQ_BASE : Z := 8.

(** ** The device *)

(** What a controller expects next on its data port. *)
Inductive icw_stage := ExpectICW2 | ExpectICW3 | ExpectICW4 | Operational.

Record i8259 := mk_i8259 {
  stage : icw_stage;
  needs_icw4 : bool;
  vector_base : Z;
  cascade : Z;
  icw4 : Z;
  imr : Z; (* interrupt mask register *)
  isr : Z; (* in-service register *)
}.

(** A write to the command port: bit 4 starts the initialisation; otherwise
    [0x20] ends the interrupt in service with the lowest line number. *)
Definition chip_command (value : Z) (c : i8259) : i8259 :=
  if Z.testbit value 4 then
    mk_i8259 ExpectICW2 (Z.testbit value 0) (vector_base c) (cascade c) 0 0 0
  else if value == 0x20 then
    mk_i8259 (stage c) (needs_icw4 c) (vector_base c) (cascade c) (icw4 c) (imr c)
      (isr c .& not8 (Z.shiftl 1 (builtin_ctz (isr c))))
  else c.

Definition chip_data (value : Z) (c : i8259) : i8259 :=
  match stage c with
  | ExpectICW2 => mk_i8259 ExpectICW3 (needs_icw4 c) (value .& 0xF8) (cascade c) (icw4 c) (imr c) (isr c)
  | ExpectICW3 =>
      mk_i8259 (if needs_icw4 c then ExpectICW4 else Operational) (needs_icw4 c) (vector_base c) value (icw4 c) (imr c) (isr c)
  | ExpectICW4 => mk_i8259 Operational (needs_icw4 c) (vector_base c) (cascade c) value (imr c) (isr c)
  | Operational => mk_i8259 Operational (needs_icw4 c) (vector_base c) (cascade c) (icw4 c) value (isr c)
  end.

(** The bus: both controllers and every byte written so far. *)
Record bus := mk_bus { master : i8259; slave : i8259; written : list (Z * Z) }.

Definition bus_outb (port value : Z) (b : bus) : bus :=
  let w := written b ++ [(port, value)] in
  if port == 0x20 then mk_bus (chip_command value (master b)) (slave b) w
  else if port == 0x21 then mk_bus (chip_data value (master b)) (slave b) w
  else if port == 0xA0 then mk_bus (master b) (chip_command value (slave b)) w
  else if port == 0xA1 then mk_bus (master b) (chip_data value (slave b)) w
  else mk_bus (master b) (slave b) w.

(** A controller passes on the request of a line when it is initialised, the
    line is not masked and no line of the same or a higher priority (a lower
    number) is in service. *)
Definition chip_accepts (line : Z) (c : i8259) : bool :=
  match stage c with Operational => true | _ => false end
  && negb (Z.testbit (imr c) line)
  && all_range 0 (line + 1) (fun i => negb (Z.testbit (isr c) i)).

Definition chip_acknowledge (line : Z) (c : i8259) : i8259 :=
  mk_i8259 (stage c) (needs_icw4 c) (vector_base c) (cascade c) (icw4 c) (imr c) (isr c .| Z.shiftl 1 line).

(** An interrupt request and the processor's acknowledge cycle: the vector
    put on the bus, if any.  The slave's request is a request of the master's
    line 2; the master lets the slave give the vector when its cascade byte
    says there is a slave on that line. *)
Definition raise_irq (irq : Z) (b : bus) : option (Z * bus) :=
  if irq <? 8 then
    if chip_accepts irq (master b)
    then Some (vector_base (master b) + irq, mk_bus (chip_acknowledge irq (master b)) (slave b) (written b))
    else None
  else if chip_accepts (irq - 8) (slave b) && chip_accepts 2 (master b)
          && Z.testbit (cascade (master b)) 2 && (cascade (slave b) == 2)
  then Some (vector_base (slave b) + (irq - 8),
             mk_bus (chip_acknowledge 2 (master b)) (chip_acknowledge (irq - 8) (slave b)) (written b))
  else None.

(** ** The driver *)

Record pic := mk_pic { master_mask : Z; slave_mask : Z }.

Definition pic_write_masks (p : pic) (b : bus) : bus :=
  let b := bus_outb PIC_MASTER_DATA (master_mask p) b in
  bus_outb PIC_SLAVE_DATA (slave_mask p) b.

Definition pic_init (b : bus) : pic * bus :=
  let b := bus_outb PIC_MASTER_COMMAND PIC_ICW1_INIT b in
  let b := bus_outb PIC_SLAVE_COMMAND PIC_ICW1_INIT b in
  let b := bus_outb PIC_MASTER_DATA PIC_MASTER_VECTOR_OFFSET b in
  let b := bus_outb PIC_SLAVE_DATA PIC_SLAVE_VECTOR_OFFSET b in
  let b := bus_outb PIC_MASTER_DATA PIC_MASTER_CASCADE_IRQ b in
  let b := bus_outb PIC_SLAVE_DATA PIC_SLAVE_CASCADE_ID b in
  let b := bus_outb PIC_MASTER_DATA PIC_ICW4_8086 b in
  let b := bus_outb PIC_SLAVE_DATA PIC_ICW4_8086 b in
  let p := mk_pic PIC_ALL_MASKED PIC_ALL_MASKED in
  (p, pic_write_masks p b).

(** The new value of a mask byte. *)
Definition changed_mask (mask bit : Z) (masked : bool) : Z :=
  if masked then u8 (mask .| u8 (Z.shiftl 1 bit))
  else u8 (mask .& u8 (not32 (Z.shiftl 1 bit))).

Definition pic_set_mask (irq : Z) (masked : bool) (p : pic) (b : bus) : bool * pic * bus :=
  if irq >=? 16 then (false, p, b)
  else if irq <? PIC_SLAVE_IRQ_BASE then
    let mask := changed_mask (master_mask p) irq masked in
    (true, mk_pic mask (slave_mask p), bus_outb PIC_MASTER_DATA mask b)
  else
    let mask := changed_mask (slave_mask p) (u8 (irq - PIC_SLAVE_IRQ_BASE)) masked in
    (true, mk_pic (master_mask p) mask, bus_outb PIC_SLAVE_DATA mask b).

Definition pic_get_mask (p : pic) : Z := master_mask p .| Z.shiftl (slave_mask p) 8.

Definition pic_send_eoi (irq : Z) (b : bus) : bus :=
  if irq >=? 16 then b
  else
    let b := if irq >=? PIC_SLAVE_IRQ_BASE then bus_outb PIC_SLAVE_COMMAND 0x20 b else b in
    bus_outb PIC_MASTER_COMMAND 0x20 b.

(** ** The pair as the driver leaves it

    Both controllers initialised with the kernel's vectors, the driver's mask
    bytes in their mask registers and the lines of [m] and [s] in service. *)

Definition programmed (base casc mask in_service : Z) : i8259 :=
  mk_i8259 Operational true base casc PIC_ICW4_8086 mask in_service.

Record pic_ready (p : pic) (b : bus) (m s : Z) : Prop := {
  pr_master : master b = programmed 0x20 0x04 (master_mask p) m;
  pr_slave : slave b = programmed 0x28 0x02 (slave_mask p) s;
  pr_master_u8 : is_u8 (master_mask p);
  pr_slave_u8 : is_u8 (slave_mask p);
}.

Lemma pic_init_ready b : let '(p, b') := pic_init b in
  pic_ready p b' 0 0 /\ p = mk_pic 0xFF 0xFF.
Proof. split; [|done]. by split. Qed.

(** The mask bit of a line. *)
Definition line_masked (irq : Z) (p : pic) : bool :=
  if irq <? 8 then Z.testbit (master_mask p) irq else Z.testbit (slave_mask p) (irq - 8).

Lemma changed_mask_bits mask bit masked i :
  is_u8 mask -> 0 <= bit < 8 -> 0 <= i < 8 ->
  Z.testbit (changed_mask mask bit masked) i = if bit =? i then masked else Z.testbit mask i.
Proof.
  intros Hm Hb Hi. assert (H8 : forall z, Z.testbit (u8 z) i = Z.testbit z i).
  { intros z. unfold u8. change 256 with (2 ^ 8). apply Z.mod_pow2_bits_low. lia. }
  unfold changed_mask. destruct masked; rewrite H8.
  - rewrite Z.lor_spec, H8, Z.shiftl_1_l, Z.pow2_bits_eqb by lia.
    destruct (bit =? i); [apply orb_true_r|apply orb_false_r].
  - rewrite Z.land_spec, H8. unfold not32, u32. change 4294967296 with (2 ^ 32).
    rewrite Z.mod_pow2_bits_low, Z.lnot_spec, Z.shiftl_1_l, Z.pow2_bits_eqb by lia.
    destruct (bit =? i); [apply andb_false_r|apply andb_true_r].
Qed.

Lemma changed_mask_u8 mask bit masked : is_u8 (changed_mask mask bit masked).
Proof. unfold changed_mask. destruct masked; apply u8_range. Qed.

(** A mask change reaches the controller and moves one bit. *)
Lemma set_mask_ready irq masked p b m s :
  pic_ready p b m s -> 0 <= irq < 16 ->
  let '(r, p', b') := pic_set_mask irq masked p b in
  r = true /\ pic_ready p' b' m s /\
  forall i, 0 <= i < 16 -> line_masked i p' = if irq =? i then masked else line_masked i p.
Proof.
  intros [Hm Hs Hmu Hsu] Hi. unfold pic_set_mask, PIC_SLAVE_IRQ_BASE.
  rewrite Z.geb_leb, (proj2 (Z.leb_gt 16 irq)) by lia. destruct (Z.ltb_spec irq 8).
  - split; [done|]. split.
    + split; cbn [master_mask slave_mask]; [|done|apply changed_mask_u8|done].
      unfold bus_outb. cbn. by rewrite Hm.
    + intros i Hi'. unfold line_masked. cbn [master_mask slave_mask]. destruct (Z.ltb_spec i 8).
      * apply changed_mask_bits; done || lia.
      * by rewrite (proj2 (Z.eqb_neq irq i)) by lia.
  - rewrite (u8_small (irq - 8)) by (unfold is_u8; lia). split; [done|]. split.
    + split; cbn [master_mask slave_mask]; [done| |done|apply changed_mask_u8].
      unfold bus_outb. cbn. by rewrite Hs.
    + intros i Hi'. unfold line_masked. cbn [master_mask slave_mask]. destruct (Z.ltb_spec i 8).
      * by rewrite (proj2 (Z.eqb_neq irq i)) by lia.
      * rewrite changed_mask_bits by (done || lia).
        destruct (Z.eqb_spec (irq - 8) (i - 8)), (Z.eqb_spec irq i); try lia; done.
Qed.

(** The sixteen bits [pic_get_mask] reports. *)
Lemma get_mask_bits p i :
  is_u8 (master_mask p) -> 0 <= i < 16 -> Z.testbit (pic_get_mask p) i = line_masked i p.
Proof.
  intros Hm Hi. unfold pic_get_mask, line_masked. rewrite Z.lor_spec, Z.shiftl_spec by lia.
  destruct (Z.ltb_spec i 8).
  - rewrite (Z.testbit_neg_r _ (i - 8)) by lia. apply orb_false_r.
  - by rewrite (testbit_high 8 (master_mask p)) by (done || lia).
Qed.

(** Nothing in service: a line is accepted exactly when it is not masked. *)
Lemma idle_accepts base casc mask line :
  0 <= line -> chip_accepts line (programmed base casc mask 0) = negb (Z.testbit mask line).
Proof.
  intros Hl. unfold chip_accepts, programmed. cbn [stage imr isr]. cbn [andb].
  rewrite (proj2 (all_range_true 0 (line + 1) _)), andb_true_r by (intros; by rewrite Z.testbit_0_l). done.
Qed.

(** The in-service bit of a line and the command that clears it. *)
Lemma eoi_clears line : 0 <= line < 8 -> let v := 0 .| Z.shiftl 1 line in v .& not8 (Z.shiftl 1 (builtin_ctz v)) = 0.
Proof.
  intros H. assert (line = 0 \/ line = 1 \/ line = 2 \/ line = 3 \/ line = 4 \/ line = 5 \/ line = 6 \/ line = 7) by lia.
  by destruct_or!; subst.
Qed.

(** Which requests get through. *)
Definition deliverable (irq : Z) (p : pic) : bool :=
  negb (line_masked irq p) && ((irq <? 8) || negb (line_masked 2 p)).

(** With nothing in service, a request that gets through has the vector
    [32 + irq], and the end-of-interrupt commands for it leave nothing in
    service. *)
Lemma raise_and_eoi irq p b :
  pic_ready p b 0 0 -> 0 <= irq < 16 ->
  if deliverable irq p
  then exists b', raise_irq irq b = Some (32 + irq, b') /\ pic_ready p (pic_send_eoi irq b') 0 0
  else raise_irq irq b = None.
Proof.
  intros [Hm Hs Hmu Hsu] Hi. unfold deliverable, raise_irq, pic_send_eoi, line_masked, PIC_SLAVE_IRQ_BASE.
  rewrite !Z.geb_leb, (proj2 (Z.leb_gt 16 irq)) by lia. rewrite Hm, Hs.
  destruct (Z.ltb_spec irq 8).
  - rewrite idle_accepts, andb_true_r, (proj2 (Z.leb_gt 8 irq)) by lia.
    destruct (negb _); [|done]. eexists. split; [done|].
    split; unfold bus_outb; cbn [master slave Z.eqb Pos.eqb PIC_MASTER_COMMAND]; [|done..].
    unfold chip_command, chip_acknowledge, programmed. cbn -[Z.land Z.lor Z.shiftl not8 builtin_ctz].
    by rewrite eoi_clears by lia.
  - rewrite !idle_accepts, (proj2 (Z.leb_le 8 irq)), !andb_true_r by lia. change (2 <? 8) with true. cbv iota. cbn [orb].
    destruct (negb (Z.testbit (slave_mask p) _) && _) eqn:E; [|done].
    eexists. split; [f_equal; f_equal; cbn; lia|].
    unfold bus_outb; cbn [master slave Z.eqb Pos.eqb PIC_MASTER_COMMAND PIC_SLAVE_COMMAND].
    split; cbn [master slave]; [| |done..];
      unfold chip_command, chip_acknowledge, programmed; cbn -[Z.land Z.lor Z.shiftl not8 builtin_ctz].
    + by rewrite eoi_clears by lia.
    + by rewrite eoi_clears by lia.
Qed.

(** A sequence of mask changes; what the lines are after it. *)
Definition set_masks (calls : list (Z * bool)) (p : pic) (b : bus) : pic * bus :=
  fold_left (fun '(p, b) '(irq, masked) => let '(_, p, b) := pic_set_mask irq masked p b in (p, b)) calls (p, b).

(** The last request for a line decides; before any, all lines are masked. *)
Fixpoint last_request (irq : Z) (calls : list (Z * bool)) (start : bool) : bool :=
  match calls with
  | [] => start
  | (i, masked) :: calls => last_request irq calls (if i =? irq then masked else start)
  end.

Lemma set_masks_ready calls p b m s :
  pic_ready p b m s -> Forall (fun c => 0 <= c.1) calls ->
  let '(p', b') := set_masks calls p b in
  pic_ready p' b' m s /\
  forall i, 0 <= i < 16 -> line_masked i p' = last_request i calls (line_masked i p).
Proof.
  intros Hr Hc. unfold set_masks. revert p b Hr. induction Hc as [|[irq masked] calls Hirq _ IH]; intros p b Hr; [done|].
  cbn [fold_left fst] in *. destruct (Z.lt_ge_cases irq 16).
  - pose proof (set_mask_ready irq masked p b m s Hr ltac:(lia)) as H1.
    destruct (pic_set_mask irq masked p b) as [[r p1] b1]. destruct H1 as (_ & Hr1 & Hl1).
    specialize (IH p1 b1 Hr1). destruct (fold_left _ calls (p1, b1)) as [p' b']. destruct IH as [Hr' Hl'].
    split; [done|]. intros i Hi. rewrite Hl', Hl1 by done. done.
  - assert (E : pic_set_mask irq masked p b = (false, p, b)).
    { unfold pic_set_mask. by rewrite Z.geb_leb, (proj2 (Z.leb_le _ _)) by lia. }
    rewrite E. specialize (IH p b Hr). destruct (fold_left _ calls (p, b)) as [p' b']. destruct IH as [Hr' Hl'].
    split; [done|]. intros i Hi. rewrite Hl' by done. cbn [last_request]. by rewrite (proj2 (Z.eqb_neq irq i)) by lia.
Qed.

(** ** Properties *)

(** C23: whatever state the controllers were in, after [pic_init] and any
    sequence of mask changes (invalid lines included) both controllers are
    initialised with the kernel's vectors, nothing is in service, their mask
    registers hold the driver's mask bytes, every line is masked or not as the
    last request for it said, and [pic_get_mask] reports exactly that. *)
Theorem pic_masks_mirrored b calls :
  Forall (fun c => 0 <= c.1) calls ->
  let '(p, b1) := pic_init b in
  let '(p', b') := set_masks calls p b1 in
  master b' = programmed 0x20 0x04 (master_mask p') 0 /\
  slave b' = programmed 0x28 0x02 (slave_mask p') 0 /\
  forall irq, 0 <= irq < 16 ->
    Z.testbit (pic_get_mask p') irq = last_request irq calls true /\
    Z.testbit (if irq <? 8 then imr (master b') else imr (slave b')) (irq mod 8) = last_request irq calls true.
Proof.
  intros Hc. pose proof (pic_init_ready b) as H. destruct (pic_init b) as [p b1]. destruct H as [Hr ->].
  pose proof (set_masks_ready calls _ _ _ _ Hr Hc) as H. destruct (set_masks calls _ b1) as [p' b'].
  destruct H as [[Hm Hs Hmu Hsu] Hl]. split; [done|]. split; [done|]. intros irq Hi.
  assert (Hl0 : line_masked irq p' = last_request irq calls true).
  { rewrite Hl by done. f_equal. unfold line_masked. cbn [master_mask slave_mask].
    change 0xFF with (Z.ones 8). destruct (Z.ltb_spec irq 8); apply Z.ones_spec_low; lia. }
  split; [by rewrite get_mask_bits|]. rewrite <-Hl0, Hm, Hs. unfold line_masked, programmed. cbn [imr].
  destruct (Z.ltb_spec irq 8); f_equal; [apply Z.mod_small; lia|Z.to_euclidean_division_equations; lia].
Qed.

Lemma pic_masks_mirrored_witness :
  let '(p, b1) := pic_init (mk_bus (mk_i8259 ExpectICW4 false 8 0 0 0 0xFF) (mk_i8259 Operational true 0x70 2 1 0 3) []) in
  let '(p', b') := set_masks [(1, false); (0, false); (99, false); (12, false); (0, true)] p b1 in
  pic_get_mask p' = 0xEFFD /\ slave b' = programmed 0x28 0x02 (slave_mask p') 0.
Proof.
  pose proof (pic_masks_mirrored (mk_bus (mk_i8259 ExpectICW4 false 8 0 0 0 0xFF) (mk_i8259 Operational true 0x70 2 1 0 3) [])
    [(1, false); (0, false); (99, false); (12, false); (0, true)] ltac:(repeat constructor; done)) as H.
  destruct (pic_init _) as [p b1] eqn:E1. destruct (set_masks _ p b1) as [p' b'] eqn:E2.
  split; [|by apply H]. injection E1 as <- <-. vm_compute in E2. injection E2 as <- <-. reflexivity.
Defined.
