(* ===== verification/Irq.v ===== *)
(** * Interrupts (src/kernel/arch/x86/irq.c, pit.c, interrupt.c)

    The dispatcher of hardware interrupts with its handler table and
    counters, the interval timer, and the C entry point of every interrupt.
    A handler is a function on the state of the devices it drives, a
    parameter of the section; the gates are those of Descriptors.v and the
    controllers those of Pic.v. *)
From S2P Require Import Prelude Console Descriptors Pic.

(** ** pit.c *)

Definition PIT_INPUT_HZ : Z := 1193182.
Definition PIT_CHANNEL_0_PORT : Z := 0x40.
Definition PIT_COMMAND_PORT : Z := 0x43.
Definition PIT_CHANNEL_0_LO_HI_MODE_3 : Z := 0x36.
Definition PIT_MAX_DIVISOR : Z := 65535.

Record pit := mk_pit { tick_count : Z; configured_frequency_hz : Z }.

Definition pit_configure (requested_hz : Z) (p : pit) (b : bus) : bool * pit * bus :=
  if requested_hz == 0 then (false, p, b)
  else
    let divisor := PIT_INPUT_HZ / requested_hz in
    if (divisor == 0) || (divisor >? PIT_MAX_DIVISOR) then (false, p, b)
    else
      let actual_hz := PIT_INPUT_HZ / divisor in
      let b := bus_outb PIT_COMMAND_PORT PIT_CHANNEL_0_LO_HI_MODE_3 b in
      let b := bus_outb PIT_CHANNEL_0_PORT (u8 (divisor .& 0xFF)) b in
      let b := bus_outb PIT_CHANNEL_0_PORT (u8 (Z.shiftr divisor 8 .& 0xFF)) b in
      (true, mk_pit 0 actual_hz, b).

Definition pit_handle_irq (p : pit) : pit := mk_pit (u32 (tick_count p + 1)) (configured_frequency_hz p).
Definition pit_ticks (p : pit) : Z := tick_count p.
Definition pit_frequency_hz (p : pit) : Z := configured_frequency_hz p.

(** ** irq.c *)

Definition IRQ_COUNT : Z := 16.
Definition IRQ_VECTOR_BASE : Z := 32.

(** [struct interrupt_frame], as the entry code leaves it on the stack. *)
Record interrupt_frame := mk_frame {
  f_edi : Z; f_esi : Z; f_ebp : Z; f_saved_esp : Z; f_ebx : Z; f_edx : Z; f_ecx : Z; f_eax : Z;
  f_vector : Z; f_error_code : Z; f_eip : Z; f_cs : Z; f_eflags : Z;
}.

(** Whether the interrupted code goes on. *)
Inductive dispatch_end := Resumes | Halts.

Section Irq.
Context {S : Type}.

Record irqs := mk_irqs {
  handlers : list (option (S -> S));
  counts : list Z;
  irq_pic : pic;
  irq_bus : bus;
  irq_idt : idt_state;
}.

Definition set_bus (b : bus) (st : irqs) : irqs := mk_irqs (handlers st) (counts st) (irq_pic st) b (irq_idt st).

Definition set_handler (irq : Z) (h : option (S -> S)) (st : irqs) : irqs :=
  mk_irqs (handlers st).[irq <- h] (counts st) (irq_pic st) (irq_bus st) (irq_idt st).

Definition irq_init (irq_stub_table : list Z) (st : irqs) : irqs :=
  let '(p, b) := pic_init (irq_bus st) in
  let st := mk_irqs (handlers st) (counts st) p b (irq_idt st) in
  for_range 0 IRQ_COUNT (fun irq st =>
    mk_irqs (handlers st).[irq <- None] (counts st).[irq <- 0] (irq_pic st) (irq_bus st)
      (idt_set_gate (u8 (IRQ_VECTOR_BASE + irq)) irq_stub_table.[irq] GDT_KERNEL_CODE_SELECTOR INTERRUPT_GATE (irq_idt st)))
    st.

(** [None] is a null handler. *)
Definition irq_register_handler (irq : Z) (handler : option (S -> S)) (st : irqs) : bool * irqs :=
  if (irq >=? IRQ_COUNT) || bool_decide (handler = None) || negb (bool_decide ((handlers st).[irq] = None))
  then (false, st)
  else (true, set_handler irq handler st).

Definition irq_unregister_handler (irq : Z) (st : irqs) : bool * irqs :=
  if (irq >=? IRQ_COUNT) || bool_decide ((handlers st).[irq] = None)
  then (false, st)
  else (true, set_handler irq None st).

Definition irq_set_enabled (irq : Z) (enabled : bool) (st : irqs) : bool * irqs :=
  let '(r, p, b) := pic_set_mask irq (negb enabled) (irq_pic st) (irq_bus st) in
  (r, mk_irqs (handlers st) (counts st) p b (irq_idt st)).

Definition irq_count (irq : Z) (st : irqs) : Z := if irq >=? IRQ_COUNT then 0 else (counts st).[irq].

Definition irq_dispatch (irq : Z) (st : irqs) (dev : S) : irqs * S :=
  if irq >=? IRQ_COUNT then (st, dev)
  else
    let st := mk_irqs (handlers st) (counts st).[irq <- u32 ((counts st).[irq] + 1)] (irq_pic st) (irq_bus st) (irq_idt st) in
    let dev := match (handlers st).[irq] with Some handler => handler dev | None => dev end in
    (set_bus (pic_send_eoi irq (irq_bus st)) st, dev).

(** ** interrupt.c and the page-fault report of paging.c

    [cr2] is the register [paging_fault_address] reads. *)

Definition paging_handle_page_fault (frame : interrupt_frame) (cr2 : Z) (con : console) : option console :=
  let error := f_error_code frame in
  let con := console_write (Some (cstr "PAGE_FAULT address=")) con in
  let con := console_write_u32_hex cr2 con in
  let con := console_write (Some (cstr " error=")) con in
  let con := console_write_u32_hex error con in
  let con := console_write (Some (cstr " present=")) con in
  con ← console_write_u32_dec (error .& 1) con;
  let con := console_write (Some (cstr " write=")) con in
  con ← console_write_u32_dec (Z.shiftr error 1 .& 1) con;
  let con := console_write (Some (cstr " user=")) con in
  con ← console_write_u32_dec (Z.shiftr error 2 .& 1) con;
  Some (console_putc NEWLINE con).

Definition interrupt_dispatch (frame : interrupt_frame) (cr2 : Z) (st : irqs) (dev : S) (con : console)
  : option (dispatch_end * irqs * S * console) :=
  if (f_vector frame >=? 32) && (f_vector frame <? 48) then
    let '(st, dev) := irq_dispatch (u8 (f_vector frame - 32)) st dev in
    Some (Resumes, st, dev, con)
  else if f_vector frame == 14 then
    con ← paging_handle_page_fault frame cr2 con;
    Some (Halts, st, dev, con)
  else
    let con := console_write (Some (cstr "EXCEPTION vector=")) con in
    con ← console_write_u32_dec (f_vector frame) con;
    let con := console_putc NEWLINE con in
    if f_vector frame == 3 then Some (Resumes, st, dev, con)
    else Some (Halts, st, dev, con).

(** A request on a line: nothing happens when the controllers hold it back,
    otherwise the processor gets a vector and the entry code calls
    [interrupt_dispatch] with it. *)
Definition serve (frame : interrupt_frame) (cr2 irq : Z) (st : irqs) (dev : S) (con : console)
  : option (dispatch_end * irqs * S * console) :=
  match raise_irq irq (irq_bus st) with
  | None => Some (Resumes, st, dev, con)
  | Some (vector, b) =>
      interrupt_dispatch
        (mk_frame (f_edi frame) (f_esi frame) (f_ebp frame) (f_saved_esp frame) (f_ebx frame) (f_edx frame)
           (f_ecx frame) (f_eax frame) vector 0 (f_eip frame) (f_cs frame) (f_eflags frame))
        cr2 (set_bus b st) dev con
  end.

Fixpoint serve_all (frame : interrupt_frame) (cr2 : Z) (lines : list Z) (st : irqs) (dev : S) (con : console)
  : option (irqs * S * console) :=
  match lines with
  | [] => Some (st, dev, con)
  | irq :: lines =>
      match serve frame cr2 irq st dev con with
      | Some (Resumes, st, dev, con) => serve_all frame cr2 lines st dev con
      | _ => None
      end
  end.

(** ** Invariant *)

Record irq_ok (st : irqs) : Prop := {
  io_handlers : alen (handlers st) = 16;
  io_counts : alen (counts st) = 16;
  io_range : Forall is_u32 (counts st);
  io_pic : pic_ready (irq_pic st) (irq_bus st) 0 0;
  io_idt : alen (idt (irq_idt st)) = 256;
}.

(** A delivered request: one more on its counter, its handler run once, and
    the controllers ready for the next. *)
Definition delivered (irq : Z) (st : irqs) (b : bus) : irqs :=
  mk_irqs (handlers st) (counts st).[irq <- u32 ((counts st).[irq] + 1)] (irq_pic st) b (irq_idt st).

Definition run_handler (irq : Z) (st : irqs) (dev : S) : S :=
  match (handlers st).[irq] with Some handler => handler dev | None => dev end.

Lemma serve_spec frame cr2 irq st dev con :
  irq_ok st -> 0 <= irq < 16 ->
  if deliverable irq (irq_pic st)
  then exists b, serve frame cr2 irq st dev con = Some (Resumes, delivered irq st b, run_handler irq st dev, con) /\
         irq_ok (delivered irq st b)
  else serve frame cr2 irq st dev con = Some (Resumes, st, dev, con).
Proof.
  intros [Hh Hc Hr Hp Hi] Hirq. pose proof (raise_and_eoi irq _ _ Hp Hirq) as H. unfold serve.
  destruct (deliverable irq (irq_pic st)); [|by rewrite H].
  destruct H as (b & -> & Hp'). exists (pic_send_eoi irq b).
  unfold interrupt_dispatch. cbn [f_vector].
  rewrite Z.geb_leb, (proj2 (Z.leb_le 32 _)), (proj2 (Z.ltb_lt _ 48)) by lia. cbn [andb].
  replace (32 + irq - 32) with irq by lia. rewrite (u8_small irq) by (unfold is_u8; lia).
  unfold irq_dispatch, IRQ_COUNT. rewrite Z.geb_leb, (proj2 (Z.leb_gt 16 irq)) by lia. split; [done|].
  split; cbn [delivered handlers counts irq_pic irq_bus irq_idt]; rewrite ?alen_aset; try done.
  apply Forall_aset; [done|apply u32_range].
Qed.
End Irq.
Arguments irqs S : clear implicits.

(** ** The gates *)

(** The part of [irq_init] that touches the gate table is one loop. *)
Lemma irq_init_fields {S} stubs (st : irqs S) :
  alen (handlers st) = 16 -> alen (counts st) = 16 -> Forall is_u32 stubs -> alen stubs = 16 ->
  irq_init stubs st =
  let '(p, b) := pic_init (irq_bus st) in
  mk_irqs (replicate 16 None) (replicate 16 0) p b
    (set_gates 32 48 (fun v => stubs.[v - 32]) GDT_KERNEL_CODE_SELECTOR INTERRUPT_GATE (irq_idt st)).
Proof.
  intros Hh Hc Hu Hl. unfold irq_init. destruct (pic_init _) as [p b].
  transitivity (mk_irqs (fill_range 0 16 (fun _ => None) (handlers st)) (fill_range 0 16 (fun _ => 0) (counts st)) p b
    (set_gates 32 48 (fun v => stubs.[v - 32]) GDT_KERNEL_CODE_SELECTOR INTERRUPT_GATE (irq_idt st))).
  - unfold fill_range, set_gates, for_range, IRQ_COUNT. change (Z.to_nat (48 - 32)) with (Z.to_nat (16 - 0)).
    assert (G : forall n i (hs : list (option (S -> S))) cs g, (0 <= i) -> (i + Z.of_nat n <= 16) ->
      for_loop n i (fun irq st => mk_irqs (handlers st).[irq <- None] (counts st).[irq <- 0] (irq_pic st) (irq_bus st)
        (idt_set_gate (u8 (IRQ_VECTOR_BASE + irq)) stubs.[irq] GDT_KERNEL_CODE_SELECTOR INTERRUPT_GATE (irq_idt st)))
        (mk_irqs hs cs p b g) =
      mk_irqs (for_loop n i (fun i a => a.[i <- None]) hs) (for_loop n i (fun i a => a.[i <- 0]) cs) p b
        (for_loop n (32 + i) (fun v s => idt_set_gate v stubs.[v - 32] GDT_KERNEL_CODE_SELECTOR INTERRUPT_GATE s) g)).
    { induction n as [|n IH]; intros i hs cs g Hi Hn; cbn [for_loop handlers counts irq_pic irq_bus irq_idt]; [done|].
      rewrite IH by lia. unfold IRQ_VECTOR_BASE. rewrite (u8_small (32 + i)) by (unfold is_u8; lia).
      replace (32 + i - 32) with i by lia. by replace (32 + (i + 1)) with (32 + i + 1) by lia. }
    apply (G _ 0); lia.
  - f_equal.
    + apply fill_range_all; [done|done|]. intros j Hj. by apply (aget_replicate 16).
    + apply fill_range_all; [done|done|]. intros j Hj. by apply (aget_replicate 16).
Qed.

Lemma irq_init_ok {S} stubs (st : irqs S) :
  alen (handlers st) = 16 -> alen (counts st) = 16 -> alen (idt (irq_idt st)) = 256 ->
  Forall is_u32 stubs -> alen stubs = 16 -> irq_ok (irq_init stubs st).
Proof.
  intros Hh Hc Hi Hu Hl. rewrite irq_init_fields by done.
  pose proof (pic_init_ready (irq_bus st)) as H. destruct (pic_init _) as [p b]. destruct H as [Hr _].
  split; cbn [handlers counts irq_pic irq_bus irq_idt]; [done|done| |done|].
  - by apply Forall_replicate.
  - destruct (set_gates_len 32 48 (fun v => stubs.[v - 32]) GDT_KERNEL_CODE_SELECTOR INTERRUPT_GATE (irq_idt st)) as [-> _];
      [lia| |done]. intros v Hv. apply (Forall_aget _ _ _ Hu). lia.
Qed.

(** ** Properties *)

(** C29: after [idt_init] and [irq_init] every vector has the gate it is meant
    to have: the 32 exceptions and the 16 interrupt lines go to their own
    stub in the kernel's code segment with interrupts disabled, at ring 0, and
    the processor finds no gate for any other vector; all lines start masked,
    with no handler and a zero count. *)
Theorem idt_vectors_exact {S} isr_stubs irq_stubs address (st : irqs S) c v :
  Forall is_u32 isr_stubs -> alen isr_stubs = 32 -> Forall is_u32 irq_stubs -> alen irq_stubs = 16 ->
  is_u32 address -> alen (idt (irq_idt st)) = 256 -> alen (handlers st) = 16 -> alen (counts st) = 16 ->
  0 <= v < 256 ->
  let '(g, c') := idt_init isr_stubs address (irq_idt st) c in
  let st' := irq_init irq_stubs (mk_irqs (handlers st) (counts st) (irq_pic st) (irq_bus st) g) in
  select_gate (idt (irq_idt st')) (cpu_idtr c') v =
    (if v <? 32 then Some (mk_gate isr_stubs.[v] GDT_KERNEL_CODE_SELECTOR 0 true)
     else if v <? 48 then Some (mk_gate irq_stubs.[v - 32] GDT_KERNEL_CODE_SELECTOR 0 true)
     else None) /\
  tr_base (cpu_idtr c') = address /\
  (forall irq, 0 <= irq < 16 -> deliverable irq (irq_pic st') = false /\ (handlers st').[irq] = None /\ irq_count irq st' = 0).
Proof.
  intros Hiu Hil Hqu Hql Ha Hg Hh Hc Hv.
  pose proof (idt_init_table isr_stubs address (irq_idt st) c Hiu Hil Hg Ha) as H.
  destruct (idt_init _ _ _ _) as [g c']. destruct H as (Hl & Hr & Hr' & Ht). cbv zeta.
  rewrite irq_init_fields by done. cbn [irq_bus].
  pose proof (pic_init_ready (irq_bus st)) as H. destruct (pic_init _) as [p b]. destruct H as [_ ->].
  cbn [irq_idt irq_pic handlers].
  assert (Hgu : forall v, 32 <= v < 48 -> is_u32 irq_stubs.[v - 32]) by (intros w Hw; apply (Forall_aget _ _ _ Hqu); lia).
  assert (Hget : (idt (set_gates 32 48 (fun v => irq_stubs.[v - 32]) GDT_KERNEL_CODE_SELECTOR INTERRUPT_GATE g)).[v] =
    if v <? 32 then gate_entry isr_stubs.[v] GDT_KERNEL_CODE_SELECTOR INTERRUPT_GATE
    else if v <? 48 then gate_entry irq_stubs.[v - 32] GDT_KERNEL_CODE_SELECTOR INTERRUPT_GATE else gate_entry 0 0 0).
  { rewrite set_gates_get, Ht by (done || lia). bcase; try lia; done. }
  split; [|split; [by rewrite Hr|]].
  - destruct (Z.ltb_spec v 32); [|destruct (Z.ltb_spec v 48)].
    + apply gate_entry_selects; [apply (Forall_aget _ _ _ Hiu); lia|done|rewrite Hr; simpl; lia|done].
    + apply gate_entry_selects; [apply (Forall_aget _ _ _ Hqu); lia|done|rewrite Hr; simpl; lia|done].
    + by apply absent_gate.
  - intros irq Hirq. split; [|split].
    + unfold deliverable, line_masked. cbn [master_mask slave_mask]. change 0xFF with (Z.ones 8).
      destruct (Z.ltb_spec irq 8); by rewrite Z.ones_spec_low by lia.
    + by apply (aget_replicate 16).
    + unfold irq_count, IRQ_COUNT. rewrite Z.geb_leb, (proj2 (Z.leb_gt 16 irq)) by lia. by apply (aget_replicate 16).
Qed.

(** How often a line occurs, and the requests that get through. *)
Definition occurrences (irq : Z) (lines : list Z) : Z := alen (filter (fun i => i = irq) lines).
Definition through {S} (st : irqs S) (lines : list Z) : list Z := filter (fun i => deliverable i (irq_pic st) = true) lines.

Lemma occurrences_cons irq i lines : occurrences irq (i :: lines) = (if i =? irq then 1 else 0) + occurrences irq lines.
Proof.
  unfold occurrences. rewrite filter_cons. destruct (Z.eqb_spec i irq) as [->|Hne].
  - rewrite decide_True, alen_cons by done. lia.
  - by rewrite decide_False by done.
Qed.

(** The run of a sequence of requests. *)
Lemma serve_all_spec {S} frame cr2 lines (st : irqs S) dev con :
  irq_ok st -> Forall (fun irq => 0 <= irq < 16) lines ->
  exists st', serve_all frame cr2 lines st dev con =
      Some (st', fold_left (fun d irq => run_handler irq st d) (through st lines) dev, con) /\
    irq_ok st' /\ handlers st' = handlers st /\ irq_pic st' = irq_pic st /\
    forall irq, 0 <= irq < 16 -> irq_count irq st' = u32 (irq_count irq st + occurrences irq (through st lines)).
Proof.
  intros Hok Hl. revert st dev Hok. induction Hl as [|i lines Hi _ IH]; intros st dev Hok.
  { exists st. do 4 (split; [done|]). intros irq Hirq. unfold irq_count, IRQ_COUNT.
    rewrite Z.geb_leb, (proj2 (Z.leb_gt 16 irq)) by lia. unfold occurrences. cbn. rewrite Z.add_0_r, u32_small; [done|].
    apply Forall_aget; [apply Hok|rewrite (io_counts _ Hok); lia]. }
  cbn [serve_all]. pose proof (serve_spec frame cr2 i st dev con Hok Hi) as H.
  unfold through. rewrite filter_cons.
  destruct (deliverable i (irq_pic st)) eqn:Ed.
  - destruct H as (b & -> & Hok1). rewrite decide_True by done. cbn [fold_left].
    destruct (IH _ (run_handler i st dev) Hok1) as (st' & E & Hok' & Hh & Hp & Hc).
    exists st'. do 4 (split; [done|]). intros irq Hirq. rewrite Hc by done.
    unfold through. cbn [delivered irq_pic]. rewrite occurrences_cons.
    unfold irq_count, IRQ_COUNT. rewrite Z.geb_leb, (proj2 (Z.leb_gt 16 irq)) by lia. cbn [delivered counts].
    pose proof (io_counts _ Hok). destruct (Z.eqb_spec i irq) as [->|Hne].
    + rewrite aget_aset_eq by lia. wrap_lia.
    + rewrite aget_aset_ne by lia. f_equal; lia.
  - rewrite H, decide_False by congruence. exact (IH st dev Hok).
Qed.

(** C6: for every sequence of interrupt requests, the dispatcher comes back
    from each: requests of lines that are masked (or whose cascade is) change
    nothing; every other request counts once modulo 2^32 on its own line and
    runs its handler once, in order; and after each the controllers have
    nothing in service and the masks they had, so that no line stays blocked. *)
Theorem interrupts_accounted {S} frame cr2 lines (st : irqs S) dev con :
  irq_ok st -> Forall (fun irq => 0 <= irq < 16) lines ->
  exists st', serve_all frame cr2 lines st dev con =
      Some (st', fold_left (fun d irq => run_handler irq st d) (through st lines) dev, con) /\
    irq_ok st' /\ handlers st' = handlers st /\ irq_pic st' = irq_pic st /\
    forall irq, 0 <= irq < 16 -> irq_count irq st' = u32 (irq_count irq st + occurrences irq (through st lines)).
Proof. apply serve_all_spec. Qed.

(** [pit_configure] succeeds exactly for the frequencies whose divisor
    fits the counter (19 Hz to 1193182 Hz); it then sends the mode and the two
    bytes of a divisor from 1 to 65535 whose frequency is the one recorded,
    at least the one requested and the largest the divisor allows, and restarts the tick count.  Every
    other request is refused without touching the device, the frequency or the
    tick count. *)
Theorem pit_configure_exact hz p b :
  is_u32 hz ->
  let '(ok, p', b') := pit_configure hz p b in
  if (19 <=? hz) && (hz <=? 1193182) then
    ok = true /\ pit_ticks p' = 0 /\
    exists lo hi, is_u8 lo /\ is_u8 hi /\ written b' = written b ++ [(0x43, 0x36); (0x40, lo); (0x40, hi)] /\
      master b' = master b /\ slave b' = slave b /\
      let divisor := lo + 256 * hi in
      1 <= divisor <= 65535 /\ divisor * hz <= 1193182 < (divisor + 1) * hz /\
      divisor * pit_frequency_hz p' <= 1193182 < divisor * (pit_frequency_hz p' + 1) /\ hz <= pit_frequency_hz p'
  else (ok, p', b') = (false, p, b).
Proof.
  intros Hz. unfold is_u32 in Hz. unfold pit_configure, PIT_INPUT_HZ, PIT_MAX_DIVISOR.
  destruct (Z.eqb_spec hz 0) as [->|Hnz]; [done|]. cbv zeta.
  assert (Hd : (1193182 / hz == 0) || (1193182 / hz >? 65535) = negb ((19 <=? hz) && (hz <=? 1193182))).
  { destruct (Z.leb_spec 19 hz), (Z.leb_spec hz 1193182); cbn [andb negb].
    - apply orb_false_intro; [apply Z.eqb_neq|rewrite Z.gtb_ltb; apply Z.ltb_ge]; Z.to_euclidean_division_equations; nia.
    - apply orb_true_iff. left. apply Z.eqb_eq. apply Z.div_small. lia.
    - apply orb_true_iff. right. rewrite Z.gtb_ltb. apply Z.ltb_lt. Z.to_euclidean_division_equations; nia.
    - lia. }
  rewrite Hd. destruct ((19 <=? hz) && (hz <=? 1193182)) eqn:E; cbn [negb]; [|done]. bprop.
  split; [done|]. split; [done|]. set (d := 1193182 / hz) in *.
  assert (Hr : 1 <= d <= 65535 /\ d * hz <= 1193182 < (d + 1) * hz) by (unfold d; Z.to_euclidean_division_equations; nia).
  exists (d mod 256), (d / 256).
  change 0xFF with (2 ^ 8 - 1). rewrite !land_mask, Z.shiftr_div_pow2 by lia. change (2 ^ 8) with 256.
  rewrite (u8_small (d mod 256)) by (apply Z.mod_pos_bound; lia).
  rewrite (Z.mod_small (d / 256)), (u8_small (d / 256)) by (unfold is_u8; Z.to_euclidean_division_equations; lia).
  split; [apply Z.mod_pos_bound; lia|]. split; [unfold is_u8; Z.to_euclidean_division_equations; lia|].
  split; [unfold bus_outb; cbn; by rewrite <-!app_assoc|]. split; [done|]. split; [done|]. cbv zeta.
  replace (d mod 256 + 256 * (d / 256)) with d by (Z.to_euclidean_division_equations; lia).
  split; [lia|]. split; [lia|]. unfold pit_frequency_hz. cbn [configured_frequency_hz].
  generalize dependent d. clear. intros d _ Hr. Z.to_euclidean_division_equations. nia.
Qed.

(** What an exception prints. *)
Definition exception_report (vector : Z) : list console_op :=
  [WriteText (Some (cstr "EXCEPTION vector=")); WriteDec vector; PutC NEWLINE].

Definition page_fault_report (address error : Z) : list console_op :=
  [WriteText (Some (cstr "PAGE_FAULT address=")); WriteHex address; WriteText (Some (cstr " error=")); WriteHex error;
   WriteText (Some (cstr " present=")); WriteDec (error mod 2); WriteText (Some (cstr " write="));
   WriteDec (error / 2 mod 2); WriteText (Some (cstr " user=")); WriteDec (error / 4 mod 2); PutC NEWLINE].

Lemma low_bit x k : 0 <= x -> 0 <= k -> Z.shiftr x k .& 1 = x / 2 ^ k mod 2 /\ is_u32 (x / 2 ^ k mod 2).
Proof.
  intros. rewrite Z.shiftr_div_pow2 by done. change 1 with (Z.ones 1) at 1. rewrite Z.land_ones by lia.
  split; [done|]. change (2 ^ 1) with 2. pose proof (Z.mod_pos_bound (x / 2 ^ k) 2). unfold is_u32. lia.
Qed.

Lemma exception_report_ok vector : is_u32 vector -> Forall console_op_ok (exception_report vector).
Proof. intros. repeat apply Forall_cons_2; cbn [console_op_ok]; auto with wrap; done. Qed.

Lemma page_fault_report_ok address error :
  is_u32 address -> is_u32 error -> Forall console_op_ok (page_fault_report address error).
Proof.
  intros Ha He. repeat apply Forall_cons_2; cbn [console_op_ok]; auto with wrap; try done.
  all: unfold is_u32 in *; Z.to_euclidean_division_equations; lia.
Qed.

(** The report is the console calls of the specification. *)
Lemma page_fault_prints frame cr2 con :
  is_u32 (f_error_code frame) ->
  paging_handle_page_fault frame cr2 con = console_run (page_fault_report cr2 (f_error_code frame)) con.
Proof.
  intros He. unfold paging_handle_page_fault. destruct He as [He _].
  replace (f_error_code frame .& 1) with (f_error_code frame mod 2) by (symmetry; exact (land_low_bits _ 1 ltac:(lia))).
  rewrite (proj1 (low_bit _ 1 He ltac:(done))), (proj1 (low_bit _ 2 He ltac:(done))).
  unfold console_run, page_fault_report. cbn [fold_left mbind option_bind console_exec].
  do 3 (destruct (console_write_u32_dec _ _); cbn [fold_left mbind option_bind console_exec]; try done).
Qed.

(** C35: what every interrupt does when it reaches the kernel, whatever its
    vector.  Vectors 32 to 47 go to the dispatcher of their line and come
    back; a breakpoint prints its vector and comes back; a page fault prints
    the faulting address and the decoded error code and stops the machine;
    every other vector prints its number and stops the machine.  Exceptions
    leave the interrupt state and the devices alone, and no report is cut
    short. *)
Theorem interrupt_dispatch_outcome {S} frame cr2 (st : irqs S) dev con before t :
  is_u32 (f_vector frame) -> is_u32 (f_error_code frame) -> is_u32 cr2 -> shows before con t ->
  let v := f_vector frame in
  exists result st' dev' con' , interrupt_dispatch frame cr2 st dev con = Some (result, st', dev', con') /\
    if (32 <=? v) && (v <? 48) then
      result = Resumes /\ (st', dev') = irq_dispatch (v - 32) st dev /\ con' = con
    else
      result = (if v == 3 then Resumes else Halts) /\ st' = st /\ dev' = dev /\
      shows before con' (show (if v == 14 then page_fault_report cr2 (f_error_code frame) else exception_report v) t).
Proof.
  intros Hv He Hc Hs. cbv zeta. unfold interrupt_dispatch. rewrite Z.geb_leb.
  destruct ((32 <=? f_vector frame) && _) eqn:E.
  { bprop. rewrite u8_small by (unfold is_u8; lia). destruct (irq_dispatch _ st dev) as [st' dev'].
    by exists Resumes, st', dev', con. }
  destruct (Z.eqb_spec (f_vector frame) 14) as [E14|_].
  - rewrite page_fault_prints by done.
    destruct (run_shows before _ con t (page_fault_report_ok cr2 _ Hc He) Hs) as (con' & -> & Hs').
    exists Halts, st, dev, con'. split; [done|]. by rewrite E14.
  - destruct (run_shows before _ con t (exception_report_ok _ Hv) Hs) as (con' & E' & Hs').
    unfold console_run, exception_report in E'. cbn [fold_left mbind option_bind console_exec] in E'.
    destruct (console_write_u32_dec _ _) as [c1|]; cbn [mbind option_bind console_exec] in E'; [|done].
    injection E' as <-. cbn [mbind option_bind].
    exists (if f_vector frame == 3 then Resumes else Halts), st, dev, (console_putc NEWLINE c1).
    split; [by destruct (f_vector frame == 3)|done].
Qed.

(** The handler table as a partial map from lines to handlers. *)
Definition registry {S} (st : irqs S) (irq : Z) : option (S -> S) := if irq <? 16 then (handlers st).[irq] else None.

(** A line has at most one handler: registering succeeds exactly for a
    line below 16 that has none and a handler that is not null, unregistering
    exactly for a line that has one; either changes that line alone and a
    refused call changes nothing. *)
Theorem irq_registration_exact {S} irq handler (st : irqs S) :
  alen (handlers st) = 16 -> is_u8 irq ->
  (let '(ok, st') := irq_register_handler irq handler st in
   (ok = true <-> irq < 16 /\ handler <> None /\ registry st irq = None) /\
   if ok then forall i, 0 <= i -> registry st' i = if i =? irq then handler else registry st i else st' = st) /\
  (let '(ok, st') := irq_unregister_handler irq st in
   (ok = true <-> registry st irq <> None) /\
   if ok then forall i, 0 <= i -> registry st' i = if i =? irq then None else registry st i else st' = st).
Proof.
  intros Hl Hi. unfold is_u8 in Hi. unfold irq_register_handler, irq_unregister_handler, IRQ_COUNT.
  assert (Hset : forall h, irq < 16 -> forall i, 0 <= i ->
    registry (set_handler irq h st) i = if i =? irq then h else registry st i).
  { intros h Hlt i Hi'. unfold registry, set_handler. cbn [handlers]. destruct (Z.eqb_spec i irq) as [->|Hne].
    - rewrite (proj2 (Z.ltb_lt _ _)) by done. apply aget_aset_eq. lia.
    - by rewrite aget_aset_ne by lia. }
  assert (Hreg : registry st irq = if irq <? 16 then (handlers st).[irq] else None) by done.
  rewrite Z.geb_leb, Hreg. destruct (Z.leb_spec 16 irq); cbn [orb].
  { rewrite (proj2 (Z.ltb_ge irq 16)) by lia. split; (split; [|done]); split; intros Hx; try done; destruct Hx; lia || done. }
  rewrite (proj2 (Z.ltb_lt irq 16)) by lia. split.
  - destruct handler as [h|]; cbn [orb bool_decide]; rewrite ?bool_decide_eq_true_2 by done.
    + rewrite (bool_decide_eq_false_2 (Some h = None)) by done. cbn [orb].
      destruct (handlers st).[irq] eqn:E; [rewrite bool_decide_eq_false_2 by done|rewrite bool_decide_eq_true_2 by done]; cbn [negb].
      * split; [|done]. split; [done|]. by intros (_ & _ & [=]).
      * split; [done|]. by apply Hset.
    + cbn [orb]. split; [|done]. split; [done|]. by intros (_ & [] & _).
  - destruct (handlers st).[irq] eqn:E; [rewrite bool_decide_eq_false_2 by done|rewrite bool_decide_eq_true_2 by done].
    + split; [done|]. by apply Hset.
    + split; [|done]. split; [done|]. by intros [].
Qed.

(** ** Instances *)

Definition blank_frame : interrupt_frame := mk_frame 0 0 0 0 0 0 0 0 14 2 0 8 0x202.

(** The timer alone, on line 0, with line 12 open on a slave whose cascade is not. *)
Definition timer_irqs : irqs pit :=
  let st := irq_init (replicate 16 0x100000)
    (mk_irqs (replicate 16 None) (replicate 16 7) (mk_pic 0 0)
       (mk_bus (mk_i8259 ExpectICW4 false 8 0 0 0 0xFF) (mk_i8259 Operational true 0x70 2 1 0 3) [])
       (mk_idt_state (replicate 256 inhabitant) (mk_table_register 0 0))) in
  let '(_, st) := irq_register_handler 0 (Some pit_handle_irq) st in
  let '(_, st) := irq_set_enabled 0 true st in
  let '(_, st) := irq_set_enabled 12 true st in
  mk_irqs (handlers st) (replicate 16 (UINT32_MAX - 1)) (irq_pic st) (irq_bus st) (irq_idt st).

Lemma timer_irqs_ok : irq_ok timer_irqs.
Proof. split; [done|done|by apply Forall_replicate|by split|done]. Qed.

Lemma interrupts_accounted_witness :
  exists st', serve_all blank_frame 0 [0; 1; 0; 12; 0] timer_irqs (mk_pit 0 100) dark_screen = Some (st', mk_pit 3 100, dark_screen) /\
    irq_count 0 st' = 1 /\ irq_count 12 st' = UINT32_MAX - 1.
Proof.
  destruct (interrupts_accounted blank_frame 0 [0; 1; 0; 12; 0] timer_irqs (mk_pit 0 100) dark_screen timer_irqs_ok
    ltac:(repeat constructor; done)) as (st' & E & _ & _ & _ & Hc).
  exists st'. split; [exact E|]. split; [rewrite (Hc 0 ltac:(lia))|rewrite (Hc 12 ltac:(lia))]; vm_compute; reflexivity.
Defined.

Lemma idt_vectors_exact_witness :
  let '(g, c') := idt_init (replicate 32 0x100100) 0x105000 (irq_idt timer_irqs)
    (mk_cpu_tables (mk_table_register 0 0) (mk_table_register 0 0) 8 16 16 16 16 16) in
  let st' := irq_init (tabulate 16 (fun i => 0x101000 + 16 * i)) (mk_irqs (handlers timer_irqs) (counts timer_irqs)
    (irq_pic timer_irqs) (irq_bus timer_irqs) g) in
  select_gate (idt (irq_idt st')) (cpu_idtr c') 33 = Some (mk_gate 0x101010 8 0 true).
Proof.
  pose proof (idt_vectors_exact (replicate 32 0x100100) (tabulate 16 (fun i => 0x101000 + 16 * i)) 0x105000 timer_irqs
    (mk_cpu_tables (mk_table_register 0 0) (mk_table_register 0 0) 8 16 16 16 16 16) 33
    ltac:(by apply Forall_replicate) eq_refl ltac:(apply Forall_tabulate; intros; unfold is_u32; lia) eq_refl
    ltac:(done) eq_refl eq_refl eq_refl ltac:(done)) as H.
  destruct (idt_init _ _ _ _) as [g c']. exact (proj1 H).
Defined.

Lemma pit_configure_exact_witness :
  let '(ok, p', b') := pit_configure 100 (mk_pit 5 0) (irq_bus timer_irqs) in
  ok = true /\ pit_frequency_hz p' = 100.
Proof.
  pose proof (pit_configure_exact 100 (mk_pit 5 0) (irq_bus timer_irqs) ltac:(done)) as H.
  destruct (pit_configure _ _ _) as [[ok p'] b'] eqn:E. split; [apply H|]. by injection E as _ <- _.
Defined.

Lemma interrupt_dispatch_outcome_witness :
  exists con', interrupt_dispatch blank_frame 0xDEAD000 timer_irqs (mk_pit 0 100) (display [] (blank_terminal [])) =
    Some (Halts, timer_irqs, mk_pit 0 100, con') /\
    shows [] con' (show (page_fault_report 0xDEAD000 2) (blank_terminal [])).
Proof.
  destruct (interrupt_dispatch_outcome blank_frame 0xDEAD000 timer_irqs (mk_pit 0 100) _ [] (blank_terminal [])
    ltac:(done) ltac:(done) ltac:(done) (display_shows [] (blank_terminal []) eq_refl ltac:(done)))
    as (result & st' & dev' & con' & E & H).
  destruct H as (-> & -> & -> & H). by exists con'.
Defined.

Lemma irq_registration_exact_witness :
  (irq_register_handler 0 (Some pit_handle_irq) timer_irqs).1 = false.
Proof.
  destruct (irq_registration_exact 0 (Some pit_handle_irq) timer_irqs eq_refl ltac:(done)) as [H _].
  destruct (irq_register_handler _ _ _) as [ok st'] eqn:E. destruct ok; [|reflexivity].
  destruct (proj1 (proj1 H) eq_refl) as (_ & _ & [=]).
Defined.
