(* ===== verification/InterruptEntry.v ===== *)
(** * Interrupt entry and exit (src/boot/isr_stubs.S, src/boot/irq_stubs.S)

    The processor's delivery of an interrupt to ring 0 code, the stub of the
    vector, the common entry that calls [interrupt_dispatch], and the way
    back.  Registers and the stack are explicit, the stack is the bytes of
    Memory.v.  The C function in the middle is a parameter: what the calling
    convention promises of it is a hypothesis of the theorem. *)
From S2P Require Import Prelude Memory Task Irq.

Record cpu := mk_cpu {
  c_eax : Z; c_ecx : Z; c_edx : Z; c_ebx : Z; c_esp : Z; c_ebp : Z; c_esi : Z; c_edi : Z;
  c_eip : Z; c_cs : Z; c_eflags : Z;
}.

(** The exceptions for which the processor pushes an error code. *)
Definition pushes_error_code (vector : Z) : bool :=
  bool_decide (vector ∈ [8; 10; 11; 12; 13; 14; 17; 21; 29; 30]).

(** Delivery through an interrupt gate without change of ring. *)
Definition deliver (vector error_code : Z) (c : cpu) (m : static_array) : Z * static_array :=
  let st := (c_esp c, m) in
  let st := push_word (c_eflags c) st in
  let st := push_word (c_cs c) st in
  let st := push_word (c_eip c) st in
  if pushes_error_code vector then push_word error_code st else st.

(** [ISR_NO_ERROR] and [IRQ_STUB] push a zero and the vector,
    [ISR_WITH_ERROR] only the vector. *)
Definition isr_with_error : list Z := [8; 10; 11; 12; 13; 14; 17; 21; 29; 30].

Definition stub (vector : Z) (st : Z * static_array) : Z * static_array :=
  if bool_decide (vector ∈ isr_with_error) then push_word vector st
  else push_word vector (push_word 0 st).

(** [pushal]: the stack pointer pushed is the one before the instruction. *)
Definition pushal (c : cpu) (st : Z * static_array) : Z * static_array :=
  let esp := st.1 in
  let st := push_word (c_eax c) st in
  let st := push_word (c_ecx c) st in
  let st := push_word (c_edx c) st in
  let st := push_word (c_ebx c) st in
  let st := push_word esp st in
  let st := push_word (c_ebp c) st in
  let st := push_word (c_esi c) st in
  push_word (c_edi c) st.

(** From the jump to [interrupt_common_entry] to the first instruction of
    [interrupt_dispatch]: the frame pointer, which is also in [ebx], and the
    stack with the argument and the return address. *)
Definition interrupt_common_entry (return_address : Z) (c : cpu) (st : Z * static_array) : Z * (Z * static_array) :=
  let '(frame, m) := pushal c st in
  let sp := frame .& not32 15 in
  let sp := u32 (sp - 12) in
  (frame, push_word return_address (push_word frame (sp, m))).

(** From the return of [interrupt_dispatch] on: [movl %ebx, %esp], [popal],
    the two words dropped, [iret]. *)
Definition interrupt_return (ebx : Z) (m : static_array) : cpu :=
  let '(edi, st) := pop_word (ebx, m) in
  let '(esi, st) := pop_word st in
  let '(ebp, st) := pop_word st in
  let '(_, st) := pop_word st in
  let '(ebx, st) := pop_word st in
  let '(edx, st) := pop_word st in
  let '(ecx, st) := pop_word st in
  let '(eax, st) := pop_word st in
  let st := (u32 (st.1 + 8), st.2) in
  let '(eip, st) := pop_word st in
  let '(cs, st) := pop_word st in
  let '(eflags, st) := pop_word st in
  mk_cpu eax ecx edx ebx st.1 ebp esi edi eip cs eflags.

(** The frame the C code reads through its argument. *)
Definition read_frame (m : static_array) (a : Z) : interrupt_frame :=
  mk_frame (load32 m a) (load32 m (a + 4)) (load32 m (a + 8)) (load32 m (a + 12)) (load32 m (a + 16))
    (load32 m (a + 20)) (load32 m (a + 24)) (load32 m (a + 28)) (load32 m (a + 32)) (load32 m (a + 36))
    (load32 m (a + 40)) (load32 m (a + 44)) (load32 m (a + 48)).

(** The whole way of an interrupt.  [dispatch] is the compiled
    [interrupt_dispatch]: from its stack pointer and memory to the value of
    [ebx] and the memory when it returns. *)
Definition interrupt (dispatch : Z -> Z -> static_array -> Z * static_array)
    (return_address vector error_code : Z) (c : cpu) (m : static_array) : cpu * static_array :=
  let st := stub vector (deliver vector error_code c m) in
  let '(frame, (sp, m)) := interrupt_common_entry return_address c st in
  let '(ebx, m) := dispatch frame sp m in
  (interrupt_return ebx m, m).

(** ** A run of pushes

    [words_at m a ws]: the words [ws] lie in memory from [a] upwards. *)

Fixpoint words_at (m : static_array) (a : Z) (ws : list Z) : Prop :=
  match ws with
  | [] => True
  | w :: ws => load32 m a = w /\ words_at m (a + 4) ws
  end.

Lemma words_at_ext m m' a ws :
  (forall x, a <= x < a + 4 * alen ws -> zget m' x = zget m x) -> words_at m a ws -> words_at m' a ws.
Proof.
  revert a. induction ws as [|w ws IH]; intros a Hx; [done|]. rewrite alen_cons in Hx. cbn [words_at].
  pose proof (alen_nonneg ws). intros [Hw Hr]. split.
  - rewrite <-Hw. apply load32_ext. intros x Hx'. apply Hx. lia.
  - apply IH; [|done]. intros x Hx'. apply Hx. lia.
Qed.

Lemma words_at_get m a ws b i :
  words_at m a ws -> b = a + 4 * i -> 0 <= i < alen ws -> load32 m b = ws.[i].
Proof.
  intros Hw -> Hi. revert a i Hw Hi. induction ws as [|w ws IH]; intros a i Hw Hi; [unfold alen in Hi; simpl in Hi; lia|].
  destruct Hw as [Hw Hr]. destruct (decide (i = 0)) as [->|]; [by rewrite Z.add_0_r|].
  rewrite alen_cons in Hi. replace (a + 4 * i) with (a + 4 + 4 * (i - 1)) by lia. rewrite (IH _ (i - 1)) by (done || lia).
  unfold aget. by replace (Z.to_nat i) with (S (Z.to_nat (i - 1))) by lia.
Qed.

(** What a stack holds above [lo] after some pushes: [ws] from the stack
    pointer up to [top], and the old memory outside. *)
Record pushed (m0 : static_array) (top : Z) (ws : list Z) (st : Z * static_array) : Prop := {
  pu_sp : st.1 = top - 4 * alen ws;
  pu_words : words_at st.2 st.1 ws;
  pu_frame : forall x, ~ st.1 <= x < top -> zget st.2 x = zget m0 x;
}.

Lemma pushed_none m top : pushed m top [] (top, m).
Proof. split; [unfold alen; simpl; lia|done|done]. Qed.

Lemma pushed_word m0 top ws st w :
  pushed m0 top ws st -> is_u32 w -> is_u32 top -> 4 * (alen ws + 1) <= top ->
  pushed m0 top (w :: ws) (push_word w st).
Proof.
  intros [Hsp Hw Hf] Hu Ht Hroom. destruct st as [sp m]. cbn [fst snd] in *. unfold push_word.
  pose proof (alen_nonneg ws). unfold is_u32 in Ht. rewrite u32_small by (unfold is_u32; lia).
  split; cbn [fst snd].
  - rewrite alen_cons. lia.
  - cbn [words_at]. split; [by apply load32_store32_eq|]. replace (sp - 4 + 4) with sp by lia.
    eapply words_at_ext; [|exact Hw]. intros x Hx. apply zget_store32_ne. lia.
  - intros x Hx. rewrite zget_store32_ne by lia. apply Hf. lia.
Qed.

Ltac push_all := repeat (apply pushed_word; [|first [assumption|by repeat split]|assumption|unfold alen; simpl; lia]).

(** The words from the frame pointer to the interrupted stack pointer. *)
Definition frame_words (vector error_code : Z) (c : cpu) : list Z :=
  [c_edi c; c_esi c; c_ebp c; u32 (c_esp c - 20); c_ebx c; c_edx c; c_ecx c; c_eax c; vector;
   (if pushes_error_code vector then error_code else 0); c_eip c; c_cs c; c_eflags c].

Record cpu_ok (c : cpu) : Prop := {
  co_regs : Forall is_u32 [c_eax c; c_ecx c; c_edx c; c_ebx c; c_ebp c; c_esi c; c_edi c; c_eip c; c_cs c; c_eflags c];
  co_esp : 96 <= c_esp c <= UINT32_MAX;
}.

Lemma entry_frame vector error_code c m :
  cpu_ok c -> is_u8 vector -> is_u32 error_code ->
  pushed m (c_esp c) (frame_words vector error_code c) (pushal c (stub vector (deliver vector error_code c m))).
Proof.
  intros [Hr Hesp] Hv He. repeat (apply Forall_cons_1 in Hr as [? Hr]). unfold UINT32_MAX in *.
  assert (is_u32 vector) by (unfold is_u8, is_u32 in *; lia).
  assert (is_u32 (c_esp c)) by (unfold is_u32; lia).
  assert (Hst : pushed m (c_esp c) [vector; (if pushes_error_code vector then error_code else 0); c_eip c; c_cs c; c_eflags c]
    (stub vector (deliver vector error_code c m))).
  { unfold stub, deliver. change (bool_decide (vector ∈ isr_with_error)) with (pushes_error_code vector).
    destruct (pushes_error_code vector); push_all; apply pushed_none. }
  unfold pushal. rewrite (pu_sp _ _ _ _ Hst). unfold frame_words.
  change (4 * alen [_; _; _; _; _]) with 20. rewrite u32_small by (unfold is_u32; lia).
  assert (is_u32 (c_esp c - 20)) by (unfold is_u32; lia). push_all. exact Hst.
Qed.

(** The alignment the common entry makes and the two words it pushes. *)
Lemma entry_call return_address vector error_code c m :
  cpu_ok c -> is_u8 vector -> is_u32 error_code -> is_u32 return_address ->
  let '(frame, (sp, m1)) := interrupt_common_entry return_address c (stub vector (deliver vector error_code c m)) in
  frame = c_esp c - 52 /\ words_at m1 frame (frame_words vector error_code c) /\
  load32 m1 sp = return_address /\ load32 m1 (sp + 4) = frame /\ (sp + 4) mod 16 = 0 /\
  frame - 36 < sp + 8 <= frame /\ forall x, ~ sp <= x < c_esp c -> zget m1 x = zget m x.
Proof.
  intros Hc Hv He Hra. destruct (entry_frame vector error_code c m Hc Hv He) as [Hsp Hw Hf].
  destruct Hc as [_ Hesp]. unfold UINT32_MAX in *. unfold interrupt_common_entry.
  destruct (pushal c _) as [frame m0]. cbn [fst snd] in *. change (alen (frame_words _ _ _)) with 13 in *.
  rewrite land_not32_15 by (unfold is_u32; lia).
  assert (Ha : frame - 16 < 16 * (frame / 16) <= frame) by (Z.to_euclidean_division_equations; lia).
  set (al := 16 * (frame / 16)) in *. assert (Hal : al mod 16 = 0) by (unfold al; rewrite Z.mul_comm; apply Z.mod_mul; lia).
  clearbody al. unfold push_word.
  rewrite (u32_small (al - 12)) by (unfold is_u32; lia).
  rewrite (u32_small (al - 12 - 4)) by (unfold is_u32; lia).
  rewrite (u32_small (al - 12 - 4 - 4)) by (unfold is_u32; lia).
  split; [lia|]. split; [|split; [|split; [|split; [|split]]]].
  - eapply words_at_ext; [|exact Hw]. intros x Hx. rewrite !zget_store32_ne by lia. done.
  - by apply load32_store32_eq.
  - replace (al - 12 - 4 - 4 + 4) with (al - 12 - 4) by lia. rewrite load32_store32_ne by lia.
    apply load32_store32_eq. unfold is_u32. lia.
  - Z.to_euclidean_division_equations. lia.
  - lia.
  - intros x Hx. rewrite !zget_store32_ne by lia. apply Hf. lia.
Qed.

(** Popping the frame gives the registers it was made from. *)
Lemma return_from_frame vector error_code c m frame :
  cpu_ok c -> frame = c_esp c - 52 -> words_at m frame (frame_words vector error_code c) -> interrupt_return frame m = c.
Proof.
  intros [_ Hesp] Hfr Hw. unfold UINT32_MAX in *. unfold interrupt_return, pop_word. cbn [fst snd].
  repeat match goal with |- context [u32 ?x] =>
    lazymatch x with context [u32 _] => fail | _ => rewrite (u32_small x) by (unfold is_u32; lia) end end.
  pose proof (fun b i => words_at_get m frame (frame_words vector error_code c) b i Hw) as Hg.
  change (alen (frame_words _ _ _)) with 13 in Hg. clear Hw. destruct c. cbn [c_esp] in *. unfold frame_words in Hg.
  cbn [c_eax c_ecx c_edx c_ebx c_ebp c_esi c_edi c_eip c_cs c_eflags] in Hg. f_equal;
    [apply (Hg _ 7)|apply (Hg _ 6)|apply (Hg _ 5)|apply (Hg _ 4)| |apply (Hg _ 2)|apply (Hg _ 1)|apply (Hg _ 0)
    |apply (Hg _ 10)|apply (Hg _ 11)|apply (Hg _ 12)]; lia.
Qed.

Section Transparency.
Context (dispatch : Z -> Z -> static_array -> Z * static_array) (return_address : Z).
(** The statics and device memory the handlers write, and how deep their stack
    gets. *)
Context (owned : Z -> Prop) (depth : Z).

(** The calling convention keeps [ebx]; [interrupt_dispatch], called with its
    return address at [sp], writes to its stack, to its argument's slot (from
    [sp - depth] up to the frame) and to what it owns. *)
Definition dispatch_conforms : Prop := forall frame sp m,
  sp + 8 <= frame -> (forall x, frame <= x < frame + 52 -> ~ owned x) ->
  (dispatch frame sp m).1 = frame /\
  forall x, ~ sp - depth <= x < frame -> ~ owned x -> zget (dispatch frame sp m).2 x = zget m x.

(** C17: an interrupt is invisible to the code it interrupts.  For every vector,
    with or without an error code from the processor, [interrupt_dispatch] is
    called with a 16-byte aligned stack and a pointer to a frame that holds the
    interrupted registers, the vector and the error code (0 when there is
    none) in the layout of [struct interrupt_frame], the entry having written
    nothing but the stack below the interrupted stack pointer.  When it has
    returned, every register, the flags and the stack pointer have the values
    they had, and the memory at and above the interrupted stack pointer, like
    everything below the handlers' stack, is what it was, except for what the
    handlers own. *)
Theorem interrupt_transparent vector error_code c m :
  dispatch_conforms -> 0 <= depth -> is_u32 return_address -> cpu_ok c -> is_u8 vector -> is_u32 error_code ->
  (forall x, c_esp c - 52 <= x < c_esp c -> ~ owned x) ->
  let '(c', m') := interrupt dispatch return_address vector error_code c m in
  c' = c /\ (forall x, ~ c_esp c - 96 - depth <= x < c_esp c -> ~ owned x -> zget m' x = zget m x) /\
  exists frame sp m1, m' = (dispatch frame sp m1).2 /\ load32 m1 sp = return_address /\
    load32 m1 (sp + 4) = frame /\ (sp + 4) mod 16 = 0 /\
    read_frame m1 frame = mk_frame (c_edi c) (c_esi c) (c_ebp c) (u32 (c_esp c - 20)) (c_ebx c) (c_edx c) (c_ecx c)
      (c_eax c) vector (if pushes_error_code vector then error_code else 0) (c_eip c) (c_cs c) (c_eflags c) /\
    forall x, ~ sp <= x < c_esp c -> zget m1 x = zget m x.
Proof.
  intros Hd Hdepth Hra Hc Hv He Hown. unfold interrupt. pose proof (entry_call return_address vector error_code c m Hc Hv He Hra) as H.
  destruct (interrupt_common_entry _ c _) as [frame [sp m1]].
  destruct H as (Hfr & Hw & Hret & Harg & Hal & Hroom & Hmem).
  destruct (Hd frame sp m1 ltac:(lia)) as [Hebx Hkeep]; [intros x Hx; apply Hown; lia|].
  destruct (dispatch frame sp m1) as [ebx m'] eqn:Ed. cbn [fst snd] in *. subst ebx. split; [|split].
  - apply (return_from_frame vector error_code); [done|done|]. eapply words_at_ext; [|exact Hw].
    intros x Hx. change (alen (frame_words _ _ _)) with 13 in Hx. apply Hkeep; [lia|]. apply Hown. lia.
  - intros x Hx Hno. rewrite Hkeep; [apply Hmem; lia|lia|done].
  - exists frame, sp, m1. rewrite Ed. do 4 (split; [done|]). split; [|done].
    pose proof (fun b i => words_at_get m1 frame (frame_words vector error_code c) b i Hw) as Hg.
    change (alen (frame_words _ _ _)) with 13 in Hg. unfold read_frame.
    f_equal; [apply (Hg _ 0)|apply (Hg _ 1)|apply (Hg _ 2)|apply (Hg _ 3)|apply (Hg _ 4)|apply (Hg _ 5)|apply (Hg _ 6)
      |apply (Hg _ 7)|apply (Hg _ 8)|apply (Hg _ 9)|apply (Hg _ 10)|apply (Hg _ 11)|apply (Hg _ 12)]; lia.
Qed.
End Transparency.

(** A dispatcher that uses its own stack and counts in a static at [0x105000],
    and an interrupt at an unaligned stack pointer. *)
Definition busy_dispatch (frame sp : Z) (m : static_array) : Z * static_array :=
  (frame, store32 (store32 (store32 m (sp - 4) frame) (sp - 8) 0xFFFFFFFF) 0x105000 (u32 (load32 m 0x105000 + 1))).

Lemma interrupt_transparent_witness :
  let '(c', m') := interrupt busy_dispatch 0x100500 14 2 (mk_cpu 1 2 3 4 0x9FFE6 6 7 8 0x100800 8 0x202) (store32 ∅ 0x9FFE6 77) in
  c' = mk_cpu 1 2 3 4 0x9FFE6 6 7 8 0x100800 8 0x202 /\ zget m' 0x9FFE6 = 77 /\ load32 m' 0x105000 = 1.
Proof.
  pose proof (interrupt_transparent busy_dispatch 0x100500 (fun x => 0x105000 <= x < 0x105004) 8 14 2
    (mk_cpu 1 2 3 4 0x9FFE6 6 7 8 0x100800 8 0x202) (store32 ∅ 0x9FFE6 77)) as H.
  assert (Et : load32 (interrupt busy_dispatch 0x100500 14 2 (mk_cpu 1 2 3 4 0x9FFE6 6 7 8 0x100800 8 0x202)
    (store32 ∅ 0x9FFE6 77)).2 0x105000 = 1) by (vm_compute; reflexivity).
  destruct (interrupt _ _ _ _ _ _) as [c' m']. destruct H as (Hc & Hm & _).
  - intros frame sp m Hsp Hfr. split; [done|]. intros x Hx Hno. cbn [busy_dispatch snd]. rewrite !zget_store32_ne by lia. done.
  - done.
  - done.
  - split; [repeat constructor; done|done].
  - done.
  - done.
  - cbn [c_esp]. intros x Hx. lia.
  - split; [exact Hc|]. split; [rewrite Hm by (cbn [c_esp]; lia); vm_compute; reflexivity|exact Et].
Defined.
