(* ===== verification/SystemStatus.v ===== *)
(** * Status snapshot (src/kernel/diag/system_status.c)

    The snapshot the shell's [status] command prints.  It reads the other
    components through their getters, one call after the other, while
    interrupts go on: the kernel's state is given at each call.  The devices
    the interrupt handlers drive are the timer and the keyboard. *)
From S2P Require Import Prelude Console Pmm Heap Task Keyboard Descriptors Pic Irq.

(** ** The kernel's state *)

(** The bytes successive keyboard interrupts find at the status and data
    ports; when there are none, the status says so. *)
Record devices := mk_devices {
  dev_pit : pit;
  dev_keyboard : keyboard;
  dev_scancodes : list (Z * Z);
}.

Definition timer_handler (d : devices) : devices :=
  mk_devices (pit_handle_irq (dev_pit d)) (dev_keyboard d) (dev_scancodes d).

Definition keyboard_handler (d : devices) : devices :=
  let '(status, data) := default (0, 0) (head (dev_scancodes d)) in
  mk_devices (dev_pit d) (keyboard_handle_irq status data (dev_keyboard d)) (tail (dev_scancodes d)).

Record kernel := mk_kernel {
  k_pmm : pmm;
  k_heap : heap;
  k_sched : sched;
  k_irqs : irqs devices;
  k_devices : devices;
}.

(** ** system_status.c *)

Record system_status := mk_status {
  st_pmm_total_pages : Z;
  st_pmm_free_pages : Z;
  st_heap_total_bytes : Z;
  st_heap_free_bytes : Z;
  st_heap_largest_free_block : Z;
  st_heap_allocated_blocks : Z;
  st_pit_ticks : Z;
  st_irq0_count : Z;
  st_keyboard_dropped : Z;
  st_task_switches : Z;
  st_task_finished : Z;
}.

(** [SIZE_MAX] is [UINT32_MAX] on this target, so the range check is compiled
    out and the conversion always succeeds. *)
Definition size_to_u32 (value out : Z) : bool * Z := (true, u32 value).

(** [now n] is the kernel when the [n]-th getter is called; [frame] is the
    uninitialised stack content of [snapshot] and [heap]. *)
Definition system_status_read (arena : Z) (status : option system_status)
    (frame : system_status * heap_stats) (now : nat -> kernel) : bool * option system_status :=
  match status with
  | None => (false, status)
  | Some _ =>
      let '(snapshot, heap) := frame in
      let '(ok, heap) := kheap_get_stats arena (k_heap (now 0%nat)) (Some heap) in
      if negb ok then (false, status)
      else
        let heap := default (mk_stats 0 0 0 0) heap in
        let '(ok1, total) := size_to_u32 (total_bytes heap) (st_heap_total_bytes snapshot) in
        let '(ok2, free) := size_to_u32 (free_bytes heap) (st_heap_free_bytes snapshot) in
        let '(ok3, largest) := size_to_u32 (largest_free_block heap) (st_heap_largest_free_block snapshot) in
        if negb ok1 || negb ok2 || negb ok3 then (false, status)
        else
          (true, Some (mk_status
             (pmm_total_page_count (k_pmm (now 1%nat)))
             (pmm_free_page_count (k_pmm (now 2%nat)))
             total free largest
             (allocated_blocks heap)
             (pit_ticks (dev_pit (k_devices (now 3%nat))))
             (irq_count 0 (k_irqs (now 4%nat)))
             (keyboard_dropped_count (dev_keyboard (k_devices (now 5%nat))))
             (task_switch_count (k_sched (now 6%nat)))
             (task_finished_count (k_sched (now 7%nat)))))
  end.

(** ** Interrupts between the calls *)

(** The handlers [kernel_main] registers, on lines 0 and 1 and no other. *)
Record kernel_irqs_ok (st : irqs devices) : Prop := {
  ki_ok : irq_ok st;
  ki_timer : (handlers st).[0] = Some timer_handler;
  ki_keyboard : (handlers st).[1] = Some keyboard_handler;
  ki_others : forall irq, 2 <= irq < 16 -> (handlers st).[irq] = None;
}.

(** [k'] is [k] after the interrupt requests [lines]. *)
Definition after_interrupts (k : kernel) (lines : list Z) (k' : kernel) : Prop :=
  exists frame cr2 con,
  serve_all frame cr2 lines (k_irqs k) (k_devices k) con = Some (k_irqs k', k_devices k', con) /\
  k_pmm k' = k_pmm k /\ k_heap k' = k_heap k /\ k_sched k' = k_sched k.

Lemma timer_fold (st : irqs devices) lines d :
  kernel_irqs_ok st -> Forall (fun irq => 0 <= irq < 16) lines -> is_u32 (tick_count (dev_pit d)) ->
  let d' := fold_left (fun d irq => run_handler irq st d) lines d in
  pit_ticks (dev_pit d') = u32 (pit_ticks (dev_pit d) + occurrences 0 lines).
Proof.
  intros [_ H0 H1 Ho] Hl. revert d. induction Hl as [|irq lines Hirq _ IH]; intros d Hd.
  { cbn. unfold pit_ticks, occurrences. cbn. by rewrite Z.add_0_r, u32_small. }
  cbv zeta in *. cbn [fold_left]. rewrite occurrences_cons. unfold run_handler at 2.
  destruct (decide (irq = 0)) as [->|]; [|destruct (decide (irq = 1)) as [->|]].
  - rewrite H0, IH by apply u32_range. unfold pit_ticks. cbn. unfold u32.
    rewrite Zplus_mod_idemp_l. f_equal. lia.
  - rewrite H1, IH; unfold keyboard_handler; destruct (default _ _) as [s1 d1]; done.
  - rewrite Ho, IH by (done || lia). by rewrite (proj2 (Z.eqb_neq irq 0)).
Qed.

Lemma through_lines {S} (st : irqs S) (P : Z -> Prop) lines : Forall P lines -> Forall P (through st lines).
Proof. induction 1; unfold through; [done|]. rewrite filter_cons. case_decide; [by constructor|done]. Qed.

(** The timer and its counter move together. *)
Lemma interrupts_lockstep k lines k' :
  kernel_irqs_ok (k_irqs k) -> Forall (fun irq => 0 <= irq < 16) lines ->
  is_u32 (tick_count (dev_pit (k_devices k))) -> after_interrupts k lines k' ->
  kernel_irqs_ok (k_irqs k') /\ is_u32 (tick_count (dev_pit (k_devices k'))) /\
  irq_count 0 (k_irqs k') = u32 (irq_count 0 (k_irqs k) + occurrences 0 (through (k_irqs k) lines)) /\
  pit_ticks (dev_pit (k_devices k')) = u32 (pit_ticks (dev_pit (k_devices k)) + occurrences 0 (through (k_irqs k) lines)).
Proof.
  intros Hk Hl Hu (frame & cr2 & con & E & _).
  destruct (serve_all_spec frame cr2 lines (k_irqs k) (k_devices k) con (ki_ok _ Hk) Hl) as (st' & E' & Hok & Hh & Hp & Hc).
  rewrite E in E'. injection E' as <- ->.
  assert (Hl' : Forall (fun irq => 0 <= irq < 16) (through (k_irqs k) lines)) by (by apply through_lines).
  pose proof (timer_fold (k_irqs k) _ (k_devices k) Hk Hl' Hu) as Ht. cbv zeta in Ht.
  split; [|split; [|split]].
  - destruct Hk as [_ H0 H1 Ho]. split; [done| | |]; rewrite Hh; [done|done|]. intros irq Hirq. by apply Ho.
  - unfold pit_ticks in Ht. rewrite Ht. apply u32_range.
  - by apply Hc.
  - exact Ht.
Qed.

Lemma largest_free_mono acc bs : acc <= largest_free acc bs.
Proof.
  revert acc. induction bs as [|b bs IH]; intros acc; simpl; [lia|].
  specialize (IH (if b_free b then Z.max acc (b_size b) else acc)). destruct (b_free b); lia.
Qed.

(** The heap's numbers fit in 32 bits. *)
Lemma stats_fit arena h bs :
  heap_wf arena h bs ->
  is_u32 (total_bytes (stats_of bs)) /\ is_u32 (free_bytes (stats_of bs)) /\
  is_u32 (largest_free_block (stats_of bs)) /\ is_u32 (allocated_blocks (stats_of bs)).
Proof.
  intros [_ _ _ Hseg Hspan _]. pose proof (seg_blk_ok _ _ _ _ _ Hseg) as Hok.
  pose proof (free_total_bounds bs Hok) as [Hf Ha]. pose proof (largest_free_bound 0 bs Hok ltac:(lia)) as Hl.
  pose proof (largest_free_mono 0 bs) as Hl0.
  pose proof (span_payload bs) as Hp. unfold KHEAP_ARENA_SIZE in *. unfold is_u32.
  cbn [stats_of total_bytes free_bytes largest_free_block allocated_blocks]. change total_capacity with 262112. lia.
Qed.

(** The timer interrupts accepted in the first [n] intervals. *)
Fixpoint timer_interrupts (now : nat -> kernel) (lines : nat -> list Z) (n : nat) : Z :=
  match n with
  | O => 0
  | S n => timer_interrupts now lines n + occurrences 0 (through (k_irqs (now n)) (lines n))
  end.

(** The successive moments of a call: both counters have advanced by the timer
    interrupts accepted so far, and nothing else has changed but the devices. *)
Lemma moments_lockstep now lines :
  kernel_irqs_ok (k_irqs (now 0%nat)) -> is_u32 (tick_count (dev_pit (k_devices (now 0%nat)))) ->
  (forall n, Forall (fun irq => 0 <= irq < 16) (lines n) /\ after_interrupts (now n) (lines n) (now (S n))) ->
  forall n, kernel_irqs_ok (k_irqs (now n)) /\ is_u32 (tick_count (dev_pit (k_devices (now n)))) /\
    irq_count 0 (k_irqs (now n)) = u32 (irq_count 0 (k_irqs (now 0%nat)) + timer_interrupts now lines n) /\
    pit_ticks (dev_pit (k_devices (now n))) = u32 (pit_ticks (dev_pit (k_devices (now 0%nat))) + timer_interrupts now lines n) /\
    k_pmm (now n) = k_pmm (now 0%nat) /\ k_sched (now n) = k_sched (now 0%nat).
Proof.
  intros Hk Hu Hnow n. induction n as [|n (IK & IU & IC & IT & IP & IS)].
  - split; [done|]. split; [done|]. cbn [timer_interrupts]. rewrite !Z.add_0_r. split; [|split; [|done]]; symmetry; apply u32_small; [|done].
    unfold irq_count, IRQ_COUNT. cbn [Z.geb Z.compare]. apply Forall_aget; [apply Hk|rewrite (io_counts _ (ki_ok _ Hk)); lia].
  - destruct (Hnow n) as [Hl Ha]. destruct (interrupts_lockstep _ _ _ IK Hl IU Ha) as (K' & U' & C' & T').
    destruct Ha as (frame & cr2 & con & _ & Ep & _ & Es). cbn [timer_interrupts].
    split; [done|]. split; [done|]. rewrite C', T', IC, IT, Ep, Es. unfold u32. rewrite !Zplus_mod_idemp_l.
    split; [f_equal; lia|]. split; [f_equal; lia|done].
Qed.

(** A successful snapshot is of a consistent heap, and every field is what its
    getter returned. *)
Lemma status_read_fields arena `{ArenaPlacement arena} status frame now snapshot :
  system_status_read arena status frame now = (true, Some snapshot) ->
  exists h, inspect_heap arena (k_heap (now 0%nat)) = Some h /\
  snapshot = mk_status (pmm_total_page_count (k_pmm (now 1%nat))) (pmm_free_page_count (k_pmm (now 2%nat)))
    (total_bytes h) (free_bytes h) (largest_free_block h) (allocated_blocks h)
    (pit_ticks (dev_pit (k_devices (now 3%nat)))) (irq_count 0 (k_irqs (now 4%nat)))
    (keyboard_dropped_count (dev_keyboard (k_devices (now 5%nat))))
    (task_switch_count (k_sched (now 6%nat))) (task_finished_count (k_sched (now 7%nat))).
Proof.
  unfold system_status_read, kheap_get_stats. destruct status as [st|]; [|done]. destruct frame as [sn h0].
  destruct (inspect_heap arena _) as [h|] eqn:E; [|done]. destruct (inspect_heap_sound arena _ h E) as [bs Hwf].
  rewrite (inspect_heap_wf arena _ bs Hwf) in E. injection E as <-.
  destruct (stats_fit arena _ bs Hwf) as (H1 & H2 & H3 & _). cbn [negb default size_to_u32 orb].
  rewrite !u32_small by done. intros [= <-]. by eexists.
Qed.

(** ** Properties *)

(** C36: [system_status_read] fails exactly for a null pointer or a heap that
    does not pass its consistency check, and then the caller's structure is
    unchanged; otherwise every field is what the corresponding getter
    returned, the heap sizes unchanged by the narrowing to 32 bits. *)
Theorem system_status_exact arena `{ArenaPlacement arena} status frame now :
  let k n := now n in
  match status, inspect_heap arena (k_heap (now 0%nat)) with
  | Some _, Some h =>
      system_status_read arena status frame now =
      (true, Some (mk_status (pmm_total_page_count (k_pmm (k 1%nat))) (pmm_free_page_count (k_pmm (k 2%nat)))
         (total_bytes h) (free_bytes h) (largest_free_block h) (allocated_blocks h)
         (pit_ticks (dev_pit (k_devices (k 3%nat)))) (irq_count 0 (k_irqs (k 4%nat)))
         (keyboard_dropped_count (dev_keyboard (k_devices (k 5%nat))))
         (task_switch_count (k_sched (k 6%nat))) (task_finished_count (k_sched (k 7%nat))))) /\
      kheap_validate arena (k_heap (now 0%nat)) = true
  | _, _ => system_status_read arena status frame now = (false, status) /\ (status = None \/ kheap_validate arena (k_heap (now 0%nat)) = false)
  end.
Proof.
  cbv zeta. unfold system_status_read, kheap_get_stats, kheap_validate, inspect_ok.
  destruct status as [st|]; [|by split; [|left]]. destruct frame as [snapshot h0].
  destruct (inspect_heap arena _) as [h|] eqn:E; [|by split; [|right]].
  destruct (inspect_heap_sound arena _ h E) as [bs Hwf].
  rewrite (inspect_heap_wf arena _ bs Hwf) in E. injection E as <-.
  destruct (stats_fit arena _ bs Hwf) as (H1 & H2 & H3 & _). cbn [negb default size_to_u32 orb].
  by rewrite !u32_small by done.
Qed.

(** C30: a snapshot taken while interrupts arrive between the getter calls
    describes one state of everything but the devices: the heap of the moment
    the call began is consistent and the four heap fields are its totals, and
    the page and task fields are those of the same moment.  The tick field is
    the timer's initial count advanced by the timer interrupts accepted before
    its getter, the interrupt field the line's count advanced by those accepted
    before its own, one interval later, so the two have moved apart by exactly
    the interrupts of that interval and with none they agree; the keyboard
    field is the loss count at its getter. *)
Theorem status_under_interrupts arena `{ArenaPlacement arena} status frame now lines snapshot :
  kernel_irqs_ok (k_irqs (now 0%nat)) -> is_u32 (tick_count (dev_pit (k_devices (now 0%nat)))) ->
  (forall n, Forall (fun irq => 0 <= irq < 16) (lines n) /\ after_interrupts (now n) (lines n) (now (S n))) ->
  system_status_read arena (Some status) frame now = (true, Some snapshot) ->
  let start := now 0%nat in
  let between := occurrences 0 (through (k_irqs (now 3%nat)) (lines 3%nat)) in
  (exists bs, heap_wf arena (k_heap start) bs /\
     st_heap_total_bytes snapshot = total_bytes (stats_of bs) /\ st_heap_free_bytes snapshot = free_bytes (stats_of bs) /\
     st_heap_largest_free_block snapshot = largest_free_block (stats_of bs) /\
     st_heap_allocated_blocks snapshot = allocated_blocks (stats_of bs)) /\
  st_pmm_total_pages snapshot = pmm_total_page_count (k_pmm start) /\
  st_pmm_free_pages snapshot = pmm_free_page_count (k_pmm start) /\
  st_task_switches snapshot = task_switch_count (k_sched start) /\
  st_task_finished snapshot = task_finished_count (k_sched start) /\
  st_pit_ticks snapshot = u32 (pit_ticks (dev_pit (k_devices start)) + timer_interrupts now lines 3) /\
  st_irq0_count snapshot = u32 (irq_count 0 (k_irqs start) + timer_interrupts now lines 4) /\
  u32 (st_irq0_count snapshot - st_pit_ticks snapshot) =
    u32 (irq_count 0 (k_irqs start) - pit_ticks (dev_pit (k_devices start)) + between) /\
  st_keyboard_dropped snapshot = keyboard_dropped_count (dev_keyboard (k_devices (now 5%nat))).
Proof.
  intros Hk Hu Hnow Hread. destruct (status_read_fields arena (Some status) frame now snapshot Hread) as (h & Eh & ->).
  pose proof (moments_lockstep now lines Hk Hu Hnow) as Hm. cbv zeta.
  cbn [st_heap_total_bytes st_heap_free_bytes st_heap_largest_free_block st_heap_allocated_blocks st_pmm_total_pages st_pmm_free_pages
    st_task_switches st_task_finished st_pit_ticks st_irq0_count st_keyboard_dropped].
  destruct (Hm 1%nat) as (_ & _ & _ & _ & -> & _). destruct (Hm 2%nat) as (_ & _ & _ & _ & -> & _).
  destruct (Hm 6%nat) as (_ & _ & _ & _ & _ & ->). destruct (Hm 7%nat) as (_ & _ & _ & _ & _ & ->).
  destruct (Hm 3%nat) as (_ & _ & _ & E3 & _). destruct (Hm 4%nat) as (_ & _ & E4 & _). rewrite E3, E4. split.
  - destruct (inspect_heap_sound arena _ h Eh) as [bs Hwf]. exists bs. rewrite (inspect_heap_wf arena _ bs Hwf) in Eh. by injection Eh as <-.
  - do 6 (split; [done|]). split; [|done]. unfold u32. rewrite <-Zminus_mod. f_equal.
    change (timer_interrupts now lines 4) with (timer_interrupts now lines 3 + occurrences 0 (through (k_irqs (now 3%nat)) (lines 3%nat))).
    lia.
Qed.

(** ** Instances *)

Definition k_timer_irqs : irqs devices :=
  let st := irq_init (replicate 16 0x100000)
    (mk_irqs (replicate 16 None) (replicate 16 7) (mk_pic 0 0)
       (mk_bus (mk_i8259 ExpectICW4 false 8 0 0 0 0xFF) (mk_i8259 Operational true 0x70 2 1 0 3) [])
       (mk_idt_state (replicate 256 inhabitant) (mk_table_register 0 0))) in
  let '(_, st) := irq_register_handler 0 (Some timer_handler) st in
  let '(_, st) := irq_register_handler 1 (Some keyboard_handler) st in
  let '(_, st) := irq_set_enabled 0 true st in
  st.

Lemma k_timer_irqs_ok : kernel_irqs_ok k_timer_irqs.
Proof.
  split; [split; [done|done| |by split|done]|done|done|].
  - change (counts k_timer_irqs) with (replicate 16 0). by apply Forall_replicate.
  - intros irq Hirq. change (handlers k_timer_irqs) with (Some timer_handler :: Some keyboard_handler :: replicate 14 None).
    unfold aget. replace (Z.to_nat irq) with (S (S (Z.to_nat (irq - 2)))) by lia.
    apply (lookup_total_replicate_2 14). lia.
Qed.

(** The kernel before and after a timer interrupt. *)
Definition kernel_at (h : heap) (st : irqs devices) (d : devices) : kernel := mk_kernel pmm_static h sched_static st d.
Definition idle_devices : devices := mk_devices (mk_pit 5 100) keyboard_static [].

Definition ticked : irqs devices * devices :=
  match serve_all blank_frame 0 [0] k_timer_irqs idle_devices dark_screen with
  | Some (st, d, _) => (st, d)
  | None => (k_timer_irqs, idle_devices)
  end.

Lemma ticked_served :
  serve_all blank_frame 0 [0] k_timer_irqs idle_devices dark_screen = Some (ticked.1, ticked.2, dark_screen).
Proof.
  destruct (serve_all_spec blank_frame 0 [0] k_timer_irqs idle_devices dark_screen (ki_ok _ k_timer_irqs_ok)
    ltac:(repeat constructor; done)) as (st' & E & _).
  unfold ticked. rewrite E. reflexivity.
Qed.

Definition moments (h : heap) (n : nat) : kernel :=
  if (n <=? 3)%nat then kernel_at h k_timer_irqs idle_devices else kernel_at h ticked.1 ticked.2.

Lemma moments_step h n :
  let lines := if (n =? 3)%nat then [0] else [] in
  Forall (fun irq => 0 <= irq < 16) lines /\ after_interrupts (moments h n) lines (moments h (S n)).
Proof.
  cbv zeta. split; [destruct (n =? 3)%nat; repeat constructor; done|].
  exists blank_frame, 0, dark_screen. split;
    [|unfold moments; destruct (n <=? 3)%nat, (S n <=? 3)%nat;
     cbn [kernel_at k_pmm k_heap k_sched]; exact (conj eq_refl (conj eq_refl eq_refl))].
  unfold moments. destruct (Nat.eqb_spec n 3) as [->|Hne]; [exact ticked_served|].
  destruct (Nat.leb_spec n 3).
  - rewrite (proj2 (Nat.leb_le (S n) 3)) by lia. reflexivity.
  - rewrite (proj2 (Nat.leb_gt (S n) 3)) by lia. reflexivity.
Qed.

#[local] Instance status_arena : ArenaPlacement 0x200000.
Proof. split; done. Qed.

Definition old_status : system_status := mk_status 1 2 3 4 5 6 7 8 9 10 11.

Lemma system_status_exact_witness :
  exists h0, kheap_init 0x200000 (mk_heap ∅ 0 false) = (true, h0) /\
    system_status_read 0x200000 (Some old_status) (old_status, mk_stats 0 0 0 0) (moments h0) =
      (true, Some (mk_status 0 0 262112 262112 262112 0 5 1 0 0 0)).
Proof.
  destruct (kheap_init_wf 0x200000 (mk_heap ∅ 0 false)) as (h0 & Hi & Hwf). exists h0. split; [exact Hi|].
  pose proof (system_status_exact 0x200000 (Some old_status) (old_status, mk_stats 0 0 0 0) (moments h0)) as H.
  change (k_heap (moments h0 0)) with h0 in H. rewrite (inspect_heap_wf 0x200000 h0 _ Hwf) in H.
  destruct H as [H _]. exact H.
Defined.

Lemma moments_read h0 bs :
  heap_wf 0x200000 h0 bs ->
  exists snapshot, system_status_read 0x200000 (Some old_status) (old_status, mk_stats 0 0 0 0) (moments h0) = (true, Some snapshot).
Proof.
  intros Hwf. unfold system_status_read, kheap_get_stats. change (k_heap (moments h0 0)) with h0.
  rewrite (inspect_heap_wf 0x200000 h0 _ Hwf). eexists. reflexivity.
Qed.

Lemma status_under_interrupts_witness :
  exists h0 snapshot, system_status_read 0x200000 (Some old_status) (old_status, mk_stats 0 0 0 0) (moments h0) = (true, Some snapshot) /\
    st_pit_ticks snapshot = 5 /\ st_irq0_count snapshot = 1 /\
    exists bs, heap_wf 0x200000 h0 bs /\ st_heap_free_bytes snapshot = free_bytes (stats_of bs).
Proof.
  destruct (kheap_init_wf 0x200000 (mk_heap ∅ 0 false)) as (h0 & Hi & Hwf). exists h0.
  destruct (moments_read h0 _ Hwf) as [snapshot E]. exists snapshot. split; [exact E|].
  destruct (status_under_interrupts 0x200000 old_status _ (moments h0)
    (fun n => if (n =? 3)%nat then [0] else []) snapshot k_timer_irqs_ok
    ltac:(cbn [moments Nat.leb kernel_at k_devices idle_devices dev_pit tick_count]; unfold is_u32; lia) (moments_step h0) E)
    as ((bs & Hbs & _ & Hfree & _) & _ & _ & _ & _ & Ht & Hc & _).
  split; [rewrite Ht; vm_compute; reflexivity|]. split; [rewrite Hc; vm_compute; reflexivity|].
  exists bs. exact (conj Hbs Hfree).
Defined.
