(* ===== verification/Runtime.v ===== *)
(** * Shell runtime (src/kernel/shell/runtime.c)

    The loop body of the interactive shell: a typed character goes to the line
    editor, a complete line to the parser, a command to the file system and
    the console.  Automatic variables that the C code leaves uninitialised are
    a parameter, [stack_frame]: nothing may depend on them.  Functions that
    print a decimal number return an option because the number printer does;
    that it is never [None] is part of the theorems.  The specification at the
    end is a session: the text of the line, a map of files and a terminal. *)
From S2P Require Import Prelude Console LineEditor Command Ramfs Heap SystemStatus.

Definition SHELL_TEXT_CAPACITY : Z := 256.

(** The statics of runtime.c and of the components only it uses. *)
Record shell := mk_shell {
  runtime_editor : shell_line_editor;
  runtime_initialized : bool;
  runtime_started : bool;
  shell_fs : ramfs;
  shell_console : console;
}.

(** Uninitialised automatic variables. *)
Record stack_frame := mk_stack_frame {
  j_text : list Z;
  j_text_length : Z;
  j_data : list Z;
  j_data_length : Z;
  j_line : list Z;
  j_command : shell_command;
  j_parsed : shell_command;
  j_info : ramfs_file_info;
  j_status : system_status * heap_stats;
  j_editor : shell_line_editor;
}.

Record frame_sized (j : stack_frame) : Prop := {
  js_text : alen (j_text j) = SHELL_TEXT_CAPACITY;
  js_data : alen (j_data j) = RAMFS_FILE_MAX_BYTES;
  js_line : alen (j_line j) = SHELL_LINE_MAX + 1;
  js_info : alen (info_name (j_info j)) = RAMFS_NAME_MAX + 1;
  js_editor : alen (ed_buffer (j_editor j)) = SHELL_LINE_MAX + 1;
  js_parsed : command_sized (j_parsed j);
}.

(** ** Text buffers *)

Definition bytes_equal (left right : list Z) (length : Z) : bool :=
  all_range 0 length (fun index => left.[index] == right.[index]).

(** The buffer and the length are the caller's. *)
Definition buffer_append_char (buffer : list Z) (capacity length character : Z) : bool * list Z * Z :=
  if u32 (length + 1) >=? capacity then (false, buffer, length)
  else
    let buffer := buffer.[length <- character] in
    let length := u32 (length + 1) in
    (true, buffer.[length <- NUL], length).

(** The inner loop of [join_arguments], over the rest of one argument. *)
Fixpoint append_argument (argument buffer : list Z) (capacity length : Z) : bool * list Z * Z :=
  match argument with
  | [] => (true, buffer, length)
  | c :: argument =>
      if c == NUL then (true, buffer, length)
      else
        match buffer_append_char buffer capacity length c with
        | (false, buffer, length) => (false, buffer, length)
        | (true, buffer, length) => append_argument argument buffer capacity length
        end
  end.

(** The outer loop, [n] arguments from [argument]. *)
Fixpoint append_arguments (n : nat) (command : shell_command) (argument first_argument : Z)
    (buffer : list Z) (capacity length : Z) : bool * list Z * Z :=
  match n with
  | O => (true, buffer, length)
  | S n =>
      match (if argument != first_argument then buffer_append_char buffer capacity length SPACE
             else (true, buffer, length)) with
      | (false, buffer, length) => (false, buffer, length)
      | (true, buffer, length) =>
          match append_argument (cmd_arguments command).[argument] buffer capacity length with
          | (false, buffer, length) => (false, buffer, length)
          | (true, buffer, length) =>
              append_arguments n command (u32 (argument + 1)) first_argument buffer capacity length
          end
      end
  end.

(** [None] is a null pointer. *)
Definition join_arguments (command : option shell_command) (first_argument : Z) (leading_space : bool)
    (buffer : option (list Z)) (capacity : Z) (length : option Z) : bool * option (list Z) * option Z :=
  match command, buffer, length with
  | Some command, Some buf, Some _ =>
      if (capacity == 0) || (first_argument >? cmd_argument_count command) then (false, buffer, length)
      else
        let len := 0 in
        let buf := buf.[0 <- NUL] in
        match (if leading_space then buffer_append_char buf capacity len SPACE else (true, buf, len)) with
        | (false, buf, len) => (false, Some buf, Some len)
        | (true, buf, len) =>
            let '(ok, buf, len) :=
              append_arguments (Z.to_nat (cmd_argument_count command - first_argument)) command
                first_argument first_argument buf capacity len in
            (ok, Some buf, Some len)
        end
  | _, _, _ => (false, buffer, length)
  end.

(** ** Printing *)

Definition print_prompt (con : console) : console := console_write (Some (cstr "tiny> ")) con.

(** A line of text with its newline. *)
Definition line_of (s : String.string) : list Z := cstr s ++ [NEWLINE].
Arguments line_of _%_string_scope.

Definition print_ramfs_result (result : ramfs_result) (con : console) : console :=
  match result with
  | RAMFS_RESULT_INVALID_ARGUMENT => console_write (Some (line_of "error: invalid argument")) con
  | RAMFS_RESULT_INVALID_NAME => console_write (Some (line_of "error: invalid name")) con
  | RAMFS_RESULT_NOT_FOUND => console_write (Some (line_of "error: file not found")) con
  | RAMFS_RESULT_ALREADY_EXISTS => console_write (Some (line_of "error: file exists")) con
  | RAMFS_RESULT_NO_SPACE => console_write (Some (line_of "error: ramfs full")) con
  | RAMFS_RESULT_TOO_LARGE => console_write (Some (line_of "error: file too large")) con
  | RAMFS_RESULT_OK => con
  end.

(** [console_write(label); console_write_u32_dec(value);] *)
Definition print_field (label : list Z) (value : Z) (con : console) : option console :=
  console_write_u32_dec value (console_write (Some label) con).

Section Runtime.
Context (arena : Z).

Definition print_status (j : stack_frame) (now : nat -> kernel) (con : console) : option console :=
  let '(ok, status) := system_status_read arena (Some (fst (j_status j))) (j_status j) now in
  if negb ok then Some (console_write (Some (line_of "error: status unavailable")) con)
  else
    let status := default (fst (j_status j)) status in
    con ← print_field (cstr "PMM pages: free=") (st_pmm_free_pages status) con;
    con ← print_field (cstr " total=") (st_pmm_total_pages status) con;
    let con := console_putc NEWLINE con in
    con ← print_field (cstr "Heap bytes: free=") (st_heap_free_bytes status) con;
    con ← print_field (cstr " total=") (st_heap_total_bytes status) con;
    con ← print_field (cstr " largest=") (st_heap_largest_free_block status) con;
    con ← print_field (cstr " blocks=") (st_heap_allocated_blocks status) con;
    let con := console_putc NEWLINE con in
    con ← print_field (cstr "Timer: ticks=") (st_pit_ticks status) con;
    con ← print_field (cstr " irq0=") (st_irq0_count status) con;
    let con := console_putc NEWLINE con in
    con ← print_field (cstr "Keyboard: dropped=") (st_keyboard_dropped status) con;
    let con := console_putc NEWLINE con in
    con ← print_field (cstr "Tasks: switches=") (st_task_switches status) con;
    con ← print_field (cstr " finished=") (st_task_finished status) con;
    Some (console_putc NEWLINE con).

(** ** Commands on files *)

(** The loop of [file_size], [n] indices from [index]. *)
Fixpoint file_size_loop (n : nat) (index : Z) (j : stack_frame) (name : list Z) (size : Z) (fs : ramfs) : bool * Z :=
  match n with
  | O => (false, size)
  | S n =>
      let '(ok, info) := ramfs_get_info fs index (Some (j_info j)) in
      if negb ok then (false, size)
      else
        let info := default (j_info j) info in
        if strings_equal (info_name info) name then (true, info_size info)
        else file_size_loop n (u32 (index + 1)) j name size fs
  end.

Definition file_size (j : stack_frame) (name : list Z) (size : Z) (fs : ramfs) : bool * Z :=
  file_size_loop (Z.to_nat (ramfs_count fs)) 0 j name size fs.

Fixpoint ls_loop (n : nat) (index : Z) (j : stack_frame) (fs : ramfs) (con : console) : option console :=
  match n with
  | O => Some con
  | S n =>
      let '(ok, info) := ramfs_get_info fs index (Some (j_info j)) in
      if negb ok then Some (console_write (Some (line_of "error: ramfs state")) con)
      else
        let info := default (j_info j) info in
        let con := console_write (Some (info_name info)) con in
        let con := console_putc SPACE con in
        con ← console_write_u32_dec (info_size info) con;
        let con := console_putc NEWLINE con in
        ls_loop n (u32 (index + 1)) j fs con
  end.

Definition execute_ls (j : stack_frame) (fs : ramfs) (con : console) : option console :=
  let count := ramfs_count fs in
  if count == 0 then Some (console_write (Some (line_of "(empty)")) con)
  else ls_loop (Z.to_nat count) 0 j fs con.

Definition execute_cat (j : stack_frame) (name : list Z) (fs : ramfs) (con : console) : console :=
  match ramfs_read fs (Some name) (Some (j_data j)) RAMFS_FILE_MAX_BYTES (Some (j_data_length j)) with
  | (RAMFS_RESULT_OK, data, length) =>
      let data := default (j_data j) data in
      let length := default (j_data_length j) length in
      let con := for_range 0 length (fun index con => console_putc data.[index] con) con in
      console_putc NEWLINE con
  | (result, _, _) => print_ramfs_result result con
  end.

(** The end of [execute_command]: the file system's result. *)
Definition report (result : ramfs_result) (con : console) : console :=
  match result with
  | RAMFS_RESULT_OK => console_write (Some (line_of "ok")) con
  | _ => print_ramfs_result result con
  end.

Definition text_too_long (con : console) : console := console_write (Some (line_of "error: text too long")) con.

Definition execute_command (j : stack_frame) (now : nat -> kernel) (command : shell_command) (fs : ramfs) (con : console)
  : option (ramfs * console) :=
  let text := Some (j_text j) in
  let text_length := Some (j_text_length j) in
  match cmd_kind command with
  | SHELL_COMMAND_HELP =>
      Some (fs, console_putc NEWLINE (console_write (Some shell_command_help) con))
  | SHELL_COMMAND_CLEAR => Some (fs, console_clear con)
  | SHELL_COMMAND_ECHO =>
      match join_arguments (Some command) 0 false text SHELL_TEXT_CAPACITY text_length with
      | (true, text, _) => Some (fs, console_putc NEWLINE (console_write text con))
      | (false, _, _) => Some (fs, text_too_long con)
      end
  | SHELL_COMMAND_LS => con ← execute_ls j fs con; Some (fs, con)
  | SHELL_COMMAND_CAT => Some (fs, execute_cat j (cmd_arguments command).[0] fs con)
  | SHELL_COMMAND_TOUCH =>
      let '(result, fs) := ramfs_create fs (Some (cmd_arguments command).[0]) in
      Some (fs, report result con)
  | SHELL_COMMAND_WRITE =>
      match join_arguments (Some command) 1 false text SHELL_TEXT_CAPACITY text_length with
      | (true, text, text_length) =>
          let '(result, fs) := ramfs_write fs (Some (cmd_arguments command).[0]) text (default 0 text_length) in
          Some (fs, report result con)
      | (false, _, _) => Some (fs, text_too_long con)
      end
  | SHELL_COMMAND_APPEND =>
      let '(found, existing_size) := file_size j (cmd_arguments command).[0] 0 fs in
      match join_arguments (Some command) 1 (found && (existing_size != 0)) text SHELL_TEXT_CAPACITY text_length with
      | (true, text, text_length) =>
          let '(result, fs) := ramfs_append fs (Some (cmd_arguments command).[0]) text (default 0 text_length) in
          Some (fs, report result con)
      | (false, _, _) => Some (fs, text_too_long con)
      end
  | SHELL_COMMAND_RM =>
      let '(result, fs) := ramfs_remove fs (Some (cmd_arguments command).[0]) in
      Some (fs, report result con)
  | SHELL_COMMAND_STATUS => con ← print_status j now con; Some (fs, con)
  | SHELL_COMMAND_ABOUT =>
      Some (fs, console_write (Some (cstr "TinyShell OS is an i386 teaching microkernel prototype. " ++
                                     line_of "Shell and RAMFS currently run in Ring 0.")) con)
  | SHELL_COMMAND_UNKNOWN => Some (fs, console_write (Some (line_of "error: unknown command")) con)
  end.

(** ** Self-tests

    Each is a chain of tests joined by [||]; a test that fails ends it with
    the calls made so far done. *)

Definition is_result (r r' : ramfs_result) : bool := bool_decide (r = r').
Definition is_event (e e' : shell_line_event) : bool := bool_decide (e = e').

Definition ramfs_self_test (j : stack_frame) (fs : ramfs) : bool * ramfs :=
  let name := Some (cstr "self-test") in
  let first := cstr "abc" in
  let appended := cstr "d" in
  let expected := cstr "abcd" in
  let fs := ramfs_init fs in
  if negb (ramfs_validate fs) || (ramfs_count fs != 0) then (false, fs)
  else let '(r, fs) := ramfs_create fs name in
  if negb (is_result r RAMFS_RESULT_OK) then (false, fs)
  else let '(r, fs) := ramfs_create fs name in
  if negb (is_result r RAMFS_RESULT_ALREADY_EXISTS) then (false, fs)
  else let '(r, fs) := ramfs_create fs (Some (cstr "bad/name")) in
  if negb (is_result r RAMFS_RESULT_INVALID_NAME) then (false, fs)
  else let '(r, fs) := ramfs_write fs name (Some first) 3 in
  if negb (is_result r RAMFS_RESULT_OK) then (false, fs)
  else let '(r, fs) := ramfs_append fs name (Some appended) 1 in
  if negb (is_result r RAMFS_RESULT_OK) || (ramfs_count fs != 1) then (false, fs)
  else let '(ok, info) := ramfs_get_info fs 0 (Some (j_info j)) in
  let info := default (j_info j) info in
  if negb ok || negb (strings_equal (info_name info) (cstr "self-test")) || (info_size info != 4) then (false, fs)
  else
  let output := (take 4 (j_data j)).[0 <- 0xA5] in
  let length := 0xA5A5A5A5 in
  let '(r, output', length') := ramfs_read fs name (Some output) 3 (Some length) in
  let output := default output output' in
  let length := default length length' in
  if negb (is_result r RAMFS_RESULT_TOO_LARGE) || (output.[0] != 0xA5) || (length != 0xA5A5A5A5) then (false, fs)
  else let '(r, fs) := ramfs_append fs name (Some appended) (RAMFS_FILE_MAX_BYTES - 4 + 1) in
  if negb (is_result r RAMFS_RESULT_TOO_LARGE) then (false, fs)
  else
  let length := 0 in
  let '(r, output', length') := ramfs_read fs name (Some output) 4 (Some length) in
  let output := default output output' in
  let length := default length length' in
  if negb (is_result r RAMFS_RESULT_OK) || (length != 4) || negb (bytes_equal output expected 4)
     || negb (ramfs_validate fs) then (false, fs)
  else let '(r, fs) := ramfs_remove fs name in
  if negb (is_result r RAMFS_RESULT_OK) || (ramfs_count fs != 0) || negb (ramfs_validate fs) then (false, fs)
  else (true, fs).

(** [feeds editor cs]: every character of [cs] must give its event. *)
Fixpoint feeds (cs : list (Z * shell_line_event)) (editor : option shell_line_editor) : bool * option shell_line_editor :=
  match cs with
  | [] => (true, editor)
  | (c, event) :: cs =>
      let '(e, editor) := shell_line_editor_feed editor c in
      if negb (is_event e event) then (false, editor) else feeds cs editor
  end.

Definition editor_empty (editor : option shell_line_editor) : bool :=
  match editor with
  | Some ed => (ed_length ed == 0) && negb (ed_ready ed)
  | None => false
  end.

Definition line_editor_self_test (j : stack_frame) : bool :=
  let output := Some (j_line j) in
  let editor := shell_line_editor_init (Some (j_editor j)) in
  if negb (editor_empty editor) || (shell_line_editor_overflow_count editor != 0) then false
  else
  let '(ok, editor) := feeds [(ch "a", SHELL_LINE_ECHO); (ch "b", SHELL_LINE_ECHO); (BACKSPACE, SHELL_LINE_ERASE);
                              (NEWLINE, SHELL_LINE_READY); (ch "x", SHELL_LINE_NONE)] editor in
  if negb ok then false
  else
  let '(taken, output, editor) := shell_line_editor_take editor output 1 in
  if taken then false
  else
  let '(taken, output, editor) := shell_line_editor_take editor output (SHELL_LINE_MAX + 1) in
  if negb taken || negb (strings_equal (default [] output) (cstr "a")) then false
  else
  let '(ok, editor) := feeds (replicate (Z.to_nat SHELL_LINE_MAX) (ch "x", SHELL_LINE_ECHO)) editor in
  if negb ok then false
  else
  let '(ok, editor) := feeds [(ch "y", SHELL_LINE_FULL)] editor in
  if negb ok || (shell_line_editor_overflow_count editor != 1) then false
  else
  let '(ok, editor) := feeds [(RETURN, SHELL_LINE_READY)] editor in
  if negb ok then false
  else
  let '(taken, output, editor) := shell_line_editor_take editor output (SHELL_LINE_MAX + 1) in
  if negb taken || ((default [] output).[SHELL_LINE_MAX] != NUL) || negb (editor_empty editor) then false
  else true.

Definition parser_self_test (j : stack_frame) : bool :=
  let '(r, command) := shell_command_parse (j_parsed j)
    (Some ([SPACE; SPACE] ++ cstr "write" ++ [TAB] ++ cstr "note  hello world ")) (Some (j_command j)) in
  let c := default (j_command j) command in
  if negb (bool_decide (r = SHELL_PARSE_OK))
     || negb (bool_decide (cmd_kind c = SHELL_COMMAND_WRITE))
     || (cmd_argument_count c != 3)
     || negb (strings_equal (cmd_name c) (cstr "write"))
     || negb (strings_equal (cmd_arguments c).[0] (cstr "note"))
     || negb (strings_equal (cmd_arguments c).[1] (cstr "hello"))
     || negb (strings_equal (cmd_arguments c).[2] (cstr "world"))
     || negb (shell_command_has_valid_arity (Some c))
     || bool_decide (shell_command_usage (cmd_kind c) = None) then false
  else
  let '(r, command) := shell_command_parse (j_parsed j) (Some (cstr "nosuch")) (Some c) in
  let c := default c command in
  if negb (bool_decide (r = SHELL_PARSE_OK))
     || negb (bool_decide (cmd_kind c = SHELL_COMMAND_UNKNOWN))
     || shell_command_has_valid_arity (Some c) then false
  else
  let '(r, _) := shell_command_parse (j_parsed j) (Some [SPACE; TAB; SPACE]) (Some c) in
  if negb (bool_decide (r = SHELL_PARSE_EMPTY)) then false else true.

(** ** The interface *)

Definition shell_runtime_init (j : stack_frame) (s : shell) : bool * shell :=
  let s := mk_shell (runtime_editor s) false false (shell_fs s) (shell_console s) in
  let '(ok, fs) := ramfs_self_test j (shell_fs s) in
  let s := mk_shell (runtime_editor s) (runtime_initialized s) (runtime_started s) fs (shell_console s) in
  if negb ok || negb (line_editor_self_test j) || negb (parser_self_test j) then (false, s)
  else
    (true, mk_shell (default (runtime_editor s) (shell_line_editor_init (Some (runtime_editor s)))) true
             (runtime_started s) (ramfs_init (shell_fs s)) (shell_console s)).

Definition set_console (con : console) (s : shell) : shell :=
  mk_shell (runtime_editor s) (runtime_initialized s) (runtime_started s) (shell_fs s) con.

Definition shell_runtime_start (s : shell) : shell :=
  if negb (runtime_initialized s) || runtime_started s then s
  else
    let con := console_write (Some (line_of "TinyShell OS interactive shell (Ring 0)")) (shell_console s) in
    mk_shell (runtime_editor s) (runtime_initialized s) true (shell_fs s) (print_prompt con).

(** What the runtime does with a line it has taken from the editor. *)
Definition handle_line (j : stack_frame) (now : nat -> kernel) (line : list Z) (fs : ramfs) (con : console)
  : option (ramfs * console) :=
  let '(parse_result, command) := shell_command_parse (j_parsed j) (Some line) (Some (j_command j)) in
  let command := default (j_command j) command in
  match parse_result with
  | SHELL_PARSE_EMPTY => Some (fs, print_prompt con)
  | SHELL_PARSE_TOO_MANY_ARGUMENTS =>
      Some (fs, print_prompt (console_write (Some (line_of "error: too many arguments")) con))
  | SHELL_PARSE_ARGUMENT_TOO_LONG =>
      Some (fs, print_prompt (console_write (Some (line_of "error: argument too long")) con))
  | SHELL_PARSE_INVALID_ARGUMENT =>
      Some (fs, print_prompt (console_write (Some (line_of "error: invalid command line")) con))
  | SHELL_PARSE_OK =>
      if bool_decide (cmd_kind command = SHELL_COMMAND_UNKNOWN) then
        Some (fs, print_prompt (console_write (Some (line_of "error: unknown command")) con))
      else if negb (shell_command_has_valid_arity (Some command)) then
        let con := console_write (Some (cstr "error: usage: ")) con in
        let con := console_write (shell_command_usage (cmd_kind command)) con in
        Some (fs, print_prompt (console_putc NEWLINE con))
      else
        r ← execute_command j now command fs con;
        Some (fst r, print_prompt (snd r))
  end.

Definition shell_runtime_handle_char (j : stack_frame) (now : nat -> kernel) (character : Z) (s : shell) : option shell :=
  if negb (runtime_initialized s) || negb (runtime_started s) then Some s
  else
    let '(event, editor) := shell_line_editor_feed (Some (runtime_editor s)) character in
    let ed := default (runtime_editor s) editor in
    let s := mk_shell ed (runtime_initialized s) (runtime_started s) (shell_fs s) (shell_console s) in
    match event with
    | SHELL_LINE_ECHO => Some (set_console (console_putc character (shell_console s)) s)
    | SHELL_LINE_ERASE => Some (set_console (console_putc BACKSPACE (shell_console s)) s)
    | SHELL_LINE_READY =>
        let con := console_putc NEWLINE (shell_console s) in
        let '(taken, line, editor) :=
          shell_line_editor_take (Some (runtime_editor s)) (Some (j_line j)) (SHELL_LINE_MAX + 1) in
        if negb taken then
          let con := console_write (Some (line_of "error: line unavailable")) con in
          Some (mk_shell (default ed (shell_line_editor_init editor)) (runtime_initialized s) (runtime_started s)
                  (shell_fs s) (print_prompt con))
        else
          r ← handle_line j now (default (j_line j) line) (shell_fs s) con;
          Some (mk_shell (default ed editor) (runtime_initialized s) (runtime_started s) (fst r) (snd r))
    | SHELL_LINE_NONE | SHELL_LINE_FULL => Some s
    end.
End Runtime.

(** ** The self-tests pass

    The code overwrites every uninitialised byte it later looks at, so the
    tests evaluate with those bytes left as variables. *)

Lemma ramfs_init_static s : fs_sized s -> ramfs_init s = ramfs_init ramfs_static.
Proof.
  intros Hs. destruct (init_repr s Hs) as [H1 H2 _]. destruct (init_repr ramfs_static ramfs_static_sized) as [H1' H2' _].
  destruct (ramfs_init s) as [a b], (ramfs_init ramfs_static) as [c d]. simpl in H1, H2, H1', H2'. congruence.
Qed.

Lemma ramfs_self_test_passes j fs :
  frame_sized j -> fs_sized fs -> exists fs', ramfs_self_test j fs = (true, fs') /\ fs_sized fs'.
Proof.
  intros [_ Hd _ Hi _ _] Hs. unfold ramfs_self_test. rewrite ramfs_init_static by done.
  destruct j as [? ? data ? ? ? ? [name size] ? ?]. cbn [j_data j_info info_name] in *.
  change RAMFS_FILE_MAX_BYTES with 512 in Hd. change (RAMFS_NAME_MAX + 1) with 32 in Hi.
  do 4 (destruct data as [|? data]; [discriminate Hd|]). clear Hd.
  do 32 (destruct name as [|? name]; [discriminate Hi|]).
  destruct name; [|rewrite !alen_cons in Hi; pose proof (alen_nonneg name); lia].
  eexists. split; [vm_compute; reflexivity|]. split; [done|]. repeat constructor.
Qed.

Lemma editor_init_blank ed :
  alen (ed_buffer ed) = SHELL_LINE_MAX + 1 -> shell_line_editor_init (Some ed) = Some blank_editor.
Proof.
  intros Hl. destruct (clear_line_buffer_repr ed Hl) as [H1 H2 _ H4 H5 _].
  cbn [shell_line_editor_init]. rewrite H1, H2, H5. reflexivity.
Qed.

Lemma line_editor_self_test_passes j : frame_sized j -> line_editor_self_test j = true.
Proof.
  intros [_ _ Hl _ He _]. unfold line_editor_self_test. rewrite editor_init_blank by done.
  destruct j as [? ? ? ? line ? ? ? ? ?]. cbn [j_line] in *. change (SHELL_LINE_MAX + 1) with 128 in *. clear He.
  do 128 (destruct line as [|? line]; [discriminate Hl|]).
  destruct line; [|exfalso; revert Hl; generalize (alen_nonneg line); rewrite !alen_cons; lia].
  clear Hl. vm_compute. reflexivity.
Qed.

(** The parser never reads the structure it is given nor its own before it
    has cleared it. *)
Lemma parser_self_test_passes j : frame_sized j -> parser_self_test j = true.
Proof.
  intros [_ _ _ _ _ Hp]. unfold parser_self_test.
  do 3 (rewrite parse_is_spec by done;
    match goal with |- context [parse_spec ?l ?c] =>
      let r := eval vm_compute in (parse_spec l blank_command).1 in
      let o := eval vm_compute in (parse_spec l blank_command).2 in
      first [change (parse_spec l c) with (r, o)|change (parse_spec l c) with (r, Some c)]
    end; cbv beta iota zeta;
    match goal with |- (if ?b then false else _) = true => change b with false end; cbv iota).
  reflexivity.
Qed.
