(* ===== verification/Session.v ===== *)
(** * Shell sessions

    What a user sees: the specification of the interactive shell and the proof
    that src/kernel/shell/runtime.c implements it, on top of the line editor,
    the parser, the file system and the console.  A session is the text typed
    so far, a map from names to contents and a terminal; a typed character
    changes them by the functions below, which know nothing of slots, buffers
    and screen memory. *)
From S2P Require Import Prelude Console LineEditor Command Ramfs Pmm Heap Task Keyboard Irq SystemStatus Runtime.

(** ** Specification *)

(** Words with single spaces between them. *)
Fixpoint unwords (ws : list (list Z)) : list Z :=
  match ws with
  | [] => []
  | [w] => w
  | w :: ws => w ++ SPACE :: unwords ws
  end.

Definition say (text : list Z) : console_op := WriteText (Some text).

Definition result_text (r : ramfs_result) : list Z :=
  match r with
  | RAMFS_RESULT_OK => line_of "ok"
  | RAMFS_RESULT_INVALID_ARGUMENT => line_of "error: invalid argument"
  | RAMFS_RESULT_INVALID_NAME => line_of "error: invalid name"
  | RAMFS_RESULT_NOT_FOUND => line_of "error: file not found"
  | RAMFS_RESULT_ALREADY_EXISTS => line_of "error: file exists"
  | RAMFS_RESULT_NO_SPACE => line_of "error: ramfs full"
  | RAMFS_RESULT_TOO_LARGE => line_of "error: file too large"
  end.

(** One line per file. *)
Definition ls_ops (l : list (list Z * list Z)) : list console_op :=
  match l with
  | [] => [say (line_of "(empty)")]
  | _ => l ≫= fun f => [say (fst f); PutC SPACE; WriteDec (alen (snd f)); PutC NEWLINE]
  end.

Definition status_ops (status : option system_status) : list console_op :=
  match status with
  | None => [say (line_of "error: status unavailable")]
  | Some s =>
      [say (cstr "PMM pages: free="); WriteDec (st_pmm_free_pages s); say (cstr " total="); WriteDec (st_pmm_total_pages s);
       PutC NEWLINE;
       say (cstr "Heap bytes: free="); WriteDec (st_heap_free_bytes s); say (cstr " total="); WriteDec (st_heap_total_bytes s);
       say (cstr " largest="); WriteDec (st_heap_largest_free_block s); say (cstr " blocks=");
       WriteDec (st_heap_allocated_blocks s); PutC NEWLINE;
       say (cstr "Timer: ticks="); WriteDec (st_pit_ticks s); say (cstr " irq0="); WriteDec (st_irq0_count s); PutC NEWLINE;
       say (cstr "Keyboard: dropped="); WriteDec (st_keyboard_dropped s); PutC NEWLINE;
       say (cstr "Tasks: switches="); WriteDec (st_task_switches s); say (cstr " finished="); WriteDec (st_task_finished s);
       PutC NEWLINE]
  end.

(** A command on an existing file: its errors say what is wrong. *)
Definition with_file (m : files) (name : list Z) (k : list Z -> list console_op * files) : list console_op * files :=
  on_file m name (fun r => ([say (result_text r)], m)) k.

Definition done_with (m : files) : list console_op * files := ([say (result_text RAMFS_RESULT_OK)], m).

Definition about_text : list Z :=
  cstr "TinyShell OS is an i386 teaching microkernel prototype. " ++ line_of "Shell and RAMFS currently run in Ring 0.".

(** [status] is what the snapshot returned and [l] the files in the order the
    directory lists them. *)
Definition command_effect (status : option system_status) (l : list (list Z * list Z))
    (kind : shell_command_kind) (args : list (list Z)) (m : files) : list console_op * files :=
  let name := default [] (head args) in
  match kind with
  | SHELL_COMMAND_HELP => ([say shell_command_help; PutC NEWLINE], m)
  | SHELL_COMMAND_CLEAR => ([Clear], m)
  | SHELL_COMMAND_ECHO => ([say (unwords args); PutC NEWLINE], m)
  | SHELL_COMMAND_LS => (ls_ops l, m)
  | SHELL_COMMAND_CAT => with_file m name (fun c => ((PutC <$> c) ++ [PutC NEWLINE], m))
  | SHELL_COMMAND_TOUCH => let '(r, m') := fs_create m (Some name) in ([say (result_text r)], m')
  | SHELL_COMMAND_WRITE => with_file m name (fun _ => done_with (<[name := unwords (tail args)]> m))
  | SHELL_COMMAND_APPEND => with_file m name (fun c =>
      let c' := c ++ (if bool_decide (c = []) then [] else [SPACE]) ++ unwords (tail args) in
      if RAMFS_FILE_MAX_BYTES <? alen c' then ([say (result_text RAMFS_RESULT_TOO_LARGE)], m)
      else done_with (<[name := c']> m))
  | SHELL_COMMAND_RM => with_file m name (fun _ => done_with (delete name m))
  | SHELL_COMMAND_STATUS => (status_ops status, m)
  | SHELL_COMMAND_ABOUT => ([say about_text], m)
  | SHELL_COMMAND_UNKNOWN => ([say (line_of "error: unknown command")], m)
  end.

(** How many arguments a command takes. *)
Definition arity_ok (kind : shell_command_kind) (n : Z) : bool :=
  match kind with
  | SHELL_COMMAND_HELP | SHELL_COMMAND_CLEAR | SHELL_COMMAND_LS | SHELL_COMMAND_STATUS | SHELL_COMMAND_ABOUT => n == 0
  | SHELL_COMMAND_CAT | SHELL_COMMAND_TOUCH | SHELL_COMMAND_RM => n == 1
  | SHELL_COMMAND_WRITE | SHELL_COMMAND_APPEND => (2 <=? n) && (n <=? 8)
  | SHELL_COMMAND_ECHO => n <=? 8
  | SHELL_COMMAND_UNKNOWN => false
  end.

Definition line_effect (status : option system_status) (l : list (list Z * list Z)) (text : list Z) (m : files)
  : list console_op * files :=
  match tokens text with
  | [] => ([], m)
  | name :: args =>
      if too_long name then ([say (line_of "error: argument too long")], m)
      else
        match parse_verdict 8 args with
        | SHELL_PARSE_ARGUMENT_TOO_LONG => ([say (line_of "error: argument too long")], m)
        | SHELL_PARSE_TOO_MANY_ARGUMENTS => ([say (line_of "error: too many arguments")], m)
        | _ =>
            let kind := kind_named name in
            if bool_decide (kind = SHELL_COMMAND_UNKNOWN) then ([say (line_of "error: unknown command")], m)
            else if negb (arity_ok kind (alen args)) then
              ([say (cstr "error: usage: "); WriteText (shell_command_usage kind); PutC NEWLINE], m)
            else command_effect status l kind args m
        end
  end.

Definition prompt : console_op := say (cstr "tiny> ").

(** A typed character: what appears, the line and the files after it. *)
Definition char_effect (status : option system_status) (l : list (list Z * list Z)) (c : Z) (line : line_spec) (m : files)
  : list console_op * line_spec * files :=
  let '(event, line') := line_feed c line in
  match event with
  | SHELL_LINE_ECHO => ([PutC c], line', m)
  | SHELL_LINE_ERASE => ([PutC BACKSPACE], line', m)
  | SHELL_LINE_READY =>
      let '(ops, m') := line_effect status l (line_text line') m in
      (PutC NEWLINE :: ops ++ [prompt], mk_line [] (line_overflow line') false, m')
  | SHELL_LINE_NONE | SHELL_LINE_FULL => ([], line', m)
  end.


(** ** Text buffers

    A buffer of [cap] bytes that holds a C string; what follows the NUL is
    whatever was there. *)

Definition holds (cap : Z) (buf text : list Z) : Prop :=
  exists rest, buf = text ++ 0 :: rest /\ alen buf = cap.

Definition spaced (ws : list (list Z)) : list Z := concat (cons SPACE <$> ws).

Lemma unwords_cons w ws : unwords (w :: ws) = w ++ spaced ws.
Proof.
  revert w. induction ws as [|w' ws IH]; intros w; [by rewrite app_nil_r|].
  change (unwords (w :: w' :: ws)) with (w ++ SPACE :: unwords (w' :: ws)). by rewrite IH.
Qed.

Section Join.
Context (cap : Z).
Hypothesis Hcap : 0 < cap <= 4294967295.

Lemma append_char_holds buf text c :
  holds cap buf text -> alen text + 1 < cap ->
  exists buf', buffer_append_char buf cap (alen text) c = (true, buf', alen (text ++ [c])) /\ holds cap buf' (text ++ [c]).
Proof using Hcap.
  intros (rest & -> & Hl) Hroom. pose proof (alen_nonneg text). unfold buffer_append_char.
  rewrite u32_small by (unfold is_u32; lia). rewrite Z.geb_leb, (proj2 (Z.leb_gt _ _)) by lia.
  rewrite alen_app, alen_cons in Hl. destruct rest as [|x rest]; [change (alen (@nil Z)) with 0 in Hl; lia|].
  rewrite (alen_app text [c]). change (alen [c]) with 1.
  exists (text ++ c :: 0 :: rest). split.
  - f_equal. f_equal. unfold aset, alen.
    rewrite (insert_app_r_alt text (0 :: x :: rest)) by lia.
    replace (Z.to_nat (Z.of_nat (length text)) - length text)%nat with O by lia. cbn.
    rewrite insert_app_r_alt by lia.
    by replace (Z.to_nat (Z.of_nat (length text) + 1) - length text)%nat with 1%nat by lia.
  - exists rest. rewrite <-app_assoc. split; [done|]. rewrite alen_app, !alen_cons in *. lia.
Qed.

Lemma append_argument_holds arg buf text :
  holds cap buf text -> alen text + alen (c_chars arg) < cap ->
  exists buf', append_argument arg buf cap (alen text) = (true, buf', alen (text ++ c_chars arg)) /\
    holds cap buf' (text ++ c_chars arg).
Proof using Hcap.
  revert buf text. induction arg as [|c arg IH]; intros buf text Hh Hroom; cbn [append_argument c_chars] in *.
  { exists buf. by rewrite app_nil_r. }
  unfold NUL. destruct (c == 0); [exists buf; by rewrite app_nil_r|].
  rewrite alen_cons in Hroom. pose proof (alen_nonneg (c_chars arg)).
  destruct (append_char_holds buf text c Hh ltac:(lia)) as (buf1 & -> & Hh1).
  destruct (IH buf1 (text ++ [c]) Hh1) as (buf2 & -> & Hh2).
  - rewrite alen_app. change (alen [c]) with 1. lia.
  - exists buf2. by rewrite <-app_assoc in *.
Qed.

(** The arguments from [i] on are [ws]. *)
Definition arguments_are (command : shell_command) (i : Z) (ws : list (list Z)) : Prop :=
  forall k w, ws !! k = Some w -> c_chars (cmd_arguments command).[i + Z.of_nat k] = w.

Lemma arguments_tail command i w ws :
  arguments_are command i (w :: ws) -> c_chars (cmd_arguments command).[i] = w /\ arguments_are command (i + 1) ws.
Proof.
  intros H. split; [rewrite <-(Z.add_0_r i); by apply (H O)|].
  intros k w' Hk. replace (i + 1 + Z.of_nat k) with (i + Z.of_nat (S k)) by lia. by apply H.
Qed.

Lemma append_spaced command ws i first buf text :
  holds cap buf text -> arguments_are command i ws -> first < i -> 0 <= i -> i + alen ws < 4294967296 ->
  alen text + alen (spaced ws) < cap ->
  exists buf', append_arguments (length ws) command i first buf cap (alen text) = (true, buf', alen (text ++ spaced ws)) /\
    holds cap buf' (text ++ spaced ws).
Proof using Hcap.
  revert i buf text. induction ws as [|w ws IH]; intros i buf text Hh Ha Hlt Hi Hu Hroom; cbn [length append_arguments].
  { exists buf. by rewrite app_nil_r. }
  apply arguments_tail in Ha as [Hw Ha]. change (spaced (w :: ws)) with (SPACE :: w ++ spaced ws) in *.
  rewrite alen_cons in Hu. rewrite alen_cons, alen_app in Hroom.
  pose proof (alen_nonneg w). pose proof (alen_nonneg ws). pose proof (alen_nonneg (spaced ws)).
  rewrite (proj2 (Z.eqb_neq i first)) by lia. cbn [negb].
  destruct (append_char_holds buf text SPACE Hh ltac:(lia)) as (buf1 & -> & Hh1).
  destruct (append_argument_holds (cmd_arguments command).[i] buf1 _ Hh1) as (buf2 & -> & Hh2).
  { rewrite Hw, alen_app. change (alen [SPACE]) with 1. lia. }
  rewrite Hw in *. rewrite (u32_small (i + 1)) by (unfold is_u32; lia).
  destruct (IH (i + 1) buf2 _ Hh2 Ha) as (buf3 & -> & Hh3); try lia.
  { rewrite !alen_app. change (alen [SPACE]) with 1. lia. }
  exists buf3. by rewrite <-!app_assoc in *.
Qed.

Lemma append_words command ws first buf text :
  holds cap buf text -> arguments_are command first ws -> 0 <= first -> first + alen ws < 4294967296 ->
  alen text + alen (unwords ws) < cap ->
  exists buf', append_arguments (length ws) command first first buf cap (alen text) = (true, buf', alen (text ++ unwords ws)) /\
    holds cap buf' (text ++ unwords ws).
Proof using Hcap.
  destruct ws as [|w ws]; intros Hh Ha Hf Hu Hroom; cbn [length append_arguments].
  { exists buf. by rewrite app_nil_r. }
  apply arguments_tail in Ha as [Hw Ha]. rewrite unwords_cons in *. rewrite alen_cons in Hu. rewrite alen_app in Hroom.
  pose proof (alen_nonneg w). pose proof (alen_nonneg ws). pose proof (alen_nonneg (spaced ws)).
  rewrite Z.eqb_refl. cbn [negb].
  destruct (append_argument_holds (cmd_arguments command).[first] buf text Hh) as (buf1 & -> & Hh1).
  { rewrite Hw. lia. }
  rewrite Hw in *. rewrite (u32_small (first + 1)) by (unfold is_u32; lia).
  destruct (append_spaced command ws (first + 1) first buf1 _ Hh1 Ha) as (buf2 & -> & Hh2); try lia.
  { rewrite !alen_app. lia. }
  exists buf2. by rewrite <-!app_assoc in *.
Qed.
End Join.

(** A word the parser has stored. *)
Definition stored (w : list Z) : Prop := alen w <= 31 /\ Forall (fun c => c <> 0) w.

Lemma unwords_length ws : Forall stored ws -> alen (unwords ws) <= Z.max 0 (32 * alen ws - 1).
Proof.
  destruct ws as [|w ws]; [done|]. rewrite unwords_cons, alen_app. intros H. apply Forall_cons_1 in H as [[Hw _] H].
  assert (alen (spaced ws) <= 32 * alen ws).
  { induction H as [|v vs [Hv _] _ IH]; [done|].
    change (spaced (v :: vs)) with (SPACE :: v ++ spaced vs). rewrite !alen_cons, alen_app. lia. }
  rewrite alen_cons. lia.
Qed.

Lemma built_arguments name args i :
  Forall stored args -> 0 <= i <= alen args -> arguments_are (built_command name args) i (drop (Z.to_nat i) args).
Proof.
  intros Hs Hi k w Hk. rewrite lookup_drop in Hk. unfold alen in Hi.
  assert (Hw : stored w) by (by eapply Forall_lookup_1). destruct Hw as [Hl Hnz].
  cbn [built_command cmd_arguments]. unfold aget. rewrite (list_lookup_total_correct _ _ (token_buffer w)).
  - apply c_chars_padded; [unfold SHELL_COMMAND_ARG_MAX; lia|done].
  - apply lookup_app_l_Some. rewrite list_lookup_fmap.
    replace (Z.to_nat (i + Z.of_nat k)) with (Z.to_nat i + k)%nat by lia. by rewrite Hk.
Qed.

(** Joining the arguments of a parsed command never runs out of room. *)
Lemma join_built name args first lead buf len :
  Forall stored args -> alen args <= 8 -> 0 <= first <= alen args -> (lead = true -> 1 <= first) -> alen buf = 256 ->
  let text := (if lead then [SPACE] else []) ++ unwords (drop (Z.to_nat first) args) in
  exists buf', join_arguments (Some (built_command name args)) first lead (Some buf) SHELL_TEXT_CAPACITY (Some len) =
    (true, Some buf', Some (alen text)) /\ holds 256 buf' text /\ alen text < 256.
Proof.
  intros Hs Hn Hf Hlead Hb. cbv zeta. unfold join_arguments, SHELL_TEXT_CAPACITY. cbn [cmd_argument_count built_command].
  rewrite Z.gtb_ltb, (proj2 (Z.ltb_ge (alen args) first)) by lia. cbn [orb Z.eqb].
  set (ws := drop (Z.to_nat first) args).
  assert (Hlen : length ws = Z.to_nat (alen args - first)) by (unfold ws, alen in *; rewrite length_drop; lia).
  assert (Hws : Forall stored ws) by (by apply Forall_drop). pose proof (unwords_length ws Hws) as Hu.
  assert (Hal : alen ws = alen args - first) by (unfold alen in *; lia). pose proof (alen_nonneg (unwords ws)).
  assert (H0 : holds 256 buf.[0 <- NUL] []).
  { destruct buf as [|x buf]; [done|]. exists buf. split; [done|]. by rewrite alen_aset. }
  assert (H1 : exists buf1 len1, (if lead then buffer_append_char buf.[0 <- NUL] 256 0 SPACE else (true, buf.[0 <- NUL], 0)) = (true, buf1, len1)
    /\ len1 = alen (if lead then [SPACE] else []) /\ holds 256 buf1 (if lead then [SPACE] else [])).
  { destruct lead; [|by exists buf.[0 <- NUL], 0].
    destruct (append_char_holds 256 ltac:(lia) buf.[0 <- NUL] [] SPACE H0 ltac:(done)) as (buf1 & E & Hh).
    by exists buf1, 1. }
  destruct H1 as (buf1 & len1 & -> & -> & Hh1). rewrite <-Hlen.
  assert (Hlt : alen (if lead then [SPACE] else []) + alen (unwords ws) < 256).
  { destruct lead; [specialize (Hlead eq_refl); change (alen [SPACE]) with 1|change (alen (@nil Z)) with 0]; lia. }
  destruct (append_words 256 ltac:(lia) (built_command name args) ws first buf1 _ Hh1) as (buf2 & -> & Hh2);
    [by apply built_arguments|lia|lia|done|].
  exists buf2. split; [done|]. split; [done|]. by rewrite alen_app.
Qed.

Lemma holds_bytes cap buf text : holds cap buf text -> bytes_of (Some buf) (alen text) = text.
Proof. intros (rest & -> & _). unfold bytes_of, alen. rewrite Nat2Z.id. apply take_app_length. Qed.

Lemma holds_chars cap buf text : holds cap buf text -> Forall (fun c => c <> 0) text -> c_chars buf = text.
Proof. intros (rest & -> & _) Hnz. by apply c_chars_app_nul. Qed.

Lemma console_write_chars a b con : c_chars a = c_chars b -> console_write (Some a) con = console_write (Some b) con.
Proof. intros E. cbn [console_write]. by rewrite !console_write_all, E. Qed.

(** ** Directory loops *)

Section Directory.
Context (j : stack_frame) (fs : ramfs) (ents : list entry) (m : files).
Hypothesis Hrepr : fs_repr fs ents m.
Hypothesis Hj : frame_sized j.

Lemma info_at pre n c post :
  listing ents = pre ++ (n, c) :: post ->
  ramfs_get_info fs (alen pre) (Some (j_info j)) = (true, Some (mk_info (padded (RAMFS_NAME_MAX + 1) n) (alen c))) /\
  valid_name n = true /\ alen c <= RAMFS_FILE_MAX_BYTES /\ m !! n = Some c.
Proof using Hrepr Hj.
  intros E. rewrite (get_info_repr fs ents m) by (done || apply alen_nonneg || apply Hj).
  rewrite E. unfold alen. rewrite Nat2Z.id, list_lookup_middle by done. split; [done|].
  assert (Hm : m !! n = Some c).
  { apply (listing_spec ents m (fr_ents _ _ _ Hrepr)). rewrite E. set_solver. }
  pose proof (fr_ents _ _ _ Hrepr) as He. pose proof Hm as Hm'. apply (en_map _ _ He) in Hm' as (i & Hi & Hc).
  destruct (en_valid _ _ He i n c Hi Hc). by split_and!.
Qed.

Lemma name_chars n : valid_name n = true -> c_chars (padded (RAMFS_NAME_MAX + 1) n) = n.
Proof using. intros Hn. apply valid_name_length in Hn as Hl. apply c_chars_padded; [lia|by apply valid_name_nonzero]. Qed.

Lemma listing_short : alen (listing ents) <= 16.
Proof using Hrepr.
  rewrite (listing_count fs ents m Hrepr). pose proof (repr_size_bound _ _ _ Hrepr). unfold ramfs_count, RAMFS_MAX_FILES in *. lia.
Qed.

Lemma file_size_loop_spec raw size pre post :
  listing ents = pre ++ post ->
  file_size_loop (length post) (alen pre) j raw size fs =
  match (list_to_map post : files) !! c_chars raw with Some c => (true, alen c) | None => (false, size) end.
Proof using Hrepr Hj.
  revert pre. induction post as [|[n c] post IH]; intros pre E; [by rewrite list_to_map_nil, lookup_empty|].
  destruct (info_at pre n c post E) as (Hinfo & Hn & _). cbn [length file_size_loop]. rewrite Hinfo.
  cbn [negb]. change (default _ (Some ?x)) with x. cbn [info_name info_size].
  rewrite strings_equal_spec, name_chars by done. cbn [list_to_map foldr fst snd].
  destruct (decide (n = c_chars raw)) as [->|Hne].
  - by rewrite bool_decide_eq_true_2, lookup_insert_eq.
  - rewrite bool_decide_eq_false_2, lookup_insert_ne by done. pose proof listing_short as Hs. rewrite E, alen_app, alen_cons in Hs.
    pose proof (alen_nonneg pre). pose proof (alen_nonneg post). rewrite u32_small by (unfold is_u32; lia).
    rewrite <-(IH (pre ++ [(n, c)])) by (by rewrite <-app_assoc). by rewrite alen_app.
Qed.

Lemma file_size_spec raw size :
  file_size j raw size fs = match m !! c_chars raw with Some c => (true, alen c) | None => (false, size) end.
Proof using Hrepr Hj.
  unfold file_size. rewrite <-(listing_count fs ents m Hrepr). unfold alen at 1. rewrite Nat2Z.id.
  pose proof (file_size_loop_spec raw size [] (listing ents) eq_refl) as H. change (alen []) with 0 in H.
  rewrite H. by rewrite (listing_map ents m) by apply Hrepr.
Qed.

Lemma ls_entry_run n v con :
  console_run [say n; PutC SPACE; WriteDec v; PutC NEWLINE] con =
  (con ← console_write_u32_dec v (console_putc SPACE (console_write (Some n) con)); Some (console_putc NEWLINE con)).
Proof using. unfold console_run. cbn. by destruct (console_write_u32_dec _ _). Qed.

Lemma ls_loop_spec pre post con :
  listing ents = pre ++ post ->
  ls_loop (length post) (alen pre) j fs con =
  console_run (post ≫= fun f => [say (fst f); PutC SPACE; WriteDec (alen (snd f)); PutC NEWLINE]) con.
Proof using Hrepr Hj.
  revert pre con. induction post as [|[n c] post IH]; intros pre con E; [done|].
  destruct (info_at pre n c post E) as (Hinfo & Hn & _). cbn [length ls_loop]. rewrite Hinfo.
  cbn [negb]. change (default _ (Some ?x)) with x. cbn [info_name info_size].
  rewrite (console_write_chars _ n) by (rewrite name_chars by done; symmetry; by apply c_chars_id, valid_name_nonzero).
  pose proof listing_short as Hs. rewrite E, alen_app, alen_cons in Hs.
  pose proof (alen_nonneg pre). pose proof (alen_nonneg post). rewrite u32_small by (unfold is_u32; lia).
  rewrite bind_cons, console_run_app, ls_entry_run. cbn [fst snd].
  destruct (console_write_u32_dec _ _) as [c1|]; cbn [mbind option_bind console_exec]; [|done].
  replace (alen pre + 1) with (alen (pre ++ [(n, c)])) by (by rewrite alen_app).
  apply IH. by rewrite <-app_assoc.
Qed.

Lemma execute_ls_spec con : execute_ls j fs con = console_run (ls_ops (listing ents)) con.
Proof using Hrepr Hj.
  unfold execute_ls. rewrite <-(listing_count fs ents m Hrepr). destruct (listing ents) as [|f l] eqn:E; [done|].
  rewrite (proj2 (Z.eqb_neq _ 0)) by (rewrite alen_cons; pose proof (alen_nonneg l); lia).
  unfold alen. rewrite Nat2Z.id. by apply (ls_loop_spec []).
Qed.
End Directory.

(** ** Commands *)

Lemma run_say text con : console_run [say text] con = Some (console_write (Some text) con).
Proof. done. Qed.

Lemma report_text r con : report r con = console_write (Some (result_text r)) con.
Proof. by destruct r. Qed.

Lemma run_putcs cs con : console_run (PutC <$> cs) con = Some (putc_all cs con).
Proof.
  unfold console_run, putc_all. revert con. induction cs as [|c cs IH]; intros con; [done|]. cbn. apply IH.
Qed.

(** What the snapshot gave. *)
Definition status_now (arena : Z) (j : stack_frame) (now : nat -> kernel) : option system_status :=
  let '(ok, status) := system_status_read arena (Some (fst (j_status j))) (j_status j) now in
  if ok then status else None.

Lemma status_read_some arena st frame now status :
  system_status_read arena (Some st) frame now = (true, status) -> exists s, status = Some s.
Proof.
  unfold system_status_read. destruct frame as [sn h0]. destruct (kheap_get_stats _ _ _) as [ok h].
  destruct ok; [|done]. intros [= <-]. eauto.
Qed.

Lemma print_status_run arena j now con :
  print_status arena j now con = console_run (status_ops (status_now arena j now)) con.
Proof.
  unfold print_status, status_now. destruct (system_status_read _ _ _ _) as [ok status] eqn:E. destruct ok; [|done].
  destruct (status_read_some _ _ _ _ _ E) as [s ->]. clear E. cbn [negb]. change (default _ (Some ?x)) with x.
  unfold print_field, console_run, status_ops, say. cbn [fold_left mbind option_bind console_exec].
  do 11 (destruct (console_write_u32_dec _ _); cbn [fold_left mbind option_bind console_exec]; try done).
Qed.

Section Execute.
Context (arena : Z) (j : stack_frame) (now : nat -> kernel) (fs : ramfs) (ents : list entry) (m : files).
Hypothesis Hrepr : fs_repr fs ents m.
Hypothesis Hj : frame_sized j.

(** [code] prints what [spec] says and leaves files that represent its map. *)
Definition carries_out (code : option (ramfs * console)) (con : console) (spec : list console_op * files) : Prop :=
  exists fs', (exists ents', fs_repr fs' ents' (snd spec)) /\
    code = (con' ← console_run (fst spec) con; Some (fs', con')).

Lemma carry_same ops (con : console) code :
  code = (con' ← console_run ops con; Some (fs, con')) -> carries_out code con (ops, m).
Proof using Hrepr. intros ->. exists fs. split; [by exists ents|done]. Qed.

(** A file operation and its report. *)
Lemma carry_result (con : console) (code : ramfs_result * ramfs) (spec : ramfs_result * files) :
  agrees code spec ->
  carries_out (let '(r, fs') := code in Some (fs', report r con)) con ([say (result_text (fst spec))], snd spec).
Proof using.
  destruct code as [r fs'], spec as [r' m']. intros [E Hex]. simpl in E, Hex. subst r'.
  exists fs'. split; [done|]. by rewrite report_text.
Qed.

Lemma execute_cat_spec raw (con : console) :
  carries_out (Some (fs, execute_cat j raw fs con)) con
    (with_file m (c_chars raw) (fun c => ((PutC <$> c) ++ [PutC NEWLINE], m))).
Proof using Hrepr Hj.
  assert (Hd : forall buf, Some (j_data j) = Some buf -> RAMFS_FILE_MAX_BYTES <= alen buf)
    by (intros buf [= <-]; rewrite (js_data _ Hj); lia).
  unfold execute_cat, with_file. rewrite (read_agrees fs ents m _ _ _ _ Hrepr Hd). unfold fs_read, on_file.
  cbn [fmap option_fmap option_map]. destruct (negb (valid_name _)); [by apply carry_same|].
  destruct (m !! c_chars raw) as [c|] eqn:E; [|by apply carry_same].
  apply (en_map _ _ (fr_ents _ _ _ Hrepr)) in E as (i & Hi & Hc).
  destruct (en_valid _ _ (fr_ents _ _ _ Hrepr) i _ c Hi Hc) as [_ Hl].
  rewrite (proj2 (Z.ltb_ge _ _)) by done. apply carry_same. rewrite console_run_app, run_putcs.
  assert (Ep : for_range 0 (alen c) (fun index con => console_putc (read_back c (j_data j)).[index] con) con = putc_all c con).
  { unfold putc_all. rewrite <-for_range_list. apply for_range_ext. intros k con' Hk.
    f_equal. unfold read_back, aget, alen in *. by rewrite lookup_total_app_l by lia. }
  change (default _ (Some (alen c))) with (alen c). change (default _ (Some (read_back c (j_data j)))) with (read_back c (j_data j)).
  by rewrite Ep.
Qed.

Lemma unwords_nonzero ws : Forall stored ws -> Forall (fun c => c <> 0) (unwords ws).
Proof using.
  destruct ws as [|w ws]; [done|]. rewrite unwords_cons. intros H. apply Forall_cons_1 in H as [[_ Hw] H].
  apply Forall_app. split; [done|]. induction H as [|v vs [_ Hv] _ IH]; [done|].
  change (spaced (v :: vs)) with (SPACE :: v ++ spaced vs). constructor; [done|]. by apply Forall_app.
Qed.

Lemma fs_create_chars w raw : c_chars raw = w -> fs_create m (Some raw) = fs_create m (Some w).
Proof using. intros <-. unfold fs_create. cbn [fmap option_fmap option_map]. by rewrite c_chars_idemp. Qed.

Lemma holds_readable cap buf text : holds cap buf text -> alen text < 256 -> readable (Some buf) (alen text).
Proof using.
  intros (rest & -> & _) Hl. pose proof (alen_nonneg text). split; [unfold is_u32; lia|]. right.
  change (default [] (Some ?x)) with x. rewrite alen_app. pose proof (alen_nonneg (0 :: rest)). lia.
Qed.

(** The file a command names. *)
Lemma first_argument name args w ws :
  args = w :: ws -> Forall stored args -> c_chars (cmd_arguments (built_command name args)).[0] = w.
Proof using.
  intros -> Hs. exact (built_arguments name (w :: ws) 0 Hs ltac:(pose proof (alen_nonneg (w :: ws)); lia) O w eq_refl).
Qed.

(** Storing a joined text: the file system's own specification with the
    bytes handed over is the one of the session. *)
Lemma store_text (con : console) f k name raw buf text :
  c_chars raw = name -> holds 256 buf text -> alen text < 256 ->
  agrees (f fs (Some raw) (Some buf) (alen text)) (fs_store k m (Some raw) (Some buf) (alen text)) ->
  carries_out (let '(r, fs') := f fs (Some raw) (Some buf) (alen text) in Some (fs', report r con)) con
    (with_file m name (fun c =>
       if RAMFS_FILE_MAX_BYTES <? alen (k c) then ([say (result_text RAMFS_RESULT_TOO_LARGE)], m)
       else done_with (<[name := k c]> m))).
Proof using.
  intros Hn Hh Hl Ha. apply (carry_result con) in Ha. unfold fs_store, on_file in Ha.
  cbn [fmap option_fmap option_map missing_data] in Ha. rewrite Hn in Ha. unfold with_file, on_file, done_with.
  destruct (negb (valid_name name)); [exact Ha|]. destruct (m !! name); [|exact Ha].
  destruct (_ <? _); exact Ha.
Qed.

(** [append] with a given separator. *)
Lemma append_text name args w ws lead (con : console) :
  args = w :: ws -> Forall stored args -> alen args <= 8 -> 2 <= alen args ->
  carries_out
    match join_arguments (Some (built_command name args)) 1 lead (Some (j_text j)) SHELL_TEXT_CAPACITY (Some (j_text_length j)) with
    | (true, text, text_length) =>
        let '(result, fs) := ramfs_append fs (Some (cmd_arguments (built_command name args)).[0]) text (default 0 text_length) in
        Some (fs, report result con)
    | (false, _, _) => Some (fs, text_too_long con)
    end con
    (with_file m w (fun c => if RAMFS_FILE_MAX_BYTES <? alen (c ++ (if lead then [SPACE] else []) ++ unwords ws)
       then ([say (result_text RAMFS_RESULT_TOO_LARGE)], m)
       else done_with (<[w := c ++ (if lead then [SPACE] else []) ++ unwords ws]> m))).
Proof using Hrepr Hj.
  intros -> Hs Hn H2. pose proof (js_text _ Hj) as Ht.
  destruct (join_built name (w :: ws) 1 lead (j_text j) (j_text_length j) Hs Hn ltac:(lia) ltac:(lia) Ht) as (buf & -> & Hh & Hl).
  change (default 0 (Some ?x)) with x. change (drop (Z.to_nat 1) (w :: ws)) with ws in *.
  set (text := (if lead then [SPACE] else []) ++ unwords ws) in *.
  pose proof (append_agrees fs ents m (Some (cmd_arguments (built_command name (w :: ws))).[0]) (Some buf) (alen text) Hrepr
    (holds_readable 256 buf _ Hh Hl)) as Ha.
  apply (store_text con _ _ w _ buf text) in Ha; [|by apply (first_argument name _ w ws)|done|done].
  by rewrite (holds_bytes 256 buf _ Hh) in Ha.
Qed.

Lemma execute_spec name args (con : console) :
  Forall stored args -> alen args <= 8 -> arity_ok (kind_named name) (alen args) = true ->
  carries_out (execute_command arena j now (built_command name args) fs con) con
    (command_effect (status_now arena j now) (listing ents) (kind_named name) args m).
Proof using Hrepr Hj.
  intros Hs Hn Har. unfold execute_command. change (cmd_kind (built_command name args)) with (kind_named name).
  pose proof (js_text _ Hj) as Ht. pose proof (alen_nonneg args) as Hpos. unfold command_effect.
  destruct (kind_named name); cbn [arity_ok] in Har; bprop; try done.
  - by apply carry_same.
  - by apply carry_same.
  - destruct (join_built name args 0 false (j_text j) (j_text_length j) Hs Hn ltac:(lia) ltac:(done) Ht) as (buf & -> & Hh & _).
    apply carry_same. rewrite (console_write_chars buf (unwords args)); [done|].
    rewrite (holds_chars 256 buf (unwords args) Hh) by (by apply unwords_nonzero).
    symmetry. by apply c_chars_id, unwords_nonzero.
  - apply carry_same. by rewrite (execute_ls_spec j fs ents m) by done.
  - destruct args as [|w ws]; [done|]. cbn [head default from_option id].
    rewrite <-(first_argument name (w :: ws) w ws eq_refl Hs) at 2. apply execute_cat_spec.
  - destruct args as [|w ws]; [done|]. change (default [] (head (w :: ws))) with w.
    pose proof (create_agrees fs ents m (Some (cmd_arguments (built_command name (w :: ws))).[0]) Hrepr) as Ha.
    apply (carry_result con) in Ha. rewrite (fs_create_chars w) in Ha by (by apply (first_argument name _ w ws)).
    by destruct (fs_create m (Some w)).
  - destruct args as [|w ws]; [done|]. change (default [] (head (w :: ws))) with w. cbn [tail].
    destruct (join_built name (w :: ws) 1 false (j_text j) (j_text_length j) Hs Hn ltac:(lia) ltac:(done) Ht) as (buf & -> & Hh & Hl).
    change (default 0 (Some ?x)) with x. change ([] ++ unwords (drop (Z.to_nat 1) (w :: ws))) with (unwords ws) in *.
    pose proof (write_agrees fs ents m (Some (cmd_arguments (built_command name (w :: ws))).[0]) (Some buf) (alen (unwords ws)) Hrepr
      (holds_readable 256 buf _ Hh Hl)) as Ha.
    apply (store_text con _ _ w _ buf (unwords ws)) in Ha; [|by apply (first_argument name _ w ws)|done|done].
    rewrite (holds_bytes 256 buf _ Hh) in Ha. rewrite (proj2 (Z.ltb_ge _ _)) in Ha by (unfold RAMFS_FILE_MAX_BYTES; lia). exact Ha.
  - destruct args as [|w ws]; [done|]. change (default [] (head (w :: ws))) with w. cbn [tail].
    rewrite (file_size_spec j fs ents m) by done. rewrite (first_argument name (w :: ws) w ws eq_refl Hs).
    set (lead := match m !! w with Some c => negb (bool_decide (c = [])) | None => false end).
    assert (El : (let '(found, size) := match m !! w with Some c => (true, alen c) | None => (false, 0) end in
      found && (size != 0)) = lead).
    { unfold lead. destruct (m !! w) as [[|x c]|]; [done| |done]. rewrite alen_cons. pose proof (alen_nonneg c).
      by rewrite (proj2 (Z.eqb_neq _ 0)) by lia. }
    pose proof (append_text name (w :: ws) w ws lead con eq_refl Hs Hn ltac:(lia)) as Ha. rewrite <-El in Ha at 1.
    assert (Es : with_file m w (fun c => if RAMFS_FILE_MAX_BYTES <? alen (c ++ (if lead then [SPACE] else []) ++ unwords ws)
        then ([say (result_text RAMFS_RESULT_TOO_LARGE)], m)
        else done_with (<[w := c ++ (if lead then [SPACE] else []) ++ unwords ws]> m)) =
      with_file m w (fun c => let c' := c ++ (if bool_decide (c = []) then [] else [SPACE]) ++ unwords ws in
        if RAMFS_FILE_MAX_BYTES <? alen c' then ([say (result_text RAMFS_RESULT_TOO_LARGE)], m) else done_with (<[w := c']> m))).
    { unfold with_file, on_file, lead. destruct (negb (valid_name w)); [done|].
      destruct (m !! w) as [c|]; [|done]. cbv zeta. by destruct (bool_decide (c = [])). }
    rewrite Es in Ha. by destruct (match m !! w with Some c => (true, alen c) | None => (false, 0) end) as [found size].
  - destruct args as [|w ws]; [done|]. change (default [] (head (w :: ws))) with w.
    pose proof (remove_agrees fs ents m (Some (cmd_arguments (built_command name (w :: ws))).[0]) Hrepr) as Ha.
    apply (carry_result con) in Ha. unfold fs_remove, on_file in Ha. cbn [fmap option_fmap option_map] in Ha.
    rewrite (first_argument name (w :: ws) w ws eq_refl Hs) in Ha. unfold with_file, on_file, done_with.
    destruct (negb (valid_name w)); [exact Ha|]. by destruct (m !! w).
  - apply carry_same. by rewrite print_status_run.
  - by apply carry_same.
Qed.
End Execute.

(** ** Lines *)

Lemma split_tokens_forall (P : Z -> Prop) acc l :
  Forall P acc -> Forall P l -> Forall (Forall P) (split_tokens acc l).
Proof.
  intros Ha Hl. assert (Hf : forall a, Forall P a -> Forall (Forall P) (flush a)) by (intros [|x a] H; [constructor|by apply Forall_cons_2]).
  revert acc Ha. induction Hl as [|c l Hc _ IH]; intros acc Ha; cbn [split_tokens]; [by apply Hf|].
  destruct (blank c); [apply Forall_app; split; [by apply Hf|by apply IH]|].
  apply IH, Forall_app. split; [done|by apply Forall_cons_2].
Qed.

Lemma tokens_forall (P : Z -> Prop) l : Forall P l -> Forall (Forall P) (tokens l).
Proof. intros. by apply split_tokens_forall. Qed.

(** Arguments the parser accepts are stored whole. *)
Lemma accepted_stored args :
  Forall (Forall (fun c => c <> 0)) args -> parse_verdict 8 args = SHELL_PARSE_OK -> Forall stored args /\ alen args <= 8.
Proof.
  unfold parse_verdict. intros Hnz H. destruct (existsb _ _) eqn:Ee; [done|]. destruct (8 <? length args)%nat eqn:El; [done|].
  apply Nat.ltb_ge in El. rewrite take_ge in Ee by done. split; [|unfold alen; lia]. clear El H.
  induction Hnz as [|w args Hw _ IH]; [done|]. cbn [existsb] in Ee. bprop. constructor; [|by apply IH].
  unfold too_long in *. bprop. by split.
Qed.

Lemma arity_agrees name args :
  shell_command_has_valid_arity (Some (built_command name args)) = arity_ok (kind_named name) (alen args).
Proof.
  unfold shell_command_has_valid_arity, SHELL_COMMAND_MAX_ARGS.
  change (cmd_kind (built_command name args)) with (kind_named name).
  change (cmd_argument_count (built_command name args)) with (alen args).
  destruct (kind_named name); cbn [arity_ok]; rewrite ?Z.geb_leb; done.
Qed.

Section Line.
Context (arena : Z) (j : stack_frame) (now : nat -> kernel) (fs : ramfs) (ents : list entry) (m : files).
Hypothesis Hrepr : fs_repr fs ents m.
Hypothesis Hj : frame_sized j.

Lemma then_prompt code (con : console) spec :
  carries_out code con spec ->
  carries_out (r ← code; Some (fst r, print_prompt (snd r))) con (fst spec ++ [prompt], snd spec).
Proof using.
  intros (fs' & Hr & ->). exists fs'. split; [done|]. cbn [fst snd]. rewrite console_run_app.
  by destruct (console_run (fst spec) con).
Qed.

Lemma handle_line_spec line text (con : console) :
  c_chars line = text -> Forall (fun c => c <> 0) text ->
  carries_out (handle_line arena j now line fs con) con
    (fst (line_effect (status_now arena j now) (listing ents) text m) ++ [prompt],
     snd (line_effect (status_now arena j now) (listing ents) text m)).
Proof using Hrepr Hj.
  intros Hc Hnz. unfold handle_line. rewrite parse_is_spec by apply Hj. unfold parse_spec, line_effect. rewrite Hc.
  pose proof (tokens_forall _ text Hnz) as Htok. destruct (tokens text) as [|name args]; [by apply (carry_same fs ents m)|].
  apply Forall_cons_1 in Htok as [_ Hargs].
  destruct (too_long name); [by apply (carry_same fs ents m)|].
  destruct (parse_verdict 8 args) eqn:Ev; try by apply (carry_same fs ents m).
  2, 3: unfold parse_verdict in Ev; repeat case_match; done.
  destruct (accepted_stored args Hargs Ev) as [Hs Hn]. change (default _ (Some ?x)) with x.
  change (cmd_kind (built_command name args)) with (kind_named name).
  case_bool_decide as Ek; [by apply (carry_same fs ents m)|]. rewrite arity_agrees.
  destruct (arity_ok _ _) eqn:Ea; cbn [negb].
  - apply then_prompt. by apply execute_spec.
  - apply (carry_same fs ents m); [done|]. by destruct (shell_command_usage (kind_named name)).
Qed.
End Line.

(** ** What is printed is text *)

Definition status_typed (s : system_status) : Prop :=
  Forall is_u32 [st_pmm_total_pages s; st_pmm_free_pages s; st_heap_total_bytes s; st_heap_free_bytes s;
    st_heap_largest_free_block s; st_heap_allocated_blocks s; st_pit_ticks s; st_irq0_count s; st_keyboard_dropped s;
    st_task_switches s; st_task_finished s].

Definition bytes_only (m : files) : Prop := map_Forall (fun _ c => Forall is_u8 c) m.

Definition listed_ok (l : list (list Z * list Z)) : Prop :=
  Forall (fun f => valid_name (fst f) = true /\ alen (snd f) <= RAMFS_FILE_MAX_BYTES) l.

Definition effect_ok (e : list console_op * files) : Prop := Forall console_op_ok (fst e) /\ bytes_only (snd e).

Lemma line_of_u8 s : Forall is_u8 (line_of s).
Proof. apply Forall_app. split; [apply cstr_u8|by repeat constructor]. Qed.

#[local] Hint Resolve cstr_u8 line_of_u8 : wrap.

Lemma say_ok text : Forall is_u8 text -> Forall console_op_ok [say text].
Proof. intros. by repeat constructor. Qed.

Lemma result_text_u8 r : Forall is_u8 (result_text r).
Proof. destruct r; apply line_of_u8. Qed.

Lemma effect_say text m : Forall is_u8 text -> bytes_only m -> effect_ok ([say text], m).
Proof. intros. split; [by apply say_ok|done]. Qed.

Lemma with_file_ok m name k :
  bytes_only m -> (forall c, m !! name = Some c -> effect_ok (k c)) -> effect_ok (with_file m name k).
Proof.
  intros Hm Hk. unfold with_file, on_file. destruct (negb _); [apply effect_say; [apply result_text_u8|done]|].
  destruct (m !! name) as [c|] eqn:E; [by apply Hk|]. apply effect_say; [apply result_text_u8|done].
Qed.

Lemma done_with_ok m : bytes_only m -> effect_ok (done_with m).
Proof. apply effect_say, result_text_u8. Qed.

Lemma unwords_u8 ws : Forall (Forall is_u8) ws -> Forall is_u8 (unwords ws).
Proof.
  destruct ws as [|w ws]; [done|]. rewrite unwords_cons. intros H. apply Forall_cons_1 in H as [Hw H].
  apply Forall_app. split; [done|]. induction H as [|v vs Hv _ IH]; [done|].
  change (spaced (v :: vs)) with (SPACE :: v ++ spaced vs). constructor; [done|]. by apply Forall_app.
Qed.

Lemma valid_name_u8 n : valid_name n = true -> Forall is_u8 n.
Proof.
  unfold valid_name. intros H. bprop.
  match goal with H : forallb _ n = true |- _ => revert H end. clear. intros H.
  rewrite forallb_forall in H. apply Forall_forall. intros c Hc. specialize (H c Hc).
  unfold name_char_allowed in H. unfold is_u8. repeat (apply orb_prop in H as [H|H]); bprop;
  repeat match goal with H : context [ch ?a] |- _ => let v := eval vm_compute in (ch a) in change (ch a) with v in H end; lia.
Qed.

Lemma ls_ops_ok l : listed_ok l -> Forall console_op_ok (ls_ops l).
Proof.
  intros Hl. destruct l as [|f0 l0]; [by apply say_ok, line_of_u8|]. unfold ls_ops.
  induction Hl as [|f l [Hn Hs] _ IH]; [done|]. rewrite bind_cons. apply Forall_app. split; [|done].
  pose proof (alen_nonneg (snd f)). unfold RAMFS_FILE_MAX_BYTES in *.
  repeat constructor; [by apply valid_name_u8|done|lia|lia|done].
Qed.

Lemma status_ops_ok status : (forall s, status = Some s -> status_typed s) -> Forall console_op_ok (status_ops status).
Proof.
  intros H. destruct status as [s|]; [|by apply say_ok, line_of_u8]. specialize (H s eq_refl). unfold status_typed in H.
  repeat (apply Forall_cons_1 in H as [? H]). unfold status_ops.
  repeat apply Forall_cons_2; try apply Forall_nil_2; cbn [say console_op_ok]; auto with wrap; done.
Qed.

Lemma help_u8 : Forall is_u8 shell_command_help.
Proof. unfold shell_command_help. repeat (apply Forall_app; split); auto with wrap; by repeat constructor. Qed.

(** Calls given one by one. *)
Ltac ops_ok := repeat apply Forall_cons_2; try apply Forall_nil_2; cbn [say console_op_ok]; auto with wrap; try done.

Section Printable.
Context (status : option system_status) (l : list (list Z * list Z)) (m : files).
Hypothesis Hst : forall s, status = Some s -> status_typed s.
Hypothesis Hl : listed_ok l.
Hypothesis Hm : bytes_only m.

Lemma command_effect_ok kind args :
  Forall (Forall is_u8) args -> effect_ok (command_effect status l kind args m).
Proof using Hst Hl Hm.
  intros Ha. assert (Ht : Forall (Forall is_u8) (tail args)) by (destruct Ha; [constructor|done]).
  assert (Hins : forall n c, Forall is_u8 c -> bytes_only (<[n := c]> m)) by (intros; by apply map_Forall_insert_2).
  unfold command_effect. destruct kind.
  - split; [ops_ok; apply help_u8|done].
  - split; [ops_ok|done].
  - split; [ops_ok; by apply unwords_u8|done].
  - split; [by apply ls_ops_ok|done].
  - apply with_file_ok; [done|]. intros c Hc. split; [|done]. apply Forall_app. split; [|ops_ok].
    apply Forall_fmap. by apply (map_Forall_lookup_1 _ _ _ _ Hm Hc).
  - destruct (fs_create m _) as [r m'] eqn:E. apply effect_say; [apply result_text_u8|].
    unfold fs_create in E. cbn [fmap option_fmap option_map] in E. repeat case_match; simplify_eq; try done. by apply Hins.
  - apply with_file_ok; [done|]. intros c Hc. by apply done_with_ok, Hins, unwords_u8.
  - apply with_file_ok; [done|]. intros c Hc. cbv zeta. destruct (_ <? _); [apply effect_say; [apply result_text_u8|done]|].
    apply done_with_ok, Hins. apply Forall_app. split; [by apply (map_Forall_lookup_1 _ _ _ _ Hm Hc)|].
    apply Forall_app. split; [case_bool_decide; by repeat constructor|by apply unwords_u8].
  - apply with_file_ok; [done|]. intros c Hc. by apply done_with_ok, map_Forall_delete.
  - split; [by apply status_ops_ok|done].
  - apply effect_say; [|done]. apply Forall_app. auto with wrap.
  - apply effect_say; [apply line_of_u8|done].
Qed.

Lemma usage_u8 kind usage : shell_command_usage kind = Some usage -> Forall is_u8 usage.
Proof using. destruct kind; intros [= <-]; apply cstr_u8. Qed.

Lemma line_effect_ok text : Forall is_u8 text -> effect_ok (line_effect status l text m).
Proof using Hst Hl Hm.
  intros Ht. unfold line_effect. pose proof (tokens_forall _ text Ht) as Htok. destruct (tokens text) as [|name args]; [by split|].
  apply Forall_cons_1 in Htok as [_ Hargs]. destruct (too_long name); [apply effect_say; [apply line_of_u8|done]|].
  assert (Hgo : effect_ok
    (if bool_decide (kind_named name = SHELL_COMMAND_UNKNOWN) then ([say (line_of "error: unknown command")], m)
     else if negb (arity_ok (kind_named name) (alen args)) then
       ([say (cstr "error: usage: "); WriteText (shell_command_usage (kind_named name)); PutC NEWLINE], m)
     else command_effect status l (kind_named name) args m)).
  { case_bool_decide; [apply effect_say; [apply line_of_u8|done]|]. destruct (negb _); [|by apply command_effect_ok].
    split; [|done]. destruct (shell_command_usage _) eqn:Eu; ops_ok. by eapply usage_u8. }
  destruct (parse_verdict 8 args); try exact Hgo; (apply effect_say; [apply line_of_u8|done]).
Qed.

Lemma char_effect_ok c line :
  is_u8 c -> Forall (fun c => printable c = true) (line_text line) ->
  let '(ops, _, m') := char_effect status l c line m in effect_ok (ops, m').
Proof using Hst Hl Hm.
  intros Hc Ht. assert (Hu : Forall is_u8 (line_text line)).
  { revert Ht. apply Forall_impl. intros x Hx. unfold printable in Hx. bprop. unfold is_u8. lia. }
  unfold char_effect. destruct line as [text ov ready]. cbn [line_text] in *. unfold line_feed.
  destruct ready; [by split|]. destruct (c =? 8); [destruct text; (split; [ops_ok|done])|].
  destruct (_ || _).
  - destruct (line_effect status l _ m) as [ops m'] eqn:E. pose proof (line_effect_ok text Hu) as [H1 H2].
    cbn [line_text] in E. rewrite E in H1, H2. split; [|done]. constructor; [done|]. apply Forall_app. split; [done|].
    apply say_ok, cstr_u8.
  - destruct (negb _); [by split|]. destruct (_ <? _); (split; [ops_ok|done]).
Qed.
End Printable.

(** ** Sessions *)

(** The counters of the other components are 32-bit variables. *)
Record kernel_typed (k : kernel) : Prop := {
  kt_total : is_u32 (total_pages (k_pmm k));
  kt_free : is_u32 (free_pages (k_pmm k));
  kt_ticks : is_u32 (tick_count (dev_pit (k_devices k)));
  kt_irq0 : is_u32 (counts (k_irqs k)).[0];
  kt_dropped : is_u32 (dropped_characters (dev_keyboard (k_devices k)));
  kt_switches : is_u32 (switch_count (k_sched k));
  kt_finished : is_u32 (finished_count (k_sched k));
}.

Lemma status_now_typed arena `{ArenaPlacement arena} j now s :
  (forall n, kernel_typed (now n)) -> status_now arena j now = Some s -> status_typed s.
Proof.
  intros Hk. unfold status_now, system_status_read. destruct (j_status j) as [st0 h0]. cbn [fst].
  unfold kheap_get_stats. destruct (inspect_heap arena _) as [h|] eqn:E; [|done]. cbn [negb size_to_u32 orb].
  change (default _ (Some h)) with h. intros [= <-].
  destruct (inspect_heap_sound arena _ h E) as [bs Hwf]. rewrite (inspect_heap_wf arena _ bs Hwf) in E. injection E as <-.
  destruct (stats_fit arena _ bs Hwf) as (H1 & H2 & H3 & H4). unfold status_typed.
  repeat apply Forall_cons_2; try apply Forall_nil_2; cbn [st_pmm_total_pages st_pmm_free_pages st_heap_total_bytes
    st_heap_free_bytes st_heap_largest_free_block st_heap_allocated_blocks st_pit_ticks st_irq0_count st_keyboard_dropped
    st_task_switches st_task_finished]; try apply u32_range; try done; apply Hk.
Qed.

Record session := mk_session {
  ss_line : line_spec;
  ss_files : files;
  ss_terminal : terminal;
}.

(** The files in some order. *)
Definition is_listing (l : list (list Z * list Z)) (m : files) : Prop :=
  NoDup l.*1 /\ forall n c, (n, c) ∈ l <-> m !! n = Some c.

(** A typed character; the order in which [ls] lists is the directory's. *)
Inductive session_step (status : option system_status) (c : Z) : session -> session -> Prop :=
| Typed line m t l ops line' m' :
    is_listing l m -> char_effect status l c line m = (ops, line', m') ->
    session_step status c (mk_session line m t) (mk_session line' m' (show ops t)).

Inductive session_steps : list (Z * option system_status) -> session -> session -> Prop :=
| StepsNone a : session_steps [] a a
| StepsMore c status keys a b d :
    session_step status c a b -> session_steps keys b d -> session_steps ((c, status) :: keys) a d.

Record session_repr (before : list (Z * Z)) (s : shell) (a : session) : Prop := {
  sr_initialized : runtime_initialized s = true;
  sr_started : runtime_started s = true;
  sr_editor : editor_repr (runtime_editor s) (ss_line a);
  sr_idle : line_ready (ss_line a) = false;
  sr_files : exists ents, fs_repr (shell_fs s) ents (ss_files a);
  sr_bytes : bytes_only (ss_files a);
  sr_console : shows before (shell_console s) (ss_terminal a);
}.

Lemma listing_is_listing ents m : ents_repr ents m -> is_listing (listing ents) m /\ listed_ok (listing ents).
Proof.
  intros He. destruct (listing_spec ents m He) as [Hnd Hin]. split; [done|]. apply Forall_forall. intros [n c] Hf.
  apply list_elem_of_In, Hin in Hf. apply (en_map _ _ He) in Hf as (i & Hi & Hc). by apply (en_valid _ _ He i n c).
Qed.

Section Step.
Context (arena : Z) {Harena : ArenaPlacement arena} (before : list (Z * Z)).

Lemma take_line ed line buf :
  editor_repr ed line -> line_ready line = true -> alen buf = SHELL_LINE_MAX + 1 ->
  exists ed', shell_line_editor_take (Some ed) (Some buf) (SHELL_LINE_MAX + 1) =
    (true, Some (take_result (line_text line) buf), Some ed') /\
    editor_repr ed' (mk_line [] (line_overflow line) false) /\ c_chars (take_result (line_text line) buf) = line_text line.
Proof using.
  intros Hr Hready Hb. pose proof Hr as [H1 H2 H3 H4 H5 H6]. unfold shell_line_editor_take. rewrite H5, Hready, H2.
  rewrite Z.gtb_ltb, (proj2 (Z.ltb_ge _ _)), (proj2 (Z.leb_gt _ _)) by lia. cbn [negb orb].
  rewrite H1, copy_line by lia. eexists. split; [done|]. rewrite <-H4. split.
  - apply clear_line_buffer_repr. by eapply editor_repr_buffer_len.
  - by apply c_chars_app_nul, printable_nonzero.
Qed.

(** One character: the code never fails and does what the session does. *)
Lemma handle_char_step j now c s a :
  session_repr before s a -> is_u8 c -> frame_sized j -> (forall n, kernel_typed (now n)) ->
  exists s' a', shell_runtime_handle_char arena j now c s = Some s' /\
    session_step (status_now arena j now) c a a' /\ session_repr before s' a'.
Proof using Harena.
  intros [Hi Hst He Hidle [ents Hf] Hb Hc] Hu Hj Hk. destruct a as [line m t]. cbn [ss_line ss_files ss_terminal] in *.
  destruct (listing_is_listing ents m (fr_ents _ _ _ Hf)) as [Hl Hlok].
  assert (Htyped : forall st, status_now arena j now = Some st -> status_typed st) by (intros st; by apply status_now_typed).
  pose proof (char_effect_ok _ _ m Htyped Hlok Hb c line Hu (er_text _ _ He)) as Hok.
  pose proof (Typed (status_now arena j now) c line m t (listing ents)) as Hstep. unfold shell_runtime_handle_char. rewrite Hi, Hst.
  cbn [negb orb shell_line_editor_feed]. pose proof (editor_feed_refines (runtime_editor s) line c He) as Href.
  destruct (editor_feed (runtime_editor s) c) as [event ed']. unfold char_effect in *.
  destruct (line_feed c line) as [event' line'] eqn:Elf. destruct Href as [<- He'].
  change (default _ (Some ed')) with ed'. cbn [shell_console runtime_editor shell_fs runtime_initialized runtime_started].
  assert (Hidle' : event <> SHELL_LINE_READY -> line_ready line' = false).
  { unfold line_feed in Elf. destruct line as [tx ov rd]. cbn [line_ready] in *. subst rd. repeat case_match; by simplify_eq. }
  assert (Hready' : event = SHELL_LINE_READY -> line_ready line' = true).
  { unfold line_feed in Elf. destruct line as [tx ov rd]. cbn [line_ready] in *. subst rd. repeat case_match; by simplify_eq. }
  destruct event.
  - eexists _, _. split; [done|]. split; [by apply Hstep|]. split; try done; [by apply Hidle'|by exists ents].
  - eexists _, _. split; [done|]. split; [by apply Hstep|]. split; try done; [by apply Hidle'|by exists ents|].
    by apply putc_shows.
  - eexists _, _. split; [done|]. split; [by apply Hstep|]. split; try done; [by apply Hidle'|by exists ents|].
    by apply putc_shows.
  - destruct (take_line ed' line' (j_line j) He' (Hready' eq_refl) (js_line _ Hj)) as (ed2 & -> & Hed2 & Hchars).
    cbn [negb]. change (default _ (Some ed2)) with ed2. change (default _ (Some (take_result ?a ?b))) with (take_result a b).
    destruct (line_effect _ _ (line_text line') m) as [ops m'] eqn:Ele.
    destruct (handle_line_spec arena j now (shell_fs s) ents m Hf Hj _ (line_text line') (console_putc NEWLINE (shell_console s)) Hchars
      (printable_nonzero _ (er_text _ _ He'))) as (fs' & Hf' & ->). rewrite Ele in *. cbn [fst snd] in *.
    destruct Hok as [Hops Hb']. cbn [fst snd] in *. apply Forall_cons_1 in Hops as [_ Hops].
    destruct (run_shows before _ _ _ Hops (putc_shows before NEWLINE _ _ ltac:(done) Hc)) as (con' & -> & Hc').
    eexists _, _. split; [done|]. split; [by apply Hstep|]. by split.
  - eexists _, _. split; [done|]. split; [by apply Hstep|]. split; try done; [by apply Hidle'|by exists ents].
Qed.
End Step.

(** ** Typing *)

(** A key press: the character, what the stack happens to hold and the kernel
    while the character is handled. *)
Record keystroke := mk_key { key_char : Z; key_frame : stack_frame; key_now : nat -> kernel }.

Record key_ok (k : keystroke) : Prop := {
  ko_char : is_u8 (key_char k);
  ko_frame : frame_sized (key_frame k);
  ko_now : forall n, kernel_typed (key_now k n);
}.

Fixpoint type_keys (arena : Z) (keys : list keystroke) (s : shell) : option shell :=
  match keys with
  | [] => Some s
  | k :: keys => s ← shell_runtime_handle_char arena (key_frame k) (key_now k) (key_char k) s; type_keys arena keys s
  end.

(** What the session sees of the keys. *)
Definition seen (arena : Z) (k : keystroke) : Z * option system_status :=
  (key_char k, status_now arena (key_frame k) (key_now k)).

(** The shell before its initialisation. *)
Record shell_sized (s : shell) : Prop := {
  sz_editor : alen (ed_buffer (runtime_editor s)) = SHELL_LINE_MAX + 1;
  sz_fs : fs_sized (shell_fs s);
}.

Definition banner : list console_op := [say (line_of "TinyShell OS interactive shell (Ring 0)"); prompt].

Definition fresh_session (t : terminal) : session := mk_session (mk_line [] 0 false) ∅ (show banner t).

Section Typing.
Context (arena : Z) {Harena : ArenaPlacement arena} (before : list (Z * Z)).

(** Initialisation always succeeds: the self-tests pass. *)
Lemma init_ready j s :
  frame_sized j -> shell_sized s ->
  exists s0, shell_runtime_init j s = (true, s0) /\ shell_console s0 = shell_console s /\
    forall con t, shows before con t -> session_repr before (shell_runtime_start (set_console con s0)) (fresh_session t).
Proof using.
  intros Hj [He Hf]. unfold shell_runtime_init. cbn [shell_fs].
  destruct (ramfs_self_test_passes j (shell_fs s) Hj Hf) as (fs' & -> & Hf').
  rewrite line_editor_self_test_passes, parser_self_test_passes by done. cbn [negb orb].
  eexists. split; [done|]. split; [done|]. intros con t Hc. unfold shell_runtime_start, set_console.
  cbn [runtime_initialized runtime_started negb orb runtime_editor shell_fs shell_console].
  destruct (editor_init_repr (runtime_editor s) He) as (ed0 & -> & Hed).
  split; cbn [runtime_initialized runtime_started runtime_editor shell_fs shell_console fresh_session ss_line ss_files ss_terminal]; try done.
  - eexists. by apply init_repr.
  - apply write_shows; [apply cstr_u8|]. apply write_shows; [apply line_of_u8|done].
Qed.

Lemma init_and_start j s t :
  frame_sized j -> shell_sized s -> shows before (shell_console s) t ->
  exists s0, shell_runtime_init j s = (true, s0) /\ session_repr before (shell_runtime_start s0) (fresh_session t).
Proof using.
  intros Hj Hs Hc. destruct (init_ready j s Hj Hs) as (s0 & E & Econ & H). exists s0. split; [done|].
  specialize (H _ t Hc). rewrite <-Econ in H. by destruct s0.
Qed.

Lemma type_keys_refines keys s a :
  Forall key_ok keys -> session_repr before s a ->
  exists s' a', type_keys arena keys s = Some s' /\ session_steps (seen arena <$> keys) a a' /\ session_repr before s' a'.
Proof using Harena.
  intros Hk. revert s a. induction Hk as [|k keys [Hc Hf Hn] _ IH]; intros s a Hr.
  { exists s, a. split; [done|]. split; [constructor|done]. }
  destruct (handle_char_step arena before (key_frame k) (key_now k) (key_char k) s a Hr Hc Hf Hn) as (s1 & a1 & E1 & H1 & Hr1).
  destruct (IH s1 a1 Hr1) as (s2 & a2 & E2 & H2 & Hr2). exists s2, a2. split; [|split; [|done]].
  - cbn [type_keys]. by rewrite E1.
  - cbn [fmap list_fmap seen]. by eapply StepsMore.
Qed.

(** A session's steps on printable text that fits only echo it. *)
Lemma steps_text keys pre text ov m t a' :
  fst <$> keys = text -> Forall (fun c => printable c = true) text -> alen (pre ++ text) <= SHELL_LINE_MAX ->
  session_steps keys (mk_session (mk_line pre ov false) m t) a' ->
  a' = mk_session (mk_line (pre ++ text) ov false) m (show (PutC <$> text) t).
Proof using.
  revert pre t text. induction keys as [|[c st] keys IH]; intros pre t text <- Hp Hl Hs.
  { inversion Hs. cbn. by rewrite app_nil_r. }
  cbn [fmap list_fmap fst] in *. apply Forall_cons_1 in Hp as [Hc Hp]. rewrite alen_app, alen_cons in Hl.
  pose proof (alen_nonneg (fst <$> keys)) as Hk. inversion Hs as [|? ? ? ? b ? Hstep Hrest]; subst.
  inversion Hstep as [? ? ? l ops line' m' _ Hce]; subst. unfold char_effect, line_feed in Hce.
  assert (Hr : 32 <= c <= 126) by (unfold printable in Hc; bprop; lia).
  rewrite !(proj2 (Z.eqb_neq c _)) in Hce by lia. rewrite Hc in Hce. cbn [orb negb] in Hce.
  rewrite (proj2 (Z.ltb_lt _ _)) in Hce by (unfold SHELL_LINE_MAX in Hl; lia). injection Hce as <- <- <-.
  rewrite (IH (pre ++ [c]) _ _ eq_refl Hp ltac:(rewrite !alen_app; change (alen [c]) with 1; lia) Hrest). by rewrite <-app_assoc.
Qed.

(** A typed line and Enter: the effect of the line. *)
Lemma type_line keys text ov m t s :
  Forall key_ok keys -> key_char <$> keys = text ++ [NEWLINE] ->
  Forall (fun c => printable c = true) text -> alen text <= SHELL_LINE_MAX ->
  session_repr before s (mk_session (mk_line [] ov false) m t) ->
  exists s' l enter, type_keys arena keys s = Some s' /\ is_listing l m /\ list_basics.list.last keys = Some enter /\
    let '(ops, m') := line_effect (seen arena enter).2 l text m in
    session_repr before s' (mk_session (mk_line [] ov false) m' (show ((PutC <$> text) ++ PutC NEWLINE :: ops ++ [prompt]) t)).
Proof using Harena.
  intros Hk Hchars Hp Hl Hr. destruct (type_keys_refines keys s _ Hk Hr) as (s' & a' & E & Hsteps & Hr').
  assert (Hseen : exists ks enter, seen arena <$> keys = ks ++ [(NEWLINE, (seen arena enter).2)] /\ fst <$> ks = text /\
    list_basics.list.last keys = Some enter).
  { destruct keys as [|k keys _] using rev_ind; [by destruct text|]. rewrite fmap_app in Hchars. cbn in Hchars.
    apply app_inj_tail in Hchars as [<- Ek]. rewrite fmap_app. cbn. unfold seen at 2. rewrite Ek.
    eexists _, _. split; [done|]. split; [by rewrite <-list_fmap_compose|apply last_snoc]. }
  destruct Hseen as (ks & enter & Hks & Htext & Hlk). rewrite Hks in Hsteps.
  enough (He : exists l, is_listing l m /\ let '(ops, m') := line_effect (seen arena enter).2 l text m in
    session_repr before s' (mk_session (mk_line [] ov false) m' (show ((PutC <$> text) ++ PutC NEWLINE :: ops ++ [prompt]) t)))
    by (destruct He as (l & ? & ?); by exists s', l, enter).
  revert Hsteps. generalize (seen arena enter).2 as st. intros st Hsteps.
  assert (Hsplit : exists b, session_steps ks (mk_session (mk_line [] ov false) m t) b /\ session_step st NEWLINE b a').
  { clear -Hsteps. revert Hsteps. generalize (mk_session (mk_line [] ov false) m t) as a. induction ks as [|[c q] ks IH]; intros a H.
    - inversion H as [|? ? ? ? b ? H1 H2]; subst. inversion H2; subst. exists a. split; [constructor|done].
    - inversion H as [|? ? ? ? b ? H1 H2]; subst. destruct (IH b H2) as (b' & H3 & H4). exists b'. split; [by eapply StepsMore|done]. }
  destruct Hsplit as (b & Hb & Hlast).
  apply (steps_text ks [] text ov m t b Htext Hp ltac:(done)) in Hb as ->.
  inversion Hlast as [? ? ? l ops line' m' Hlist Hce]; subst. exists l. split; [done|].
  unfold char_effect in Hce. cbn in Hce. change ([] ++ (fst <$> ks)) with (fst <$> ks) in Hce.
  destruct (line_effect st l (fst <$> ks) m) as [ops0 m0]. injection Hce as <- <- <-. by rewrite show_app.
Qed.
End Typing.

Lemma parse_verdict_ok args : forallb storable args = true -> alen args <= 8 -> parse_verdict 8 args = SHELL_PARSE_OK.
Proof.
  intros Hs Hl. unfold parse_verdict, alen in *. rewrite take_ge by lia. rewrite (proj2 (Nat.ltb_ge 8 (length args))) by lia.
  assert (E : existsb too_long args = false); [|by rewrite E].
  induction args as [|w args IH]; [done|]. cbn [forallb existsb] in *. apply andb_prop in Hs as [Hw Hs].
  rewrite IH by (done || simpl in Hl; lia). unfold storable in Hw. bprop. by destruct (too_long w).
Qed.

Lemma type_keys_app arena keys keys' s : type_keys arena (keys ++ keys') s = (s' ← type_keys arena keys s; type_keys arena keys' s').
Proof.
  revert s. induction keys as [|k keys IH]; intros s; [done|]. cbn [type_keys app].
  destruct (shell_runtime_handle_char _ _ _ _ s); [apply IH|done].
Qed.

(** The [cat] line is shorter than the [write] line and uses its characters. *)
Lemma cat_line_fits n ws :
  Forall (fun c => printable c = true) (print_command (cstr "write") (n :: ws)) ->
  alen (print_command (cstr "write") (n :: ws)) <= SHELL_LINE_MAX -> 1 <= alen ws ->
  Forall (fun c => printable c = true) (print_command (cstr "cat") [n]) /\
  alen (print_command (cstr "cat") [n]) <= SHELL_LINE_MAX.
Proof.
  unfold print_command. cbn [fmap list_fmap concat]. rewrite !app_nil_r. intros Hp Hl _.
  apply Forall_app in Hp as [_ Hp]. apply Forall_app in Hp as [Hp _]. split.
  - apply Forall_app. split; [by repeat constructor|done].
  - rewrite !alen_app in *. change (alen (cstr "write")) with 5 in Hl. change (alen (cstr "cat")) with 3.
    pose proof (alen_nonneg (concat (cons SPACE <$> ws))). lia.
Qed.

Lemma write_line_effect status l n ws c m :
  m !! n = Some c -> valid_name n = true -> storable n = true -> forallb storable ws = true -> 1 <= alen ws <= 7 ->
  line_effect status l (print_command (cstr "write") (n :: ws)) m = done_with (<[n := unwords ws]> m).
Proof.
  intros Hm Hv Hn Hws Hl. unfold line_effect. rewrite tokens_print by (try done; cbn [forallb]; by rewrite Hn).
  change (too_long (cstr "write")) with false. cbv iota. rewrite parse_verdict_ok; [|cbn [forallb]; by rewrite Hn|rewrite alen_cons; lia].
  change (kind_named (cstr "write")) with SHELL_COMMAND_WRITE. rewrite bool_decide_eq_false_2 by done.
  cbn [arity_ok]. rewrite alen_cons, (proj2 (Z.leb_le 2 _)), (proj2 (Z.leb_le _ 8)) by lia. cbn [andb negb command_effect head tail].
  change (default [] (Some n)) with n. unfold with_file, on_file. by rewrite Hv, Hm.
Qed.

Lemma cat_line_effect status l n c m :
  m !! n = Some c -> valid_name n = true -> storable n = true ->
  line_effect status l (print_command (cstr "cat") [n]) m = ((PutC <$> c) ++ [PutC NEWLINE], m).
Proof.
  intros Hm Hv Hn. unfold line_effect. rewrite tokens_print by (try done; cbn [forallb]; by rewrite Hn).
  change (too_long (cstr "cat")) with false. cbv iota. rewrite parse_verdict_ok; [|cbn [forallb]; by rewrite Hn|done].
  change (kind_named (cstr "cat")) with SHELL_COMMAND_CAT. rewrite bool_decide_eq_false_2 by done.
  change (arity_ok SHELL_COMMAND_CAT (alen [n])) with true. cbn [negb command_effect head].
  change (default [] (Some n)) with n. unfold with_file, on_file. by rewrite Hv, Hm.
Qed.

(** ** Properties *)

(** C1: the interactive shell implements its specification.  Whatever the
    statics and the stack held, initialisation succeeds, and after the start
    every sequence of typed characters is handled without failing and does
    what the session does: the line being edited, the files and the terminal
    are those of the specification, character by character, for every command
    and every error message. *)
Theorem shell_session_refines arena `{ArenaPlacement arena} before j s t keys :
  frame_sized j -> shell_sized s -> shows before (shell_console s) t -> Forall key_ok keys ->
  exists s0 s' a, shell_runtime_init j s = (true, s0) /\
    type_keys arena keys (shell_runtime_start s0) = Some s' /\
    session_steps (seen arena <$> keys) (fresh_session t) a /\ session_repr before s' a.
Proof.
  intros Hj Hs Hc Hk. destruct (init_and_start before j s t Hj Hs Hc) as (s0 & E0 & Hr).
  destruct (type_keys_refines arena before keys _ _ Hk Hr) as (s' & a & E & Hsteps & Hr').
  by exists s0, s', a.
Qed.

(** C22: typing a line of printable characters that fits and pressing Enter
    echoes it, carries out its effect on the files and prints exactly that
    effect's output and a new prompt, and leaves an empty line.  Files are
    listed in some order; the counters printed are those of the moment Enter is
    handled. *)
Theorem typed_line_executes arena `{ArenaPlacement arena} before keys text ov m t s :
  Forall key_ok keys -> key_char <$> keys = text ++ [NEWLINE] ->
  Forall (fun c => printable c = true) text -> alen text <= SHELL_LINE_MAX ->
  session_repr before s (mk_session (mk_line [] ov false) m t) ->
  exists s' l enter, type_keys arena keys s = Some s' /\ is_listing l m /\ list_basics.list.last keys = Some enter /\
    let '(ops, m') := line_effect (seen arena enter).2 l text m in
    session_repr before s' (mk_session (mk_line [] ov false) m' (show ((PutC <$> text) ++ PutC NEWLINE :: ops ++ [prompt]) t)).
Proof. by apply type_line. Qed.

(** C33: what is written can be read back at the keyboard: typing [write] with
    the name of an existing file and some words, and then [cat] with that
    name, prints exactly the words with single spaces between them, and the
    file holds that text. *)
Theorem write_then_cat arena `{ArenaPlacement arena} before keys1 keys2 n ws c ov m t s :
  Forall key_ok keys1 -> Forall key_ok keys2 ->
  key_char <$> keys1 = print_command (cstr "write") (n :: ws) ++ [NEWLINE] ->
  key_char <$> keys2 = print_command (cstr "cat") [n] ++ [NEWLINE] ->
  Forall (fun c => printable c = true) (print_command (cstr "write") (n :: ws)) ->
  alen (print_command (cstr "write") (n :: ws)) <= SHELL_LINE_MAX ->
  valid_name n = true -> storable n = true -> forallb storable ws = true -> 1 <= alen ws <= 7 -> m !! n = Some c ->
  session_repr before s (mk_session (mk_line [] ov false) m t) ->
  exists s', type_keys arena (keys1 ++ keys2) s = Some s' /\
    session_repr before s' (mk_session (mk_line [] ov false) (<[n := unwords ws]> m)
      (show ((PutC <$> print_command (cstr "cat") [n]) ++ PutC NEWLINE :: (PutC <$> unwords ws) ++ [PutC NEWLINE; prompt])
        (show ((PutC <$> print_command (cstr "write") (n :: ws)) ++ [PutC NEWLINE; say (line_of "ok"); prompt]) t))).
Proof.
  intros Hk1 Hk2 Hc1 Hc2 Hp1 Hl1 Hv Hn Hws Hw Hm Hr.
  destruct (type_line arena before keys1 _ ov m t s Hk1 Hc1 Hp1 Hl1 Hr) as (s1 & l1 & k1 & E1 & _ & _ & H1).
  rewrite (write_line_effect _ l1 n ws c m Hm Hv Hn Hws Hw) in H1. cbn [done_with] in H1.
  destruct (cat_line_fits n ws Hp1 Hl1 ltac:(lia)) as [Hp2 Hl2].
  destruct (type_line arena before keys2 _ ov _ _ s1 Hk2 Hc2 Hp2 Hl2 H1) as (s2 & l2 & k2 & E2 & _ & _ & H2).
  rewrite (cat_line_effect _ l2 n (unwords ws)) in H2 by (done || apply lookup_insert_eq). cbv beta iota in H2.
  exists s2. split; [by rewrite type_keys_app, E1|]. by rewrite <-app_assoc in H2.
Qed.

(** C34: the buffers of the shell are large enough: joining the arguments of
    any command the parser accepts, from the first or from the second with a
    separating space, succeeds in the 256-byte buffer whatever it held, stores
    the words with single spaces between them and a terminating NUL, and
    reports their length; the error for a text that is too long cannot occur. *)
Theorem join_never_overflows uninitialised line command parsed first lead buf len :
  command_sized uninitialised -> shell_command_parse uninitialised (Some line) (Some command) = (SHELL_PARSE_OK, Some parsed) ->
  alen buf = SHELL_TEXT_CAPACITY -> 0 <= first <= cmd_argument_count parsed -> (lead = true -> 1 <= first) ->
  exists name args buf' rest, tokens (c_chars line) = name :: args /\
    let text := (if lead then [SPACE] else []) ++ unwords (drop (Z.to_nat first) args) in
    join_arguments (Some parsed) first lead (Some buf) SHELL_TEXT_CAPACITY (Some len) = (true, Some buf', Some (alen text)) /\
    buf' = text ++ NUL :: rest /\ alen buf' = SHELL_TEXT_CAPACITY.
Proof.
  intros Hu. rewrite parse_is_spec by done. unfold parse_spec. pose proof (tokens_forall _ _ (c_chars_nonzero line)) as Htok.
  destruct (tokens (c_chars line)) as [|name args]; [done|]. apply Forall_cons_1 in Htok as [_ Hargs].
  destruct (too_long name); [done|]. destruct (parse_verdict 8 args) eqn:Ev; try done. intros [= <-] Hb Hf Hlead.
  destruct (accepted_stored args Hargs Ev) as [Hs Hn].
  destruct (join_built name args first lead buf len Hs Hn Hf Hlead Hb) as (buf' & E & (rest & Hh & Hl) & _).
  by exists name, args, buf', rest.
Qed.

(** ** Instances *)

#[local] Instance session_arena : ArenaPlacement 0x200000.
Proof. split; done. Qed.

(** Statics and a stack full of old bytes. *)
Definition old_frame : stack_frame :=
  mk_stack_frame (replicate 256 7) 9 (replicate 512 3) 77 (replicate 128 0x41) blank_command old_command (mk_info (replicate 32 4) 5)
    (old_status, mk_stats 1 2 3 4) (mk_editor (replicate 128 9) 200 5 true).

Definition old_shell : shell :=
  mk_shell (mk_editor (replicate 128 0xFF) 3 1 true) true true ramfs_static (display [] (blank_terminal [])).

Definition idle_now (n : nat) : kernel := kernel_at (mk_heap ∅ 0 false) k_timer_irqs idle_devices.

Definition press (text : list Z) : list keystroke := (fun c => mk_key c old_frame idle_now) <$> text.

Lemma old_frame_sized : frame_sized old_frame.
Proof. split; try done. exact old_command_sized. Qed.

Lemma old_shell_sized : shell_sized old_shell.
Proof. split; [done|exact ramfs_static_sized]. Qed.

Lemma idle_typed n : kernel_typed (idle_now n).
Proof. by split. Qed.

Lemma press_ok text : Forall is_u8 text -> Forall key_ok (press text).
Proof.
  intros H. unfold press. apply Forall_fmap. revert H. apply Forall_impl. intros c Hc.
  split; [done|exact old_frame_sized|exact idle_typed].
Qed.

Lemma press_chars text : key_char <$> press text = text.
Proof. unfold press. rewrite <-list_fmap_compose. apply list_fmap_id. Qed.

Lemma blank_shows : shows [] (display [] (blank_terminal [])) (blank_terminal []).
Proof. by apply display_shows. Qed.

Lemma shell_session_refines_witness :
  exists s0 s' a, shell_runtime_init old_frame old_shell = (true, s0) /\
    type_keys 0x200000 (press (cstr "status" ++ [NEWLINE])) (shell_runtime_start s0) = Some s' /\
    session_steps (seen 0x200000 <$> press (cstr "status" ++ [NEWLINE])) (fresh_session (blank_terminal [])) a /\
    session_repr [] s' a.
Proof.
  apply (shell_session_refines 0x200000 [] old_frame old_shell (blank_terminal []));
    [exact old_frame_sized|exact old_shell_sized|exact blank_shows|apply press_ok, Forall_app; split; [apply cstr_u8|by repeat constructor]].
Defined.

(** A session with one empty file, reached by typing. *)
Lemma touched_session :
  exists s t, session_repr [] s (mk_session (mk_line [] 0 false) {[cstr "note" := []]} t).
Proof.
  destruct (init_and_start [] old_frame old_shell (blank_terminal []) old_frame_sized old_shell_sized blank_shows) as (s0 & _ & Hr).
  destruct (type_line 0x200000 [] (press (cstr "touch note" ++ [NEWLINE])) (cstr "touch note") 0 ∅ _ _
    ltac:(apply press_ok, Forall_app; split; [apply cstr_u8|by repeat constructor]) (press_chars _)
    ltac:(repeat constructor) ltac:(done) Hr) as (s' & l & k & _ & _ & _ & H).
  assert (E : line_effect (seen 0x200000 k).2 l (cstr "touch note") ∅ = ([say (line_of "ok")], {[cstr "note" := []]})) by reflexivity.
  rewrite E in H. eauto.
Qed.

Lemma typed_line_executes_witness :
  exists s t s' l enter, type_keys 0x200000 (press (cstr "rm  note" ++ [NEWLINE])) s = Some s' /\
    is_listing l {[cstr "note" := []]} /\ list_basics.list.last (press (cstr "rm  note" ++ [NEWLINE])) = Some enter /\
    let '(ops, m') := line_effect (seen 0x200000 enter).2 l (cstr "rm  note") {[cstr "note" := []]} in
    session_repr [] s' (mk_session (mk_line [] 0 false) m'
      (show ((PutC <$> cstr "rm  note") ++ PutC NEWLINE :: ops ++ [prompt]) t)).
Proof.
  destruct touched_session as (s & t & Hr). exists s, t.
  apply (typed_line_executes 0x200000 [] (press (cstr "rm  note" ++ [NEWLINE])) (cstr "rm  note") 0 {[cstr "note" := []]} t s);
    [apply press_ok, Forall_app; split; [apply cstr_u8|by repeat constructor]|apply press_chars|by repeat constructor|done|exact Hr].
Defined.

Lemma write_then_cat_witness :
  exists s t s', type_keys 0x200000 (press (print_command (cstr "write") [cstr "note"; cstr "hi"; cstr "you"] ++ [NEWLINE]) ++
      press (print_command (cstr "cat") [cstr "note"] ++ [NEWLINE])) s = Some s' /\
    session_repr [] s' (mk_session (mk_line [] 0 false) (<[cstr "note" := cstr "hi you"]> {[cstr "note" := []]})
      (show ((PutC <$> print_command (cstr "cat") [cstr "note"]) ++ PutC NEWLINE :: (PutC <$> cstr "hi you") ++ [PutC NEWLINE; prompt])
        (show ((PutC <$> print_command (cstr "write") [cstr "note"; cstr "hi"; cstr "you"]) ++
           [PutC NEWLINE; say (line_of "ok"); prompt]) t))).
Proof.
  destruct touched_session as (s & t & Hr). exists s, t.
  apply (write_then_cat 0x200000 [] _ _ (cstr "note") [cstr "hi"; cstr "you"] [] 0 {[cstr "note" := []]} t s);
    [apply press_ok; repeat constructor; done|apply press_ok; repeat constructor; done|apply press_chars|apply press_chars
    |by repeat constructor|done|done|done|done|done|apply lookup_singleton_eq|exact Hr].
Defined.

Lemma join_never_overflows_witness :
  exists parsed, shell_command_parse old_command (Some (cstr "echo  a bc")) (Some blank_command) = (SHELL_PARSE_OK, Some parsed) /\
    exists buf' rest, join_arguments (Some parsed) 0 false (Some (replicate 256 7)) SHELL_TEXT_CAPACITY (Some 99) =
      (true, Some buf', Some 4) /\ buf' = cstr "a bc" ++ NUL :: rest.
Proof.
  exists (built_command (cstr "echo") [cstr "a"; cstr "bc"]). split; [vm_compute; reflexivity|].
  destruct (join_never_overflows old_command (cstr "echo  a bc") blank_command (built_command (cstr "echo") [cstr "a"; cstr "bc"]) 0 false
    (replicate 256 7) 99 old_command_sized ltac:(vm_compute; reflexivity) eq_refl ltac:(done) ltac:(done)) as (name & args & buf' & rest & E & H).
  vm_compute in E. injection E as <- <-. exists buf', rest. split; apply H.
Defined.
