(* ===== verification/SelfTests.v ===== *)
(** * Boot self-tests (src/kernel/kernel.c)

    The tests [kernel_main] runs on the keyboard decoder, paging, the heap and
    the message endpoints before it goes on.  A test that failed would stop the
    machine, so that they pass on every boot is part of the kernel's
    correctness.  Uninitialised automatic variables are parameters. *)
From S2P Require Import Prelude Pmm Memory Heap Vmm Boot Ring Keyboard Ipc.

(** ** The keyboard *)

Definition keyboard_self_test (k : keyboard) : bool * keyboard :=
  let character := NUL in
  let k := keyboard_init k in
  let '(r, k) := keyboard_feed_scancode 0x2A k in
  if r then (false, k)
  else let '(r, k) := keyboard_feed_scancode 0x1E k in
  if negb r then (false, k)
  else let '(r, k) := keyboard_feed_scancode 0x9E k in
  if r then (false, k)
  else let '(r, k) := keyboard_feed_scancode 0xAA k in
  if r then (false, k)
  else let '(popped, character, k) := keyboard_pop_char (Some character) k in
  if negb popped || negb (bool_decide (character = Some (ch "A"))) then (false, k)
  else let '(popped, character, k) := keyboard_pop_char character k in
  if popped || (keyboard_dropped_count k != 0) then (false, k)
  else (true, k).

(** ** The heap *)

Definition heap_stats_match (left right : heap_stats) : bool :=
  (total_bytes left == total_bytes right)
  && (free_bytes left == free_bytes right)
  && (largest_free_block left == largest_free_block right)
  && (allocated_blocks left == allocated_blocks right).

(** [foreign] is the address of an automatic variable; [initial] and [final]
    are uninitialised.  [None] is running out of fuel. *)
Definition heap_self_test (arena foreign : Z) (initial final : heap_stats) (h : heap) : option (bool * heap) :=
  let '(ok, h) := kheap_init arena h in
  if negb ok || negb (kheap_validate arena h) then Some (false, h)
  else let '(ok, measured) := kheap_get_stats arena h (Some initial) in
  let initial := default initial measured in
  if negb ok || (total_bytes initial == 0)
     || (free_bytes initial != total_bytes initial)
     || (largest_free_block initial != total_bytes initial)
     || (allocated_blocks initial != 0) then Some (false, h)
  else '(p, h) ← kmalloc arena h 0;
  if p != NULL then Some (false, h)
  else '(p, h) ← kcalloc arena h 0 16;
  if p != NULL then Some (false, h)
  else '(p, h) ← kcalloc arena h SIZE_MAX 2;
  if p != NULL then Some (false, h)
  else '(zeroed, h) ← kcalloc arena h 17 3;
  if (zeroed == NULL) || (zeroed .& 0x0F != 0) then Some (false, h)
  else '(r, h) ← kfree arena h NULL;
  if (r : bool) then Some (false, h)
  else '(r, h) ← kfree arena h foreign;
  if (r : bool) then Some (false, h)
  else '(r, h) ← kfree arena h (u32 (zeroed + 1));
  if (r : bool) then Some (false, h)
  else if negb (all_range 0 51 (fun index => u8 (zget (memory h) (u32 (zeroed + index))) == 0)) then Some (false, h)
  else '(r, h) ← kfree arena h zeroed;
  if negb r then Some (false, h)
  else '(r, h) ← kfree arena h zeroed;
  if (r : bool) || negb (kheap_validate arena h) then Some (false, h)
  else '(first, h) ← kmalloc arena h 64;
  '(middle, h) ← kmalloc arena h 96;
  '(last, h) ← kmalloc arena h 128;
  if (first == NULL) || (middle == NULL) || (last == NULL)
     || (first .& 0x0F != 0) || (middle .& 0x0F != 0) || (last .& 0x0F != 0) then Some (false, h)
  else '(r, h) ← kfree arena h middle;
  if negb r || negb (kheap_validate arena h) then Some (false, h)
  else '(r, h) ← kfree arena h first;
  if negb r || negb (kheap_validate arena h) then Some (false, h)
  else '(r, h) ← kfree arena h last;
  if negb r || negb (kheap_validate arena h) then Some (false, h)
  else let '(ok, measured) := kheap_get_stats arena h (Some final) in
  let final := default final measured in
  if negb ok || negb (heap_stats_match initial final) then Some (false, h)
  else Some (true, h).

(** ** The endpoints *)

Definition prepare_message (message : ipc_message) (sender type length seed : Z) : ipc_message :=
  mk_msg sender type length
    (fill_range 0 IPC_PAYLOAD_MAX (fun index => u8 (seed + index)) (msg_payload message)).

Definition payload_tail_is_zero (message : ipc_message) (from : Z) : bool :=
  all_range from IPC_PAYLOAD_MAX (fun index => (msg_payload message).[index] == 0).

(** The first loop: create every endpoint, all different. *)
Fixpoint create_endpoints (n : nat) (endpoint_index : Z) (endpoints : list Z) (s : ipc) : bool * list Z * ipc :=
  match n with
  | O => (true, endpoints, s)
  | S n =>
      let '(e, s) := ipc_endpoint_create s in
      let endpoints := endpoints.[endpoint_index <- e] in
      if endpoints.[endpoint_index] == IPC_INVALID_ENDPOINT then (false, endpoints, s)
      else if negb (all_range 0 endpoint_index (fun previous => endpoints.[previous] != endpoints.[endpoint_index]))
      then (false, endpoints, s)
      else create_endpoints n (endpoint_index + 1) endpoints s
  end.

(** Filling the queue of an endpoint. *)
Fixpoint send_numbered (n : nat) (message_index e : Z) (input : ipc_message) (s : ipc) : bool * ipc_message * ipc :=
  match n with
  | O => (true, input, s)
  | S n =>
      let input := prepare_message input 5 message_index 1 (u8 message_index) in
      let '(ok, s) := ipc_send e (Some input) s in
      if negb ok then (false, input, s) else send_numbered n (message_index + 1) e input s
  end.

(** Emptying it again, in order. *)
Fixpoint receive_numbered (n : nat) (message_index e : Z) (output : ipc_message) (s : ipc) : bool * ipc_message * ipc :=
  match n with
  | O => (true, output, s)
  | S n =>
      let '(ok, received, s) := ipc_receive e (Some output) s in
      let output := default output received in
      if negb ok || (msg_sender output != 5) || (msg_type output != message_index) || (msg_length output != 1)
         || ((msg_payload output).[0] != u8 message_index) || negb (payload_tail_is_zero output 1)
      then (false, output, s)
      else receive_numbered n (message_index + 1) e output s
  end.

(** [endpoints], [input] and [output] are uninitialised; the result is the
    test's, the flow endpoint and the endpoints' state. *)
Definition ipc_self_test (endpoints : list Z) (input output : ipc_message) (flow_endpoint : option Z) (s : ipc)
  : bool * option Z * ipc :=
  match flow_endpoint with
  | None => (false, flow_endpoint, s)
  | Some _ =>
      let s := ipc_init s in
      let '(ok, endpoints, s) := create_endpoints (Z.to_nat IPC_MAX_ENDPOINTS) 0 endpoints s in
      if negb ok then (false, flow_endpoint, s)
      else let '(e, s) := ipc_endpoint_create s in
      if (e != IPC_INVALID_ENDPOINT) || (ipc_pending endpoints.[1] s != 0) then (false, flow_endpoint, s)
      else
      let input := prepare_message input 7 9 3 0x20 in
      let '(ok, s) := ipc_send endpoints.[0] (Some input) s in
      if negb ok then (false, flow_endpoint, s)
      else
      let input := mk_msg 99 100 (msg_length input) (msg_payload input).[0 <- 0xFF] in
      let '(ok, received, s) := ipc_receive endpoints.[0] (Some output) s in
      let output := default output received in
      if negb ok || (msg_sender output != 7) || (msg_type output != 9) || (msg_length output != 3)
         || ((msg_payload output).[0] != 0x20) || ((msg_payload output).[1] != 0x21) || ((msg_payload output).[2] != 0x22)
         || negb (payload_tail_is_zero output 3) then (false, flow_endpoint, s)
      else
      let output := prepare_message output 0x11 0x22 32 0x33 in
      let '(ok, received, s) := ipc_receive endpoints.[0] (Some output) s in
      let output := default output received in
      if ok || (msg_sender output != 0x11) || (msg_type output != 0x22) || (msg_length output != 32)
         || ((msg_payload output).[0] != 0x33) || ((msg_payload output).[31] != 0x52) then (false, flow_endpoint, s)
      else
      let input := prepare_message input 1 2 (IPC_PAYLOAD_MAX + 1) 0x40 in
      let '(ok, s) := ipc_send endpoints.[0] (Some input) s in
      if ok || (ipc_rejected_count endpoints.[0] s != 0) then (false, flow_endpoint, s)
      else
      let input := prepare_message input 3 4 0 0x70 in
      let '(ok, s) := ipc_send endpoints.[0] (Some input) s in
      if negb ok then (false, flow_endpoint, s)
      else
      let '(ok, received, s) := ipc_receive endpoints.[0] (Some output) s in
      let output := default output received in
      if negb ok || (msg_length output != 0) || negb (payload_tail_is_zero output 0) then (false, flow_endpoint, s)
      else
      let '(ok, input, s) := send_numbered (Z.to_nat IPC_QUEUE_DEPTH) 0 endpoints.[0] input s in
      if negb ok || (ipc_pending endpoints.[0] s != IPC_QUEUE_DEPTH) then (false, flow_endpoint, s)
      else
      let '(ok, s) := ipc_send endpoints.[0] (Some input) s in
      if ok || (ipc_rejected_count endpoints.[0] s != 1) || (ipc_pending endpoints.[1] s != 0) then (false, flow_endpoint, s)
      else
      let '(ok, output, s) := receive_numbered (Z.to_nat IPC_QUEUE_DEPTH) 0 endpoints.[0] output s in
      if negb ok then (false, flow_endpoint, s)
      else
      let input := prepare_message input 8 10 IPC_PAYLOAD_MAX 0x10 in
      let '(ok, s) := ipc_send endpoints.[1] (Some input) s in
      if negb ok then (false, flow_endpoint, s)
      else
      let '(ok, received, s) := ipc_receive endpoints.[1] (Some output) s in
      let output := default output received in
      if negb ok || (msg_length output != IPC_PAYLOAD_MAX)
         || negb (all_range 0 IPC_PAYLOAD_MAX (fun i => (msg_payload output).[i] == u8 (0x10 + i)))
      then (false, flow_endpoint, s)
      else
      let s := ipc_init s in
      let '(flow, s) := ipc_endpoint_create s in
      ((flow != IPC_INVALID_ENDPOINT) && (ipc_pending flow s == 0) && (ipc_rejected_count flow s == 0), Some flow, s)
  end.

(** ** Paging *)

Definition VMM_TEST_ADDRESS : Z := 0xD0000000.
Definition VMM_TEST_SENTINEL : Z := 0xC0DEF00D.

Section VmmTest.
Context (directory_address tables_address : Z).

(** Aligned 32-bit accesses of the kernel once paging is on.  [None] is a page
    fault: no translation, or a store to a page that is not writable (CR0.WP is
    set).  [m] is the physical memory outside the paging structures. *)
Definition virtual_store32 (virtual_address value : Z) (v : vmm) (m : static_array) : option (vmm * static_array) :=
  match cpu_access directory_address tables_address virtual_address v with
  | (Some (frame, permissions), v) =>
      if permissions .& PAGE_WRITABLE == 0 then None
      else Some (v, store32 m (frame + virtual_address mod 4096) value)
  | (None, _) => None
  end.

Definition virtual_load32 (virtual_address : Z) (v : vmm) (m : static_array) : option (Z * vmm) :=
  match cpu_access directory_address tables_address virtual_address v with
  | (Some (frame, _), v) => Some (load32 m (frame + virtual_address mod 4096), v)
  | (None, _) => None
  end.

Definition vmm_self_test (s : pmm) (v : vmm) (m : static_array) : option (bool * (pmm * vmm * static_array)) :=
  let free_before := pmm_free_page_count s in
  let translated_address := Some 0xA5A5A5A5 in
  let unmapped_address := Some 0 in
  let '(ok, v) := vmm_init directory_address tables_address v in
  if negb ok || negb (vmm_is_enabled v) then Some (false, (s, v, m))
  else
  let '(physical_address, s) := pmm_alloc_page s in
  if (physical_address == 0) || (physical_address >=? VMM_IDENTITY_LIMIT)
     || (pmm_free_page_count s != u32 (free_before - 1)) then Some (false, (s, v, m))
  else
  let '(ok, v) := vmm_map_page tables_address VMM_TEST_ADDRESS physical_address VMM_WRITABLE v in
  if negb ok then Some (false, (s, v, m))
  else
  '(v, m) ← virtual_store32 VMM_TEST_ADDRESS VMM_TEST_SENTINEL v m;
  '(word, v) ← virtual_load32 physical_address v m;
  if word != VMM_TEST_SENTINEL then Some (false, (s, v, m))
  else
  let '(ok, translated_address) := vmm_translate (u32 (VMM_TEST_ADDRESS + 3)) translated_address v in
  if negb ok || negb (bool_decide (translated_address = Some (u32 (physical_address + 3)))) then Some (false, (s, v, m))
  else
  let '(ok, unmapped_address, v) := vmm_unmap_page VMM_TEST_ADDRESS unmapped_address v in
  if negb ok || negb (bool_decide (unmapped_address = Some physical_address)) then Some (false, (s, v, m))
  else
  let translated_address := Some 0xA5A5A5A5 in
  let '(ok, translated_address) := vmm_translate VMM_TEST_ADDRESS translated_address v in
  if ok || negb (bool_decide (translated_address = Some 0xA5A5A5A5)) then Some (false, (s, v, m))
  else
  let '(ok, s) := pmm_free_page physical_address s in
  if negb ok || (pmm_free_page_count s != free_before) then Some (false, (s, v, m))
  else Some (true, (s, v, m)).
End VmmTest.

(** ** They pass *)

Lemma keyboard_self_test_passes k :
  alen (character_queue k) = KEYBOARD_QUEUE_CAPACITY ->
  exists k', keyboard_self_test k = (true, k') /\ alen (character_queue k') = KEYBOARD_QUEUE_CAPACITY.
Proof.
  intros Hl. destruct k as [q ? ? ? ? ? ? ?]. cbn [character_queue] in *. destruct q as [|x q]; [discriminate Hl|].
  eexists. split; [vm_compute; reflexivity|]. exact Hl.
Qed.

Lemma ipc_self_test_passes endpoints input output flow s :
  alen endpoints = IPC_MAX_ENDPOINTS -> alen (msg_payload input) = IPC_PAYLOAD_MAX ->
  alen (msg_payload output) = IPC_PAYLOAD_MAX -> ipc_inv s ->
  exists s', ipc_self_test endpoints input output (Some flow) s = (true, Some 0, s') /\
    s' = snd (ipc_endpoint_create ipc_static).
Proof.
  intros He Hi Ho Hs. destruct input as [? ? ? p], output as [? ? ? q]. cbn [msg_payload] in *.
  change IPC_MAX_ENDPOINTS with 8 in He. change IPC_PAYLOAD_MAX with 32 in *.
  do 8 (destruct endpoints as [|? endpoints]; [discriminate He|]).
  destruct endpoints; [|rewrite !alen_cons in He; pose proof (alen_nonneg endpoints); lia].
  do 32 (destruct p as [|? p]; [discriminate Hi|]).
  destruct p; [|rewrite !alen_cons in Hi; pose proof (alen_nonneg p); lia].
  do 32 (destruct q as [|? q]; [discriminate Ho|]).
  destruct q; [|rewrite !alen_cons in Ho; pose proof (alen_nonneg q); lia].
  unfold ipc_self_test. rewrite ipc_init_static by done.
  eexists. split; vm_compute; reflexivity.
Qed.

(** Addresses relative to the arena are compared by arithmetic. *)
Ltac compare_addresses :=
  repeat match goal with |- context [?x =? ?y] =>
    first [rewrite (proj2 (Z.eqb_eq x y)) by lia | rewrite (proj2 (Z.eqb_neq x y)) by lia] end.

Section HeapTest.
Context (arena : Z) {Harena : ArenaPlacement arena}.

Lemma malloc_to h bs size p bs' :
  heap_wf arena h bs -> is_u32 size -> size_ok size = true -> abs_alloc arena (rounded size) bs = Some (p, bs') ->
  exists h', kmalloc arena h size = Some (p, h') /\ heap_wf arena h' bs'.
Proof using Harena.
  intros Hwf Hu Hok Ha. pose proof (kmalloc_cases arena h bs size Hwf Hu) as H. rewrite Hok, Ha in H.
  destruct H as (h' & E & Hwf' & _). by exists h'.
Qed.

Lemma free_to h bs p bs' :
  heap_wf arena h bs -> abs_free arena p bs = Some bs' -> exists h', kfree arena h p = Some (true, h') /\ heap_wf arena h' bs'.
Proof using Harena.
  intros Hwf Ha. pose proof (kfree_wf arena h bs p Hwf) as H. rewrite Ha in H. destruct H as (h' & E & Hwf' & _). by exists h'.
Qed.

Lemma free_refused h bs p : heap_wf arena h bs -> abs_free arena p bs = None -> kfree arena h p = Some (false, h).
Proof using Harena. intros Hwf Ha. pose proof (kfree_wf arena h bs p Hwf) as H. by rewrite Ha in H. Qed.

Lemma validates h bs : heap_wf arena h bs -> kheap_validate arena h = true.
Proof using Harena. intros Hwf. apply inspect_ok_iff; [done|eauto]. Qed.

(** The block lists of the test. *)
Definition one_block : list blk := [Blk 64 false; Blk 262016 true].
Definition two_blocks : list blk := [Blk 64 false; Blk 96 false; Blk 261888 true].
Definition three_blocks : list blk := [Blk 64 false; Blk 96 false; Blk 128 false; Blk 261728 true].
Definition middle_freed : list blk := [Blk 64 false; Blk 96 true; Blk 128 false; Blk 261728 true].
Definition first_freed : list blk := [Blk 192 true; Blk 128 false; Blk 261728 true].

Ltac free_blocks :=
  unfold abs_free; cbn [split_first]; unfold owns, blk_span, SIZEOF_HEAP_BLOCK, NULL; cbn [b_size b_free];
  compare_addresses; reflexivity.

Lemma test_blocks foreign :
  foreign < arena \/ arena + KHEAP_ARENA_SIZE <= foreign ->
  abs_free arena NULL one_block = None /\ abs_free arena foreign one_block = None /\
  abs_free arena (arena + 33) one_block = None /\ abs_free arena (arena + 32) one_block = Some fresh_blocks /\
  abs_free arena (arena + 32) fresh_blocks = None /\
  abs_free arena (arena + 128) three_blocks = Some middle_freed /\
  abs_free arena (arena + 32) middle_freed = Some first_freed /\
  abs_free arena (arena + 256) first_freed = Some fresh_blocks.
Proof using Harena.
  destruct Harena as [A1 A2 A3]. unfold KHEAP_ARENA_SIZE in *. intros Hf.
  assert (Hf1 : arena + 32 <> foreign) by lia. assert (Hf2 : arena + (32 + 64) + 32 <> foreign) by lia.
  split_and!; unfold one_block, fresh_blocks, three_blocks, middle_freed, first_freed; free_blocks.
Qed.

Lemma fresh_alloc : abs_alloc arena 64 fresh_blocks = Some (arena + 32, one_block) /\
  abs_alloc arena 96 one_block = Some (arena + 128, two_blocks) /\
  abs_alloc arena 128 two_blocks = Some (arena + 256, three_blocks).
Proof using.
  unfold abs_alloc. split; [|split].
  - change (split_first _ _ _) with (Some (@nil blk, Blk 262112 true, @nil blk)). do 2 f_equal. cbn [span foldr]. unfold SIZEOF_HEAP_BLOCK. lia.
  - change (split_first _ _ _) with (Some ([Blk 64 false], Blk 262016 true, @nil blk)). do 2 f_equal.
    change (span [Blk 64 false]) with 96. unfold SIZEOF_HEAP_BLOCK. lia.
  - change (split_first _ _ _) with (Some ([Blk 64 false; Blk 96 false], Blk 261888 true, @nil blk)). do 2 f_equal.
    change (span [Blk 64 false; Blk 96 false]) with 224. unfold SIZEOF_HEAP_BLOCK. lia.
Qed.

Lemma aligned_payload k : k mod 16 = 0 -> ((arena + k) .& 0x0F == 0) = true.
Proof using Harena.
  intros Hk. destruct Harena as [_ A2 _]. unfold KHEAP_ALIGNMENT in A2. change 0x0F with 15. rewrite land_15. apply Z.eqb_eq.
  Z.to_euclidean_division_equations. lia.
Qed.

Lemma payload_not_null k : 0 <= k -> (arena + k == NULL) = false.
Proof using Harena. intros Hk. destruct Harena as [A1 _ _]. apply Z.eqb_neq. unfold NULL. lia. Qed.

Lemma stats_read h bs st :
  heap_wf arena h bs -> kheap_get_stats arena h (Some st) = (true, Some (stats_of bs)).
Proof using Harena. intros Hwf. unfold kheap_get_stats. by rewrite (inspect_heap_wf arena h bs Hwf). Qed.

(** The requests the allocator must refuse. *)
Lemma refused_requests h :
  heap_wf arena h fresh_blocks ->
  kmalloc arena h 0 = Some (NULL, h) /\ kcalloc arena h 0 16 = Some (NULL, h) /\ kcalloc arena h SIZE_MAX 2 = Some (NULL, h).
Proof using Harena.
  intros Hwf. split; [exact (kmalloc_cases arena h _ 0 Hwf ltac:(done))|].
  split; [exact (kcalloc_wf arena h _ 0 16 Hwf ltac:(done) ltac:(done))|].
  exact (kcalloc_wf arena h _ SIZE_MAX 2 Hwf ltac:(done) ltac:(done)).
Qed.

(** The zeroed block. *)
Lemma zeroed_block h :
  heap_wf arena h fresh_blocks ->
  exists h', kcalloc arena h 17 3 = Some (arena + 32, h') /\ heap_wf arena h' one_block /\
    all_range 0 51 (fun index => u8 (zget (memory h') (u32 (arena + 32 + index))) == 0) = true.
Proof using Harena.
  intros Hwf. pose proof (kcalloc_wf arena h _ 17 3 Hwf ltac:(done) ltac:(done)) as H. cbv zeta in H.
  change ((17 * 3 <=? SIZE_MAX) && size_ok (17 * 3)) with true in H. change (rounded (17 * 3)) with 64 in H.
  rewrite (proj1 fresh_alloc) in H. destruct H as (h' & E & Hwf' & Hz & _). exists h'. split; [done|]. split; [done|].
  apply all_range_true. intros i Hi. destruct Harena as [A1 _ A3]. unfold KHEAP_ARENA_SIZE, UINT32_MAX in A3.
  rewrite u32_small by (unfold is_u32; lia). by rewrite Hz by lia.
Qed.

(** The test passes on every boot and leaves a heap with one free block. *)
Lemma heap_self_test_passes foreign initial final h :
  foreign < arena \/ arena + KHEAP_ARENA_SIZE <= foreign ->
  exists h', heap_self_test arena foreign initial final h = Some (true, h') /\ heap_wf arena h' fresh_blocks.
Proof using Harena.
  intros Hf. destruct (test_blocks foreign Hf) as (T1 & T2 & T3 & T4 & T5 & T6 & T7 & T8). destruct fresh_alloc as (F1 & F2 & F3).
  unfold heap_self_test. destruct (kheap_init_wf arena h) as (h0 & -> & W0).
  rewrite (validates h0 _ W0), (stats_read h0 _ _ W0). cbn [negb orb].
  change (default initial (Some ?x)) with x. change (stats_of fresh_blocks) with (mk_stats 262112 262112 262112 0).
  cbn [total_bytes free_bytes largest_free_block allocated_blocks Z.eqb Pos.eqb negb orb].
  destruct (refused_requests h0 W0) as (R1 & R2 & R3). rewrite R1. cbn [mbind option_bind]. rewrite Z.eqb_refl. cbn [negb].
  rewrite R2. cbn [mbind option_bind]. rewrite Z.eqb_refl. cbn [negb]. rewrite R3. cbn [mbind option_bind]. rewrite Z.eqb_refl. cbn [negb].
  destruct (zeroed_block h0 W0) as (h1 & -> & W1 & Hz). cbn [mbind option_bind].
  rewrite payload_not_null, aligned_payload by done. cbn [negb orb].
  rewrite (free_refused h1 _ NULL W1 T1). cbn [mbind option_bind]. rewrite (free_refused h1 _ foreign W1 T2). cbn [mbind option_bind].
  assert (E33 : u32 (arena + 32 + 1) = arena + 33).
  { destruct Harena as [A1 _ A3]. unfold KHEAP_ARENA_SIZE, UINT32_MAX in A3. rewrite u32_small by (unfold is_u32; lia). lia. }
  rewrite E33, (free_refused h1 _ (arena + 33) W1 T3). cbn [mbind option_bind]. rewrite Hz. cbn [negb].
  destruct (free_to h1 _ _ _ W1 T4) as (h2 & -> & W2). cbn [mbind option_bind negb].
  rewrite (free_refused h2 _ (arena + 32) W2 T5). cbn [mbind option_bind]. rewrite (validates h2 _ W2). cbn [negb orb].
  destruct (malloc_to h2 _ 64 _ _ W2 ltac:(done) ltac:(done) F1) as (h3 & -> & W3). cbn [mbind option_bind].
  destruct (malloc_to h3 _ 96 _ _ W3 ltac:(done) ltac:(done) F2) as (h4 & -> & W4). cbn [mbind option_bind].
  destruct (malloc_to h4 _ 128 _ _ W4 ltac:(done) ltac:(done) F3) as (h5 & -> & W5). cbn [mbind option_bind].
  rewrite !payload_not_null, !aligned_payload by done. cbn [negb orb].
  destruct (free_to h5 _ _ _ W5 T6) as (h6 & -> & W6). cbn [mbind option_bind]. rewrite (validates h6 _ W6). cbn [negb orb].
  destruct (free_to h6 _ _ _ W6 T7) as (h7 & -> & W7). cbn [mbind option_bind]. rewrite (validates h7 _ W7). cbn [negb orb].
  destruct (free_to h7 _ _ _ W7 T8) as (h8 & -> & W8). cbn [mbind option_bind]. rewrite (validates h8 _ W8), (stats_read h8 _ _ W8).
  cbn [negb orb]. exists h8. split; [done|done].
Qed.
End HeapTest.

Section VmmTestPasses.
Context (directory_address tables_address : Z) `{Hplace : VmmPlacement tables_address}.
Abbreviation inv := (vmm_inv directory_address tables_address).

(** Access through the invariant. *)
Lemma store_reaches va x v m space frame permissions :
  inv v space -> is_u32 va -> page_of space (page_number va) = Some (frame, permissions) ->
  permissions .& PAGE_WRITABLE <> 0 ->
  exists v', virtual_store32 directory_address tables_address va x v m = Some (v', store32 m (frame + va mod 4096) x) /\ inv v' space.
Proof using Hplace.
  intros Hv Hu Hp Hw. pose proof (access_refines _ _ Hplace va v space Hv Hu) as H. unfold virtual_store32.
  destruct (cpu_access _ _ va v) as [r v']. destruct H as [-> Hv']. rewrite Hp. apply Z.eqb_neq in Hw. rewrite Hw. eauto.
Qed.

Lemma load_reaches va v m space frame permissions :
  inv v space -> is_u32 va -> page_of space (page_number va) = Some (frame, permissions) ->
  exists v', virtual_load32 directory_address tables_address va v m = Some (load32 m (frame + va mod 4096), v') /\ inv v' space.
Proof using Hplace.
  intros Hv Hu Hp. pose proof (access_refines _ _ Hplace va v space Hv Hu) as H. unfold virtual_load32.
  destruct (cpu_access _ _ va v) as [r v']. destruct H as [-> Hv']. rewrite Hp. eauto.
Qed.

(** The allocator's side of the test. *)
Lemma alloc_counts s a s1 :
  pmm_inv s -> pmm_alloc_page s = (a, s1) -> a <> 0 ->
  exists p, valid_page p /\ 0 < p /\ a = p * PMM_PAGE_SIZE /\
    pmm_free_page_count s1 = u32 (pmm_free_page_count s - 1) /\
    exists s2, pmm_free_page a s1 = (true, s2) /\ pmm_inv s2 /\
      pages_equiv (page_state_of s2) (page_state_of s) /\ pmm_free_page_count s2 = pmm_free_page_count s.
Proof using.
  intros Hi E Ha. destruct (pmm_alloc_success _ _ _ Hi E Ha) as (p & Hp & H0 & -> & Hi1 & Hfree & Hst).
  exists p. split; [done|]. split; [done|]. split; [done|].
  pose proof (free_count_spec s _ Hi (pmm_abs_refines s)) as C0.
  pose proof (free_count_spec s1 (mk_spec (spec_update (page_state_of s) p PageAllocated) (spec_frozen (pmm_abs s1))) Hi1
    ltac:(by split)) as C1.
  cbn [spec_pages pmm_abs] in C0, C1. rewrite (free_count_update _ p PageAllocated Hp Hfree eq_refl), <-C0 in C1.
  pose proof (inv_counts_range s Hi) as Hc. pose proof (inv_counts_range s1 Hi1) as Hc1.
  unfold pmm_free_page_count, PMM_PAGE_COUNT in *. split; [rewrite u32_small by (unfold is_u32; lia); done|].
  pose proof (pmm_free_page_at p s1 Hp Hi1) as H. destruct (pmm_free_page _ s1) as [ok s2]. exists s2.
  rewrite (Hst p Hp), update_same, bool_decide_eq_true_2 in H by done. destruct H as (-> & Hi2 & Hst2).
  assert (Heq : pages_equiv (page_state_of s2) (page_state_of s)).
  { etransitivity; [exact Hst2|]. intros q Hq. unfold spec_update at 1. destruct (Z.eqb_spec q p) as [->|Hne]; [by rewrite Hfree|].
    rewrite (Hst q Hq). unfold spec_update. by rewrite (proj2 (Z.eqb_neq q p)). }
  split; [done|]. split; [done|]. split; [done|]. rewrite (inv_free _ Hi2), (inv_free _ Hi).
  apply count_range_ext. intros q Hq. by rewrite Heq.
Qed.

(** The address space the test goes through: empty, one page, empty. *)
Lemma test_address_mapped a :
  a mod 4096 = 0 ->
  spec_map VMM_TEST_ADDRESS a VMM_WRITABLE ∅ = (true, <[page_number VMM_TEST_ADDRESS := (a, VMM_WRITABLE)]> ∅) /\
  spec_unmap VMM_TEST_ADDRESS 0 (<[page_number VMM_TEST_ADDRESS := (a, VMM_WRITABLE)]> ∅) = (true, a, ∅).
Proof using.
  intros Ha. split.
  - unfold spec_map, map_arguments_valid. rewrite Ha, dirs_empty. reflexivity.
  - unfold spec_unmap. rewrite lookup_insert_eq. cbn [Z.eqb]. change (VMM_TEST_ADDRESS mod 4096 == 0) with true.
    by rewrite delete_insert_id.
Qed.

Lemma map_to va pa flags v space b space' :
  inv v space -> is_u32 va -> is_u32 pa -> is_u32 flags -> spec_map va pa flags space = (b, space') ->
  exists v', vmm_map_page tables_address va pa flags v = (b, v') /\ inv v' space'.
Proof using Hplace.
  intros Hv Hva Hpa Hf E. pose proof (map_refines _ _ Hplace va pa flags v space Hv Hva Hpa Hf) as H.
  rewrite E in H. destruct (vmm_map_page _ _ _ _ _) as [b' v']. destruct H as [-> H]. eauto.
Qed.

Lemma unmap_to va out v space b o space' :
  inv v space -> is_u32 va -> spec_unmap va out space = (b, o, space') ->
  exists v', vmm_unmap_page va (Some out) v = (b, Some o, v') /\ inv v' space'.
Proof using.
  intros Hv Hva E. pose proof (unmap_refines _ _ va out v space Hv Hva) as H. rewrite E in H.
  destruct (vmm_unmap_page _ _ _) as [[b' o'] v']. destruct H as (-> & -> & H). eauto.
Qed.

Lemma vmm_self_test_passes s v m a s1 :
  pmm_inv s -> enabled v = false -> alen (table_in_use v) = PAGE_TABLE_COUNT ->
  pmm_alloc_page s = (a, s1) -> a <> 0 -> a < VMM_IDENTITY_LIMIT ->
  exists s' v', vmm_self_test directory_address tables_address s v m =
      Some (true, (s', v', store32 m a VMM_TEST_SENTINEL)) /\
    pmm_inv s' /\ pages_equiv (page_state_of s') (page_state_of s) /\
    pmm_free_page_count s' = pmm_free_page_count s /\ inv v' ∅.
Proof using Hplace.
  intros Hi Hen Hl Ea Ha Hlim. pose proof (started_inv directory_address tables_address v Hen Hl) as Hv0.
  destruct (alloc_counts s a s1 Hi Ea Ha) as (p & Hp & H0 & Eap & C1 & s2 & Ef & Hi2 & Hpg & C2).
  assert (Hm : a mod 4096 = 0) by (rewrite Eap; apply Z.mod_mul; lia).
  assert (Hu : is_u32 a) by (unfold is_u32, VMM_IDENTITY_LIMIT, PMM_PAGE_SIZE in *; lia).
  destruct (test_address_mapped a Hm) as [Emap Eunmap].
  unfold vmm_self_test. unfold started in Hv0.
  assert (Eok : (vmm_init directory_address tables_address v).1 = true) by (unfold vmm_init; by rewrite Hen).
  destruct (vmm_init _ _ v) as [ok v0]. cbn [fst snd] in *. subst ok.
  unfold vmm_is_enabled. rewrite (vr_enabled _ _ _ _ _ (proj1 Hv0)), Ea. cbn [negb orb].
  apply Z.eqb_neq in Ha as Ha'. rewrite Ha', Z.geb_leb, (proj2 (Z.leb_gt _ _) Hlim), C1, Z.eqb_refl. cbn [negb orb].
  destruct (map_to VMM_TEST_ADDRESS a VMM_WRITABLE _ _ _ _ Hv0 ltac:(done) Hu ltac:(done) Emap) as (v1 & -> & Hv1). cbn [negb].
  destruct (store_reaches VMM_TEST_ADDRESS VMM_TEST_SENTINEL v1 m _ a PAGE_WRITABLE Hv1 ltac:(done)) as (v2 & -> & Hv2);
    [unfold page_of; by rewrite lookup_insert_eq|done|]. cbn [mbind option_bind].
  destruct (load_reaches a v2 (store32 m (a + VMM_TEST_ADDRESS mod 4096) VMM_TEST_SENTINEL) _ a PAGE_WRITABLE Hv2 Hu)
    as (v3 & -> & Hv3).
  { unfold page_of, page_number, VMM_IDENTITY_LIMIT, PMM_PAGE_SIZE in *. rewrite Eap, Z.div_mul by lia.
    by rewrite (proj2 (Z.leb_le 1 p)), (proj2 (Z.ltb_lt p 32768)) by lia. }
  cbn [mbind option_bind]. change (VMM_TEST_ADDRESS mod 4096) with 0. rewrite Hm, Z.add_0_r, load32_store32_eq, Z.eqb_refl by done.
  cbn [negb]. change (u32 (VMM_TEST_ADDRESS + 3)) with 0xD0000003.
  rewrite (translate_repr _ _ Hplace v3 _ _ 0xD0000003 _ (proj1 Hv3) ltac:(done)).
  unfold page_of at 1. change (page_number 0xD0000003) with (page_number VMM_TEST_ADDRESS). rewrite lookup_insert_eq.
  change ((1 <=? page_number VMM_TEST_ADDRESS) && (page_number VMM_TEST_ADDRESS <? 32768)) with false. cbn [fmap option_fmap option_map negb orb].
  change (0xD0000003 mod 4096) with 3.
  rewrite (u32_small (a + 3)) by (unfold is_u32, VMM_IDENTITY_LIMIT, PMM_PAGE_SIZE in *; lia).
  rewrite bool_decide_eq_true_2 by done. cbn [negb].
  destruct (unmap_to VMM_TEST_ADDRESS 0 _ _ _ _ _ Hv3 ltac:(done) Eunmap) as (v4 & -> & Hv4). cbn [negb orb].
  rewrite bool_decide_eq_true_2 by done. cbn [negb].
  rewrite (translate_repr _ _ Hplace v4 _ _ VMM_TEST_ADDRESS _ (proj1 Hv4) ltac:(done)).
  change (page_of ∅ (page_number VMM_TEST_ADDRESS)) with (@None (Z * Z)). cbv iota beta. rewrite bool_decide_eq_true_2 by done. cbn [negb orb].
  rewrite Ef, C2, Z.eqb_refl. cbn [negb orb]. exists s2, v4. by split_and!.
Qed.

Lemma vmm_self_test_fails s v m a s1 :
  enabled v = false -> pmm_alloc_page s = (a, s1) -> a = 0 \/ VMM_IDENTITY_LIMIT <= a ->
  vmm_self_test directory_address tables_address s v m =
  Some (false, (s1, started directory_address tables_address v, m)).
Proof using.
  intros Hen Ea Ha. unfold vmm_self_test, started.
  assert (E : vmm_init directory_address tables_address v = (true, (vmm_init directory_address tables_address v).2) /\
    enabled (vmm_init directory_address tables_address v).2 = true) by (unfold vmm_init; by rewrite Hen).
  destruct E as [E1 E2]. rewrite E1. unfold vmm_is_enabled. rewrite E2, Ea. cbn [negb orb snd].
  assert (E3 : (a == 0) || (a >=? VMM_IDENTITY_LIMIT) = true).
  { destruct Ha as [->|Ha]; [done|]. rewrite Z.geb_leb, (proj2 (Z.leb_le _ _) Ha). by rewrite orb_true_r. }
  by rewrite E3.
Qed.
End VmmTestPasses.

(** ** Properties *)

(** C31: [vmm_self_test], run before paging is on, never faults and passes
    exactly when the page the allocator gives it exists and lies under the
    identity limit; its store through the test address is then seen at the
    page's own address, and it leaves paging on with an empty dynamic space, no
    stale translation, every page in the state it was in and the rest of memory
    untouched. *)
Theorem vmm_self_test_exact directory_address tables_address `{VmmPlacement tables_address} s v m :
  pmm_inv s -> enabled v = false -> alen (table_in_use v) = PAGE_TABLE_COUNT ->
  let page := (pmm_alloc_page s).1 in
  let passed := negb (page == 0) && (page <? VMM_IDENTITY_LIMIT) in
  exists s' v' m', vmm_self_test directory_address tables_address s v m = Some (passed, (s', v', m')) /\
    vmm_inv directory_address tables_address v' ∅ /\
    (passed = true -> pmm_inv s' /\ pages_equiv (page_state_of s') (page_state_of s) /\
      pmm_free_page_count s' = pmm_free_page_count s /\ load32 m' page = VMM_TEST_SENTINEL /\
      forall x, x < page \/ page + 4 <= x -> zget m' x = zget m x).
Proof.
  intros Hi Hen Hl. cbv zeta. destruct (pmm_alloc_page s) as [a s1] eqn:Ea. cbn [fst].
  destruct (Z.eqb_spec a 0) as [->|Ha]; [|destruct (Z.ltb_spec a VMM_IDENTITY_LIMIT) as [Hlt|Hge]]; cbn [negb andb].
  - rewrite (vmm_self_test_fails _ _ s v m 0 s1) by auto. do 3 eexists. split; [done|]. split; [by apply started_inv|done].
  - destruct (vmm_self_test_passes directory_address tables_address s v m a s1 Hi Hen Hl Ea Ha Hlt)
      as (s' & v' & -> & ? & ? & ? & ?).
    do 3 eexists. split; [done|]. split; [done|]. intros _. rewrite load32_store32_eq by done.
    split_and!; [done..|]. intros x. apply zget_store32_ne.
  - rewrite (vmm_self_test_fails _ _ s v m a s1) by auto. do 3 eexists. split; [done|]. split; [by apply started_inv|done].
Qed.

Lemma vmm_self_test_exact_witness :
  exists s' v' m', vmm_self_test 0x1FF000 0x200000 pmm_demo_state vmm_static ∅ = Some (true, (s', v', m')) /\
    pmm_free_page_count s' = pmm_free_page_count pmm_demo_state /\ load32 m' 1056768 = VMM_TEST_SENTINEL.
Proof.
  destruct (vmm_self_test_exact 0x1FF000 0x200000 pmm_demo_state vmm_static ∅ (proj1 pmm_demo_state_ok) eq_refl eq_refl)
    as (s' & v' & m' & E & _ & H). rewrite pmm_demo_alloc in E, H. destruct (H eq_refl) as (_ & _ & Hc & Hs & _).
  exists s', v', m'. split; [exact E|]. split; [exact Hc|exact Hs].
Defined.

(** The heap, keyboard and endpoint self-tests of [kernel_main] pass on
    every machine and whatever their uninitialised variables hold: the heap is
    left as one free block covering the arena, the keyboard queue keeps its
    capacity, and the endpoints are left with exactly the endpoint the task
    flow uses. *)
Theorem boot_self_tests_pass arena `{ArenaPlacement arena} foreign initial final h k endpoints input output flow s :
  foreign < arena \/ arena + KHEAP_ARENA_SIZE <= foreign ->
  alen (character_queue k) = KEYBOARD_QUEUE_CAPACITY -> alen endpoints = IPC_MAX_ENDPOINTS ->
  alen (msg_payload input) = IPC_PAYLOAD_MAX -> alen (msg_payload output) = IPC_PAYLOAD_MAX -> ipc_inv s ->
  (exists h', heap_self_test arena foreign initial final h = Some (true, h') /\ heap_wf arena h' fresh_blocks) /\
  (exists k', keyboard_self_test k = (true, k') /\ alen (character_queue k') = KEYBOARD_QUEUE_CAPACITY) /\
  ipc_self_test endpoints input output (Some flow) s = (true, Some 0, (ipc_endpoint_create ipc_static).2).
Proof.
  intros Hf Hk He Hi Ho Hs. split; [by apply heap_self_test_passes|]. split; [by apply keyboard_self_test_passes|].
  destruct (ipc_self_test_passes endpoints input output flow s He Hi Ho Hs) as (s' & E & ->). exact E.
Qed.

Lemma boot_self_tests_pass_witness :
  exists h', heap_self_test 0x200000 0x7FF0 (mk_stats 1 2 3 4) (mk_stats 5 6 7 8) (mk_heap ∅ NULL false) = Some (true, h').
Proof.
  destruct (boot_self_tests_pass 0x200000 0x7FF0 (mk_stats 1 2 3 4) (mk_stats 5 6 7 8) (mk_heap ∅ NULL false) keyboard_static
    (replicate 8 99) (mk_msg 1 2 3 (replicate 32 4)) (mk_msg 5 6 7 (replicate 32 8)) 9 ipc_static
    ltac:(left; lia) eq_refl eq_refl eq_refl eq_refl ipc_static_inv) as ((h' & E & _) & _).
  exists h'. exact E.
Defined.
