(* ===== verification/TaskFlow.v ===== *)
(** * The task flow (src/kernel/kernel.c)

    The last test before the shell starts: [run_task_flow] creates a producer,
    a consumer and an observer of the timer and lets the scheduler run them.
    Each task is a thread that runs from where it was resumed to its next
    [task_yield] or to its end; the scheduler of Task.v decides who is next.
    Interrupts are enabled all the while.  Time is a sequence of moments, the
    reads of the timer's counters and the [hlt] instructions; the interrupt
    requests that arrive between one moment and the next are given, and a [hlt]
    lasts until one of them gets through. *)
From S2P Require Import Prelude Memory Console Pmm Heap Task Ring Ipc Keyboard Descriptors Pic Irq SystemStatus SelfTests.

Definition PIT_TEST_TICKS : Z := 3.
Definition TASK_FLOW_MESSAGES : Z := 6.
Definition TASK_FLOW_TYPE : Z := 0x54494E59.
Definition TASK_FLOW_BUDGET : Z := 256.
Definition TASK_FLOW_MIN_SWITCHES : Z := 2 * (TASK_FLOW_MESSAGES + 1) + PIT_TEST_TICKS.

(** The statics of kernel.c. *)
Record flow := mk_flow {
  task_flow_endpoint : Z;
  producer_task_id : Z;
  task_flow_tick_start : Z;
  task_flow_irq_start : Z;
  produced_messages : Z;
  consumed_messages : Z;
  producer_finished : bool;
  consumer_finished : bool;
  timer_observer_finished : bool;
  task_flow_failed : bool;
}.

Definition set_produced (n : Z) (finished : bool) (f : flow) : flow :=
  mk_flow (task_flow_endpoint f) (producer_task_id f) (task_flow_tick_start f) (task_flow_irq_start f) n
    (consumed_messages f) finished (consumer_finished f) (timer_observer_finished f) (task_flow_failed f).

Definition set_consumed (n : Z) (finished failed : bool) (f : flow) : flow :=
  mk_flow (task_flow_endpoint f) (producer_task_id f) (task_flow_tick_start f) (task_flow_irq_start f)
    (produced_messages f) n (producer_finished f) finished (timer_observer_finished f) failed.

Definition set_observer (ticks irqs : Z) (finished : bool) (f : flow) : flow :=
  mk_flow (task_flow_endpoint f) (producer_task_id f) ticks irqs (produced_messages f)
    (consumed_messages f) (producer_finished f) (consumer_finished f) finished (task_flow_failed f).

(** What the tasks share; [w_moment] is the next moment. *)
Record world := mk_world { w_flow : flow; w_ipc : ipc; w_sched : sched; w_moment : nat }.

Definition set_w_flow (f : flow) (w : world) : world := mk_world f (w_ipc w) (w_sched w) (w_moment w).
Definition set_w_ipc (q : ipc) (w : world) : world := mk_world (w_flow w) q (w_sched w) (w_moment w).
Definition set_w_sched (s : sched) (w : world) : world := mk_world (w_flow w) (w_ipc w) s (w_moment w).

(** Where a suspended thread goes on, with its local variables. *)
Inductive thread :=
| ProducerRetry (sequence : Z) (message : ipc_message)
| ProducerNext (sequence : Z)
| ConsumerRetry (sequence : Z) (message : ipc_message)
| ConsumerNext (sequence : Z)
| ObserverLoop.

(** How a thread gives up the processor. *)
Inductive pause := Yields (t : thread) | Exits.

Section Flow.
(** [now n] is the state of the interrupt lines and devices at moment [n] and
    [lines n] are the requests between [n] and the next moment; [patience]
    bounds how long a sleeping processor is watched; [junk] is the
    uninitialised [message] of an iteration. *)
Context (now : nat -> irqs devices * devices) (lines : nat -> list Z) (patience : nat) (junk : Z -> ipc_message).

(** [hlt] at moment [n]: the moment after the first interrupt that gets
    through.  [None]: still asleep after [fuel] more intervals. *)
Fixpoint hlt (fuel n : nat) : option nat :=
  if negb (bool_decide (through (now n).1 (lines n) = [])) then Some (S n)
  else
    match fuel with
    | O => None
    | S fuel => hlt fuel (S n)
    end.

Definition ticks_at (n : nat) : Z := pit_ticks (dev_pit (now n).2).
Definition irqs_at (n : nat) : Z := irq_count 0 (now n).1.

(** ** The three tasks *)

(** [while (!ipc_send(...)) task_yield();] and what follows it. *)
Definition producer_send (sequence : Z) (message : ipc_message) (w : world) : world * pause :=
  let '(ok, q) := ipc_send (task_flow_endpoint (w_flow w)) (Some message) (w_ipc w) in
  let w := set_w_ipc q w in
  if negb ok then (w, Yields (ProducerRetry sequence message))
  else
    let f := w_flow w in
    (set_w_flow (set_produced (u32 (produced_messages f + 1)) (producer_finished f) f) w, Yields (ProducerNext sequence)).

(** The loop from its test on. *)
Definition producer_task (sequence : Z) (w : world) : world * pause :=
  if sequence <? TASK_FLOW_MESSAGES then
    let message := prepare_message (junk sequence) (task_current_id (w_sched w)) TASK_FLOW_TYPE 4 0 in
    let payload := (msg_payload message).[0 <- u8 sequence] in
    let payload := payload.[1 <- 0xA5] in
    let payload := payload.[2 <- 0x5A] in
    let payload := payload.[3 <- u8 (Z.lxor sequence 0xFF)] in
    producer_send sequence (mk_msg (msg_sender message) (msg_type message) (msg_length message) payload) w
  else
    let f := w_flow w in
    (set_w_flow (set_produced (produced_messages f) true f) w, Exits).

Definition consumer_receive (sequence : Z) (message : ipc_message) (w : world) : world * pause :=
  let '(ok, received, q) := ipc_receive (task_flow_endpoint (w_flow w)) (Some message) (w_ipc w) in
  let message := default message received in
  let w := set_w_ipc q w in
  let f := w_flow w in
  if negb ok then (w, Yields (ConsumerRetry sequence message))
  else if (msg_sender message != producer_task_id f) || (msg_type message != TASK_FLOW_TYPE)
     || (msg_length message != 4) || ((msg_payload message).[0] != u8 sequence)
     || ((msg_payload message).[1] != 0xA5) || ((msg_payload message).[2] != 0x5A)
     || ((msg_payload message).[3] != u8 (Z.lxor sequence 0xFF)) || negb (payload_tail_is_zero message 4) then
    (set_w_flow (set_consumed (consumed_messages f) (consumer_finished f) true f) w, Exits)
  else
    (set_w_flow (set_consumed (u32 (consumed_messages f + 1)) (consumer_finished f) (task_flow_failed f) f) w,
     Yields (ConsumerNext sequence)).

Definition consumer_task (sequence : Z) (w : world) : world * pause :=
  if sequence <? TASK_FLOW_MESSAGES then consumer_receive sequence (junk sequence) w
  else
    let f := w_flow w in
    (set_w_flow (set_consumed (consumed_messages f) true (task_flow_failed f) f) w, Exits).

(** The observer's loop: its test reads the timer at two moments, the second
    only when the first is not enough to go on waiting; a test that goes on is
    followed by [hlt] and a yield.  [None]: asleep. *)
Definition observer_waits (f : flow) (moment : nat) : bool :=
  (u32 (ticks_at moment - task_flow_tick_start f) <? PIT_TEST_TICKS)
  || (u32 (irqs_at (S moment) - task_flow_irq_start f) <? PIT_TEST_TICKS).

Definition observer_loop (w : world) : option (world * pause) :=
  let f := w_flow w in
  let n := S (S (w_moment w)) in
  if observer_waits f (w_moment w) then
    n ← hlt patience n;
    Some (mk_world f (w_ipc w) (w_sched w) n, Yields ObserverLoop)
  else
    Some (mk_world (set_observer (task_flow_tick_start f) (task_flow_irq_start f) true f) (w_ipc w) (w_sched w) n, Exits).

Definition timer_observer_task (w : world) : option (world * pause) :=
  let f := w_flow w in
  let n := w_moment w in
  observer_loop (mk_world (set_observer (ticks_at n) (irqs_at (S n)) (timer_observer_finished f) f)
                   (w_ipc w) (w_sched w) (S (S n))).

Definition resume (t : thread) (w : world) : option (world * pause) :=
  match t with
  | ProducerRetry sequence message => Some (producer_send sequence message w)
  | ProducerNext sequence => Some (producer_task (u32 (sequence + 1)) w)
  | ConsumerRetry sequence message => Some (consumer_receive sequence message w)
  | ConsumerNext sequence => Some (consumer_task (u32 (sequence + 1)) w)
  | ObserverLoop => observer_loop w
  end.

(** ** Running them *)

(** The addresses of the three functions, of the stacks and of the two
    functions a fresh stack refers to. *)
Context (producer_address consumer_address observer_address : Z).
Context (task_stacks task_exit_address task_trampoline_address : Z).

(** A call through the trampoline's function pointer. *)
Definition enter (entry : Z) (w : world) : option (world * pause) :=
  if entry == producer_address then Some (producer_task 0 w)
  else if entry == consumer_address then Some (consumer_task 0 w)
  else if entry == observer_address then timer_observer_task w
  else None.

(** The slice of a task that was switched to: a fresh one starts in the
    trampoline. *)
Definition slice (id : Z) (threads : list (option thread)) (w : world) : option (world * pause) :=
  match threads.[id] with
  | Some t => resume t w
  | None => '(entry, _) ← task_trampoline (w_sched w); enter entry w
  end.

(** A thread that ends, also by returning to the trampoline, calls
    [task_exit]. *)
Fixpoint run_threads (fuel : nat) (e : Z) (c : context) (threads : list (option thread)) (w : world) : option world :=
  match c with
  | Bootstrap => Some w
  | TaskContext id =>
      match fuel with
      | O => None
      | S fuel =>
          '(w, p) ← slice id threads w;
          match p with
          | Yields t =>
              '(c, s) ← lands c (task_yield e (w_sched w));
              run_threads fuel e c threads.[id <- Some t] (set_w_sched s w)
          | Exits =>
              '(c, s) ← lands c (task_exit e (w_sched w));
              run_threads fuel e c threads (set_w_sched s w)
          end
      end
  end.

(** A whole call of [task_run]. *)
Definition run_flow_tasks (e : Z) (w : world) : option (bool * world) :=
  match task_run TASK_FLOW_BUDGET e (w_sched w) with
  | Returns complete _ s => Some (complete, set_w_sched s w)
  | Switches _ to _ s =>
      w ← run_threads (Z.to_nat TASK_FLOW_BUDGET) e to (replicate (Z.to_nat TASK_MAX_TASKS) None) (set_w_sched s w);
      match task_run_resumed e (w_sched w) with
      | Returns complete _ s => Some (complete, set_w_sched s w)
      | _ => None
      end
  | Stops _ => None
  end.

(** [task_create] returns to its caller. *)
Definition create (entry e : Z) (s : sched) (m : static_array) : option (Z * sched * static_array) :=
  match task_create task_stacks task_exit_address task_trampoline_address entry NULL e s m with
  | (Returns id _ s, m) => Some (id, s, m)
  | _ => None
  end.

(** The tests at the end of [run_task_flow]. *)
Definition flow_verdict (w : world) : bool :=
  let f := w_flow w in
  let switches := task_switch_count (w_sched w) in
  negb (task_flow_failed f) && producer_finished f && consumer_finished f && timer_observer_finished f
  && (produced_messages f == TASK_FLOW_MESSAGES) && (consumed_messages f == TASK_FLOW_MESSAGES)
  && (ipc_pending (task_flow_endpoint f) (w_ipc w) == 0) && (ipc_rejected_count (task_flow_endpoint f) (w_ipc w) == 0)
  && (task_finished_count (w_sched w) == 3) && (task_current_id (w_sched w) == TASK_INVALID_ID)
  && (switches >=? TASK_FLOW_MIN_SWITCHES) && (switches <=? TASK_FLOW_BUDGET)
  && (u32 (ticks_at (w_moment w) - task_flow_tick_start f) >=? PIT_TEST_TICKS)
  && (u32 (irqs_at (S (w_moment w)) - task_flow_irq_start f) >=? PIT_TEST_TICKS).

(** [None] is a processor that sleeps on in [hlt]; a halted scheduler and
    running out of fuel, also [None], cannot happen. *)
Definition run_task_flow (e : Z) (m : static_array) (w : world) : option (bool * world * static_array) :=
  let f := w_flow w in
  let f := mk_flow (task_flow_endpoint f) (producer_task_id f) (task_flow_tick_start f) (task_flow_irq_start f)
             0 0 false false false false in
  '(_, s) ← lands Bootstrap (task_system_init e (w_sched w));
  '(producer_id, s, m) ← create producer_address e s m;
  '(consumer_id, s, m) ← create consumer_address e s m;
  '(observer_id, s, m) ← create observer_address e s m;
  let f := mk_flow (task_flow_endpoint f) producer_id (task_flow_tick_start f) (task_flow_irq_start f)
             0 0 false false false false in
  let w := mk_world f (w_ipc w) s (w_moment w) in
  if (producer_id == TASK_INVALID_ID) || (consumer_id == TASK_INVALID_ID) || (observer_id == TASK_INVALID_ID)
     || (producer_id == consumer_id) || (producer_id == observer_id) || (consumer_id == observer_id)
  then Some (false, w, m)
  else
    '(complete, w) ← run_flow_tasks e w;
    if negb complete then Some (false, w, m) else Some (flow_verdict w, w, m).
End Flow.

(** ** The scheduler's part

    The three tasks occupy the first three slots; [sts] are their states. *)
Section Proof.
Context (now : nat -> irqs devices * devices) (lines : nat -> list Z) (patience : nat) (junk : Z -> ipc_message).
Context (pa ca oa ts ex tr : Z) (sp0 sp1 sp2 e : Z).
Hypothesis Hjunk : forall i, alen (msg_payload (junk i)) = IPC_PAYLOAD_MAX.
Hypothesis Haddresses : pa <> NULL /\ ca <> NULL /\ oa <> NULL /\ pa <> ca /\ pa <> oa /\ ca <> oa.

Definition tcbs (a b c : task_state) : list task_control_block :=
  [mk_tcb a pa NULL sp0; mk_tcb b ca NULL sp1; mk_tcb c oa NULL sp2] ++ replicate 5 unused_task.

Definition running (a b c : task_state) (cur rem sw fin : Z) : sched :=
  mk_sched (tcbs a b c) 0 cur cur rem sw fin true true.

Definition stopped (a b c : task_state) (cur rem sw fin : Z) : sched :=
  mk_sched (tcbs a b c) 0 TASK_INVALID_ID cur rem sw fin true false.

Abbreviation READY := TASK_STATE_READY.
Abbreviation RUN := TASK_STATE_RUNNING.
Abbreviation FIN := TASK_STATE_FINISHED.

Definition marked (cur : Z) (st a b c : task_state) : task_state * task_state * task_state :=
  if cur == 0 then (st, b, c) else if cur == 1 then (a, st, c) else (a, b, st).

Definition state_of (cur : Z) (a b c : task_state) : task_state := if cur == 0 then a else if cur == 1 then b else c.

Lemma put_running cur st a b c rem sw fin cur' :
  0 <= cur < 3 -> let '(a', b', c') := marked cur st a b c in
  put_state cur st (running a b c cur' rem sw fin) = running a' b' c' cur' rem sw fin.
Proof using.
  intros Hc. assert (cur = 0 \/ cur = 1 \/ cur = 2) as [->|[->| ->]] by lia; reflexivity.
Qed.

Lemma state_running cur a b c rem sw fin cur' :
  0 <= cur < 3 -> state_at (running a b c cur' rem sw fin) cur = state_of cur a b c.
Proof using. intros Hc. assert (cur = 0 \/ cur = 1 \/ cur = 2) as [->|[->| ->]] by lia; reflexivity. Qed.

(** A ready task is dispatched while the budget lasts. *)
Lemma activate_running next a b c cur rem sw fin :
  0 <= next < 3 -> state_of next a b c = READY -> 0 < rem < 4294967296 -> 0 <= sw < 4294967295 ->
  let '(a', b', c') := marked next RUN a b c in
  activate_task next (running a b c cur rem sw fin) = (true, running a' b' c' next (rem - 1) (sw + 1) fin).
Proof using.
  intros Hn Hst Hr Hs. unfold activate_task. rewrite state_running, Hst, bool_decide_eq_true_2 by done.
  rewrite Z.geb_leb, (proj2 (Z.leb_gt _ _)) by (unfold TASK_MAX_TASKS; lia). cbn [remaining_dispatches running negb orb].
  rewrite (proj2 (Z.eqb_neq rem 0)) by lia. pose proof (put_running next RUN a b c rem sw fin cur Hn) as H.
  destruct (marked next RUN a b c) as [[a' b'] c']. rewrite H. cbn [tasks running bootstrap_stack_pointer remaining_dispatches switch_count
    finished_count scheduler_initialized scheduler_running]. rewrite !u32_small by (unfold is_u32; lia). reflexivity.
Qed.

Lemma in_task_running cur a b c rem sw fin :
  0 <= cur < 3 -> state_of cur a b c = RUN -> in_task_context (running a b c cur rem sw fin) = true.
Proof using.
  intros Hc Hst. unfold in_task_context. cbn [scheduler_initialized scheduler_running current_task_id running].
  rewrite state_running, Hst, bool_decide_eq_true_2 by done. rewrite (proj2 (Z.ltb_lt _ _)) by (unfold TASK_MAX_TASKS; lia). done.
Qed.

(** Who comes next depends on the states only. *)
Definition next_after (cur : Z) (a b c : task_state) : Z := find_next_ready (running a b c 0 0 0 0) cur.

(** Yielding with budget left and a ready task [next], possibly itself. *)
Lemma yield_running cur next a b c rem sw fin :
  0 <= cur < 3 -> 0 <= next < 3 -> state_of cur a b c = RUN -> 0 < rem < 4294967296 -> 0 <= sw < 4294967295 ->
  let '(a1, b1, c1) := marked cur READY a b c in
  next_after cur a1 b1 c1 = next -> state_of next a1 b1 c1 = READY ->
  let '(a2, b2, c2) := marked next RUN a1 b1 c1 in
  lands (TaskContext cur) (task_yield e (running a b c cur rem sw fin)) =
  Some (TaskContext next, running a2 b2 c2 next (rem - 1) (sw + 1) fin).
Proof using.
  intros Hc Hn Hst Hr Hs. pose proof (put_running cur READY a b c rem sw fin cur Hc) as Hput.
  destruct (marked cur READY a b c) as [[a1 b1] c1]. intros Hnext Hrd.
  pose proof (activate_running next a1 b1 c1 cur rem sw fin Hn Hrd Hr Hs) as Ha.
  destruct (marked next RUN a1 b1 c1) as [[a2 b2] c2].
  unfold task_yield, interrupt_state_save_and_disable. rewrite in_task_running by done. cbn [negb current_task_id running] in *.
  rewrite Hput. change (find_next_ready (running a1 b1 c1 cur rem sw fin) cur) with (next_after cur a1 b1 c1). rewrite Hnext.
  cbn [remaining_dispatches running]. rewrite (proj2 (Z.eqb_neq next _)), (proj2 (Z.eqb_neq rem 0)) by (unfold TASK_INVALID_ID, UINT32_MAX; lia).
  cbn [negb andb]. rewrite Ha. by destruct (Z.eqb_spec next cur) as [->|].
Qed.

(** Yielding when the budget is used up. *)
Lemma yield_exhausted cur a b c sw fin :
  0 <= cur < 3 -> state_of cur a b c = RUN ->
  let '(a1, b1, c1) := marked cur READY a b c in
  lands (TaskContext cur) (task_yield e (running a b c cur 0 sw fin)) = Some (Bootstrap, stopped a1 b1 c1 cur 0 sw fin).
Proof using.
  intros Hc Hst. pose proof (put_running cur READY a b c 0 sw fin cur Hc) as Hput.
  destruct (marked cur READY a b c) as [[a1 b1] c1]. unfold task_yield, interrupt_state_save_and_disable.
  rewrite in_task_running by done. cbn [negb current_task_id running] in *. rewrite Hput.
  cbn [remaining_dispatches running]. by rewrite andb_false_r.
Qed.

(** Exiting, to the next task or for good. *)
Lemma exit_running cur next a b c rem sw fin :
  0 <= cur < 3 -> state_of cur a b c = RUN -> 0 <= rem < 4294967296 -> 0 <= sw < 4294967295 -> 0 <= fin < 4294967295 ->
  let '(a1, b1, c1) := marked cur FIN a b c in
  next_after cur a1 b1 c1 = next ->
  (0 <= next < 3 -> 0 < rem -> state_of next a1 b1 c1 = READY ->
   let '(a2, b2, c2) := marked next RUN a1 b1 c1 in
   lands (TaskContext cur) (task_exit e (running a b c cur rem sw fin)) =
   Some (TaskContext next, running a2 b2 c2 next (rem - 1) (sw + 1) (fin + 1))) /\
  (next = TASK_INVALID_ID ->
   lands (TaskContext cur) (task_exit e (running a b c cur rem sw fin)) =
   Some (Bootstrap, stopped a1 b1 c1 cur rem sw (fin + 1))).
Proof using.
  intros Hc Hst Hr Hs Hf. pose proof (put_running cur FIN a b c rem sw fin cur Hc) as Hput.
  destruct (marked cur FIN a b c) as [[a1 b1] c1]. intros Hnext.
  unfold task_exit, interrupt_state_save_and_disable. rewrite in_task_running by done.
  cbn [negb current_task_id running] in *. rewrite Hput.
  change (set_finished (u32 (finished_count (running a1 b1 c1 cur rem sw fin) + 1)) (running a1 b1 c1 cur rem sw fin))
    with (running a1 b1 c1 cur rem sw (u32 (fin + 1))). rewrite u32_small by (unfold is_u32; lia).
  change (find_next_ready (running a1 b1 c1 cur rem sw (fin + 1)) cur) with (next_after cur a1 b1 c1). rewrite Hnext.
  cbn [remaining_dispatches running]. split.
  - intros Hn Hr0 Hrd. pose proof (activate_running next a1 b1 c1 cur rem sw (fin + 1) Hn Hrd ltac:(lia) Hs) as Ha.
    destruct (marked next RUN a1 b1 c1) as [[a2 b2] c2].
    rewrite (proj2 (Z.eqb_neq next _)), (proj2 (Z.eqb_neq rem 0)) by (unfold TASK_INVALID_ID, UINT32_MAX; lia).
    cbn [negb andb]. by rewrite Ha.
  - intros ->. reflexivity.
Qed.
(** ** The tasks' part *)

(** The message of an iteration and the endpoints after [i] exchanges. *)
Definition flow_message (i : Z) : ipc_message :=
  mk_msg 0 TASK_FLOW_TYPE 4 ([u8 i; 0xA5; 0x5A; u8 (Z.lxor i 0xFF)] ++ ((fun k => Z.of_nat k) <$> seq 4 28)).

Fixpoint queue_at (i : nat) : ipc :=
  match i with
  | O => (ipc_endpoint_create ipc_static).2
  | S i => (ipc_receive 0 (Some zero_message) (ipc_send 0 (Some (flow_message (Z.of_nat i))) (queue_at i)).2).2
  end.

Definition queue_sent (i : nat) : ipc := (ipc_send 0 (Some (flow_message (Z.of_nat i))) (queue_at i)).2.

Ltac six i H :=
  assert (i = 0 \/ i = 1 \/ i = 2 \/ i = 3 \/ i = 4 \/ i = 5)%nat as [->|[->|[->|[->|[->| ->]]]]] by lia.

Lemma send_message i : (i < 6)%nat ->
  ipc_send 0 (Some (flow_message (Z.of_nat i))) (queue_at i) = (true, queue_sent i).
Proof using. intros Hi. six i Hi; vm_compute; reflexivity. Qed.

(** The payload of a buffer is overwritten whatever it held. *)
Lemma receive_message i out : (i < 6)%nat -> alen (msg_payload out) = IPC_PAYLOAD_MAX ->
  ipc_receive 0 (Some out) (queue_sent i) = (true, Some (copied_message (flow_message (Z.of_nat i))), queue_at (S i)).
Proof using.
  intros Hi Ho. unfold ipc_receive, endpoint_receive. cbv zeta. rewrite (fill_range_tabulate IPC_PAYLOAD_MAX _ _ ltac:(unfold IPC_PAYLOAD_MAX; lia) Ho).
  six i Hi; vm_compute; reflexivity.
Qed.

Lemma producer_message i : (i < 6)%nat ->
  let message := prepare_message (junk (Z.of_nat i)) 0 TASK_FLOW_TYPE 4 0 in
  mk_msg (msg_sender message) (msg_type message) (msg_length message)
    (msg_payload message).[0 <- u8 (Z.of_nat i)].[1 <- 0xA5].[2 <- 0x5A].[3 <- u8 (Z.lxor (Z.of_nat i) 0xFF)] =
  flow_message (Z.of_nat i).
Proof using Hjunk.
  intros Hi. unfold prepare_message. rewrite (fill_range_tabulate IPC_PAYLOAD_MAX _ _ ltac:(unfold IPC_PAYLOAD_MAX; lia) (Hjunk _)).
  six i Hi; vm_compute; reflexivity.
Qed.

(** The message is accepted by the consumer. *)
Lemma consumer_accepts i : (i < 6)%nat ->
  let message := copied_message (flow_message (Z.of_nat i)) in
  (msg_sender message != 0) || (msg_type message != TASK_FLOW_TYPE)
  || (msg_length message != 4) || ((msg_payload message).[0] != u8 (Z.of_nat i))
  || ((msg_payload message).[1] != 0xA5) || ((msg_payload message).[2] != 0x5A)
  || ((msg_payload message).[3] != u8 (Z.lxor (Z.of_nat i) 0xFF)) || negb (payload_tail_is_zero message 4) = false.
Proof using. intros Hi. six i Hi; vm_compute; reflexivity. Qed.

Definition flow_at (t0 i0 p c : Z) (pf cf fo : bool) : flow := mk_flow 0 0 t0 i0 p c pf cf fo false.

Lemma producer_slice i t0 i0 c fo s n :
  (i < 6)%nat -> task_current_id s = 0 ->
  producer_task junk (Z.of_nat i) (mk_world (flow_at t0 i0 (Z.of_nat i) c false false fo) (queue_at i) s n) =
  (mk_world (flow_at t0 i0 (Z.of_nat (S i)) c false false fo) (queue_sent i) s n, Yields (ProducerNext (Z.of_nat i))).
Proof using Hjunk.
  intros Hi Hs. unfold producer_task, TASK_FLOW_MESSAGES. rewrite (proj2 (Z.ltb_lt _ 6)) by lia. cbn [w_sched]. rewrite Hs.
  pose proof (producer_message i Hi) as H. cbv zeta in *. rewrite H. unfold producer_send.
  cbn [w_flow w_ipc flow_at task_flow_endpoint]. rewrite send_message by done. cbn [negb].
  unfold set_w_ipc, set_w_flow, set_produced. cbn [w_flow w_ipc w_sched w_moment flow_at task_flow_endpoint producer_task_id
    task_flow_tick_start task_flow_irq_start produced_messages consumed_messages producer_finished consumer_finished
    timer_observer_finished task_flow_failed].
  rewrite u32_small by (unfold is_u32; lia). do 3 f_equal. unfold flow_at. f_equal. lia.
Qed.

Lemma consumer_slice i t0 i0 p fo s n :
  (i < 6)%nat ->
  consumer_task junk (Z.of_nat i) (mk_world (flow_at t0 i0 p (Z.of_nat i) false false fo) (queue_sent i) s n) =
  (mk_world (flow_at t0 i0 p (Z.of_nat (S i)) false false fo) (queue_at (S i)) s n, Yields (ConsumerNext (Z.of_nat i))).
Proof using Hjunk.
  intros Hi. unfold consumer_task, TASK_FLOW_MESSAGES. rewrite (proj2 (Z.ltb_lt _ 6)) by lia. unfold consumer_receive.
  cbn [w_flow w_ipc flow_at task_flow_endpoint]. rewrite receive_message by done. change (default ?x (Some ?y)) with y.
  cbn [negb set_w_ipc w_flow flow_at producer_task_id]. pose proof (consumer_accepts i Hi) as H. cbv zeta in H. rewrite H.
  unfold set_w_ipc, set_w_flow, set_consumed. cbn [w_flow w_ipc w_sched w_moment flow_at task_flow_endpoint producer_task_id
    task_flow_tick_start task_flow_irq_start produced_messages consumed_messages producer_finished consumer_finished
    timer_observer_finished task_flow_failed].
  rewrite u32_small by (unfold is_u32; lia). do 3 f_equal. unfold flow_at. f_equal. lia.
Qed.

(** ** Slices and rounds *)

Abbreviation slice' := (slice now lines patience junk pa ca oa).
Abbreviation run := (run_threads now lines patience junk pa ca oa).

Definition thr (x y z : option thread) : list (option thread) := [x; y; z] ++ replicate 5 None.

(** Where a task is before its slice [i]. *)
Definition at_slice (t : Z -> thread) (i : nat) : option thread :=
  match i with
  | O => None
  | S i => Some (t (Z.of_nat i))
  end.

Lemma run_yield fuel id threads w w' t c s :
  slice' id threads w = Some (w', Yields t) -> lands (TaskContext id) (task_yield e (w_sched w')) = Some (c, s) ->
  run (S fuel) e (TaskContext id) threads w = run fuel e c threads.[id <- Some t] (set_w_sched s w').
Proof using. intros Hs Hl. cbn [run_threads]. rewrite Hs. cbn [mbind option_bind]. by rewrite Hl. Qed.

Lemma run_exit fuel id threads w w' c s :
  slice' id threads w = Some (w', Exits) -> lands (TaskContext id) (task_exit e (w_sched w')) = Some (c, s) ->
  run (S fuel) e (TaskContext id) threads w = run fuel e c threads (set_w_sched s w').
Proof using. intros Hs Hl. cbn [run_threads]. rewrite Hs. cbn [mbind option_bind]. by rewrite Hl. Qed.

(** A slice that does not end. *)
Lemma run_asleep fuel id threads w : slice' id threads w = None -> run (S fuel) e (TaskContext id) threads w = None.
Proof using. intros Hs. cbn [run_threads]. by rewrite Hs. Qed.

(** A task starts in its function. *)
Lemma enters cur a b c rem sw fin w :
  0 <= cur < 3 -> state_of cur a b c = RUN -> w_sched w = running a b c cur rem sw fin ->
  ('(entry, _) ← task_trampoline (w_sched w); enter now lines patience junk pa ca oa entry w) =
  if cur == 0 then Some (producer_task junk 0 w) else if cur == 1 then Some (consumer_task junk 0 w)
  else timer_observer_task now lines patience w.
Proof using Haddresses.
  intros Hc Hst ->. destruct Haddresses as (H1 & H2 & H3 & H4 & H5 & H6). unfold task_trampoline.
  cbn [current_task_id running]. rewrite state_running, Hst, bool_decide_eq_true_2 by done.
  rewrite Z.geb_leb, (proj2 (Z.leb_gt _ _)) by (unfold TASK_MAX_TASKS; lia). cbn [negb orb tasks running].
  assert (cur = 0 \/ cur = 1 \/ cur = 2) as [->|[->| ->]] by lia; cbn [Z.eqb Pos.eqb].
  - change (tcb_entry (tcbs a b c).[0]) with pa. rewrite (proj2 (Z.eqb_neq pa NULL)) by done. cbn [mbind option_bind].
    unfold enter. by rewrite Z.eqb_refl.
  - change (tcb_entry (tcbs a b c).[1]) with ca. rewrite (proj2 (Z.eqb_neq ca NULL)) by done. cbn [mbind option_bind].
    unfold enter. by rewrite (proj2 (Z.eqb_neq ca pa)), Z.eqb_refl by congruence.
  - change (tcb_entry (tcbs a b c).[2]) with oa. rewrite (proj2 (Z.eqb_neq oa NULL)) by done. cbn [mbind option_bind].
    unfold enter. by rewrite (proj2 (Z.eqb_neq oa pa)), (proj2 (Z.eqb_neq oa ca)), Z.eqb_refl by congruence.
Qed.

Lemma producer_at i y z b c rem sw fin w :
  (i <= 6)%nat -> w_sched w = running RUN b c 0 rem sw fin ->
  slice' 0 (thr (at_slice ProducerNext i) y z) w = Some (producer_task junk (Z.of_nat i) w).
Proof using Haddresses.
  intros Hi Hw. unfold slice. change (thr ?x y z).[0] with x. destruct i as [|i]; cbn [at_slice].
  - by rewrite (enters 0 RUN b c rem sw fin).
  - cbn [resume]. rewrite u32_small by (unfold is_u32; lia). do 2 f_equal. lia.
Qed.

Lemma consumer_at i x z a c rem sw fin w :
  (i <= 6)%nat -> w_sched w = running a RUN c 1 rem sw fin ->
  slice' 1 (thr x (at_slice ConsumerNext i) z) w = Some (consumer_task junk (Z.of_nat i) w).
Proof using Haddresses.
  intros Hi Hw. unfold slice. change (thr x ?y z).[1] with y. destruct i as [|i]; cbn [at_slice].
  - by rewrite (enters 1 a RUN c rem sw fin).
  - cbn [resume]. rewrite u32_small by (unfold is_u32; lia). do 2 f_equal. lia.
Qed.

(** The producer and the consumer exchange a message; then it is the
    observer's turn, or the producer's again when the observer has ended. *)
Lemma exchange fuel i z t0 i0 fo n rem sw fin :
  (i < 6)%nat -> 3 <= rem < 4294967296 -> 0 <= sw < 4294967290 ->
  run (S (S fuel)) e (TaskContext 0) (thr (at_slice ProducerNext i) (at_slice ConsumerNext i) z)
    (mk_world (flow_at t0 i0 (Z.of_nat i) (Z.of_nat i) false false fo) (queue_at i)
       (running RUN READY (if fo then FIN else READY) 0 rem sw fin) n) =
  run fuel e (TaskContext (if fo then 0 else 2)) (thr (at_slice ProducerNext (S i)) (at_slice ConsumerNext (S i)) z)
    (mk_world (flow_at t0 i0 (Z.of_nat (S i)) (Z.of_nat (S i)) false false fo) (queue_at (S i))
       (running (if fo then RUN else READY) READY (if fo then FIN else RUN) (if fo then 0 else 2) (rem - 2) (sw + 2) fin) n).
Proof using Hjunk Haddresses.
  intros Hi Hr Hs.
  pose proof (yield_running 0 1 RUN READY (if fo then FIN else READY) rem sw fin ltac:(lia) ltac:(lia) eq_refl ltac:(lia) ltac:(lia)) as Y1.
  cbn [marked Z.eqb] in Y1. specialize (Y1 ltac:(by destruct fo) eq_refl). cbn [marked Z.eqb Pos.eqb] in Y1.
  erewrite run_yield; [|rewrite (producer_at i _ _ READY (if fo then FIN else READY) rem sw fin) by (lia || done);
    rewrite producer_slice by done; reflexivity|exact Y1].
  assert (Y2 : lands (TaskContext 1) (task_yield e (running READY RUN (if fo then FIN else READY) 1 (rem - 1) (sw + 1) fin)) =
    Some (TaskContext (if fo then 0 else 2), running (if fo then RUN else READY) READY (if fo then FIN else RUN)
      (if fo then 0 else 2) (rem - 1 - 1) (sw + 1 + 1) fin)).
  { destruct fo.
    - exact (yield_running 1 0 READY RUN FIN (rem - 1) (sw + 1) fin ltac:(lia) ltac:(lia) eq_refl ltac:(lia) ltac:(lia) eq_refl eq_refl).
    - exact (yield_running 1 2 READY RUN READY (rem - 1) (sw + 1) fin ltac:(lia) ltac:(lia) eq_refl ltac:(lia) ltac:(lia) eq_refl eq_refl). }
  change (thr ?x ?y z).[0 <- ?v] with (thr v y z).
  erewrite run_yield; [|rewrite (consumer_at i _ _ READY (if fo then FIN else READY) (rem - 1) (sw + 1) fin) by (lia || done);
    unfold set_w_sched; cbn [w_flow w_ipc w_moment]; rewrite consumer_slice by done; reflexivity|exact Y2].
  change (thr ?x ?y z).[1 <- ?v] with (thr x v z). unfold set_w_sched. cbn [w_flow w_ipc w_moment].
  replace (rem - 1 - 1) with (rem - 2) by lia. by replace (sw + 1 + 1) with (sw + 2) by lia.
Qed.

(** After the last message the two end; with them the run, unless the observer
    still waits. *)
Lemma closing fuel z t0 i0 fo n rem sw fin :
  3 <= rem < 4294967296 -> 0 <= sw < 4294967290 -> 0 <= fin < 4294967290 ->
  run (S (S fuel)) e (TaskContext 0) (thr (at_slice ProducerNext 6) (at_slice ConsumerNext 6) z)
    (mk_world (flow_at t0 i0 6 6 false false fo) (queue_at 6)
       (running RUN READY (if fo then FIN else READY) 0 rem sw fin) n) =
  run fuel e (if fo then Bootstrap else TaskContext 2) (thr (at_slice ProducerNext 6) (at_slice ConsumerNext 6) z)
    (mk_world (flow_at t0 i0 6 6 true true fo) (queue_at 6)
       (if fo then stopped FIN FIN FIN 1 (rem - 1) (sw + 1) (fin + 2)
        else running FIN FIN RUN 2 (rem - 2) (sw + 2) (fin + 2)) n).
Proof using Haddresses.
  intros Hr Hs Hf.
  assert (X1 : lands (TaskContext 0) (task_exit e (running RUN READY (if fo then FIN else READY) 0 rem sw fin)) =
    Some (TaskContext 1, running FIN RUN (if fo then FIN else READY) 1 (rem - 1) (sw + 1) (fin + 1))).
  { destruct (exit_running 0 1 RUN READY (if fo then FIN else READY) rem sw fin ltac:(lia) eq_refl ltac:(lia) ltac:(lia) ltac:(lia)
      ltac:(by destruct fo)) as [X _]. exact (X ltac:(lia) ltac:(lia) eq_refl). }
  erewrite run_exit; [|rewrite (producer_at 6 _ _ READY (if fo then FIN else READY) rem sw fin) by (lia || done); reflexivity|exact X1].
  assert (X2 : lands (TaskContext 1) (task_exit e (running FIN RUN (if fo then FIN else READY) 1 (rem - 1) (sw + 1) (fin + 1))) =
    Some (if fo then Bootstrap else TaskContext 2, if fo then stopped FIN FIN FIN 1 (rem - 1) (sw + 1) (fin + 2)
        else running FIN FIN RUN 2 (rem - 2) (sw + 2) (fin + 2))).
  { replace (fin + 2) with (fin + 1 + 1) by lia. destruct fo.
    - destruct (exit_running 1 TASK_INVALID_ID FIN RUN FIN (rem - 1) (sw + 1) (fin + 1) ltac:(lia) eq_refl ltac:(lia) ltac:(lia) ltac:(lia)
        eq_refl) as [_ X]. exact (X eq_refl).
    - destruct (exit_running 1 2 FIN RUN READY (rem - 1) (sw + 1) (fin + 1) ltac:(lia) eq_refl ltac:(lia) ltac:(lia) ltac:(lia)
        eq_refl) as [X _]. replace (rem - 2) with (rem - 1 - 1) by lia. replace (sw + 2) with (sw + 1 + 1) by lia.
      exact (X ltac:(lia) ltac:(lia) eq_refl). }
  erewrite run_exit; [|rewrite (consumer_at 6 _ _ FIN (if fo then FIN else READY) (rem - 1) (sw + 1) (fin + 1)) by (lia || done);
    reflexivity|exact X2]. done.
Qed.

(** ** The observer *)

Context (m0 : nat) (told iold : Z).
Abbreviation T := (ticks_at now m0).
Abbreviation I := (irqs_at now (S m0)).

(** When it makes its test number [k], when every earlier one has gone on
    waiting and every [hlt] has been left. *)
Fixpoint test_at (k : nat) : nat :=
  match k with
  | O => S (S m0)
  | S k => default O (hlt now lines patience (S (S (test_at k))))
  end.

Definition waits_at (n : nat) : bool :=
  (u32 (ticks_at now n - T) <? PIT_TEST_TICKS) || (u32 (irqs_at now (S n) - I) <? PIT_TEST_TICKS).

Definition still_waiting (k : nat) : bool := waits_at (test_at k).
Definition awake (k : nat) : bool := bool_decide (hlt now lines patience (S (S (test_at k))) <> None).
Definition goes_on (k : nat) : bool := still_waiting k && awake k.

Lemma wakes_up k : awake k = true -> hlt now lines patience (S (S (test_at k))) = Some (test_at (S k)).
Proof using. unfold awake. intros H%bool_decide_eq_true. cbn [test_at]. by destruct (hlt _ _ _ _). Qed.

Lemma sleeps_on k : awake k = false -> hlt now lines patience (S (S (test_at k))) = None.
Proof using. unfold awake. intros H%bool_decide_eq_false. by destruct (hlt _ _ _ _) as [n|]; [destruct H|]. Qed.

(** The statics and the moment before slice [i], and the moment after it. *)
Definition reads (i : nat) : nat := match i with O => m0 | S _ => test_at i end.
Definition start_of (i : nat) (old new : Z) : Z := match i with O => old | S _ => new end.
Definition moment_after (i : nat) : nat := if still_waiting i then test_at (S i) else S (S (test_at i)).
Abbreviation observer_at := (at_slice (fun _ => ObserverLoop)).

Abbreviation observer_world i p c pf cf a b rem sw fin q :=
  (mk_world (flow_at (start_of i told T) (start_of i iold I) p c pf cf false) q (running a b RUN 2 rem sw fin) (reads i)).

Lemma observer_enters i x y p c pf cf a b rem sw fin q :
  slice' 2 (thr x y (observer_at i)) (observer_world i p c pf cf a b rem sw fin q) =
  observer_loop now lines patience (mk_world (flow_at T I p c pf cf false) q (running a b RUN 2 rem sw fin) (test_at i)).
Proof using Haddresses.
  unfold slice. change (thr x y ?z).[2] with z. destruct i as [|i]; cbn [at_slice start_of reads]; [|done].
  by rewrite (enters 2 a b RUN rem sw fin) by (lia || done).
Qed.

Lemma observer_slice i x y p c pf cf a b rem sw fin q :
  (still_waiting i = true -> awake i = true) ->
  slice' 2 (thr x y (observer_at i)) (observer_world i p c pf cf a b rem sw fin q) =
  Some (mk_world (flow_at T I p c pf cf (negb (still_waiting i))) q (running a b RUN 2 rem sw fin) (moment_after i),
        if still_waiting i then Yields ObserverLoop else Exits).
Proof using Haddresses.
  intros Hup. rewrite observer_enters. unfold observer_loop, moment_after. cbn [w_flow w_moment w_ipc w_sched].
  change (observer_waits now (flow_at T I p c pf cf false) (test_at i)) with (still_waiting i).
  destruct (still_waiting i); [|done]. by rewrite (wakes_up i (Hup eq_refl)).
Qed.

Lemma observer_asleep i x y p c pf cf a b rem sw fin q :
  still_waiting i = true -> awake i = false ->
  slice' 2 (thr x y (observer_at i)) (observer_world i p c pf cf a b rem sw fin q) = None.
Proof using Haddresses.
  intros Hw Hup. rewrite observer_enters. unfold observer_loop. cbn [w_flow w_moment w_ipc w_sched].
  change (observer_waits now (flow_at T I p c pf cf false) (test_at i)) with (still_waiting i).
  by rewrite Hw, (sleeps_on i Hup).
Qed.

Lemma goes_on_true i : goes_on i = true -> still_waiting i = true /\ awake i = true.
Proof using. apply andb_prop. Qed.

(** Its slice while the other two are alive. *)
Lemma observe fuel i x y p c rem sw q :
  (still_waiting i = true -> awake i = true) -> 1 <= rem < 4294967296 -> 0 <= sw < 4294967290 ->
  run (S fuel) e (TaskContext 2) (thr x y (observer_at i)) (observer_world i p c false false READY READY rem sw 0 q) =
  run fuel e (TaskContext 0) (thr x y (observer_at (if still_waiting i then S i else i)))
    (mk_world (flow_at T I p c false false (negb (still_waiting i))) q
       (running RUN READY (if still_waiting i then READY else FIN) 0 (rem - 1) (sw + 1) (if still_waiting i then 0 else 1)) (moment_after i)).
Proof using Haddresses.
  intros Hup Hr Hs. pose proof (observer_slice i x y p c false false READY READY rem sw 0 q Hup) as E.
  destruct (still_waiting i).
  - erewrite run_yield; [|exact E|
      exact (yield_running 2 0 READY READY RUN rem sw 0 ltac:(lia) ltac:(lia) eq_refl ltac:(lia) ltac:(lia) eq_refl eq_refl)]. done.
  - destruct (exit_running 2 0 READY READY RUN rem sw 0 ltac:(lia) eq_refl ltac:(lia) ltac:(lia) ltac:(lia) eq_refl) as [X _].
    erewrite run_exit; [|exact E|exact (X ltac:(lia) ltac:(lia) eq_refl)]. done.
Qed.

(** ** Whole runs *)

(** Two runs that differ in how their counters are written. *)
Ltac same_run := repeat first [reflexivity | lia | f_equal].

Abbreviation all_at i := (thr (at_slice ProducerNext i) (at_slice ConsumerNext i) (observer_at i)).

(** Before slice [i] of each of the three, all waiting so far. *)
Definition round_world (i : nat) : world :=
  mk_world (flow_at (start_of i told T) (start_of i iold I) (Z.of_nat i) (Z.of_nat i) false false false) (queue_at i)
    (running RUN READY READY 0 (255 - 3 * Z.of_nat i) (1 + 3 * Z.of_nat i) 0) (reads i).

Lemma round fuel i : (i < 6)%nat -> (still_waiting i = true -> awake i = true) ->
  run (S (S (S fuel))) e (TaskContext 0) (all_at i) (round_world i) =
  run fuel e (TaskContext 0)
    (thr (at_slice ProducerNext (S i)) (at_slice ConsumerNext (S i)) (observer_at (if still_waiting i then S i else i)))
    (mk_world (flow_at T I (Z.of_nat (S i)) (Z.of_nat (S i)) false false (negb (still_waiting i))) (queue_at (S i))
       (running RUN READY (if still_waiting i then READY else FIN) 0 (252 - 3 * Z.of_nat i) (4 + 3 * Z.of_nat i)
          (if still_waiting i then 0 else 1)) (moment_after i)).
Proof using Hjunk Haddresses.
  intros Hi Hup. unfold round_world. rewrite (exchange _ i _ _ _ false) by lia. rewrite observe by (lia || done).
  same_run.
Qed.

(** [k] rounds of all three. *)
Lemma rounds fuel k : (k <= 6)%nat -> (forall j, (j < k)%nat -> goes_on j = true) ->
  run (3 * k + fuel) e (TaskContext 0) (all_at 0) (round_world 0) = run fuel e (TaskContext 0) (all_at k) (round_world k).
Proof using Hjunk Haddresses.
  revert fuel. induction k as [|k IH]; intros fuel Hk Hw; [done|].
  destruct (goes_on_true k (Hw k ltac:(lia))) as [Hk1 Hk2].
  replace (3 * S k + fuel)%nat with (3 * k + S (S (S fuel)))%nat by lia. rewrite IH, round by auto with lia.
  unfold moment_after. rewrite Hk1. cbn [negb]. unfold round_world. cbn [start_of reads]. same_run.
Qed.

(** [j] rounds of the producer and the consumer. *)
Lemma pair_rounds fuel i j z n rem sw fin :
  (i + j <= 6)%nat -> 20 <= rem < 4294967296 -> 0 <= sw < 4000 ->
  run (2 * j + fuel) e (TaskContext 0) (thr (at_slice ProducerNext i) (at_slice ConsumerNext i) z)
    (mk_world (flow_at T I (Z.of_nat i) (Z.of_nat i) false false true) (queue_at i) (running RUN READY FIN 0 rem sw fin) n) =
  run fuel e (TaskContext 0) (thr (at_slice ProducerNext (i + j)) (at_slice ConsumerNext (i + j)) z)
    (mk_world (flow_at T I (Z.of_nat (i + j)) (Z.of_nat (i + j)) false false true) (queue_at (i + j))
       (running RUN READY FIN 0 (rem - 2 * Z.of_nat j) (sw + 2 * Z.of_nat j) fin) n).
Proof using Hjunk Haddresses.
  revert fuel. induction j as [|j IH]; intros fuel Hj Hr Hs.
  { replace (i + 0)%nat with i by lia. same_run. }
  replace (2 * S j + fuel)%nat with (2 * j + S (S fuel))%nat by lia. rewrite IH by lia.
  rewrite (exchange _ (i + j) _ _ _ true) by lia. replace (i + S j)%nat with (S (i + j)) by lia. same_run.
Qed.

(** The end of the run: the observer's test [n] was the last. *)
Definition ended (n : nat) (cur : Z) : world :=
  mk_world (flow_at T I 6 6 true true true) (queue_at 6)
    (stopped FIN FIN FIN cur (241 - Z.of_nat n) (15 + Z.of_nat n) 3) (S (S (test_at n))).

(** The observer ends first. *)
Lemma ends_early fuel n : (n < 6)%nat -> (forall j, (j < n)%nat -> goes_on j = true) -> still_waiting n = false ->
  run (15 + n + fuel) e (TaskContext 0) (all_at 0) (round_world 0) = Some (ended n 1).
Proof using Hjunk Haddresses.
  intros Hn Hw Hend. replace (15 + n + fuel)%nat with (3 * n + S (S (S (2 * (5 - n) + S (S fuel)))))%nat by lia.
  rewrite rounds, round by (auto with lia || by rewrite Hend). unfold moment_after. rewrite Hend. cbn [negb]. rewrite pair_rounds by lia.
  replace (S n + (5 - n))%nat with 6%nat by lia. rewrite (closing _ _ _ _ true) by lia.
  unfold ended. destruct fuel; cbn [run_threads]; same_run.
Qed.

(** Or goes to sleep first. *)
Lemma sleeps_early fuel n : (n < 6)%nat -> (forall j, (j < n)%nat -> goes_on j = true) -> still_waiting n = true -> awake n = false ->
  run (3 * n + S (S (S fuel))) e (TaskContext 0) (all_at 0) (round_world 0) = None.
Proof using Hjunk Haddresses.
  intros Hn Hw Hst Hup. rewrite rounds by auto with lia. unfold round_world. rewrite (exchange _ n _ _ _ false) by lia.
  by apply run_asleep, observer_asleep.
Qed.

(** Alone, the observer is dispatched again until it ends or the budget is
    used up. *)
Definition alone (i : nat) : world :=
  mk_world (flow_at (start_of i told T) (start_of i iold I) 6 6 true true false) (queue_at 6)
    (running FIN FIN RUN 2 (241 - Z.of_nat i) (15 + Z.of_nat i) 2) (reads i).

Definition unfinished : world :=
  mk_world (flow_at T I 6 6 true true false) (queue_at 6) (stopped FIN FIN READY 2 0 256 2) (test_at 242).

(** One more dispatch of the observer by itself. *)
Lemma alone_step x y i fuel : (1 <= i <= 240)%nat -> goes_on i = true ->
  run (S fuel) e (TaskContext 2) (thr x y (observer_at i)) (alone i) =
  run fuel e (TaskContext 2) (thr x y (observer_at (S i))) (alone (S i)).
Proof using Haddresses.
  intros Hi [Hw Hup]%goes_on_true. unfold alone.
  erewrite run_yield; [|rewrite observer_slice, Hw by done; reflexivity|
    exact (yield_running 2 2 FIN FIN RUN (241 - Z.of_nat i) (15 + Z.of_nat i) 2 ltac:(lia) ltac:(lia) eq_refl ltac:(lia) ltac:(lia) eq_refl eq_refl)].
  cbn [start_of reads]. change (thr x y ?z).[2 <- ?v] with (thr x y v). unfold set_w_sched, moment_after. cbn [w_flow w_ipc w_moment negb].
  rewrite Hw. same_run.
Qed.

Lemma alone_steps x y k i fuel : (1 <= i)%nat -> (i + k <= 241)%nat -> (forall j, (i <= j < i + k)%nat -> goes_on j = true) ->
  run (k + fuel) e (TaskContext 2) (thr x y (observer_at i)) (alone i) =
  run fuel e (TaskContext 2) (thr x y (observer_at (i + k))) (alone (i + k)).
Proof using Haddresses.
  revert i. induction k as [|k IH]; intros i Hi Hb Hw; [by rewrite Nat.add_0_r|].
  change (S k + fuel)%nat with (S (k + fuel)). rewrite alone_step by (lia || (apply Hw; lia)).
  replace (i + S k)%nat with (S i + k)%nat by lia. apply IH; [lia|lia|]. intros; apply Hw; lia.
Qed.

Lemma alone_ends x y i fuel : (1 <= i <= 241)%nat -> still_waiting i = false ->
  run (S fuel) e (TaskContext 2) (thr x y (observer_at i)) (alone i) = Some (ended i 2).
Proof using Haddresses.
  intros Hi Hend. unfold alone.
  destruct (exit_running 2 TASK_INVALID_ID FIN FIN RUN (241 - Z.of_nat i) (15 + Z.of_nat i) 2 ltac:(lia) eq_refl ltac:(lia) ltac:(lia)
    ltac:(lia) eq_refl) as [_ X].
  erewrite run_exit; [|rewrite observer_slice, Hend by (by rewrite Hend); reflexivity|exact (X eq_refl)].
  unfold moment_after. rewrite Hend. by destruct fuel.
Qed.

Lemma alone_exhausts x y fuel : goes_on 241 = true ->
  run (S fuel) e (TaskContext 2) (thr x y (observer_at 241)) (alone 241) = Some unfinished.
Proof using Haddresses.
  intros [Hw Hup]%goes_on_true. unfold alone. replace (241 - Z.of_nat 241) with 0 by lia.
  erewrite run_yield; [|rewrite observer_slice, Hw by done; reflexivity|
    exact (yield_exhausted 2 FIN FIN RUN (15 + Z.of_nat 241) 2 ltac:(lia) eq_refl)].
  unfold moment_after, unfinished. rewrite Hw. by destruct fuel.
Qed.

Lemma alone_sleeps x y i fuel : still_waiting i = true -> awake i = false ->
  run (S fuel) e (TaskContext 2) (thr x y (observer_at i)) (alone i) = None.
Proof using Haddresses. intros Hw Hup. by apply run_asleep, observer_asleep. Qed.

(** When the other two have ended. *)
Lemma reaches_alone fuel : (forall j, (j < 6)%nat -> goes_on j = true) ->
  run (20 + fuel) e (TaskContext 0) (all_at 0) (round_world 0) =
  run fuel e (TaskContext 2) (thr (at_slice ProducerNext 6) (at_slice ConsumerNext 6) (observer_at 6)) (alone 6).
Proof using Hjunk Haddresses.
  intros Hw. replace (20 + fuel)%nat with (3 * 6 + S (S fuel))%nat by lia. rewrite rounds by auto.
  unfold round_world. change (Z.of_nat 6) with 6. rewrite (closing _ _ _ _ false) by lia. done.
Qed.

(** ** Start and verdict *)

Definition created : sched := mk_sched (tcbs READY READY READY) 0 TASK_INVALID_ID TASK_INVALID_ID 0 0 0 true false.
Definition created_world : world := mk_world (flow_at told iold 0 0 false false false) (queue_at 0) created m0.

Lemma first_dispatch : task_run TASK_FLOW_BUDGET e (w_sched created_world) =
  Switches Bootstrap (TaskContext 0) e (running RUN READY READY 0 255 1 0).
Proof using. reflexivity. Qed.

Lemma first_world : set_w_sched (running RUN READY READY 0 255 1 0) created_world = round_world 0.
Proof using. reflexivity. Qed.

Lemma flow_starts :
  run_flow_tasks now lines patience junk pa ca oa e created_world =
  w ← run (Z.to_nat TASK_FLOW_BUDGET) e (TaskContext 0) (all_at 0) (round_world 0);
  match task_run_resumed e (w_sched w) with
  | Returns complete _ s => Some (complete, set_w_sched s w)
  | _ => None
  end.
Proof using.
  unfold run_flow_tasks. rewrite first_dispatch. cbv iota beta. rewrite first_world.
  assert (E0 : replicate (Z.to_nat TASK_MAX_TASKS) (@None thread) = all_at 0) by reflexivity. by rewrite E0.
Qed.

(** Back in [task_run], the run is complete when no task is ready. *)
Lemma resumed c cur rem sw fin : cur = 1 \/ cur = 2 -> c = FIN \/ c = READY ->
  exists e', task_run_resumed e (stopped FIN FIN c cur rem sw fin) =
    Returns (bool_decide (c = FIN)) e' (stopped FIN FIN c cur rem sw fin).
Proof using. intros [->| ->] [->| ->]; eexists; reflexivity. Qed.

Lemma flow_ends n cur :
  cur = 1 \/ cur = 2 ->
  run_threads now lines patience junk pa ca oa (Z.to_nat TASK_FLOW_BUDGET) e (TaskContext 0) (all_at 0) (round_world 0) = Some (ended n cur) ->
  run_flow_tasks now lines patience junk pa ca oa e created_world = Some (true, ended n cur).
Proof using.
  intros Hc E. rewrite flow_starts, E. cbn [mbind option_bind]. unfold ended at 1. cbn [w_sched].
  destruct (resumed FIN cur (241 - Z.of_nat n) (15 + Z.of_nat n) 3 Hc (or_introl eq_refl)) as [e' ->]. reflexivity.
Qed.

Lemma flow_tasks_end n :
  (forall j, (j < n)%nat -> goes_on j = true) -> still_waiting n = false -> (n <= 241)%nat ->
  exists cur, run_flow_tasks now lines patience junk pa ca oa e created_world = Some (true, ended n cur).
Proof using Hjunk Haddresses.
  intros Hw Hend Hn. destruct (Nat.lt_ge_cases n 6).
  - exists 1. apply flow_ends; [by left|]. replace (Z.to_nat TASK_FLOW_BUDGET) with (15 + n + (241 - n))%nat
      by (unfold TASK_FLOW_BUDGET; lia). exact (ends_early (241 - n) n ltac:(lia) Hw Hend).
  - exists 2. apply flow_ends; [by right|]. replace (Z.to_nat TASK_FLOW_BUDGET) with (20 + ((n - 6) + S (241 - n)))%nat
      by (unfold TASK_FLOW_BUDGET; lia).
    rewrite reaches_alone by (intros; apply Hw; lia). rewrite alone_steps by (lia || (intros; apply Hw; lia)).
    replace (6 + (n - 6))%nat with n by lia. apply alone_ends; [lia|done].
Qed.

Lemma flow_tasks_exhaust :
  (forall j, (j < 242)%nat -> goes_on j = true) ->
  run_flow_tasks now lines patience junk pa ca oa e created_world = Some (false, unfinished).
Proof using Hjunk Haddresses.
  intros Hw. rewrite flow_starts. replace (Z.to_nat TASK_FLOW_BUDGET) with (20 + (235 + 1))%nat by done.
  rewrite reaches_alone by (intros; apply Hw; lia). rewrite alone_steps by (lia || (intros; apply Hw; lia)).
  rewrite alone_exhausts by (apply Hw; lia). cbn [mbind option_bind]. unfold unfinished at 1. cbn [w_sched].
  destruct (resumed READY 2 0 256 2 (or_intror eq_refl) (or_intror eq_refl)) as [e' ->]. reflexivity.
Qed.

Lemma flow_tasks_sleep n :
  (forall j, (j < n)%nat -> goes_on j = true) -> still_waiting n = true -> awake n = false -> (n <= 241)%nat ->
  run_flow_tasks now lines patience junk pa ca oa e created_world = None.
Proof using Hjunk Haddresses.
  intros Hw Hst Hup Hn. rewrite flow_starts. destruct (Nat.lt_ge_cases n 6).
  - replace (Z.to_nat TASK_FLOW_BUDGET) with (3 * n + S (S (S (253 - 3 * n))))%nat by (unfold TASK_FLOW_BUDGET; lia).
    by rewrite sleeps_early.
  - replace (Z.to_nat TASK_FLOW_BUDGET) with (20 + ((n - 6) + S (241 - n)))%nat by (unfold TASK_FLOW_BUDGET; lia).
    rewrite reaches_alone by (intros; apply Hw; lia). rewrite alone_steps by (lia || (intros; apply Hw; lia)).
    replace (6 + (n - 6))%nat with n by lia. by rewrite alone_sleeps.
Qed.

Lemma verdict_ended n cur : (n <= 241)%nat ->
  flow_verdict now (ended n cur) = (2 <=? n)%nat && negb (waits_at (S (S (test_at n)))).
Proof using.
  intros Hn. unfold flow_verdict, ended. cbn [w_flow w_sched w_ipc w_moment flow_at task_flow_failed producer_finished consumer_finished
    timer_observer_finished produced_messages consumed_messages task_flow_endpoint task_flow_tick_start task_flow_irq_start].
  change (ipc_pending 0 (queue_at 6)) with 0. change (ipc_rejected_count 0 (queue_at 6)) with 0.
  unfold task_switch_count, task_finished_count, task_current_id. cbn [switch_count finished_count stopped scheduler_running negb orb].
  rewrite !Z.eqb_refl. cbn [negb andb]. unfold TASK_FLOW_MESSAGES, TASK_FLOW_MIN_SWITCHES, TASK_FLOW_BUDGET, PIT_TEST_TICKS, TASK_FLOW_MESSAGES.
  change (6 == 6) with true. change (3 == 3) with true. cbn [andb].
  rewrite (proj2 (Z.leb_le (15 + Z.of_nat n) 256)) by lia. rewrite andb_true_r.
  replace (15 + Z.of_nat n >=? 2 * (6 + 1) + 3) with (2 <=? n)%nat
    by (rewrite Z.geb_leb; destruct (Nat.leb_spec 2 n), (Z.leb_spec (2 * (6 + 1) + 3) (15 + Z.of_nat n)); lia).
  rewrite <-andb_assoc. f_equal. unfold waits_at, PIT_TEST_TICKS.
  rewrite negb_orb, !Z.geb_leb, !Z.leb_antisym. done.
Qed.
End Proof.

(** [task_create] fills the next slot. *)
Lemma create_next ts ex tr entry e s m id :
  scheduler_initialized s = true -> scheduler_running s = false -> entry <> NULL ->
  find_range 0 TASK_MAX_TASKS (fun k => bool_decide (state_at s k = TASK_STATE_UNUSED)) = Some id ->
  0 <= id < alen (tasks s) ->
  exists sp m', create ts ex tr entry e s m =
    Some (id, set_tasks (tasks s).[id <- mk_tcb TASK_STATE_READY entry NULL sp] s, m').
Proof.
  intros Hi Hr He Hf Hid. unfold create, task_create, interrupt_state_save_and_disable, prepare_initial_stack. rewrite Hi, Hr, Hf.
  rewrite (proj2 (Z.eqb_neq entry NULL)) by done. cbn [negb orb]. cbv zeta. destruct (push_word 0 _) as [sp m'].
  exists sp, m'. unfold put_state, set_tasks. cbn [tasks bootstrap_stack_pointer current_task_id round_robin_cursor remaining_dispatches
    switch_count finished_count scheduler_initialized scheduler_running].
  rewrite !aget_aset_eq by (rewrite ?alen_aset; lia). cbn [tcb_state tcb_entry tcb_argument tcb_stack_pointer]. do 3 f_equal.
  f_equal. unfold aset. rewrite !list_insert_insert_eq. done.
Qed.

(** ** The timer

    Between two reads interrupts of any line may arrive; [lines n] are the
    requests between read [n] and the next. *)
Definition as_kernel (p : irqs devices * devices) : kernel := mk_kernel pmm_static (mk_heap ∅ NULL false) sched_static p.1 p.2.

Record timer_runs (now : nat -> irqs devices * devices) (lines : nat -> list Z) (m0 : nat) : Prop := {
  tr_irqs : kernel_irqs_ok (now m0).1;
  tr_ticks : is_u32 (tick_count (dev_pit (now m0).2));
  tr_serves : forall n, Forall (fun irq => 0 <= irq < 16) (lines n) /\ after_interrupts (as_kernel (now n)) (lines n) (as_kernel (now (S n)));
}.

(** The timer interrupts delivered in the [n] intervals after [m0]. *)
Fixpoint delivered_ticks (now : nat -> irqs devices * devices) (lines : nat -> list Z) (m0 n : nat) : Z :=
  match n with
  | O => 0
  | S n => delivered_ticks now lines m0 n + occurrences 0 (through (now (m0 + n)%nat).1 (lines (m0 + n)%nat))
  end.

(** What both counters have advanced by at a test whose reads are at [m0 + d]
    and the next moment: one was first read at [m0], the other a moment later. *)
Definition elapsed (now : nat -> irqs devices * devices) (lines : nat -> list Z) (m0 d : nat) : Z :=
  Z.min (delivered_ticks now lines m0 d) (delivered_ticks now lines m0 (S d) - delivered_ticks now lines m0 1).

(** No interrupt gets through from moment [n] to moment [n']. *)
Definition quiet (now : nat -> irqs devices * devices) (lines : nat -> list Z) (n n' : nat) : Prop :=
  forall i, (n <= i < n')%nat -> through (now i).1 (lines i) = [].

(** A processor that goes to sleep at [n] wakes at [n'], within [patience]
    quiet intervals. *)
Definition wakes (now : nat -> irqs devices * devices) (lines : nat -> list Z) (patience n n' : nat) : Prop :=
  exists i, (n <= i <= n + patience)%nat /\ n' = S i /\ quiet now lines n i /\ through (now i).1 (lines i) <> [].

(** The observer's test number [k] is made at [m0 + d]: every earlier one has
    seen fewer than three timer interrupts and every sleep has ended. *)
Inductive tested (now : nat -> irqs devices * devices) (lines : nat -> list Z) (patience m0 : nat) : nat -> nat -> Prop :=
| tested_first : tested now lines patience m0 0 2
| tested_next k d d' : tested now lines patience m0 k d -> elapsed now lines m0 d < PIT_TEST_TICKS ->
    wakes now lines patience (m0 + d + 2) (m0 + d') -> tested now lines patience m0 (S k) d'.

Lemma quiet_shrink now lines n n' : quiet now lines n (S n') -> quiet now lines n n' /\ quiet now lines (S n) (S n').
Proof. intros H. split; intros i Hi; apply H; lia. Qed.

Lemma hlt_cases now lines fuel n :
  (exists n', hlt now lines fuel n = Some n' /\ wakes now lines fuel n n') \/
  (hlt now lines fuel n = None /\ quiet now lines n (S (n + fuel))).
Proof.
  revert n. induction fuel as [|fuel IH]; intros n; cbn [hlt]; case_bool_decide as E; cbn [negb].
  - right. split; [done|]. intros i Hi. by replace i with n by lia.
  - left. eexists. split; [done|]. exists n. split_and!; [lia|lia|done|intros i Hi; lia|done].
  - destruct (IH (S n)) as [(n' & -> & i & Hi & -> & Hq & Hne)|[-> Hq]]; [left|right].
    + eexists. split; [done|]. exists i. split_and!; [lia|lia|done| |done].
      intros j Hj. destruct (decide (j = n)) as [->|]; [done|]. apply Hq. lia.
    + split; [done|]. intros j Hj. destruct (decide (j = n)) as [->|]; [done|]. apply Hq. lia.
  - left. eexists. split; [done|]. exists n. split_and!; [lia|lia|done|intros i Hi; lia|done].
Qed.

Lemma wakes_unique now lines p p' n a b : wakes now lines p n a -> wakes now lines p' n b -> a = b.
Proof.
  intros (i & Hi & -> & Hq & Hne) (j & Hj & -> & Hq' & Hne').
  destruct (Nat.lt_trichotomy i j) as [H|[->|H]]; [|done|].
  - destruct Hne. apply Hq'. lia.
  - destruct Hne'. apply Hq. lia.
Qed.

(** The observer's tests are a sequence. *)
Section Tested.
Context (now : nat -> irqs devices * devices) (lines : nat -> list Z) (patience m0 : nat).
Abbreviation tests := (tested now lines patience m0).

Lemma tested_unique k d d' : tests k d -> tests k d' -> d = d'.
Proof using.
  intros H. revert d'. induction H as [|k d a H IH _ Hw]; intros d' H'; inversion H' as [|? d2 ? H2 _ Hw2]; subst; [done|].
  rewrite (IH _ H2) in Hw. pose proof (wakes_unique _ _ _ _ _ _ _ Hw Hw2). lia.
Qed.

(** Only the last test can have seen three. *)
Lemma tested_before j k d d' : tests k d -> (j < k)%nat -> tests j d' -> elapsed now lines m0 d' < PIT_TEST_TICKS.
Proof using.
  intros H. induction H as [|k d a H IH He _]; intros Hj H'; [lia|]. destruct (decide (j = k)) as [->|]; [|apply IH; [lia|done]].
  by rewrite (tested_unique _ _ _ H' H).
Qed.

Lemma tested_range k d : tests k d -> (2 + 3 * k <= d <= 2 + k * (patience + 3))%nat.
Proof using. induction 1 as [|k d a _ IH _ (i & Hi & E & _)]; lia. Qed.
End Tested.

Section Timer.
Context (now : nat -> irqs devices * devices) (lines : nat -> list Z) (m0 : nat).
Hypothesis Htimer : timer_runs now lines m0.

Lemma timer_moments n :
  kernel_irqs_ok (now (m0 + n)%nat).1 /\ is_u32 (tick_count (dev_pit (now (m0 + n)%nat).2)) /\
  ticks_at now (m0 + n) = u32 (ticks_at now m0 + delivered_ticks now lines m0 n) /\
  irqs_at now (m0 + n) = u32 (irqs_at now m0 + delivered_ticks now lines m0 n).
Proof using Htimer.
  destruct Htimer as [Hk Hu Hs]. induction n as [|n (IK & IU & IT & II)].
  - replace (m0 + 0)%nat with m0 by lia. cbn [delivered_ticks]. rewrite !Z.add_0_r. split; [done|]. split; [done|].
    unfold ticks_at, pit_ticks, irqs_at, irq_count, IRQ_COUNT. cbn [Z.geb Z.compare].
    split; symmetry; apply u32_small; [done|]. apply Forall_aget; [apply Hk|rewrite (io_counts _ (ki_ok _ Hk)); lia].
  - destruct (Hs (m0 + n)%nat) as [Hl Ha].
    destruct (interrupts_lockstep (as_kernel (now (m0 + n)%nat)) _ _ IK Hl IU Ha) as (K & U & C & P).
    replace (m0 + S n)%nat with (S (m0 + n)) by lia. cbn [delivered_ticks]. split; [exact K|]. split; [exact U|].
    unfold ticks_at, irqs_at in *. cbn [k_irqs k_devices as_kernel] in *. rewrite C, P, IT, II.
    unfold u32. rewrite !Zplus_mod_idemp_l. split; f_equal; lia.
Qed.

Lemma delivered_mono n k : delivered_ticks now lines m0 n <= delivered_ticks now lines m0 (n + k).
Proof using.
  induction k as [|k IH]; [replace (n + 0)%nat with n by lia; lia|]. replace (n + S k)%nat with (S (n + k)) by lia.
  cbn [delivered_ticks]. pose proof (alen_nonneg (filter (fun i => i = 0) (through (now (m0 + (n + k))%nat).1 (lines (m0 + (n + k))%nat)))).
  unfold occurrences. lia.
Qed.

Lemma elapsed_mono d d' : (d <= d')%nat -> elapsed now lines m0 d <= elapsed now lines m0 d'.
Proof using.
  intros Hd. unfold elapsed. pose proof (delivered_mono d (d' - d)) as H1. pose proof (delivered_mono (S d) (d' - d)) as H2.
  replace (d + (d' - d))%nat with d' in H1 by lia. replace (S d + (d' - d))%nat with (S d') in H2 by lia. lia.
Qed.

(** The observer's test, in terms of the interrupts delivered, while the
    counters do not run through their whole range. *)
Lemma waits_elapsed d :
  delivered_ticks now lines m0 (S d) < 4294967296 ->
  waits_at now m0 (m0 + d) = (elapsed now lines m0 d <? PIT_TEST_TICKS).
Proof using Htimer.
  intros Hb. pose proof (delivered_mono 0 d) as H0. pose proof (delivered_mono d 1) as H1. pose proof (delivered_mono 1 d) as H2.
  pose proof (delivered_mono 0 1) as H3. replace (d + 1)%nat with (S d) in H1 by lia. cbn [Nat.add] in H0, H2, H3.
  change (delivered_ticks now lines m0 0) with 0 in *. unfold waits_at. replace (S (m0 + d)) with (m0 + S d)%nat by lia.
  replace (S m0) with (m0 + 1)%nat by lia. destruct (timer_moments d) as (_ & _ & -> & _).
  destruct (timer_moments (S d)) as (_ & _ & _ & ->). destruct (timer_moments 1) as (_ & _ & _ & ->). unfold elapsed.
  set (d1 := delivered_ticks now lines m0 1) in *. set (d2 := delivered_ticks now lines m0 d) in *.
  set (d3 := delivered_ticks now lines m0 (S d)) in *.
  assert (E1 : forall t, u32 (u32 (t + d2) - t) = d2).
  { intros t. unfold u32. rewrite Zminus_mod_idemp_l. replace (t + d2 - t) with d2 by lia. apply Z.mod_small. lia. }
  assert (E2 : forall t, u32 (u32 (t + d3) - u32 (t + d1)) = d3 - d1).
  { intros t. unfold u32. rewrite <-Zminus_mod. replace (t + d3 - (t + d1)) with (d3 - d1) by lia. apply Z.mod_small. lia. }
  rewrite E1, E2.
  destruct (Z.ltb_spec d2 PIT_TEST_TICKS), (Z.ltb_spec (d3 - d1) PIT_TEST_TICKS), (Z.ltb_spec (Z.min d2 (d3 - d1)) PIT_TEST_TICKS); first [reflexivity|lia].
Qed.

(** The moments of the tests. *)
Lemma tests_at patience n :
  delivered_ticks now lines m0 (3 + n * (patience + 3)) < 4294967296 ->
  (forall j, (j < n)%nat -> goes_on now lines patience m0 j = true) ->
  exists d, test_at now lines patience m0 n = (m0 + d)%nat /\ tested now lines patience m0 n d /\
    still_waiting now lines patience m0 n = (elapsed now lines m0 d <? PIT_TEST_TICKS).
Proof using Htimer.
  intros Hb Hgo. enough (H : exists d, test_at now lines patience m0 n = (m0 + d)%nat /\ tested now lines patience m0 n d).
  { destruct H as (d & Ed & Ht). exists d. split; [done|]. split; [done|]. unfold still_waiting. rewrite Ed. apply waits_elapsed.
    pose proof (tested_range _ _ _ _ _ _ Ht) as Hr. pose proof (delivered_mono (S d) (2 + n * (patience + 3) - d)) as Hm.
    replace (S d + (2 + n * (patience + 3) - d))%nat with (3 + n * (patience + 3))%nat in Hm by lia. lia. }
  revert Hb Hgo. induction n as [|n IH]; intros Hb Hgo.
  - exists 2%nat. split; [cbn [test_at]; lia|constructor].
  - assert (Hb' : delivered_ticks now lines m0 (3 + n * (patience + 3)) < 4294967296).
    { pose proof (delivered_mono (3 + n * (patience + 3)) (patience + 3)) as Hm.
      replace (3 + n * (patience + 3) + (patience + 3))%nat with (3 + S n * (patience + 3))%nat in Hm by lia. lia. }
    destruct (IH Hb' ltac:(auto)) as (d & Ed & Ht). destruct (goes_on_true _ _ _ _ _ (Hgo n ltac:(lia))) as [Hw Hup].
    pose proof (tested_range _ _ _ _ _ _ Ht) as Hr.
    destruct (hlt_cases now lines patience (S (S (test_at now lines patience m0 n)))) as [(n' & E & Hwk)|[E _]].
    + exists (n' - m0)%nat. rewrite (wakes_up _ _ _ _ _ Hup) in E.
      assert (E' : test_at now lines patience m0 (S n) = n') by congruence. pose proof Hwk as (i & Hi & En & _).
      rewrite E'. split; [lia|]. apply (tested_next _ _ _ _ n d); [done| |].
      * unfold still_waiting in Hw. rewrite Ed in Hw. rewrite waits_elapsed in Hw; [by apply Z.ltb_lt in Hw|].
        pose proof (delivered_mono (S d) (2 + n * (patience + 3) - d)) as Hm.
        replace (S d + (2 + n * (patience + 3) - d))%nat with (3 + n * (patience + 3))%nat in Hm by lia. lia.
      * replace (m0 + (n' - m0))%nat with n' by lia. by replace (m0 + d + 2)%nat with (S (S (test_at now lines patience m0 n))) by lia.
    + unfold awake in Hup. apply bool_decide_eq_true in Hup. by destruct Hup.
Qed.

(** The same timer seen from a later read. *)
Lemma timer_runs_at n : timer_runs now lines (m0 + n).
Proof using Htimer. destruct (timer_moments n) as (Hk & Hu & _). destruct Htimer as [_ _ Hs]. by split. Qed.

Lemma delivered_at n k :
  delivered_ticks now lines (m0 + n) k = delivered_ticks now lines m0 (n + k) - delivered_ticks now lines m0 n.
Proof using.
  induction k as [|k IH]; [replace (n + 0)%nat with n by lia; cbn [delivered_ticks]; lia|].
  replace (n + S k)%nat with (S (n + k)) by lia. cbn [delivered_ticks]. rewrite IH. replace (m0 + n + k)%nat with (m0 + (n + k))%nat by lia. lia.
Qed.
End Timer.

(** ** Properties *)

(** The three tasks as created. *)
Lemma init_fresh e s :
  alen (tasks s) = TASK_MAX_TASKS -> scheduler_running s = false ->
  lands Bootstrap (task_system_init e s) = Some (Bootstrap, initialised).
Proof.
  intros Hl Hr. unfold task_system_init, interrupt_state_save_and_disable. rewrite Hr. cbn [lands].
  pose proof (fill_range_tabulate TASK_MAX_TASKS (fun _ => unused_task) (tasks s) ltac:(unfold TASK_MAX_TASKS; lia) Hl) as E.
  unfold fill_range in E. change (mk_tcb TASK_STATE_UNUSED NULL NULL 0) with unused_task. rewrite E. reflexivity.
Qed.

Lemma creates pa ca oa ts ex tr e m :
  pa <> NULL -> ca <> NULL -> oa <> NULL ->
  exists sp0 sp1 sp2 s1 s2 m1 m2 m3,
    create ts ex tr pa e initialised m = Some (0, s1, m1) /\ create ts ex tr ca e s1 m1 = Some (1, s2, m2) /\
    create ts ex tr oa e s2 m2 = Some (2, created pa ca oa sp0 sp1 sp2, m3).
Proof.
  intros Hp Hc Ho.
  destruct (create_next ts ex tr pa e initialised m 0 eq_refl eq_refl Hp eq_refl ltac:(done)) as (sp0 & m1 & E0).
  set (s1 := set_tasks _ _) in E0.
  destruct (create_next ts ex tr ca e s1 m1 1 eq_refl eq_refl Hc ltac:(reflexivity) ltac:(done)) as (sp1 & m2 & E1).
  set (s2 := set_tasks _ _) in E1.
  destruct (create_next ts ex tr oa e s2 m2 2 eq_refl eq_refl Ho ltac:(reflexivity) ltac:(done)) as (sp2 & m3 & E2).
  exists sp0, sp1, sp2. do 5 eexists. split; [exact E0|]. split; [exact E1|]. exact E2.
Qed.

Lemma first_false (f : nat -> bool) N :
  (exists n, (n <= N)%nat /\ (forall j, (j < n)%nat -> f j = true) /\ f n = false) \/ (forall j, (j <= N)%nat -> f j = true).
Proof.
  induction N as [|N [(n & Hn & H)|IH]]; [|by left; exists n; split; [lia|]|].
  - destruct (f 0%nat) eqn:E; [right|left].
    + intros j Hj. by replace j with 0%nat by lia.
    + exists 0%nat. split_and!; [lia|lia|done].
  - destruct (f (S N)) eqn:E; [right|left].
    + intros j Hj. destruct (decide (j = S N)) as [->|]; [done|]. apply IH. lia.
    + exists (S N). split_and!; [lia| |done]. intros j Hj. apply IH. lia.
Qed.

(** The moments a flow can last. *)
Definition flow_horizon (patience : nat) : nat := (6 + 242 * (patience + 3))%nat.

(** All messages exchanged and the scheduler idle. *)
Record exchanged (w : world) (switches finished : Z) : Prop := {
  ex_produced : produced_messages (w_flow w) = 6;
  ex_consumed : consumed_messages (w_flow w) = 6;
  ex_accepted : task_flow_failed (w_flow w) = false;
  ex_queue : ipc_pending 0 (w_ipc w) = 0;
  ex_idle : scheduler_running (w_sched w) = false;
  ex_switches : task_switch_count (w_sched w) = switches;
  ex_finished : task_finished_count (w_sched w) = finished;
}.

Section Cases.
Context (now : nat -> irqs devices * devices) (lines : nat -> list Z) (patience : nat) (junk : Z -> ipc_message).
Context (pa ca oa ts ex tr e : Z).
Hypothesis Hjunk : forall i, alen (msg_payload (junk i)) = IPC_PAYLOAD_MAX.
Hypothesis Haddresses : pa <> NULL /\ ca <> NULL /\ oa <> NULL /\ pa <> ca /\ pa <> oa /\ ca <> oa.

Lemma flow_created m w :
  alen (tasks (w_sched w)) = TASK_MAX_TASKS -> scheduler_running (w_sched w) = false ->
  task_flow_endpoint (w_flow w) = 0 -> w_ipc w = (ipc_endpoint_create ipc_static).2 ->
  exists sp0 sp1 sp2 told iold m', run_task_flow now lines patience junk pa ca oa ts ex tr e m w =
    '(complete, w) ← run_flow_tasks now lines patience junk pa ca oa e (created_world pa ca oa sp0 sp1 sp2 (w_moment w) told iold);
    if negb complete then Some (false, w, m') else Some (flow_verdict now w, w, m').
Proof using Haddresses.
  intros Hl Hr Hep Hq. destruct Haddresses as (Hp & Hc & Ho & _).
  destruct (creates pa ca oa ts ex tr e m Hp Hc Ho) as (sp0 & sp1 & sp2 & s1 & s2 & m1 & m2 & m3 & E1 & E2 & E3).
  exists sp0, sp1, sp2, (task_flow_tick_start (w_flow w)), (task_flow_irq_start (w_flow w)), m3.
  unfold run_task_flow. rewrite (init_fresh e _ Hl Hr). cbn [mbind option_bind]. rewrite E1. cbn [mbind option_bind]. rewrite E2.
  cbn [mbind option_bind]. rewrite E3. cbn [mbind option_bind task_flow_endpoint task_flow_tick_start task_flow_irq_start]. rewrite Hep, Hq.
  reflexivity.
Qed.

Lemma task_flow_cases m w :
  alen (tasks (w_sched w)) = TASK_MAX_TASKS -> scheduler_running (w_sched w) = false ->
  task_flow_endpoint (w_flow w) = 0 -> w_ipc w = (ipc_endpoint_create ipc_static).2 ->
  timer_runs now lines (w_moment w) -> delivered_ticks now lines (w_moment w) (flow_horizon patience) < 4294967296 ->
  let m0 := w_moment w in
  let flow := run_task_flow now lines patience junk pa ca oa ts ex tr e m w in
  (exists k d w' m', (k <= 241)%nat /\ tested now lines patience m0 k d /\ PIT_TEST_TICKS <= elapsed now lines m0 d /\
     flow = Some ((2 <=? k)%nat, w', m') /\ exchanged w' (15 + Z.of_nat k) 3 /\ w_moment w' = (m0 + d + 2)%nat) \/
  (exists d w' m', tested now lines patience m0 242 d /\
     flow = Some (false, w', m') /\ exchanged w' TASK_FLOW_BUDGET 2 /\ w_moment w' = (m0 + d)%nat) \/
  (exists k d, (k <= 241)%nat /\ tested now lines patience m0 k d /\ elapsed now lines m0 d < PIT_TEST_TICKS /\
     quiet now lines (m0 + d + 2) (m0 + d + 3 + patience) /\ flow = None).
Proof using Hjunk Haddresses.
  intros Hl Hr Hep Hq Ht Hb. cbv zeta. set (m0 := w_moment w) in *.
  destruct (flow_created m w Hl Hr Hep Hq) as (sp0 & sp1 & sp2 & told & iold & m3 & ->). fold m0.
  assert (Hup : forall n, (n <= flow_horizon patience)%nat -> delivered_ticks now lines m0 n < 4294967296).
  { intros n Hn. pose proof (delivered_mono now lines m0 n (flow_horizon patience - n)) as Hm.
    replace (n + (flow_horizon patience - n))%nat with (flow_horizon patience) in Hm by lia. lia. }
  assert (Hat : forall n, (n <= 242)%nat -> (forall j, (j < n)%nat -> goes_on now lines patience m0 j = true) ->
    exists d, test_at now lines patience m0 n = (m0 + d)%nat /\ tested now lines patience m0 n d /\
      still_waiting now lines patience m0 n = (elapsed now lines m0 d <? PIT_TEST_TICKS)).
  { intros n Hn. apply (tests_at now lines m0 Ht). apply Hup. unfold flow_horizon. nia. }
  destruct (first_false (goes_on now lines patience m0) 241) as [(n & Hn & Hw & Hlast)|Hall].
  - destruct (Hat n ltac:(lia) Hw) as (d & Ed & Htest & Est). destruct (still_waiting now lines patience m0 n) eqn:Es; symmetry in Est.
    + right. right. apply Z.ltb_lt in Est. unfold goes_on in Hlast. rewrite Es in Hlast. cbn [andb] in Hlast.
      exists n, d. do 3 (split; [done|]). split.
      * destruct (hlt_cases now lines patience (S (S (test_at now lines patience m0 n)))) as [(n' & E & _)|[_ Hquiet]].
        { unfold awake in Hlast. rewrite E in Hlast. by apply bool_decide_eq_false in Hlast; destruct Hlast. }
        rewrite Ed in Hquiet. intros i Hi. apply Hquiet. lia.
      * by rewrite (flow_tasks_sleep now lines patience junk pa ca oa sp0 sp1 sp2 e Hjunk Haddresses m0 told iold n Hw Es Hlast Hn).
    + left. apply Z.ltb_ge in Est. pose proof (tested_range _ _ _ _ _ _ Htest) as Hd.
      destruct (flow_tasks_end now lines patience junk pa ca oa sp0 sp1 sp2 e Hjunk Haddresses m0 told iold n Hw Es Hn) as [cur ->].
      cbn [mbind option_bind negb]. rewrite verdict_ended, Ed by lia. replace (S (S (m0 + d))) with (m0 + S (S d))%nat by lia.
      rewrite (waits_elapsed now lines m0 Ht) by (apply Hup; unfold flow_horizon; nia).
      pose proof (elapsed_mono now lines m0 d (S (S d)) ltac:(lia)) as Hm. rewrite (proj2 (Z.ltb_ge (elapsed now lines m0 (S (S d))) _)) by lia.
      cbn [negb]. rewrite andb_true_r. do 4 eexists. split; [exact Hn|]. split; [exact Htest|]. split; [exact Est|]. split; [reflexivity|].
      split; [done|]. cbn [ended w_moment]. rewrite Ed. lia.
  - right. left. destruct (Hat 242%nat ltac:(lia) ltac:(intros; apply Hall; lia)) as (d & Ed & Htest & _).
    rewrite (flow_tasks_exhaust now lines patience junk pa ca oa sp0 sp1 sp2 e Hjunk Haddresses m0 told iold) by (intros; apply Hall; lia).
    cbn [mbind option_bind negb]. do 3 eexists. split; [exact Htest|]. split; [reflexivity|]. split; [done|]. exact Ed.
Qed.
End Cases.

(** C7: what becomes of [run_task_flow], called with interrupts enabled, on a
    timer that does not wrap its counters meanwhile.  The observer tests the
    timer's counters, sleeps in [hlt] until an interrupt gets through and
    yields, while the producer and the consumer pass the six messages; the
    call ends in one of three ways.  Either one of the observer's first 242
    tests is the first to see three timer interrupts: then the three tasks
    have finished after 15 dispatches and one per earlier test, and the
    verdict is that there were at least two earlier tests.  Or 242 tests have
    all seen fewer: the budget of 256 dispatches is used up, and the verdict
    is failure.  In both cases all six messages have gone through the
    endpoint and been accepted, and the scheduler is idle.  Or the call is
    still asleep: no interrupt gets through in all the intervals that the
    observer's [hlt] is watched. *)
Theorem task_flow_exact now lines patience junk pa ca oa ts ex tr e m w :
  (forall i, alen (msg_payload (junk i)) = IPC_PAYLOAD_MAX) ->
  pa <> NULL /\ ca <> NULL /\ oa <> NULL /\ pa <> ca /\ pa <> oa /\ ca <> oa ->
  alen (tasks (w_sched w)) = TASK_MAX_TASKS -> scheduler_running (w_sched w) = false ->
  task_flow_endpoint (w_flow w) = 0 -> w_ipc w = (ipc_endpoint_create ipc_static).2 ->
  e .& EFLAGS_INTERRUPT <> 0 ->
  timer_runs now lines (w_moment w) -> delivered_ticks now lines (w_moment w) (flow_horizon patience) < 4294967296 ->
  let m0 := w_moment w in
  let flow := run_task_flow now lines patience junk pa ca oa ts ex tr e m w in
  (exists k d w' m', (k <= 241)%nat /\ tested now lines patience m0 k d /\ PIT_TEST_TICKS <= elapsed now lines m0 d /\
     flow = Some ((2 <=? k)%nat, w', m') /\ exchanged w' (15 + Z.of_nat k) 3 /\ w_moment w' = (m0 + d + 2)%nat) \/
  (exists d w' m', tested now lines patience m0 242 d /\
     flow = Some (false, w', m') /\ exchanged w' TASK_FLOW_BUDGET 2 /\ w_moment w' = (m0 + d)%nat) \/
  (exists k d, (k <= 241)%nat /\ tested now lines patience m0 k d /\ elapsed now lines m0 d < PIT_TEST_TICKS /\
     quiet now lines (m0 + d + 2) (m0 + d + 3 + patience) /\ flow = None).
Proof. intros Hj Ha ???? _. by apply task_flow_cases. Qed.

(** A timer that ticks in every eighth interval, from a given state on. *)
Definition ticks_in (n : nat) : bool := Z.of_nat n mod 8 =? 0.
Definition tick_lines (n : nat) : list Z := if ticks_in n then [0] else [].

Fixpoint ticking (x : irqs devices * devices) (n : nat) : irqs devices * devices :=
  match n with
  | O => x
  | S n =>
      match serve_all blank_frame 0 (tick_lines n) (ticking x n).1 (ticking x n).2 dark_screen with
      | Some (st, d, _) => (st, d)
      | None => ticking x n
      end
  end.

Lemma tick_lines_ok n : Forall (fun irq => 0 <= irq < 16) (tick_lines n).
Proof. unfold tick_lines. destruct (ticks_in n); repeat constructor; lia. Qed.

Section Ticking.
Context (x : irqs devices * devices).
Hypothesis Hx : kernel_irqs_ok x.1 /\ deliverable 0 (irq_pic x.1) = true /\ is_u32 (tick_count (dev_pit x.2)).

(** What stays: the handlers, the masks and the keyboard. *)
Definition ticks_on (y : irqs devices * devices) : Prop :=
  irq_ok y.1 /\ handlers y.1 = handlers x.1 /\ irq_pic y.1 = irq_pic x.1 /\ dev_keyboard y.2 = dev_keyboard x.2.

Lemma ticking_step n : ticks_on (ticking x n) ->
  serve_all blank_frame 0 (tick_lines n) (ticking x n).1 (ticking x n).2 dark_screen = Some (ticking x (S n), dark_screen) /\
  ticks_on (ticking x (S n)).
Proof using Hx.
  intros (Hok & Hh & Hp & Hk).
  destruct (serve_all_spec blank_frame 0 (tick_lines n) (ticking x n).1 (ticking x n).2 dark_screen Hok (tick_lines_ok n))
    as (st & E & Hok' & Hh' & Hp' & _).
  cbn [ticking]. rewrite E. cbv iota. split; [done|]. split; [exact Hok'|]. cbn [fst snd]. split; [by rewrite Hh'|].
  split; [by rewrite Hp'|]. rewrite <-Hk. unfold through, tick_lines. rewrite Hp. destruct (ticks_in n); [|done].
  destruct Hx as (Ki & Hd & _). rewrite filter_cons, decide_True by done. cbn [filter list_filter fold_left].
  unfold run_handler. by rewrite Hh, (ki_timer _ Ki).
Qed.

Lemma ticking_on n : ticks_on (ticking x n).
Proof using Hx.
  induction n as [|n IH]; [|by apply ticking_step]. destruct Hx as [Hk _]. split; [exact (ki_ok _ Hk)|done].
Qed.

Lemma ticking_serves n : Forall (fun irq => 0 <= irq < 16) (tick_lines n) /\
  after_interrupts (as_kernel (ticking x n)) (tick_lines n) (as_kernel (ticking x (S n))).
Proof using Hx.
  split; [apply tick_lines_ok|]. exists blank_frame, 0, dark_screen. destruct (ticking_step n (ticking_on n)) as [E _].
  unfold as_kernel at 1 2 3 4. cbn [k_irqs k_devices k_pmm k_heap k_sched]. split; [|done].
  rewrite E. unfold as_kernel. cbn [k_irqs k_devices]. by destruct (ticking x (S n)).
Qed.

Lemma ticking_through n : through (ticking x n).1 (tick_lines n) = tick_lines n.
Proof using Hx.
  unfold through, tick_lines. destruct (ticking_on n) as (_ & _ & -> & _). destruct Hx as (_ & Hd & _).
  destruct (ticks_in n); [|done]. by rewrite filter_cons, decide_True.
Qed.

Lemma ticking_delivers n : delivered_ticks (ticking x) tick_lines 0 n = (Z.of_nat n + 7) / 8.
Proof using Hx.
  induction n as [|n IH]; [done|]. cbn [delivered_ticks Nat.add]. rewrite ticking_through, IH. unfold tick_lines, ticks_in.
  destruct (Z.eqb_spec (Z.of_nat n mod 8) 0); [change (occurrences 0 [0]) with 1|change (occurrences 0 []) with 0];
    Z.to_euclidean_division_equations; lia.
Qed.

Lemma ticking_runs : timer_runs (ticking x) tick_lines 0.
Proof using Hx. destruct Hx as (H1 & _ & H3). split; [done|done|exact ticking_serves]. Qed.

Lemma ticking_elapsed m0 d : elapsed (ticking x) tick_lines m0 d =
  Z.min ((Z.of_nat (m0 + d) + 7) / 8 - (Z.of_nat m0 + 7) / 8) ((Z.of_nat (m0 + S d) + 7) / 8 - (Z.of_nat (m0 + 1) + 7) / 8).
Proof using Hx.
  unfold elapsed. pose proof (delivered_at (ticking x) tick_lines 0 m0) as H. change (0 + m0)%nat with m0 in H.
  rewrite !H, !ticking_delivers. f_equal. lia.
Qed.

(** A sleep ends with the next tick. *)
Lemma ticking_wakes patience n n' : (7 <= patience)%nat -> Z.of_nat n' = 8 * ((Z.of_nat n + 7) / 8) + 1 ->
  wakes (ticking x) tick_lines patience n n'.
Proof using Hx.
  intros Hp En. exists (Nat.pred n').
  assert (Z.of_nat (Nat.pred n') = 8 * ((Z.of_nat n + 7) / 8)) as E by (Z.to_euclidean_division_equations; lia).
  split; [Z.to_euclidean_division_equations; lia|]. split; [Z.to_euclidean_division_equations; lia|]. split.
  - intros i Hi. rewrite ticking_through. unfold tick_lines, ticks_in.
    destruct (Z.eqb_spec (Z.of_nat i mod 8) 0); [|done]. exfalso. Z.to_euclidean_division_equations. lia.
  - rewrite ticking_through. unfold tick_lines, ticks_in. rewrite E.
    destruct (Z.eqb_spec ((8 * ((Z.of_nat n + 7) / 8)) mod 8) 0) as [|Hne]; [done|]. destruct Hne. Z.to_euclidean_division_equations. lia.
Qed.

Lemma ticking_next patience m0 k d d' : (7 <= patience)%nat ->
  tested (ticking x) tick_lines patience m0 k d -> elapsed (ticking x) tick_lines m0 d < PIT_TEST_TICKS ->
  Z.of_nat (m0 + d') = 8 * ((Z.of_nat (m0 + d + 2) + 7) / 8) + 1 -> tested (ticking x) tick_lines patience m0 (S k) d'.
Proof using Hx. intros Hp Ht He Ed. eapply tested_next; [done|done|]. by apply ticking_wakes. Qed.

(** The flow's observer sees three ticks at its third or fourth test. *)
Lemma ticking_paced patience m0 : (7 <= patience)%nat ->
  exists k d, (2 <= k <= 241)%nat /\ tested (ticking x) tick_lines patience m0 k d /\
    PIT_TEST_TICKS <= elapsed (ticking x) tick_lines m0 d.
Proof using Hx.
  intros Hp. set (next d := (Z.to_nat (8 * ((Z.of_nat (m0 + d + 2) + 7) / 8) + 1) - m0)%nat).
  assert (Hnext : forall d, Z.of_nat (m0 + next d) = 8 * ((Z.of_nat (m0 + d + 2) + 7) / 8) + 1)
    by (intros d; unfold next; Z.to_euclidean_division_equations; lia).
  pose proof (Hnext 2%nat) as N1. set (d1 := next 2%nat) in *. pose proof (Hnext d1) as N2. set (d2 := next d1) in *.
  pose proof (Hnext d2) as N3. set (d3 := next d2) in *. clearbody d1 d2 d3. clear Hnext next.
  pose proof (tested_first (ticking x) tick_lines patience m0) as T0.
  assert (E0 : elapsed (ticking x) tick_lines m0 2 < PIT_TEST_TICKS)
    by (rewrite ticking_elapsed; unfold PIT_TEST_TICKS; Z.to_euclidean_division_equations; lia).
  pose proof (ticking_next _ _ _ _ d1 Hp T0 E0 N1) as T1.
  assert (E1 : elapsed (ticking x) tick_lines m0 d1 < PIT_TEST_TICKS)
    by (rewrite ticking_elapsed; unfold PIT_TEST_TICKS; Z.to_euclidean_division_equations; lia).
  pose proof (ticking_next _ _ _ _ d2 Hp T1 E1 N2) as T2.
  destruct (Z.lt_ge_cases (elapsed (ticking x) tick_lines m0 d2) PIT_TEST_TICKS) as [E2|E2].
  - pose proof (ticking_next _ _ _ _ d3 Hp T2 E2 N3) as T3. exists 3%nat, d3. split; [lia|]. split; [done|].
    clear T0 T1 T2 T3 E2. rewrite ticking_elapsed in *. unfold PIT_TEST_TICKS in *. Z.to_euclidean_division_equations. lia.
  - exists 2%nat, d2. split; [lia|]. by split.
Qed.
End Ticking.

Definition timer_on : irqs devices * devices := (k_timer_irqs, idle_devices).

Lemma timer_on_ok : kernel_irqs_ok timer_on.1 /\ deliverable 0 (irq_pic timer_on.1) = true /\ is_u32 (tick_count (dev_pit timer_on.2)).
Proof. split; [exact k_timer_irqs_ok|]. split; [reflexivity|by split]. Qed.

Definition flow_start : world :=
  mk_world (mk_flow 0 1 2 3 4 5 true true true true) (ipc_endpoint_create ipc_static).2 sched_static 0.

Lemma few_ticks : delivered_ticks (ticking timer_on) tick_lines (w_moment flow_start) (flow_horizon 7) < 4294967296.
Proof. change (w_moment flow_start) with 0%nat. by rewrite (ticking_delivers _ timer_on_ok). Qed.

(** The observer sees three ticks at its third test. *)
Lemma task_flow_exact_witness :
  exists w' m', run_task_flow (ticking timer_on) tick_lines 7 (fun _ => zero_message) 0x1000 0x2000 0x3000 0x100000 7 8 0x202 ∅ flow_start =
      Some (true, w', m') /\ exists switches, exchanged w' switches 3.
Proof.
  destruct (ticking_paced timer_on timer_on_ok 7 0 ltac:(lia)) as (k & d & Hk & Ht & He).
  destruct (task_flow_exact (ticking timer_on) tick_lines 7 (fun _ => zero_message) 0x1000 0x2000 0x3000 0x100000 7 8 0x202 ∅ flow_start
    ltac:(reflexivity) ltac:(split_and!; discriminate) eq_refl eq_refl eq_refl eq_refl ltac:(discriminate) (ticking_runs _ timer_on_ok) few_ticks)
    as [(k' & d' & w' & m' & Hk' & Ht' & He' & E & Hx & _)|[(d' & _ & _ & Ht' & _)|(k' & d' & Hk' & Ht' & He' & Hq & _)]].
  - exists w', m'. rewrite E. split; [|by exists (15 + Z.of_nat k')]. destruct (Nat.leb_spec 2 k') as [|Hlt]; [done|].
    exfalso. pose proof (tested_before _ _ _ _ k' k _ _ Ht ltac:(lia) Ht'). change (w_moment flow_start) with 0%nat in He'. lia.
  - exfalso. pose proof (tested_before _ _ _ _ k 242 _ _ Ht' ltac:(lia) Ht). change (w_moment flow_start) with 0%nat in *. lia.
  - exfalso. destruct (ticking_wakes timer_on timer_on_ok 7 (0 + d' + 2) (Z.to_nat (8 * ((Z.of_nat (0 + d' + 2) + 7) / 8) + 1)) ltac:(lia))
      as (i & Hi & _ & _ & Hne); [Z.to_euclidean_division_equations; lia|]. apply Hne, Hq. change (w_moment flow_start) with 0%nat. lia.
Defined.
