(* ===== verification/Kernel.v ===== *)
(** * Kernel entry (src/kernel/kernel.c)

    [kernel_main] from its first console message to the interactive shell: the
    set-up calls and self-tests of the other files in the order of the source,
    each stage ending in [boot_fail] or in the next one.  Once interrupts are
    enabled the interrupt lines and the devices change between the kernel's
    reads of them and its [hlt]s; an environment gives their state at each of
    these moments and the interrupt requests between them, as in TaskFlow.v. *)
From S2P Require Import Prelude Memory Pmm Heap Vmm Multiboot Boot Task Ring Ipc Keyboard Console Ramfs LineEditor Command.
From S2P Require Import Descriptors Pic Irq SystemStatus Runtime Session SelfTests TaskFlow.
From Stdlib Require Import String.

(** The statics of the kernel and its memory; the console is the shell's. *)
Record machine := mk_machine {
  m_shell : shell;
  m_gdt : gdt_state;
  m_cpu : cpu_tables;
  m_pmm : pmm;
  m_irqs : irqs devices;
  m_devices : devices;
  m_vmm : vmm;
  m_heap : heap;
  m_ipc : ipc;
  m_sched : sched;
  m_flow : flow;
  m_memory : static_array;
}.

Definition m_console (m : machine) : console := shell_console (m_shell m).

Definition with_shell (s : shell) (m : machine) : machine :=
  mk_machine s (m_gdt m) (m_cpu m) (m_pmm m) (m_irqs m) (m_devices m) (m_vmm m) (m_heap m) (m_ipc m) (m_sched m) (m_flow m) (m_memory m).

Definition with_console (con : console) (m : machine) : machine := with_shell (set_console con (m_shell m)) m.

(** A stage halts in [boot_fail] or goes on. *)
Inductive booted (A : Type) := Halted (stage : string) (con : console) | Reached (a : A).
Arguments Halted {A}.
Arguments Reached {A}.

(** [console_write(line)] with a line feed at the end. *)
Definition announce (line : string) (con : console) : console := console_write (Some (line_of line)) con.

(** What [boot_fail] prints before it stops. *)
Definition boot_fail (stage : string) (con : console) : console :=
  let con := console_write (Some (cstr "BOOT_FAIL:")) con in
  let con := console_write (Some (cstr stage)) con in
  console_putc NEWLINE con.

Definition fail {A} (stage : string) (con : console) : option (booted A) := Some (Halted stage (boot_fail stage con)).

Definition and_then {A B} (r : option (booted A)) (k : A -> option (booted B)) : option (booted B) :=
  match r with
  | Some (Reached a) => k a
  | Some (Halted stage con) => Some (Halted stage con)
  | None => None
  end.

(** What the linker chose. *)
Record image := mk_image {
  kernel_start : Z; kernel_end : Z;
  gdt_address : Z; idt_address : Z;
  isr_stub_table : list Z; irq_stub_table : list Z;
  arena : Z; page_directory_address : Z; page_tables_address : Z;
  producer_address : Z; consumer_address : Z; observer_address : Z;
  task_stacks : Z; task_exit_address : Z; task_trampoline_address : Z;
}.

(** The uninitialised automatic variables of the calls, the registers pushed
    by [int3] and the address of a variable on the stack. *)
Record leftovers := mk_leftovers {
  l_frame : interrupt_frame; l_cr2 : Z;
  l_stack_variable : Z; l_initial : heap_stats; l_final : heap_stats;
  l_endpoints : list Z; l_input : ipc_message; l_output : ipc_message;
  l_runtime : stack_frame; l_messages : Z -> ipc_message;
  l_status : system_status * heap_stats; l_eflags : Z;
}.

Section Kernel.
Context (img : image) (l : leftovers).

(** Console, descriptor tables. *)
Definition early_stage (m : machine) : machine :=
  let con := console_init (m_console m) in
  let con := announce "TinyShell OS booting..." con in
  let con := announce "Architecture: i386" con in
  let con := announce "CONSOLE_OK" con in
  let '(g, cpu) := gdt_init (gdt_address img) (m_gdt m) (m_cpu m) in
  let con := announce "GDT_OK" con in
  let '(t, cpu) := idt_init (isr_stub_table img) (idt_address img) (irq_idt (m_irqs m)) cpu in
  let con := announce "IDT_OK" con in
  let st := m_irqs m in
  mk_machine (set_console con (m_shell m)) g cpu (m_pmm m)
    (mk_irqs (handlers st) (counts st) (irq_pic st) (irq_bus st) t)
    (m_devices m) (m_vmm m) (m_heap m) (m_ipc m) (m_sched m) (m_flow m) (m_memory m).

(** The frame [int3] gives to [interrupt_dispatch]. *)
Definition breakpoint_frame : interrupt_frame :=
  let f := l_frame l in
  mk_frame (f_edi f) (f_esi f) (f_ebp f) (f_saved_esp f) (f_ebx f) (f_edx f) (f_ecx f) (f_eax f) 3 0 (f_eip f) (f_cs f) (f_eflags f).

(** Memory map, breakpoint test, page allocator. *)
Definition memory_stage (magic address : Z) (m : machine) : option (booted machine) :=
  let con := m_console m in
  match multiboot_parse (m_memory m) magic address, multiboot_get_owned_ranges (m_memory m) magic address with
  | Some _, Some owned =>
      let con := announce "MULTIBOOT_OK" con in
      let con := announce "MEMORY_MAP_OK" con in
      '(resumed, st, d, con) ← interrupt_dispatch breakpoint_frame (l_cr2 l) (m_irqs m) (m_devices m) con;
      match resumed with
      | Halts => None
      | Resumes =>
          let con := announce "INT3_TEST_OK" con in
          match boot_pages (kernel_start img) (kernel_end img) (m_memory m) magic address owned (m_pmm m) with
          | (BootFail stage, _) => fail stage con
          | (MemoryReady, s) =>
              let con := announce "PMM_OK" con in
              let con := announce "PMM_ALLOC_FREE_OK" con in
              let con := console_write (Some (cstr "PMM_FREE_PAGES=")) con in
              con ← console_write_u32_dec (pmm_free_page_count s) con;
              let con := console_putc NEWLINE con in
              Some (Reached (mk_machine (set_console con (m_shell m)) (m_gdt m) (m_cpu m) s st d
                (m_vmm m) (m_heap m) (m_ipc m) (m_sched m) (m_flow m) (m_memory m)))
          end
      end
  | _, _ => fail "multiboot" con
  end.

(** Interrupt controllers, timer, keyboard. *)
Definition device_stage (m : machine) : option (booted machine) :=
  let con := m_console m in
  let st := irq_init (irq_stub_table img) (m_irqs m) in
  let d := m_devices m in
  if pic_get_mask (irq_pic st) != 0xFFFF then fail "pic-mask-initial" con
  else
  let con := announce "PIC_OK" con in
  let '(ok, p, b) := pit_configure 100 (dev_pit d) (irq_bus st) in
  let st := set_bus b st in
  if negb ok || (pit_frequency_hz p != 100) then fail "pit-configure" con
  else
  let con := announce "PIT_OK" con in
  let '(ok, k) := keyboard_self_test (dev_keyboard d) in
  if negb ok then fail "keyboard-decode" con
  else
  let con := announce "KEYBOARD_DECODE_OK" con in
  let k := keyboard_init k in
  let '(ok1, st) := irq_register_handler 0 (Some timer_handler) st in
  if negb ok1 then fail "irq-setup" con
  else
  let '(ok2, st) := irq_register_handler 1 (Some keyboard_handler) st in
  if negb ok2 then fail "irq-setup" con
  else
  let '(ok3, st) := irq_set_enabled 0 true st in
  if negb ok3 then fail "irq-setup" con
  else
  let '(ok4, st) := irq_set_enabled 1 true st in
  if negb ok4 || (pic_get_mask (irq_pic st) != 0xFFFC) then fail "irq-setup" con
  else
  let con := announce "IRQ_OK" con in
  let con := announce "KEYBOARD_READY" con in
  Some (Reached (mk_machine (set_console con (m_shell m)) (m_gdt m) (m_cpu m) (m_pmm m) st
    (mk_devices p k (dev_scancodes d)) (m_vmm m) (m_heap m) (m_ipc m) (m_sched m) (m_flow m) (m_memory m))).

(** Paging, heap, endpoints, shell. *)
Definition service_stage (m : machine) : option (booted machine) :=
  let con := m_console m in
  '(ok, (s, v, mem)) ← vmm_self_test (page_directory_address img) (page_tables_address img) (m_pmm m) (m_vmm m) (m_memory m);
  if negb ok then fail "vmm-self-test" con
  else
  let con := announce "PAGING_OK" con in
  let con := announce "VMM_MAP_OK" con in
  '(ok, h) ← heap_self_test (arena img) (l_stack_variable l) (l_initial l) (l_final l) (m_heap m);
  if negb ok then fail "heap-self-test" con
  else
  let con := announce "HEAP_OK" con in
  let con := announce "HEAP_COALESCE_OK" con in
  let f := m_flow m in
  let '(ok, endpoint, q) := ipc_self_test (l_endpoints l) (l_input l) (l_output l) (Some (task_flow_endpoint f)) (m_ipc m) in
  let f := mk_flow (default (task_flow_endpoint f) endpoint) (producer_task_id f) (task_flow_tick_start f) (task_flow_irq_start f)
             (produced_messages f) (consumed_messages f) (producer_finished f) (consumer_finished f)
             (timer_observer_finished f) (task_flow_failed f) in
  if negb ok then fail "ipc-self-test" con
  else
  let con := announce "IPC_OK" con in
  let '(ok, sh) := shell_runtime_init (l_runtime l) (set_console con (m_shell m)) in
  if negb ok then fail "shell-runtime" (shell_console sh)
  else
  let con := announce "RAMFS_OK" (shell_console sh) in
  let con := announce "SHELL_INPUT_OK" con in
  let con := announce "SHELL_PARSE_OK" con in
  Some (Reached (mk_machine (set_console con sh) (m_gdt m) (m_cpu m) s (m_irqs m) (m_devices m) v h q (m_sched m) f mem)).

(** [env x n] is the state of the lines and devices at moment [n] when they
    were [x] at [sti], [lines x n] are the requests between moment [n] and the
    next; a sleeping processor is watched for [patience] more intervals. *)
Context (env : irqs devices * devices -> nat -> irqs devices * devices) (lines : irqs devices * devices -> nat -> list Z).
Context (patience : nat).

(** The loop that waits for the timer; [n] is the next moment.  [None]: asleep
    in [hlt], or the counters have not advanced after [fuel] sleeps. *)
Fixpoint timer_wait (fuel : nat) (now : nat -> irqs devices * devices) (requests : nat -> list Z) (tick_start irq_start : Z) (n : nat)
  : option nat :=
  if (u32 (ticks_at now n - tick_start) <? PIT_TEST_TICKS) || (u32 (irqs_at now (S n) - irq_start) <? PIT_TEST_TICKS) then
    match fuel with
    | O => None
    | S fuel =>
        n ← hlt now requests patience (S (S n));
        timer_wait fuel now requests tick_start irq_start n
    end
  else Some (S (S n)).

(** Each sleep lasts at least an interval, so with a tick in every [patience]
    intervals these sleeps are enough for three. *)
Definition wait_fuel : nat := S patience.

(** The kernel at moment [n]. *)
Definition kernel_now (m : machine) (now : nat -> irqs devices * devices) (n : nat) : kernel :=
  mk_kernel (m_pmm m) (m_heap m) (m_sched m) (now n).1 (now n).2.

(** [sti] on EFLAGS: the tasks are created with interrupts enabled. *)
Definition set_interrupt_flag (eflags : Z) : Z := Z.lor eflags EFLAGS_INTERRUPT.

(** Timer test and task flow, with the next moment. *)
Definition flow_stage (m : machine) : option (booted (machine * nat)) :=
  let con := m_console m in
  let tick_start := pit_ticks (dev_pit (m_devices m)) in
  let irq_start := irq_count 0 (m_irqs m) in
  let now := env (m_irqs m, m_devices m) in
  let requests := lines (m_irqs m, m_devices m) in
  n ← timer_wait wait_fuel now requests tick_start irq_start 0;
  let con := announce "TIMER_IRQ_OK" con in
  '(ok, w, mem) ← run_task_flow now requests patience (l_messages l) (producer_address img) (consumer_address img) (observer_address img)
    (task_stacks img) (task_exit_address img) (task_trampoline_address img) (set_interrupt_flag (l_eflags l)) (m_memory m)
    (mk_world (m_flow m) (m_ipc m) (m_sched m) n);
  if negb ok then fail "task-flow" con
  else
  let con := announce "TASK_OK" con in
  let con := announce "SCHEDULER_OK" con in
  let con := announce "IPC_TASK_FLOW_OK" con in
  (* the two reads of the timer in the flow's verdict *)
  Some (Reached (mk_machine (set_console con (m_shell m)) (m_gdt m) (m_cpu m) (m_pmm m) (m_irqs m) (m_devices m) (m_vmm m) (m_heap m)
    (w_ipc w) (w_sched w) (w_flow w) mem, S (S (w_moment w)))).

(** Status check and start of the shell. *)
Definition final_stage (x : machine * nat) : option (booted machine) :=
  let '(m, n) := x in
  let con := m_console m in
  let now := env (m_irqs m, m_devices m) in
  let '(ok, status) := system_status_read (arena img) (Some (fst (l_status l))) (l_status l) (fun k => kernel_now m now (n + k)) in
  let status := default (fst (l_status l)) status in
  if negb ok || (st_pmm_total_pages status == 0) || (st_pmm_free_pages status == 0) || (st_heap_total_bytes status == 0)
     || (st_pit_ticks status <? PIT_TEST_TICKS) || (st_irq0_count status <? PIT_TEST_TICKS) || (st_keyboard_dropped status != 0)
     || (st_task_switches status <? TASK_FLOW_MIN_SWITCHES) || (st_task_finished status != 3)
  then fail "system-status" con
  else
  let con := announce "SYSTEM_STATUS_OK" con in
  let con := announce "SHELL_READY" con in
  let con := announce "BOOT_OK" con in
  Some (Reached (with_shell (shell_runtime_start (set_console con (m_shell m))) m)).

Definition kernel_main (magic address : Z) (m : machine) : option (booted machine) :=
  and_then (memory_stage magic address (early_stage m)) (fun m =>
  and_then (device_stage m) (fun m =>
  and_then (service_stage m) (fun m =>
  and_then (flow_stage m) final_stage))).
End Kernel.

(** ** What the console shows *)

Lemma announce_shows before line con t :
  shows before con t -> shows before (announce line con) (show [say (line_of line)] t).
Proof.
  intros Hc. destruct (exec_shows before (say (line_of line)) con t) as (con' & E & H); [|done|].
  - apply Forall_app. split; [apply cstr_u8|by repeat constructor].
  - injection E as <-. exact H.
Qed.

Lemma announces_shows before lines con t :
  shows before con t -> shows before (fold_left (fun con line => announce line con) lines con) (show ((fun s => say (line_of s)) <$> lines) t).
Proof.
  revert con t. induction lines as [|s lines IH]; intros con t Hc; [done|]. cbn [fold_left fmap list_fmap].
  exact (IH _ _ (announce_shows before s con t Hc)).
Qed.

Definition lines_log (lines : list string) : list console_op := (fun s => say (line_of s)) <$> lines.

Definition fail_log (stage : string) : list console_op := [say (cstr "BOOT_FAIL:"); say (cstr stage); PutC NEWLINE].

Lemma fail_shows before stage con t : shows before con t -> shows before (boot_fail stage con) (show (fail_log stage) t).
Proof.
  intros Hc. destruct (run_shows before (fail_log stage) con t) as (con' & E & H); [|done|].
  - repeat apply Forall_cons_2; cbn [console_op_ok say]; auto using cstr_u8; done.
  - injection E as <-. exact H.
Qed.

(** ** The stages *)

Section Stages.
Context (img : image) (l : leftovers).

Definition early_log : list console_op :=
  lines_log ["TinyShell OS booting..."; "Architecture: i386"; "CONSOLE_OK"; "GDT_OK"; "IDT_OK"]%string.

(** Sizes of the statics that are arrays. *)
Record statics_sized (m : machine) : Prop := {
  ss_screen : alen (vga_buffer (m_console m)) = 2000;
  ss_handlers : alen (handlers (m_irqs m)) = 16;
  ss_counts : alen (counts (m_irqs m)) = 16;
  ss_idt : alen (idt (irq_idt (m_irqs m))) = 256;
  ss_keys : alen (character_queue (dev_keyboard (m_devices m))) = KEYBOARD_QUEUE_CAPACITY;
  ss_tables : alen (table_in_use (m_vmm m)) = PAGE_TABLE_COUNT;
  ss_ipc : ipc_inv (m_ipc m);
  ss_shell : shell_sized (m_shell m);
  ss_tasks : alen (tasks (m_sched m)) = TASK_MAX_TASKS;
  ss_words : words_ok (m_pmm m);
}.

Record image_ok : Prop := {
  im_isr : Forall is_u32 (isr_stub_table img) /\ alen (isr_stub_table img) = 32;
  im_irq : Forall is_u32 (irq_stub_table img) /\ alen (irq_stub_table img) = 16;
  im_idt : is_u32 (idt_address img);
  im_kernel : is_u32 (kernel_start img) /\ is_u32 (kernel_end img);
  im_tasks : producer_address img <> NULL /\ consumer_address img <> NULL /\ observer_address img <> NULL /\
    producer_address img <> consumer_address img /\ producer_address img <> observer_address img /\
    consumer_address img <> observer_address img;
}.

Lemma early_shows m :
  alen (vga_buffer (m_console m)) = 2000 ->
  shows (port_writes (m_console m) ++ init_writes) (m_console (early_stage img m)) (show early_log (blank_terminal [])).
Proof using.
  intros Hl. unfold early_stage. destruct (gdt_init _ _ _) as [g cpu]. destruct (idt_init _ _ _ _) as [t cpu'].
  exact (announces_shows _ ["TinyShell OS booting..."; "Architecture: i386"; "CONSOLE_OK"; "GDT_OK"; "IDT_OK"]%string _ _ (init_shows _ Hl)).
Qed.

Lemma early_keeps m : image_ok -> alen (idt (irq_idt (m_irqs m))) = 256 ->
  let m' := early_stage img m in
  alen (idt (irq_idt (m_irqs m'))) = 256 /\ handlers (m_irqs m') = handlers (m_irqs m) /\ counts (m_irqs m') = counts (m_irqs m) /\
  m_devices m' = m_devices m /\ m_pmm m' = m_pmm m /\ m_vmm m' = m_vmm m /\ m_heap m' = m_heap m /\ m_ipc m' = m_ipc m /\
  m_sched m' = m_sched m /\ m_flow m' = m_flow m /\ m_memory m' = m_memory m /\
  runtime_editor (m_shell m') = runtime_editor (m_shell m) /\ shell_fs (m_shell m') = shell_fs (m_shell m).
Proof using.
  intros [[H1 H2] _ H3 _ _] Hi. unfold early_stage. destruct (gdt_init _ _ _) as [g cpu].
  pose proof (idt_init_table _ (idt_address img) (irq_idt (m_irqs m)) cpu H1 H2 Hi H3) as H.
  destruct (idt_init _ _ _ _) as [t cpu']. destruct H as [H _]. cbn. split_and!; done.
Qed.

(** *** Devices *)

Definition device_log : list console_op :=
  lines_log ["PIC_OK"; "PIT_OK"; "KEYBOARD_DECODE_OK"; "IRQ_OK"; "KEYBOARD_READY"]%string.

Lemma registers {S} irq (h : S -> S) (st : irqs S) :
  0 <= irq < 16 -> (handlers st).[irq] = None -> irq_register_handler irq (Some h) st = (true, set_handler irq (Some h) st).
Proof using.
  intros Hi Hn. unfold irq_register_handler, IRQ_COUNT. rewrite Z.geb_leb, (proj2 (Z.leb_gt 16 irq)) by lia.
  rewrite (bool_decide_eq_false_2 (Some h = None)), (bool_decide_eq_true_2 ((handlers st).[irq] = None)) by done. done.
Qed.

(** The two lines the kernel opens. *)
Lemma opens_lines {S} (hs : list (option (S -> S))) cs b g :
  pic_ready (mk_pic 0xFF 0xFF) b 0 0 ->
  exists b', irq_set_enabled 0 true (mk_irqs hs cs (mk_pic 0xFF 0xFF) b g) = (true, mk_irqs hs cs (mk_pic 0xFE 0xFF) b' g) /\
  exists b'', irq_set_enabled 1 true (mk_irqs hs cs (mk_pic 0xFE 0xFF) b' g) = (true, mk_irqs hs cs (mk_pic 0xFC 0xFF) b'' g) /\
    pic_ready (mk_pic 0xFC 0xFF) b'' 0 0.
Proof using.
  intros Hr. pose proof (set_mask_ready 0 false _ b 0 0 Hr ltac:(lia)) as H1.
  change (pic_set_mask 0 false (mk_pic 0xFF 0xFF) b) with (true, mk_pic 0xFE 0xFF, bus_outb PIC_MASTER_DATA 0xFE b) in H1.
  destruct H1 as (_ & H1 & _). exists (bus_outb PIC_MASTER_DATA 0xFE b). split; [done|].
  pose proof (set_mask_ready 1 false _ _ 0 0 H1 ltac:(lia)) as H2.
  change (pic_set_mask 1 false (mk_pic 0xFE 0xFF) ?b) with (true, mk_pic 0xFC 0xFF, bus_outb PIC_MASTER_DATA 0xFC b) in H2.
  destruct H2 as (_ & H2 & _). by eexists.
Qed.

Lemma device_stage_passes m before t :
  image_ok -> alen (handlers (m_irqs m)) = 16 -> alen (counts (m_irqs m)) = 16 -> alen (idt (irq_idt (m_irqs m))) = 256 ->
  alen (character_queue (dev_keyboard (m_devices m))) = KEYBOARD_QUEUE_CAPACITY -> shows before (m_console m) t ->
  exists st d con, device_stage img m =
      Some (Reached (mk_machine (set_console con (m_shell m)) (m_gdt m) (m_cpu m) (m_pmm m) st d (m_vmm m) (m_heap m) (m_ipc m)
        (m_sched m) (m_flow m) (m_memory m))) /\
    kernel_irqs_ok st /\ deliverable 0 (irq_pic st) = true /\ deliverable 1 (irq_pic st) = true /\ irq_count 0 st = 0 /\
    dev_pit d = mk_pit 0 100 /\
    keyboard_dropped_count (dev_keyboard d) = 0 /\ shows before con (show device_log t).
Proof using.
  intros [_ [I1 I2] _ _ _] Hh Hc Hi Hk Hs. unfold device_stage. rewrite irq_init_fields by done.
  pose proof (pic_init_ready (irq_bus (m_irqs m))) as Hp. destruct (pic_init _) as [p b]. destruct Hp as [Hr ->].
  cbn [irq_pic irq_bus]. change (pic_get_mask (mk_pic 255 255)) with 0xFFFF. rewrite Z.eqb_refl. cbn [negb].
  set (b1 := bus_outb PIT_CHANNEL_0_PORT 46 (bus_outb PIT_CHANNEL_0_PORT 155 (bus_outb PIT_COMMAND_PORT PIT_CHANNEL_0_LO_HI_MODE_3 b))).
  change (pit_configure 100 (dev_pit (m_devices m)) b) with (true, mk_pit 0 100, b1). cbn [negb orb pit_frequency_hz configured_frequency_hz].
  rewrite Z.eqb_refl. cbn [negb]. destruct (keyboard_self_test_passes _ Hk) as (k & -> & Hk'). cbn [negb].
  unfold set_bus. cbn [handlers counts irq_pic irq_idt].
  destruct (set_gates_len 32 48 (fun v => (irq_stub_table img).[v - 32]) GDT_KERNEL_CODE_SELECTOR INTERRUPT_GATE (irq_idt (m_irqs m)))
    as [Hg _]; [lia|intros v Hv; apply (Forall_aget _ _ _ I1); lia|]. set (g := set_gates _ _ _ _ _ _) in *.
  rewrite registers by (try lia; reflexivity). cbn [negb]. rewrite registers by (try lia; reflexivity). cbn [negb].
  unfold set_handler. cbn [handlers counts irq_pic irq_idt irq_bus].
  assert (Hr1 : pic_ready (mk_pic 255 255) b1 0 0) by (by destruct Hr as [R1 R2 R3 R4]; split).
  set (hs := (replicate 16 None).[0 <- _].[1 <- _]).
  destruct (opens_lines hs (replicate 16 0) b1 g Hr1) as (b2 & -> & b3 & E3 & Hr3). cbn [negb]. rewrite E3.
  cbn [negb irq_pic orb]. change (pic_get_mask (mk_pic 252 255)) with 0xFFFC. rewrite Z.eqb_refl. cbn [negb].
  do 3 eexists. split; [reflexivity|]. split.
  - split; [split; cbn [handlers counts irq_pic irq_bus irq_idt]; [done|done|by apply Forall_replicate|done|by rewrite Hg]|done|done|].
    intros irq Hirq. cbn [handlers]. unfold hs, aget, aset. change (Z.to_nat 0) with 0%nat. change (Z.to_nat 1) with 1%nat.
    rewrite !list_lookup_total_insert_ne by lia. apply (lookup_total_replicate_2 16). lia.
  - split; [done|]. split; [done|]. split; [done|]. split; [done|]. split; [done|].
    exact (announces_shows before ["PIC_OK"; "PIT_OK"; "KEYBOARD_DECODE_OK"; "IRQ_OK"; "KEYBOARD_READY"]%string _ _ Hs).
Qed.

(** *** Memory *)

Definition breakpoint_log : list console_op :=
  lines_log ["MULTIBOOT_OK"; "MEMORY_MAP_OK"]%string ++ exception_report 3 ++ lines_log ["INT3_TEST_OK"]%string.

Definition memory_log (free : Z) : list console_op :=
  breakpoint_log ++ lines_log ["PMM_OK"; "PMM_ALLOC_FREE_OK"]%string ++ [say (cstr "PMM_FREE_PAGES="); WriteDec free; PutC NEWLINE].

(** The breakpoint comes back and reports itself. *)
Lemma breakpoint_reports (m : machine) before con t :
  shows before con t ->
  exists con', interrupt_dispatch (breakpoint_frame l) (l_cr2 l) (m_irqs m) (m_devices m)
      (announce "MEMORY_MAP_OK" (announce "MULTIBOOT_OK" con)) = Some (Resumes, m_irqs m, m_devices m, con') /\
    shows before (announce "INT3_TEST_OK" con') (show breakpoint_log t).
Proof using.
  intros Hs. pose proof (announces_shows before ["MULTIBOOT_OK"; "MEMORY_MAP_OK"]%string con t Hs) as H1. cbn [fold_left] in H1.
  destruct (run_shows before (exception_report 3) _ _ ltac:(by apply exception_report_ok) H1) as (con' & E & H2).
  exists con'. split.
  - unfold interrupt_dispatch, breakpoint_frame. cbn [f_vector Z.geb Z.ltb Z.compare Pos.compare Pos.compare_cont andb Z.eqb Pos.eqb].
    unfold console_run, exception_report in E. cbn [fold_left mbind option_bind console_exec] in E.
    destruct (console_write_u32_dec 3 _) as [c|]; [|discriminate E]. cbn [mbind option_bind] in *. by injection E as ->.
  - unfold breakpoint_log. rewrite !show_app. by apply announce_shows.
Qed.

Lemma free_pages_log before con t free :
  is_u32 free -> shows before con t ->
  exists con', console_write_u32_dec free (console_write (Some (cstr "PMM_FREE_PAGES="))
      (announce "PMM_ALLOC_FREE_OK" (announce "PMM_OK" con))) = Some con' /\
    shows before (console_putc NEWLINE con')
      (show (lines_log ["PMM_OK"; "PMM_ALLOC_FREE_OK"]%string ++ [say (cstr "PMM_FREE_PAGES="); WriteDec free; PutC NEWLINE]) t).
Proof using.
  intros Hf Hs. pose proof (announces_shows before ["PMM_OK"; "PMM_ALLOC_FREE_OK"]%string con t Hs) as H1. cbn [fold_left] in H1.
  destruct (run_shows before [say (cstr "PMM_FREE_PAGES="); WriteDec free] _ _
    ltac:(repeat apply Forall_cons_2; cbn [console_op_ok say]; auto using cstr_u8; done) H1) as (con' & E & H2).
  exists con'. split.
  - unfold console_run, say in E. cbn [fold_left mbind option_bind console_exec] in E. exact E.
  - destruct (exec_shows before (PutC NEWLINE) con' _ ltac:(done) H2) as (con2 & E2 & H3). injection E2 as <-.
    rewrite show_app. exact H3.
Qed.

(** What stops the boot in the memory stage. *)
Inductive memory_fails (m : static_array) (magic address : Z) : string -> Prop :=
| no_map : (forall rs, ~ boot_regions m magic address rs) -> memory_fails m magic address "multiboot"
| bad_range : ~ kernel_range_ok (kernel_start img) (kernel_end img) -> memory_fails m magic address "kernel-range"
| no_page regions : boot_map m magic address (kernel_start img) (kernel_end img) regions ->
    (forall p, valid_page p -> settled regions p <> PageFree) -> memory_fails m magic address "pmm-reserve".

(** The free pages a memory map leaves. *)
Definition map_free (regions : list boot_memory_region) : Z := count_range 0 PMM_PAGE_COUNT (is_free (settled regions)).

Lemma ready_free s regions : ready s regions -> pmm_free_page_count s = map_free regions.
Proof using.
  intros [Hi Hr]. rewrite (free_count_spec _ _ Hi Hr). apply count_range_ext. intros q _. by rewrite is_free_st.
Qed.

Lemma memory_stage_cases m magic address before t :
  image_ok -> words_ok (m_pmm m) -> is_u32 address -> shows before (m_console m) t ->
  (exists stage con ops, memory_stage img l magic address m = Some (Halted stage con) /\ memory_fails (m_memory m) magic address stage /\
     shows before con (show (ops ++ fail_log stage) t)) \/
  (exists s con regions, memory_stage img l magic address m =
       Some (Reached (mk_machine (set_console con (m_shell m)) (m_gdt m) (m_cpu m) s (m_irqs m) (m_devices m) (m_vmm m) (m_heap m)
         (m_ipc m) (m_sched m) (m_flow m) (m_memory m))) /\
     boot_map (m_memory m) magic address (kernel_start img) (kernel_end img) regions /\
     (exists p, valid_page p /\ settled regions p = PageFree) /\ ready s regions /\
     shows before con (show (memory_log (map_free regions)) t)).
Proof using.
  intros [_ _ _ [K1 K2] _] Hw Ha Hs. pose proof (boot_memory_cases _ _ (m_memory m) magic address (m_pmm m) Hw K1 K2 Ha) as H.
  unfold boot_memory in H. unfold memory_stage.
  assert (Hfail : forall stage, memory_fails (m_memory m) magic address stage -> forall ops con, shows before con (show ops t) ->
    exists stage' con' ops', fail (A := machine) stage con = Some (Halted stage' con') /\ memory_fails (m_memory m) magic address stage' /\
      shows before con' (show (ops' ++ fail_log stage') t)).
  { intros stage Hm ops con Hc. exists stage, (boot_fail stage con), ops. split; [done|]. split; [done|]. rewrite show_app. by apply fail_shows. }
  destruct (multiboot_parse _ _ _) as [x|] eqn:Ex; [|destruct H as [[_ H]|[[H _]|(_ & r & _ & [[H _]|[H _]])]]; try discriminate H;
    left; apply (Hfail "multiboot"%string (no_map _ _ _ H) []); exact Hs].
  destruct (multiboot_get_owned_ranges _ _ _) as [owned|]; [|destruct H as [[_ H]|[[H _]|(_ & r & _ & [[H _]|[H _]])]]; try discriminate H;
    left; apply (Hfail "multiboot"%string (no_map _ _ _ H) []); exact Hs].
  destruct (breakpoint_reports m before _ t Hs) as (con1 & -> & Hs1). cbn [mbind option_bind].
  destruct (boot_pages _ _ _ _ _ _ _) as [outcome s].
  destruct H as [[-> H]|[[-> H]|(Hk & regions & Hmap & [[-> H]|(-> & Hfree & Hready)])]].
  - left. exact (Hfail _ (no_map _ _ _ H) breakpoint_log _ Hs1).
  - left. exact (Hfail _ (bad_range _ _ _ H) breakpoint_log _ Hs1).
  - left. exact (Hfail _ (no_page _ _ _ _ Hmap H) breakpoint_log _ Hs1).
  - right. assert (Hu : is_u32 (pmm_free_page_count s)).
    { pose proof (inv_counts_range s (proj1 Hready)). unfold is_u32, pmm_free_page_count, PMM_PAGE_COUNT in *. lia. }
    destruct (free_pages_log before _ _ (pmm_free_page_count s) Hu Hs1) as (con2 & -> & Hs2). cbn [mbind option_bind].
    rewrite (ready_free _ _ Hready) in Hs2. exists s, (console_putc NEWLINE con2), regions. split; [done|]. split; [done|]. split; [done|]. split; [done|].
    unfold memory_log. by rewrite show_app.
Qed.

(** *** Services *)

Definition service_log : list console_op :=
  lines_log ["PAGING_OK"; "VMM_MAP_OK"; "HEAP_OK"; "HEAP_COALESCE_OK"; "IPC_OK"; "RAMFS_OK"; "SHELL_INPUT_OK"; "SHELL_PARSE_OK"]%string.

Record leftovers_sized : Prop := {
  lo_variable : l_stack_variable l < arena img \/ arena img + KHEAP_ARENA_SIZE <= l_stack_variable l;
  lo_endpoints : alen (l_endpoints l) = IPC_MAX_ENDPOINTS;
  lo_input : alen (msg_payload (l_input l)) = IPC_PAYLOAD_MAX;
  lo_output : alen (msg_payload (l_output l)) = IPC_PAYLOAD_MAX;
  lo_runtime : frame_sized (l_runtime l);
  lo_messages : forall i, alen (msg_payload (l_messages l i)) = IPC_PAYLOAD_MAX;
}.

(** The lowest free page is the one the allocator gives. *)
Lemma alloc_lowest s regions :
  ready s regions -> (exists p, valid_page p /\ settled regions p = PageFree) ->
  exists p s1, valid_page p /\ 0 < p /\ settled regions p = PageFree /\ pmm_alloc_page s = (p * PMM_PAGE_SIZE, s1) /\
    forall q, valid_page q -> settled regions q = PageFree -> p <= q.
Proof using.
  intros [Hi Hr] (p0 & Hv0 & Hf0). pose proof (pmm_alloc_page_refines s _ Hi Hr) as H.
  unfold spec_alloc in H. cbn [spec_pages] in H. destruct (find_range _ _ _) as [p|] eqn:E.
  - apply find_range_Some in E as (Hv & Hfree & Hfirst). apply bool_decide_eq_true in Hfree.
    destruct (pmm_alloc_page s) as [a s1]. destruct H as (-> & _). exists p, s1. split; [done|]. split.
    { destruct (decide (p = 0)) as [->|]; [done|]. unfold valid_page in Hv. lia. }
    split; [done|]. split; [done|]. intros q Hq Hqf. destruct (Z.le_gt_cases p q) as [|Hlt]; [done|].
    specialize (Hfirst q ltac:(unfold valid_page in Hq; lia)). unfold is_free in Hfirst. by rewrite bool_decide_eq_true_2 in Hfirst.
  - rewrite find_range_None in E. specialize (E p0 Hv0). unfold is_free in E. by rewrite bool_decide_eq_true_2 in E.
Qed.

Context `{Harena : ArenaPlacement (arena img)} `{Htables : VmmPlacement (page_tables_address img)}.

Lemma service_stage_cases m regions before t :
  leftovers_sized -> ready (m_pmm m) regions -> (exists p, valid_page p /\ settled regions p = PageFree) ->
  enabled (m_vmm m) = false -> alen (table_in_use (m_vmm m)) = PAGE_TABLE_COUNT -> ipc_inv (m_ipc m) -> shell_sized (m_shell m) ->
  shows before (m_console m) t ->
  (exists s v h f sh mem, service_stage img l m =
        Some (Reached (mk_machine sh (m_gdt m) (m_cpu m) s (m_irqs m) (m_devices m) v h (ipc_endpoint_create ipc_static).2
          (m_sched m) f mem)) /\
      pmm_inv s /\ pages_equiv (page_state_of s) (settled regions) /\
      vmm_inv (page_directory_address img) (page_tables_address img) v ∅ /\ heap_wf (arena img) h fresh_blocks /\
      task_flow_endpoint f = 0 /\ shows before (shell_console sh) (show service_log t) /\
      forall con t, shows before con t -> session_repr before (shell_runtime_start (set_console con sh)) (fresh_session t)) \/
  ((forall p, valid_page p -> settled regions p = PageFree -> VMM_IDENTITY_LIMIT <= p * PMM_PAGE_SIZE) /\
   exists con, service_stage img l m = Some (Halted "vmm-self-test" con) /\ shows before con (show (fail_log "vmm-self-test") t)).
Proof using Harena Htables.
  intros [L1 L2 L3 L4 L5 _] Hready Hex Hen Hl Hq Hsh Hs. pose proof Hready as [Hi [Hpg _]].
  destruct (alloc_lowest _ regions Hready Hex) as (p & s1 & Hv & H0 & Hfree & Ea & Hlow).
  assert (Hne : p * PMM_PAGE_SIZE <> 0) by (unfold PMM_PAGE_SIZE; lia).
  unfold service_stage. destruct (Z.lt_ge_cases (p * PMM_PAGE_SIZE) VMM_IDENTITY_LIMIT) as [Hlt|Hge].
  - left. destruct (vmm_self_test_passes (page_directory_address img) (page_tables_address img) _ _ (m_memory m) _ _ Hi Hen Hl Ea Hne Hlt)
      as (s & v & -> & Hi' & Hpg' & _ & Hv'). cbn [mbind option_bind negb].
    destruct (heap_self_test_passes (arena img) (l_stack_variable l) (l_initial l) (l_final l) (m_heap m) L1) as (h & -> & Hh).
    cbn [mbind option_bind negb].
    destruct (ipc_self_test_passes (l_endpoints l) (l_input l) (l_output l) (task_flow_endpoint (m_flow m)) (m_ipc m) L2 L3 L4 Hq)
      as (q & -> & ->). change (default ?x (Some ?y)) with y. cbn [negb].
    pose proof (announces_shows before ["PAGING_OK"; "VMM_MAP_OK"; "HEAP_OK"; "HEAP_COALESCE_OK"; "IPC_OK"]%string _ _ Hs) as Hs1.
    cbn [fold_left] in Hs1. set (con1 := announce "IPC_OK" _) in *.
    destruct (init_ready before (l_runtime l) (set_console con1 (m_shell m)) L5) as (sh & -> & Econ & Hstart); [by destruct Hsh; split|].
    cbn [negb]. do 6 eexists. split; [reflexivity|]. split; [done|]. split; [by etransitivity|]. split; [done|]. split; [done|].
    split; [done|]. rewrite Econ. split; [|intros; by apply Hstart].
    exact (announces_shows before ["RAMFS_OK"; "SHELL_INPUT_OK"; "SHELL_PARSE_OK"]%string _ _ Hs1).
  - right. split; [intros q Hvq Hqf; specialize (Hlow q Hvq Hqf); unfold PMM_PAGE_SIZE in *; lia|].
    rewrite (vmm_self_test_fails _ _ _ _ _ _ _ Hen Ea) by auto. cbn [mbind option_bind negb].
    eexists. split; [done|]. by apply fail_shows.
Qed.

(** *** Timer, task flow and status *)

Context (env : irqs devices * devices -> nat -> irqs devices * devices) (lines : irqs devices * devices -> nat -> list Z) (patience : nat).
Abbreviation ticks x := (delivered_ticks (env x) (lines x) 0).

(** The lines and devices as the device stage leaves them. *)
Record lines_opened (x : irqs devices * devices) : Prop := {
  lo_irqs : kernel_irqs_ok x.1;
  lo_timer : deliverable 0 (irq_pic x.1) = true;
  lo_keyboard : deliverable 1 (irq_pic x.1) = true;
  lo_count : irq_count 0 x.1 = 0;
  lo_pit : dev_pit x.2 = mk_pit 0 100;
  lo_keys : keyboard_dropped_count (dev_keyboard x.2) = 0;
}.

(** The moments of a boot. *)
Definition boot_horizon : nat := (20 + (300 + patience) * (patience + 3))%nat.

(** Interrupts arrive between the moments.  The timer, once its line is open,
    never stops: in any [patience + 1] intervals one of its interrupts gets
    through.  And it does not run through its 32-bit range during the boot. *)
Record environment_ok : Prop := {
  ev_start : forall x, env x 0%nat = x;
  ev_serves : forall x, lines_opened x -> forall n, Forall (fun irq => 0 <= irq < 16) (lines x n) /\
    after_interrupts (as_kernel (env x n)) (lines x n) (as_kernel (env x (S n)));
  ev_timer : forall x, lines_opened x -> forall n, exists i, (n <= i <= n + patience)%nat /\ 0 ∈ through (env x i).1 (lines x i);
  ev_range : forall x, lines_opened x -> ticks x boot_horizon < 4294967296;
}.

Section Running.
Context (x : irqs devices * devices).
Hypothesis Henv : environment_ok.
Hypothesis Hx : lines_opened x.

Lemma environment_timer : timer_runs (env x) (lines x) 0.
Proof using Henv Hx.
  destruct Henv as [H0 Hs _ _]. pose proof Hx as [Hk _ _ _ Hp _]. split; [by rewrite H0|rewrite H0, Hp; by split|exact (Hs x Hx)].
Qed.

(** The counters at a read: the interrupts delivered so far. *)
Lemma counters_at n : ticks x n < 4294967296 ->
  ticks_at (env x) n = ticks x n /\ irqs_at (env x) n = ticks x n /\ 0 <= ticks x n.
Proof using Henv Hx.
  intros Hb. destruct (timer_moments (env x) (lines x) 0 environment_timer n) as (_ & _ & Ht & Hi).
  pose proof (delivered_mono (env x) (lines x) 0 0 n) as H0. change (delivered_ticks _ _ 0 0) with 0 in H0. change (0 + n)%nat with n in *.
  destruct Henv as [E0 _ _ _], Hx as [_ _ _ Hc Hp _].
  assert (T0 : ticks_at (env x) 0 = 0) by (unfold ticks_at; by rewrite E0, Hp).
  assert (I0 : irqs_at (env x) 0 = 0) by (unfold irqs_at; by rewrite E0, Hc).
  rewrite Ht, Hi, T0, I0, !u32_small by (unfold is_u32; lia). done.
Qed.

Lemma ticks_mono n n' : (n <= n')%nat -> ticks x n <= ticks x n'.
Proof using.
  intros Hn. pose proof (delivered_mono (env x) (lines x) 0 n (n' - n)) as H. by replace (n + (n' - n))%nat with n' in H by lia.
Qed.

Lemma ticks_bound n : (n <= boot_horizon)%nat -> ticks x n < 4294967296.
Proof using Henv Hx. intros Hn. pose proof (ev_range Henv x Hx). pose proof (ticks_mono n boot_horizon Hn). lia. Qed.

(** The timer goes on, so no sleep lasts. *)
Lemma ticks_go_on n : ticks x n + 1 <= ticks x (n + S patience).
Proof using Henv Hx.
  destruct (ev_timer Henv x Hx n) as (i & Hi & Hin). pose proof (ticks_mono n i ltac:(lia)). pose proof (ticks_mono (S i) (n + S patience) ltac:(lia)).
  enough (1 <= occurrences 0 (through (env x i).1 (lines x i))) by (cbn [delivered_ticks Nat.add] in *; lia).
  unfold occurrences. apply list_elem_of_split in Hin as (l1 & l2 & ->). rewrite list.filter_app, alen_app, filter_cons, decide_True, alen_cons by done.
  pose proof (alen_nonneg (filter (fun i => i = 0) l1)). pose proof (alen_nonneg (filter (fun i => i = 0) l2)). lia.
Qed.

Lemma never_quiet n n' : (n + patience < n')%nat -> ~ quiet (env x) (lines x) n n'.
Proof using Henv Hx.
  intros Hn Hq. destruct (ev_timer Henv x Hx n) as (i & Hi & Hin). rewrite Hq in Hin by lia. by apply elem_of_nil in Hin.
Qed.

Lemma three_ticks n : (3 * S patience <= n)%nat -> PIT_TEST_TICKS <= ticks x n.
Proof using Henv Hx.
  intros Hn. pose proof (ticks_go_on 0) as H1. pose proof (ticks_go_on (S patience)) as H2.
  pose proof (ticks_go_on (S patience + S patience)) as H3. cbn [Nat.add] in H1. change (ticks x 0%nat) with 0 in H1.
  pose proof (ticks_mono (S patience + S patience + S patience) n ltac:(lia)). unfold PIT_TEST_TICKS. cbn [Nat.add] in *. lia.
Qed.

(** The wait ends with three interrupts delivered. *)
Lemma wait_ends fuel n : (3 * S patience <= n + 3 * fuel)%nat -> (n + fuel * (patience + 3) + 2 <= boot_horizon)%nat ->
  exists n', timer_wait patience fuel (env x) (lines x) 0 0 n = Some n' /\ (n + 2 <= n' <= n + fuel * (patience + 3) + 2)%nat /\
    PIT_TEST_TICKS <= ticks x n'.
Proof using Henv Hx.
  revert n. induction fuel as [|fuel IH]; intros n Hn Hh.
  all: destruct (counters_at n (ticks_bound n ltac:(lia))) as (Et & _ & Hp).
  all: destruct (counters_at (S n) (ticks_bound (S n) ltac:(lia))) as (_ & Ei & _).
  all: pose proof (ticks_bound n ltac:(lia)) as B1; pose proof (ticks_bound (S n) ltac:(lia)) as B2.
  all: pose proof (ticks_mono n (S n) ltac:(lia)) as M1; pose proof (ticks_mono (S n) (S (S n)) ltac:(lia)) as M2.
  all: cbn [timer_wait]; rewrite Et, Ei, !Z.sub_0_r, !u32_small by (unfold is_u32; lia).
  - pose proof (three_ticks n ltac:(lia)). rewrite !(proj2 (Z.ltb_ge _ PIT_TEST_TICKS)) by lia.
    exists (S (S n)). split; [done|]. split; lia.
  - destruct (_ || _) eqn:E.
    + destruct (hlt_cases (env x) (lines x) patience (S (S n))) as [(n1 & -> & i & Hi & -> & _)|[_ Hq]].
      * cbn [mbind option_bind]. destruct (IH (S i) ltac:(lia) ltac:(lia)) as (n' & -> & Hn' & H'). exists n'. split; [done|]. split; [lia|done].
      * destruct (never_quiet (S (S n)) (S (S (S n) + patience)) ltac:(lia) Hq).
    + bprop. exists (S (S n)). split; [done|]. split; [lia|lia].
Qed.

Lemma wait_over : exists n, timer_wait patience (wait_fuel patience) (env x) (lines x) 0 0 0 = Some n /\
  (2 <= n <= S patience * (patience + 3) + 2)%nat /\ PIT_TEST_TICKS <= ticks x n.
Proof using Henv Hx. apply (wait_ends (wait_fuel patience) 0); unfold wait_fuel, boot_horizon; nia. Qed.

Definition flow_log : list console_op := lines_log ["TASK_OK"; "SCHEDULER_OK"; "IPC_TASK_FLOW_OK"]%string.

(** The observer's view of the timer when the flow starts at moment [n]: the
    test that first sees three ticks is the third or a later one of the 242;
    or it is one of the first two; or there is none among them. *)
Abbreviation observed n := (tested (env x) (lines x) patience n).

Definition flow_paced (n : nat) : Prop :=
  exists k d, (2 <= k <= 241)%nat /\ observed n k d /\ PIT_TEST_TICKS <= elapsed (env x) (lines x) n d.

Definition flow_too_fast (n : nat) : Prop :=
  exists k d, (k <= 1)%nat /\ observed n k d /\ PIT_TEST_TICKS <= elapsed (env x) (lines x) n d.

Definition flow_too_slow (n : nat) : Prop := exists d, observed n 242 d.

Lemma paced_exclusive n : flow_paced n -> ~ flow_too_fast n /\ ~ flow_too_slow n.
Proof using.
  intros (k & d & Hk & Ht & He). split.
  - intros (j & d' & Hj & Ht' & He'). pose proof (tested_before _ _ _ _ j k _ _ Ht ltac:(lia) Ht'). lia.
  - intros (d' & Ht'). pose proof (tested_before _ _ _ _ k 242 _ _ Ht' ltac:(lia) Ht). lia.
Qed.

Lemma flow_stage_cases m before t :
  image_ok -> leftovers_sized -> (m_irqs m, m_devices m) = x -> alen (tasks (m_sched m)) = TASK_MAX_TASKS ->
  scheduler_running (m_sched m) = false -> task_flow_endpoint (m_flow m) = 0 -> m_ipc m = (ipc_endpoint_create ipc_static).2 ->
  shows before (m_console m) t ->
  exists n, timer_wait patience (wait_fuel patience) (env x) (lines x) 0 0 0 = Some n /\
  ((flow_paced n /\ exists s f q mem k con, flow_stage img l env lines patience m =
        Some (Reached (mk_machine (set_console con (m_shell m)) (m_gdt m) (m_cpu m) (m_pmm m) (m_irqs m) (m_devices m) (m_vmm m) (m_heap m)
          q s f mem, k)) /\
      PIT_TEST_TICKS <= ticks x k /\ (k + 8 <= boot_horizon)%nat /\ scheduler_running s = false /\
      task_finished_count s = 3 /\ TASK_FLOW_MIN_SWITCHES <= task_switch_count s <= TASK_FLOW_BUDGET /\
      shows before con (show (lines_log ["TIMER_IRQ_OK"]%string ++ flow_log) t)) \/
   ((flow_too_fast n \/ flow_too_slow n) /\ exists con, flow_stage img l env lines patience m = Some (Halted "task-flow" con) /\
      shows before con (show (lines_log ["TIMER_IRQ_OK"]%string ++ fail_log "task-flow") t))).
Proof using Henv Hx.
  intros [_ _ _ _ Htasks] [_ _ _ _ _ Hmsg] Em Hl Hr Hep Hq Hs. pose proof Hx as [_ _ _ Hc Hp _].
  assert (E1 : pit_ticks (dev_pit (m_devices m)) = 0) by (rewrite <-Em in Hp; cbn [snd] in Hp; by rewrite Hp).
  assert (E2 : irq_count 0 (m_irqs m) = 0) by (rewrite <-Em in Hc; exact Hc).
  destruct wait_over as (n & Ew & Hn & H3). exists n. split; [done|].
  unfold flow_stage. rewrite E1, E2, Em, Ew. cbn [mbind option_bind].
  pose proof (timer_runs_at _ _ _ environment_timer n) as Htr. change (0 + n)%nat with n in Htr.
  pose proof (announce_shows before "TIMER_IRQ_OK" _ _ Hs) as Hs1.
  assert (Hfail : exists con, shows before con (show (lines_log ["TIMER_IRQ_OK"]%string ++ fail_log "task-flow") t) /\
    con = boot_fail "task-flow" (announce "TIMER_IRQ_OK" (m_console m))).
  { eexists. split; [|done]. rewrite show_app. by apply fail_shows. }
  destruct Hfail as (conf & Hsf & Econf).
  destruct (task_flow_cases (env x) (lines x) patience (l_messages l) (producer_address img) (consumer_address img) (observer_address img)
    (task_stacks img) (task_exit_address img) (task_trampoline_address img) (set_interrupt_flag (l_eflags l)) Hmsg Htasks (m_memory m)
    (mk_world (m_flow m) (m_ipc m) (m_sched m) n) Hl Hr Hep Hq Htr)
    as [(k & d & w & mem & Hk & Ht & He & -> & [_ _ _ _ Hidle Hsw Hfin] & Hmom)|[(d & w & mem & Ht & -> & _)|(k & d & _ & _ & _ & Hquiet & _)]].
  - cbn [w_moment]. pose proof (delivered_at (env x) (lines x) 0 n (flow_horizon patience)) as Hat. change (0 + n)%nat with n in Hat. rewrite Hat.
    pose proof (ticks_bound (n + flow_horizon patience) ltac:(unfold flow_horizon, boot_horizon; nia)).
    destruct (counters_at n (ticks_bound n ltac:(unfold boot_horizon; nia))) as (_ & _ & ?). lia.
  - cbn [mbind option_bind w_moment] in *. pose proof (tested_range _ _ _ _ _ _ Ht) as Hd. destruct (Nat.leb_spec 2 k) as [H2|H2]; cbn [negb].
    + left. split; [exists k, d; split; [lia|by split]|]. do 6 eexists. split; [reflexivity|].
      split; [pose proof (ticks_mono n (S (S (w_moment w))) ltac:(lia)); lia|]. split; [rewrite Hmom; unfold boot_horizon; nia|].
      split; [done|]. split; [done|]. rewrite Hsw. split; [unfold TASK_FLOW_MIN_SWITCHES, TASK_FLOW_MESSAGES, TASK_FLOW_BUDGET, PIT_TEST_TICKS; lia|].
      rewrite show_app. exact (announces_shows before ["TASK_OK"; "SCHEDULER_OK"; "IPC_TASK_FLOW_OK"]%string _ _ Hs1).
    + right. split; [left; exists k, d; split; [lia|by split]|]. exists conf. by rewrite Econf in *.
  - cbn [mbind option_bind w_moment negb] in *. right. split; [right; by exists d|]. exists conf. by rewrite Econf in *.
  - cbn [w_moment] in Hquiet. exfalso. eapply never_quiet; [|exact Hquiet]. lia.
Qed.

Definition final_log : list console_op := lines_log ["SYSTEM_STATUS_OK"; "SHELL_READY"; "BOOT_OK"]%string.

(** Keys lost while the machine boots. *)
Definition dropped_at (n : nat) : Z := keyboard_dropped_count (dev_keyboard (env x n).2).

Lemma final_stage_cases m n regions before t :
  (m_irqs m, m_devices m) = x -> pmm_inv (m_pmm m) -> pages_equiv (page_state_of (m_pmm m)) (settled regions) ->
  (exists p, valid_page p /\ settled regions p = PageFree) -> heap_wf (arena img) (m_heap m) fresh_blocks ->
  PIT_TEST_TICKS <= ticks x n -> (n + 8 <= boot_horizon)%nat ->
  task_finished_count (m_sched m) = 3 -> TASK_FLOW_MIN_SWITCHES <= task_switch_count (m_sched m) -> shows before (m_console m) t ->
  exists con, shows before con (show (if dropped_at (n + 5) == 0 then final_log else fail_log "system-status") t) /\
  final_stage img l env (m, n) =
  if dropped_at (n + 5) == 0 then Some (Reached (with_shell (shell_runtime_start (set_console con (m_shell m))) m))
  else Some (Halted "system-status" con).
Proof using Harena Henv Hx.
  intros Em Hi Hpg (p & Hv & Hfree) Hh H3 Hn Hfin Hsw Hs. unfold final_stage. rewrite Em. unfold system_status_read.
  destruct (l_status l) as [snapshot hs]. cbn [k_heap kernel_now fst]. rewrite (stats_read (arena img) _ _ _ Hh). cbn [negb].
  change (default (mk_stats 0 0 0 0) (Some ?y)) with y. change (stats_of fresh_blocks) with (mk_stats 262112 262112 262112 0).
  cbn [size_to_u32 total_bytes free_bytes largest_free_block negb orb]. change (default snapshot (Some ?y)) with y.
  cbn [st_pmm_total_pages st_pmm_free_pages st_heap_total_bytes st_pit_ticks st_irq0_count st_keyboard_dropped st_task_switches
    st_task_finished k_pmm k_irqs k_devices k_sched kernel_now].
  assert (Hc : 0 < pmm_free_page_count (m_pmm m) <= pmm_total_page_count (m_pmm m)).
  { split; [|apply (inv_counts_range _ Hi)]. unfold pmm_free_page_count. rewrite (inv_free _ Hi).
    apply (count_range_pos _ _ _ p Hv). by rewrite (Hpg p Hv), Hfree. }
  rewrite (proj2 (Z.eqb_neq (pmm_total_page_count _) 0)), (proj2 (Z.eqb_neq (pmm_free_page_count _) 0)) by lia.
  change (u32 262112 == 0) with false. cbn [orb].
  assert (Hlate : forall k, (k <= 5)%nat -> PIT_TEST_TICKS <= ticks x (n + k) /\ ticks x (n + k) < 4294967296).
  { intros k Hk. split; [pose proof (delivered_mono (env x) (lines x) 0 n k); lia|apply ticks_bound; lia]. }
  change (pit_ticks (dev_pit (env x (n + 3)%nat).2)) with (ticks_at (env x) (n + 3)).
  change (irq_count 0 (env x (n + 4)%nat).1) with (irqs_at (env x) (n + 4)).
  destruct (counters_at (n + 3) (proj2 (Hlate 3%nat ltac:(lia)))) as (-> & _ & _).
  destruct (counters_at (n + 4) (proj2 (Hlate 4%nat ltac:(lia)))) as (_ & -> & _).
  rewrite (proj2 (Z.ltb_ge _ _) (proj1 (Hlate 3%nat ltac:(lia)))), (proj2 (Z.ltb_ge _ _) (proj1 (Hlate 4%nat ltac:(lia)))).
  rewrite (proj2 (Z.ltb_ge _ _) Hsw), Hfin. change (3 == 3) with true. cbn [orb negb]. rewrite !orb_false_r.
  change (keyboard_dropped_count (dev_keyboard (env x (n + 5)%nat).2)) with (dropped_at (n + 5)).
  destruct (dropped_at (n + 5) == 0); cbn [negb].
  - eexists. split; [|reflexivity].
    exact (announces_shows before ["SYSTEM_STATUS_OK"; "SHELL_READY"; "BOOT_OK"]%string _ _ Hs).
  - eexists. split; [|reflexivity]. by apply fail_shows.
Qed.
End Running.

(** ** The whole boot *)

(** What can stop it after the memory stage. *)
Inductive late_fails (regions : list boot_memory_region) : string -> Prop :=
| fails_paging : (forall p, valid_page p -> settled regions p = PageFree -> VMM_IDENTITY_LIMIT <= p * PMM_PAGE_SIZE) ->
    late_fails regions "vmm-self-test"
| fails_flow x n : lines_opened x -> timer_wait patience (wait_fuel patience) (env x) (lines x) 0 0 0 = Some n ->
    flow_too_fast x n \/ flow_too_slow x n -> late_fails regions "task-flow"
| fails_keys x n : lines_opened x -> dropped_at x n <> 0 -> late_fails regions "system-status".

Definition late_log : list console_op :=
  device_log ++ service_log ++ (lines_log ["TIMER_IRQ_OK"]%string ++ flow_log) ++ final_log.

(** A kernel that serves the shell: the allocator as the memory map says, an
    empty dynamic address space, an empty heap, its two interrupt lines open. *)
Record kernel_ready (m : machine) (regions : list boot_memory_region) : Prop := {
  kr_pmm : pmm_inv (m_pmm m) /\ pages_equiv (page_state_of (m_pmm m)) (settled regions);
  kr_vmm : vmm_inv (page_directory_address img) (page_tables_address img) (m_vmm m) ∅;
  kr_heap : heap_wf (arena img) (m_heap m) fresh_blocks;
  kr_irqs : kernel_irqs_ok (m_irqs m) /\ deliverable 0 (irq_pic (m_irqs m)) = true /\ deliverable 1 (irq_pic (m_irqs m)) = true;
  kr_tasks : scheduler_running (m_sched m) = false /\ task_finished_count (m_sched m) = 3;
}.

(** The statics the later stages use. *)
Record late_sized (m : machine) : Prop := {
  ls_handlers : alen (handlers (m_irqs m)) = 16;
  ls_counts : alen (counts (m_irqs m)) = 16;
  ls_idt : alen (idt (irq_idt (m_irqs m))) = 256;
  ls_keys : alen (character_queue (dev_keyboard (m_devices m))) = KEYBOARD_QUEUE_CAPACITY;
  ls_tables : enabled (m_vmm m) = false /\ alen (table_in_use (m_vmm m)) = PAGE_TABLE_COUNT;
  ls_ipc : ipc_inv (m_ipc m);
  ls_shell : shell_sized (m_shell m);
  ls_tasks : alen (tasks (m_sched m)) = TASK_MAX_TASKS /\ scheduler_running (m_sched m) = false;
}.

Lemma halted_log before con t ops stage :
  shows before con (show (fail_log stage) (show ops t)) -> shows before con (show (ops ++ fail_log stage) t).
Proof using. by rewrite show_app. Qed.

Lemma after_memory m regions before t :
  image_ok -> leftovers_sized -> environment_ok -> late_sized m -> ready (m_pmm m) regions ->
  (exists p, valid_page p /\ settled regions p = PageFree) -> shows before (m_console m) t ->
  let r := and_then (device_stage img m) (fun m => and_then (service_stage img l m) (fun m =>
    and_then (flow_stage img l env lines patience m) (final_stage img l env))) in
  (exists stage con ops, r = Some (Halted stage con) /\ late_fails regions stage /\ shows before con (show (ops ++ fail_log stage) t)) \/
  (exists m', r = Some (Reached m') /\ kernel_ready m' regions /\ session_repr before (m_shell m') (fresh_session (show late_log t))).
Proof using Harena Htables.
  intros Him Hlo Henv [S1 S2 S3 S4 [S5 S6] S7 S8 [S9 S10]] Hready Hfree Hs0. cbv zeta.
  destruct (device_stage_passes m before t Him S1 S2 S3 S4 Hs0) as (st & d & con & -> & Hirq & Hd0 & Hd1 & Hcnt & Hpit & Hkeys & Hs1).
  assert (Hx : lines_opened (st, d)) by by split.
  cbn [and_then]. set (m1 := mk_machine _ _ _ _ _ _ _ _ _ _ _ _).
  destruct (service_stage_cases m1 regions before (show device_log t) Hlo Hready Hfree S5 S6 S7 ltac:(by destruct S8; split) Hs1)
    as [(s & v & h & f & sh & mem & -> & Hi & Hpg & Hv & Hh & Hep & Hs2 & Hstart)|(Hhigh & con2 & -> & Hs2)]; cbn [and_then].
  2: { left. exists "vmm-self-test"%string, con2, device_log. split; [done|]. split; [by apply fails_paging|by apply halted_log]. }
  set (m2 := mk_machine _ _ _ _ _ _ _ _ _ _ _ _).
  destruct (flow_stage_cases (st, d) Henv Hx m2 before _ Him Hlo eq_refl S9 S10 Hep eq_refl Hs2)
    as (n & Ew & [[_ Hflow]|[Ep Hflow]]).
  2: { destruct Hflow as (con3 & -> & Hs3). cbn [and_then]. left.
       exists "task-flow"%string, con3, (device_log ++ service_log ++ lines_log ["TIMER_IRQ_OK"]%string). split; [done|].
       split; [by apply (fails_flow _ (st, d) n)|]. apply halted_log. rewrite !show_app in *. exact Hs3. }
  destruct Hflow as (s3 & f3 & q3 & mem3 & k & con3 & -> & Hk3 & Hkn & Hrun3 & Hfin3 & [Hsw3 _] & Hs3). cbn [and_then].
  set (m3 := mk_machine _ _ _ _ _ _ _ _ _ _ _ _).
  destruct (final_stage_cases (st, d) Henv Hx m3 k regions before _ eq_refl Hi Hpg Hfree Hh Hk3 Hkn Hfin3
    Hsw3 Hs3) as (con4 & Hs4 & ->). destruct (dropped_at (st, d) (k + 5) == 0) eqn:Ed.
  - right. eexists. split; [done|]. split; [split; by split_and?|].
    unfold late_log. rewrite !show_app in *. exact (Hstart con4 _ Hs4).
  - left. exists "system-status"%string, con4, (device_log ++ service_log ++ lines_log ["TIMER_IRQ_OK"]%string ++ flow_log). split; [done|].
    split; [by apply (fails_keys _ (st, d) (k + 5)); [|apply Z.eqb_neq]|]. apply halted_log. rewrite !show_app in *. exact Hs4.
Qed.

(** What can stop the boot. *)
Inductive boot_fails (m : machine) (magic address : Z) : string -> Prop :=
| fails_early stage : memory_fails (m_memory m) magic address stage -> boot_fails m magic address stage
| fails_late regions stage : boot_map (m_memory m) magic address (kernel_start img) (kernel_end img) regions ->
    late_fails regions stage -> boot_fails m magic address stage.

Definition boot_log (free : Z) : list console_op := early_log ++ memory_log free ++ late_log.

Lemma boot_cases m magic address :
  image_ok -> leftovers_sized -> environment_ok -> statics_sized m -> is_u32 address ->
  enabled (m_vmm m) = false -> scheduler_running (m_sched m) = false ->
  let before := port_writes (m_console m) ++ init_writes in
  (exists stage con ops, kernel_main img l env lines patience magic address m = Some (Halted stage con) /\ boot_fails m magic address stage /\
     shows before con (show (ops ++ fail_log stage) (blank_terminal []))) \/
  (exists m' regions, kernel_main img l env lines patience magic address m = Some (Reached m') /\
     boot_map (m_memory m) magic address (kernel_start img) (kernel_end img) regions /\ kernel_ready m' regions /\
     session_repr before (m_shell m') (fresh_session (show (boot_log (map_free regions)) (blank_terminal [])))).
Proof using Harena Htables.
  intros Him Hlo Henv [S1 S2 S3 S4 S5 S6 S7 S8 S9 S10] Ha Hen Hrun before.
  pose proof (early_shows m S1) as Hs0. fold before in Hs0.
  destruct (early_keeps m Him S4) as (K1 & K2 & K3 & K4 & K5 & K6 & K7 & K8 & K9 & K10 & K11 & K12 & K13).
  unfold kernel_main. set (m0 := early_stage img m) in *.
  destruct (memory_stage_cases m0 magic address before _ Him ltac:(by rewrite K5) Ha Hs0)
    as [(stage & con & ops & -> & Hf & Hs)|(s & con & regions & -> & Hmap & Hfree & Hready & Hs1)]; cbn [and_then]; rewrite K11 in *.
  { left. exists stage, con, (early_log ++ ops). split; [done|]. split; [by apply fails_early|]. by rewrite <-app_assoc, show_app. }
  set (m1 := mk_machine _ _ _ _ _ _ _ _ _ _ _ _).
  destruct (after_memory m1 regions before (show (memory_log (map_free regions)) (show early_log (blank_terminal []))) Him Hlo Henv)
    as [(stage & con2 & ops & E & Hf & Hs2)|(m' & E & Hk & Hses)]; [|done|done|exact Hs1| |].
  - split; cbn [m1 m_irqs m_devices m_vmm m_ipc m_shell m_sched]; rewrite ?K1, ?K2, ?K3, ?K4, ?K6, ?K8, ?K9; try done.
    destruct S8 as [E1 E2]. split; cbn [runtime_editor shell_fs set_console]; by rewrite ?K12, ?K13.
  - left. exists stage, con2, (early_log ++ memory_log (map_free regions) ++ ops). split; [exact E|].
    split; [by apply (fails_late _ _ _ regions)|]. rewrite <-!app_assoc, !show_app in *. exact Hs2.
  - right. exists m', regions. split; [exact E|]. split; [done|]. split; [done|].
    unfold boot_log. by rewrite !show_app.
Qed.
End Stages.

(** ** Properties *)

(** C2: provided that the timer, once its interrupt line is open, never stays
    silent for more than [patience] intervals and does not wrap its 32-bit
    counters during the boot, [kernel_main] does not hang before the shell and
    never stops without a reason.  It halts, with the stage's name printed
    after "BOOT_FAIL:", only when the boot loader's block is malformed, the
    kernel image is misplaced, no usable page is left, no free page lies under
    the identity limit, the observer of the task flow sees three ticks too
    early (by its second test) or not in its 242 tests, or keys were lost
    during the boot; every other [boot_fail] is unreachable.  Otherwise it
    starts the shell with the whole boot log on the screen, the number of free
    pages in it included, the allocator in the state the memory map dictates, paging on with an empty dynamic space,
    an empty heap, both interrupt lines open and the scheduler idle. *)
Theorem kernel_main_outcome img l `{ArenaPlacement (arena img)} `{VmmPlacement (page_tables_address img)} env lines patience m magic address :
  image_ok img -> leftovers_sized img l -> environment_ok env lines patience -> statics_sized m -> is_u32 address ->
  enabled (m_vmm m) = false -> scheduler_running (m_sched m) = false ->
  let before := port_writes (m_console m) ++ init_writes in
  (exists stage con ops, kernel_main img l env lines patience magic address m = Some (Halted stage con) /\
     boot_fails img env lines patience m magic address stage /\
     shows before con (show (ops ++ fail_log stage) (blank_terminal []))) \/
  (exists m' regions, kernel_main img l env lines patience magic address m = Some (Reached m') /\
     boot_map (m_memory m) magic address (kernel_start img) (kernel_end img) regions /\ kernel_ready img m' regions /\
     session_repr before (m_shell m') (fresh_session (show (boot_log (map_free regions)) (blank_terminal [])))).
Proof. intros. by apply (boot_cases img l env lines patience m magic address). Qed.

Lemma boot_map_functional m magic address ks ke r r' :
  boot_map m magic address ks ke r -> boot_map m magic address ks ke r' -> r = r'.
Proof.
  intros (rs & o & [_ Hl] & Ho & ->) (rs' & o' & [_ Hl'] & Ho' & ->). rewrite Ho in Ho'. injection Ho' as <-.
  by rewrite (layout_functional _ _ _ _ _ Hl Hl').
Qed.

(** C16: on a machine whose memory map has a free page under the identity limit,
    whose timer goes on, having ticked at most twice at the observer's second
    test and at least three times at its 242nd, and on which no key is lost,
    the boot reaches the interactive shell with the kernel ready. *)
Theorem kernel_reaches_shell img l `{ArenaPlacement (arena img)} `{VmmPlacement (page_tables_address img)} env lines patience m magic address
    regions :
  image_ok img -> leftovers_sized img l -> environment_ok env lines patience -> statics_sized m -> is_u32 address ->
  enabled (m_vmm m) = false -> scheduler_running (m_sched m) = false ->
  boot_map (m_memory m) magic address (kernel_start img) (kernel_end img) regions ->
  kernel_range_ok (kernel_start img) (kernel_end img) ->
  (exists p, valid_page p /\ settled regions p = PageFree /\ p * PMM_PAGE_SIZE < VMM_IDENTITY_LIMIT) ->
  (forall x n, lines_opened x -> flow_paced env lines patience x n) -> (forall x n, lines_opened x -> dropped_at env x n = 0) ->
  exists m', kernel_main img l env lines patience magic address m = Some (Reached m') /\ kernel_ready img m' regions /\
    session_repr (port_writes (m_console m) ++ init_writes) (m_shell m') (fresh_session (show (boot_log (map_free regions)) (blank_terminal []))).
Proof.
  intros Him Hlo Henv Hst Ha Hen Hrun Hmap Hrange (p & Hv & Hfree & Hlow) Hpaced Hkeys.
  destruct (boot_cases img l env lines patience m magic address Him Hlo Henv Hst Ha Hen Hrun)
    as [(stage & con & ops & _ & Hf & _)|(m' & r & E & Hmap' & Hk & Hs)].
  - exfalso. destruct Hf as [stage [Hno|Hbad|r Hr Hno]|r stage Hr [Hhigh|x n Hx _ Hslow|x n Hx Hlost]].
    + destruct Hmap as (rs & o & Hrs & _). exact (Hno rs Hrs).
    + done.
    + rewrite (boot_map_functional _ _ _ _ _ _ _ Hr Hmap) in Hno. exact (Hno p Hv Hfree).
    + rewrite (boot_map_functional _ _ _ _ _ _ _ Hr Hmap) in Hhigh. specialize (Hhigh p Hv Hfree). lia.
    + destruct (paced_exclusive _ _ _ _ n (Hpaced x n Hx)) as [H1 H2]. by destruct Hslow.
    + by apply Hlost, Hkeys.
  - exists m'. rewrite (boot_map_functional _ _ _ _ _ _ _ Hmap' Hmap) in Hk, Hs. by split_and!.
Qed.

(** ** A boot *)

Definition example_image : image :=
  mk_image 0x100000 0x104000 0x102000 0x103000 (replicate 32 0x101000) (replicate 16 0x101800)
    0x200000 0x1FF000 0x200000 0x100100 0x100200 0x100300 0x300000 0x100400 0x100500.

Definition example_leftovers : leftovers :=
  mk_leftovers blank_frame 0 0x7FF0 (mk_stats 1 2 3 4) (mk_stats 5 6 7 8) (replicate 8 9) zero_message zero_message
    old_frame (fun _ => zero_message) (old_status, mk_stats 1 2 3 4) 0x202.

Definition example_machine : machine :=
  mk_machine old_shell (mk_gdt_state (replicate 5 inhabitant) (mk_table_register 0 0))
    (mk_cpu_tables (mk_table_register 0 0) (mk_table_register 0 0) 0 0 0 0 0 0)
    pmm_static k_timer_irqs idle_devices vmm_static (mk_heap ∅ NULL false) ipc_static sched_static
    (mk_flow 7 1 2 3 4 5 true true true true) example_map_memory.

(** The timer of TaskFlow.v. *)
Lemma opened_ticking x : lines_opened x ->
  kernel_irqs_ok x.1 /\ deliverable 0 (irq_pic x.1) = true /\ is_u32 (tick_count (dev_pit x.2)).
Proof. intros [H1 H2 _ _ H5 _]. split; [done|]. split; [done|]. rewrite H5. by split. Qed.

Lemma example_environment : environment_ok ticking (fun _ => tick_lines) 10.
Proof.
  split.
  - done.
  - intros x Hx. exact (ticking_serves x (opened_ticking x Hx)).
  - intros x Hx n. exists (Z.to_nat (8 * ((Z.of_nat n + 7) / 8))). split; [Z.to_euclidean_division_equations; lia|].
    rewrite (ticking_through x (opened_ticking x Hx)). unfold tick_lines, ticks_in. rewrite Z2Nat.id by (Z.to_euclidean_division_equations; lia).
    rewrite (Z.mul_comm 8), Z.mod_mul by lia. by apply list_elem_of_singleton.
  - intros x Hx. by rewrite (ticking_delivers x (opened_ticking x Hx)).
Qed.

Lemma example_paced x n : lines_opened x ->
  flow_paced ticking (fun _ => tick_lines) 10 x n /\ dropped_at ticking x n = 0.
Proof.
  intros Hx. split; [apply (ticking_paced x (opened_ticking x Hx)); lia|].
  unfold dropped_at. destruct (ticking_on x (opened_ticking x Hx) n) as (_ & _ & _ & ->). apply Hx.
Qed.

Lemma example_image_ok : image_ok example_image.
Proof. split; repeat split; try done; by apply Forall_replicate. Qed.

Lemma example_range : kernel_range_ok (kernel_start example_image) (kernel_end example_image).
Proof. by split. Qed.

Lemma example_leftovers_sized : leftovers_sized example_image example_leftovers.
Proof. split; try done; [left; cbn; lia|exact old_frame_sized]. Qed.

Lemma example_statics : statics_sized example_machine.
Proof. split; try done; [exact ipc_static_inv|exact old_shell_sized]. Qed.

Lemma example_regions : exists regions, boot_map example_map_memory MULTIBOOT_BOOTLOADER_MAGIC 0x9000 0x100000 0x104000 regions /\
  exists p, valid_page p /\ settled regions p = PageFree /\ p * PMM_PAGE_SIZE < VMM_IDENTITY_LIMIT.
Proof.
  pose proof (boot_memory_cases 0x100000 0x104000 example_map_memory MULTIBOOT_BOOTLOADER_MAGIC 0x9000 pmm_static
    pmm_static_words ltac:(unfold is_u32; lia) ltac:(unfold is_u32; lia) ltac:(unfold is_u32; lia)) as H.
  rewrite example_boot_eq in H. destruct H as [[H _]|[[H _]|(_ & regions & Hmap & [[H _]|(_ & Hex & Hr)])]]; try discriminate H.
  exists regions. split; [done|]. destruct (alloc_lowest _ _ Hr Hex) as (p & s1 & Hv & _ & Hf & E & _). exists p. split; [done|].
  split; [done|]. assert (Ha : (pmm_alloc_page example_booted).1 = 0x104000) by (vm_compute; reflexivity).
  rewrite E in Ha. cbn [fst] in Ha. by rewrite Ha.
Qed.

Lemma kernel_main_outcome_witness :
  (exists stage con, kernel_main example_image example_leftovers ticking (fun _ => tick_lines) 10 0 0x9000 example_machine = Some (Halted stage con)) \/
  (exists m', kernel_main example_image example_leftovers ticking (fun _ => tick_lines) 10 0 0x9000 example_machine = Some (Reached m')).
Proof.
  destruct (kernel_main_outcome example_image example_leftovers ticking (fun _ => tick_lines) 10 example_machine 0 0x9000
    example_image_ok example_leftovers_sized example_environment example_statics ltac:(unfold is_u32; lia) eq_refl eq_refl)
    as [(stage & con & _ & E & _)|(m' & _ & E & _)].
  - left. exists stage, con. exact E.
  - right. exists m'. exact E.
Defined.

Lemma kernel_reaches_shell_witness :
  exists m' regions, kernel_main example_image example_leftovers ticking (fun _ => tick_lines) 10 MULTIBOOT_BOOTLOADER_MAGIC 0x9000 example_machine =
    Some (Reached m') /\ kernel_ready example_image m' regions.
Proof.
  destruct example_regions as (regions & Hmap & Hlow).
  destruct (kernel_reaches_shell example_image example_leftovers ticking (fun _ => tick_lines) 10 example_machine
    MULTIBOOT_BOOTLOADER_MAGIC 0x9000 regions example_image_ok example_leftovers_sized example_environment example_statics
    ltac:(unfold is_u32; lia) eq_refl eq_refl Hmap example_range Hlow
    (fun x n Hx => proj1 (example_paced x n Hx)) (fun x n Hx => proj2 (example_paced x n Hx))) as (m' & E & Hk & _).
  exists m', regions. exact (conj E Hk).
Defined.
