(* ===== verification/MainLoop.v ===== *)
(** * The main loop (src/kernel/kernel.c, end of [kernel_main])

    [hlt], then a character at a time from the keyboard queue to the shell.
    Keyboard interrupts come between any two calls of [keyboard_pop_char] (and
    inside them, which Keyboard.v covers); a call that finds the queue empty
    is followed by [hlt], which only waits for the next interrupt. *)
From S2P Require Import Prelude Console Heap Keyboard LineEditor Ramfs Descriptors Pic Irq SystemStatus Runtime Session.

(** One call of [keyboard_pop_char]: the controller's status and data bytes of
    the interrupts since the last one, the uninitialised [character], and what
    the call of the shell finds on its stack and in the kernel. *)
Record poll := mk_poll {
  p_arrivals : list (Z * Z);
  p_character : Z;
  p_frame : stack_frame;
  p_now : nat -> kernel;
}.

Definition arrive (bytes : list (Z * Z)) (k : keyboard) : keyboard :=
  fold_left (fun k b => keyboard_handle_irq b.1 b.2 k) bytes k.

Section Loop.
Context (arena : Z).

Definition poll_keyboard (p : poll) (k : keyboard) (s : shell) : option (keyboard * shell) :=
  let '(popped, character, k) := keyboard_pop_char (Some (p_character p)) (arrive (p_arrivals p) k) in
  if popped then
    s ← shell_runtime_handle_char arena (p_frame p) (p_now p) (default (p_character p) character) s;
    Some (k, s)
  else Some (k, s).

Fixpoint main_loop (polls : list poll) (k : keyboard) (s : shell) : option (keyboard * shell) :=
  match polls with
  | [] => Some (k, s)
  | p :: polls => '(k, s) ← poll_keyboard p k s; main_loop polls k s
  end.
End Loop.

(** ** Specification *)

(** The characters the interrupts put in the queue. *)
Fixpoint arrived (bytes : list (Z * Z)) (k : keyboard) : list Z :=
  match bytes with
  | [] => []
  | (status, data) :: bytes =>
      (if status .& KEYBOARD_STATUS_OUTPUT_FULL == 0 then [] else enqueued data k)
      ++ arrived bytes (keyboard_handle_irq status data k)
  end.

(** The queue after a call. *)
Definition popped (k : keyboard) : keyboard := (keyboard_pop_char (Some 0) k).2.

Fixpoint accepted (polls : list poll) (k : keyboard) : list Z :=
  match polls with
  | [] => []
  | p :: polls => arrived (p_arrivals p) k ++ accepted polls (popped (arrive (p_arrivals p) k))
  end.

Record poll_ok (p : poll) : Prop := {
  po_bytes : Forall (fun b => is_u8 b.2) (p_arrivals p);
  po_frame : frame_sized (p_frame p);
  po_now : forall n, kernel_typed (p_now p n);
}.

Lemma arrive_ok bytes k :
  keyboard_inv k -> Forall (fun b => is_u8 b.2) bytes ->
  keyboard_inv (arrive bytes k) /\ keyboard_pending (arrive bytes k) = keyboard_pending k ++ arrived bytes k.
Proof.
  intros Hk Hb. revert k Hk. induction Hb as [|[status data] bytes Hd _ IH]; intros k Hk; [by rewrite app_nil_r|].
  cbn [arrive fold_left arrived fst snd] in *. fold (arrive bytes (keyboard_handle_irq status data k)).
  assert (H : keyboard_inv (keyboard_handle_irq status data k) /\ keyboard_pending (keyboard_handle_irq status data k) =
    keyboard_pending k ++ if status .& KEYBOARD_STATUS_OUTPUT_FULL == 0 then [] else enqueued data k).
  { unfold keyboard_handle_irq. destruct (_ == 0); [by rewrite app_nil_r|].
    destruct (feed_ok data k Hk Hd) as (H1 & _ & H2). by split. }
  destruct H as [H1 H2]. destruct (IH _ H1) as [H3 H4]. split; [done|]. by rewrite H4, H2, <-app_assoc.
Qed.

(** A call takes the oldest character or leaves an empty queue alone. *)
Lemma pop_cases c k :
  keyboard_inv k ->
  (keyboard_pending k = [] /\ keyboard_pop_char (Some c) k = (false, Some c, k)) \/
  (exists x k', keyboard_pop_char (Some c) k = (true, Some x, k') /\ keyboard_inv k' /\
    keyboard_pending k = x :: keyboard_pending k' /\ is_u8 x).
Proof.
  intros Hk. unfold keyboard_pop_char. destruct (Z.eqb_spec (kbd_read_sequence k) (kbd_write_sequence k)) as [E|E].
  - left. split; [by apply pending_empty|done].
  - right. rewrite queue_mask. eexists _, _. split; [done|]. split; [by apply with_read_inv|].
    pose proof (pending_head k Hk E) as Hp. split; [done|]. pose proof (kbd_typable _ Hk) as Ht. rewrite Hp in Ht.
    apply Forall_cons_1 in Ht as [Ht _]. unfold typable in Ht. unfold is_u8.
    change NEWLINE with 10 in Ht. change BACKSPACE with 8 in Ht. bprop. lia.
Qed.

Section Serves.
Context (arena : Z) {Harena : ArenaPlacement arena} (before : list (Z * Z)).

Lemma serves polls k s a :
  keyboard_inv k -> session_repr before s a -> Forall poll_ok polls ->
  exists k' s' a' handled, main_loop arena polls k s = Some (k', s') /\ keyboard_inv k' /\ session_repr before s' a' /\
    session_steps handled a a' /\ keyboard_pending k ++ accepted polls k = (fst <$> handled) ++ keyboard_pending k'.
Proof using Harena.
  intros Hk Hr Hp. revert k s a Hk Hr. induction Hp as [|p polls [Hb Hf Hn] _ IH]; intros k s a Hk Hr.
  { exists k, s, a, []. split; [done|]. split; [done|]. split; [done|]. split; [constructor|]. by rewrite app_nil_r. }
  cbn [main_loop accepted]. unfold poll_keyboard. destruct (arrive_ok _ k Hk Hb) as [Hk1 Hp1]. set (k1 := arrive _ k) in *.
  rewrite app_assoc, <-Hp1. unfold popped.
  destruct (pop_cases (p_character p) k1 Hk1) as [[He E]|(x & k2 & E & Hk2 & Hp2 & Hx)].
  - assert (E0 : keyboard_pop_char (Some 0) k1 = (false, Some 0, k1)).
    { destruct (pop_cases 0 k1 Hk1) as [[_ ?]|(y & ? & _ & _ & E' & _)]; [done|]. by rewrite He in E'. }
    rewrite E, E0. cbn [mbind option_bind snd]. exact (IH k1 s a Hk1 Hr).
  - assert (E0 : (keyboard_pop_char (Some 0) k1).2 = k2).
    { revert E. unfold keyboard_pop_char. destruct (_ == _); [done|]. by intros [= _ <-]. }
    rewrite E, E0. change (default (p_character p) (Some x)) with x.
    destruct (handle_char_step arena before (p_frame p) (p_now p) x s a Hr Hx Hf Hn) as (s1 & a1 & E1 & Hstep & Hr1).
    rewrite E1. cbn [mbind option_bind]. destruct (IH k2 s1 a1 Hk2 Hr1) as (k' & s' & a' & handled & Em & Hk' & Hr' & Hs & Heq).
    exists k', s', a', ((x, status_now arena (p_frame p) (p_now p)) :: handled). split; [done|]. split; [done|]. split; [done|].
    split; [by eapply StepsMore|]. rewrite Hp2. cbn [fmap list_fmap app fst]. by rewrite Heq.
Qed.
End Serves.

(** ** Properties *)

(** C12: the kernel's main loop turns scan codes into the shell's session.
    However the keyboard interrupts fall between the polls, the loop goes on
    without failing; the characters it hands to the shell are exactly the ones
    the interrupts decoded and queued, oldest first, none lost, repeated or
    reordered, the rest still being in the queue; each has the effect the
    session specification gives it; and when a poll finds the queue empty,
    every accepted character has been handled. *)
Theorem main_loop_serves arena `{ArenaPlacement arena} before polls k s a :
  keyboard_inv k -> session_repr before s a -> Forall poll_ok polls ->
  exists k' s' a' handled, main_loop arena polls k s = Some (k', s') /\ keyboard_inv k' /\ session_repr before s' a' /\
    session_steps handled a a' /\ keyboard_pending k ++ accepted polls k = (fst <$> handled) ++ keyboard_pending k' /\
    forall c, (keyboard_pop_char (Some c) k').1.1 = false -> fst <$> handled = keyboard_pending k ++ accepted polls k.
Proof.
  intros Hk Hr Hp. destruct (serves arena before polls k s a Hk Hr Hp) as (k' & s' & a' & handled & E & Hk' & Hr' & Hs & Heq).
  exists k', s', a', handled. split_and!; try done. intros c Hc. rewrite Heq.
  destruct (pop_cases c k' Hk') as [[He _]|(x & k2 & E2 & _)]; [by rewrite He, app_nil_r|]. by rewrite E2 in Hc.
Qed.

(** Typing [ls] and Enter: the first two keys arrive before the first poll. *)
Definition ls_polls : list poll :=
  (fun bytes => mk_poll bytes 0xEE old_frame idle_now) <$>
    [[(1, 0x26); (1, 0xA6); (1, 0x1F)]; [(1, 0x9F)]; [(0, 0x1C); (1, 0x1C)]; []].

Lemma main_loop_serves_witness :
  exists s a k' s' a' handled, main_loop 0x200000 ls_polls (keyboard_init keyboard_static) s = Some (k', s') /\
    session_repr [] s' a' /\ session_steps handled a a' /\ (fst <$> handled) ++ keyboard_pending k' = cstr "ls" ++ [NEWLINE].
Proof.
  destruct touched_session as (s & t & Hr). exists s, (mk_session (mk_line [] 0 false) {[cstr "note" := []]} t).
  destruct (main_loop_serves 0x200000 [] ls_polls (keyboard_init keyboard_static) s _
    (proj1 (keyboard_init_inv keyboard_static eq_refl)) Hr) as (k' & s' & a' & handled & E & _ & Hr' & Hs & Heq & _).
  - repeat apply Forall_cons_2; try apply Forall_nil_2; (split; [repeat constructor; done|exact old_frame_sized|exact idle_typed]).
  - exists k', s', a', handled. split; [exact E|]. split; [exact Hr'|]. split; [exact Hs|].
    rewrite <-Heq. reflexivity.
Defined.
